(** * alertmanager-webhook-servicenow: the ServiceNow table client

    A shallow embedding of [servicenow.go] (package main) and of the parts of
    the Go standard library it calls, followed by the properties of the client
    stated in the repository's specification.

    Go strings and byte slices are sequences of bytes: they are [string]s here,
    one [ascii] per byte.  A Go [int] that only ever holds small values (an
    HTTP status, a 6-bit group, a code point) is a [Z].  *)

From Stdlib Require Import ZArith Ascii String List Lia Bool.
From stdpp Require Import base option list strings gmap fin_maps pretty sorting.

Set Warnings "-register-all".

Local Open Scope string_scope.
Local Open Scope Z_scope.

(** ** Bytes *)

Definition byte_val (c : ascii) : Z := Z.of_N (N_of_ascii c).
Definition byte_of (z : Z) : ascii := ascii_of_N (Z.to_N (z mod 256)).

Lemma byte_val_range c : 0 <= byte_val c < 256.
Proof.
  unfold byte_val. pose proof (N_ascii_bounded c). lia.
Qed.

Lemma byte_of_val c : byte_of (byte_val c) = c.
Proof.
  unfold byte_of. pose proof (byte_val_range c) as Hc.
  rewrite Z.mod_small by lia. unfold byte_val.
  rewrite N2Z.id. apply ascii_N_embedding.
Qed.

Lemma byte_val_of z : 0 <= z < 256 -> byte_val (byte_of z) = z.
Proof.
  intros Hz. unfold byte_val, byte_of. rewrite Z.mod_small by lia.
  rewrite N_ascii_embedding by lia. lia.
Qed.

Lemma byte_val_inj c d : byte_val c = byte_val d -> c = d.
Proof.
  intros H. rewrite <- (byte_of_val c), <- (byte_of_val d). now rewrite H.
Qed.

(** The byte of the double quote. *)
Definition dquote : ascii := "034".

(** JSON texts are written below with ['] where the text has a double
    quote: [dq "{'a':1}"] is the seven bytes of the JSON object. *)
Fixpoint dq (s : string) : string :=
  match s with
  | EmptyString => EmptyString
  | String c s' => String (if Ascii.eqb c "'" then dquote else c) (dq s')
  end.

(** [between lo c hi] is the Go test ['lo' <= c && c <= 'hi'] on bytes. *)
Definition between (lo c hi : ascii) : bool :=
  (byte_val lo <=? byte_val c) && (byte_val c <=? byte_val hi).

Definition is_lower (c : ascii) : bool := between "a" c "z".
Definition is_upper (c : ascii) : bool := between "A" c "Z".
Definition is_digit (c : ascii) : bool := between "0" c "9".
Definition is_alnum (c : ascii) : bool := is_lower c || is_upper c || is_digit c.

(** [s[i]] of a byte table, [NUL] out of range (never reached below). *)
Definition index_byte (s : string) (i : Z) : ascii :=
  match String.get (Z.to_nat i) s with Some c => c | None => Ascii.zero end.

(** ** Results of fallible calls

    A Go function returning [(T, error)] is modelled, inside the library
    packages, by a sum; the functions of package main return the Go pair
    itself (see [go_pair] below), because what they put in each component is
    part of what is verified. *)

Inductive error : Type :=
  | errors_New (msg : string)
      (** [errors.New(msg)] and [fmt.Errorf] with the message formatted *)
  | url_EscapeError (s : string)
      (** [url.EscapeError]: an ill-formed percent escape *)
  | url_InvalidHostError (s : string)
      (** [url.InvalidHostError]: a byte a host name cannot hold *)
  | url_Error (op url : string) (cause : error)
      (** [*url.Error] *)
  | json_SyntaxError
      (** [*json.SyntaxError]: the text is not a JSON value *)
  | json_UnmarshalTypeError (value : string) (gotype : string)
      (** [*json.UnmarshalTypeError]: a JSON [value] that does not fit
          the Go type [gotype] *)
  | json_InvalidNumber (lit : string)
      (** [fmt.Errorf("json: invalid number literal ...")] *)
  | json_UnsupportedValue
      (** [*json.UnsupportedTypeError], [*json.UnsupportedValueError] and
          [*json.MarshalerError]: a value Marshal rejects *)
  | net_Error (msg : string)
      (** whatever the transport or the body stream reports *).

Inductive result (A : Type) : Type :=
  | Ok (a : A)
  | Err (e : error).
Arguments Ok {A} a.
Arguments Err {A} e.

Definition result_bind {A B} (r : result A) (k : A -> result B) : result B :=
  match r with Ok a => k a | Err e => Err e end.

Notation "x <-? r ; k" := (result_bind r (fun x => k))
  (at level 100, r at next level, right associativity,
   format "'[v' x  <-?  r ; '/' k ']'").

(** ** Package fmt

    The program formats with the verbs [%s] (on strings) and [%v] (on an
    [int]) only; [Sprintf] is unfolded at each call site into the
    concatenation that the format string denotes. *)
Module fmt.

Inductive arg :=
  | str (s : string)
  | int (n : Z).

(** An operand under [%s], [%v] or [%d]: a string as it is, an integer in
    decimal ([%s] on an integer does not occur in the program). *)
Definition format_arg (a : arg) : string :=
  match a with
  | str s => s
  | int n => pretty n
  end.

(** [Sprintf] for the verbs the program uses, [%s] and [%v] (and [%d],
    [%%]): each verb is replaced by the next operand; a verb with no
    operand left is written [%!v(MISSING)] as Go does.  Operands left over
    do not occur in the program and are dropped here. *)
Fixpoint Sprintf (format : string) (args : list arg) : string :=
  match format with
  | EmptyString => EmptyString
  | String c f1 =>
      if Ascii.eqb c "%" then
        match f1 with
        | String v f2 =>
            if Ascii.eqb v "%" then String "%" (Sprintf f2 args)
            else if Ascii.eqb v "s" || Ascii.eqb v "v" || Ascii.eqb v "d" then
              match args with
              | a :: args' => format_arg a +:+ Sprintf f2 args'
              | [] => "%!" +:+ String v "(MISSING)" +:+ Sprintf f2 []
              end
            else String c (Sprintf f1 args)
        | EmptyString => "%!(NOVERB)"
        end
      else String c (Sprintf f1 args)
  end.

End fmt.

(** ** Package encoding/base64 *)
Module base64.

Record Encoding := NewEncoding {
  encode : string;            (** the 64-byte alphabet *)
  padChar : option ascii      (** [NoPadding] is [None] *)
}.

Definition encodeStd :=
  "ABCDEFGHIJKLMNOPQRSTUVWXYZabcdefghijklmnopqrstuvwxyz0123456789+/".
Definition encodeURL :=
  "ABCDEFGHIJKLMNOPQRSTUVWXYZabcdefghijklmnopqrstuvwxyz0123456789-_".

Definition StdPadding : ascii := "=".

Definition StdEncoding := NewEncoding encodeStd (Some StdPadding).
Definition URLEncoding := NewEncoding encodeURL (Some StdPadding).

Definition pad (enc : Encoding) (n : nat) : string :=
  match padChar enc with
  | Some p => string_of_list_ascii (repeat p n)
  | None => ""
  end.

Definition sextet (enc : Encoding) (val : Z) (shift : Z) : ascii :=
  index_byte (encode enc) (Z.land (Z.shiftr val shift) 63).

(** [Encode]: three source bytes give four digits; a last block of one
    or two bytes gives two or three digits and the padding. *)
Fixpoint EncodeToString (enc : Encoding) (src : string) : string :=
  match src with
  | String b0 (String b1 (String b2 rest)) =>
      let val := Z.lor (Z.lor (Z.shiftl (byte_val b0) 16)
                              (Z.shiftl (byte_val b1) 8)) (byte_val b2) in
      String (sextet enc val 18) (String (sextet enc val 12)
        (String (sextet enc val 6) (String (sextet enc val 0)
          (EncodeToString enc rest))))
  | String b0 (String b1 EmptyString) =>
      let val := Z.lor (Z.shiftl (byte_val b0) 16) (Z.shiftl (byte_val b1) 8) in
      String (sextet enc val 18) (String (sextet enc val 12)
        (String (sextet enc val 6) (pad enc 1)))
  | String b0 EmptyString =>
      let val := Z.shiftl (byte_val b0) 16 in
      String (sextet enc val 18) (String (sextet enc val 12) (pad enc 2))
  | EmptyString => ""
  end.

End base64.

(** ** Package strings (the functions used by net/url and by this file) *)
Module strings.

Fixpoint IndexByte_from (i : Z) (s : string) (c : ascii) : Z :=
  match s with
  | EmptyString => -1
  | String d s' => if Ascii.eqb d c then i else IndexByte_from (i + 1) s' c
  end.

(** Index of the first [c] in [s], [-1] when there is none. *)
Definition IndexByte (s : string) (c : ascii) : Z := IndexByte_from 0 s c.

Definition ContainsByte (s : string) (c : ascii) : bool :=
  0 <=? IndexByte s c.

(** [s[:i]] up to the first [c] and [s[i:]] from it on; [None] when [c]
    does not occur. *)
Fixpoint break_at (s : string) (c : ascii) : option (string * string) :=
  match s with
  | EmptyString => None
  | String d s' =>
      if Ascii.eqb d c then Some (EmptyString, s)
      else match break_at s' c with
           | Some (l, r) => Some (String d l, r)
           | None => None
           end
  end.

(** The same at the last [c]. *)
Fixpoint break_at_last (s : string) (c : ascii) : option (string * string) :=
  match s with
  | EmptyString => None
  | String d s' =>
      match break_at_last s' c with
      | Some (l, r) => Some (String d l, r)
      | None => if Ascii.eqb d c then Some (EmptyString, s) else None
      end
  end.

(** [s[:i]] and [s[i:]] at the first occurrence of the substring [sub]. *)
Fixpoint break_at_sub (s sub : string) : option (string * string) :=
  if String.prefix sub s then Some (EmptyString, s)
  else match s with
       | EmptyString => None
       | String d s' =>
           match break_at_sub s' sub with
           | Some (l, r) => Some (String d l, r)
           | None => None
           end
       end.

Definition tail (s : string) : string :=
  match s with EmptyString => EmptyString | String _ s' => s' end.

Definition HasPrefix (s p : string) : bool := String.prefix p s.

Fixpoint Count (s : string) (c : ascii) : Z :=
  match s with
  | EmptyString => 0
  | String d s' => (if Ascii.eqb d c then 1 else 0) + Count s' c
  end.

Fixpoint last_byte (s : string) : option ascii :=
  match s with
  | EmptyString => None
  | String d EmptyString => Some d
  | String _ s' => last_byte s'
  end.

Fixpoint drop_last (s : string) : string :=
  match s with
  | EmptyString => EmptyString
  | String d EmptyString => EmptyString
  | String d s' => String d (drop_last s')
  end.

Fixpoint all (p : ascii -> bool) (s : string) : bool :=
  match s with
  | EmptyString => true
  | String d s' => p d && all p s'
  end.

Fixpoint map (f : ascii -> ascii) (s : string) : string :=
  match s with
  | EmptyString => EmptyString
  | String d s' => String (f d) (map f s')
  end.

Definition lower_byte (c : ascii) : ascii :=
  if is_upper c then byte_of (byte_val c + 32) else c.
Definition upper_byte (c : ascii) : ascii :=
  if is_lower c then byte_of (byte_val c - 32) else c.

(** [Join(elems, sep)] *)
Fixpoint Join (elems : list string) (sep : string) : string :=
  match elems with
  | [] => ""
  | [e] => e
  | e :: es => e +:+ sep +:+ Join es sep
  end.

End strings.

(** ** Package unicode/utf8 *)
Module utf8.

Definition RuneError : Z := 65533.     (* U+FFFD *)
Definition MaxRune : Z := 1114111.     (* U+10FFFF *)
Definition RuneSelf : Z := 128.

Definition cont (b : Z) : bool := (128 <=? b) && (b <=? 191).

(** [DecodeRuneInString]: the first code point of [s] and its width in
    bytes; [(RuneError, 1)] on an ill-formed sequence, [(RuneError, 0)]
    on the empty string.  The leading byte selects the width and the range
    accepted for the second byte (tables [first] and [acceptRanges]). *)
Definition DecodeRuneInString (s : string) : Z * nat :=
  match s with
  | EmptyString => (RuneError, 0%nat)
  | String c0 s1 =>
      let p0 := byte_val c0 in
      if p0 <? 128 then (p0, 1%nat)
      else if (p0 <? 194) || (244 <? p0) then (RuneError, 1%nat)
      else
        let sz : nat := if p0 <? 224 then 2%nat else if p0 <? 240 then 3%nat else 4%nat in
        let lo := if p0 =? 224 then 160 else if p0 =? 240 then 144 else 128 in
        let hi := if p0 =? 237 then 159 else if p0 =? 244 then 143 else 191 in
        match s1 with
        | EmptyString => (RuneError, 1%nat)
        | String c1 s2 =>
            let b1 := byte_val c1 in
            if (b1 <? lo) || (hi <? b1) then (RuneError, 1%nat)
            else match sz with
                 | 2%nat => (Z.lor (Z.shiftl (Z.land p0 31) 6) (Z.land b1 63), 2%nat)
                 | _ =>
                   match s2 with
                   | EmptyString => (RuneError, 1%nat)
                   | String c2 s3 =>
                       let b2 := byte_val c2 in
                       if negb (cont b2) then (RuneError, 1%nat)
                       else match sz with
                            | 3%nat =>
                                (Z.lor (Z.lor (Z.shiftl (Z.land p0 15) 12)
                                              (Z.shiftl (Z.land b1 63) 6))
                                       (Z.land b2 63), 3%nat)
                            | _ =>
                              match s3 with
                              | EmptyString => (RuneError, 1%nat)
                              | String c3 _ =>
                                  let b3 := byte_val c3 in
                                  if negb (cont b3) then (RuneError, 1%nat)
                                  else
                                    (Z.lor (Z.lor (Z.lor (Z.shiftl (Z.land p0 7) 18)
                                                         (Z.shiftl (Z.land b1 63) 12))
                                                  (Z.shiftl (Z.land b2 63) 6))
                                           (Z.land b3 63), 4%nat)
                              end
                            end
                   end
                 end
        end
  end.

Definition bytes (l : list Z) : string :=
  string_of_list_ascii (List.map byte_of l).

(** [EncodeRune]: surrogates and values beyond [MaxRune] are written as
    [RuneError]. *)
Definition EncodeRune (r : Z) : string :=
  let three (r : Z) :=
    bytes [Z.lor 224 (Z.shiftr r 12);
           Z.lor 128 (Z.land (Z.shiftr r 6) 63);
           Z.lor 128 (Z.land r 63)] in
  if (r <? 0) then three RuneError
  else if r <=? 127 then bytes [r]
  else if r <=? 2047 then
    bytes [Z.lor 192 (Z.shiftr r 6); Z.lor 128 (Z.land r 63)]
  else if (MaxRune <? r) || ((55296 <=? r) && (r <=? 57343)) then three RuneError
  else if r <=? 65535 then three r
  else
    bytes [Z.lor 240 (Z.shiftr r 18);
           Z.lor 128 (Z.land (Z.shiftr r 12) 63);
           Z.lor 128 (Z.land (Z.shiftr r 6) 63);
           Z.lor 128 (Z.land r 63)].

End utf8.

(** ** Package net/url *)
Module url.

Inductive encoding :=
  | encodePath | encodePathSegment | encodeHost | encodeZone
  | encodeUserPassword | encodeQueryComponent | encodeFragment.

Definition encoding_eqb (a b : encoding) : bool :=
  match a, b with
  | encodePath, encodePath | encodePathSegment, encodePathSegment
  | encodeHost, encodeHost | encodeZone, encodeZone
  | encodeUserPassword, encodeUserPassword
  | encodeQueryComponent, encodeQueryComponent
  | encodeFragment, encodeFragment => true
  | _, _ => false
  end.

Definition byte_in (c : ascii) (set : string) : bool :=
  strings.ContainsByte set c.

Definition ishex (c : ascii) : bool :=
  is_digit c || between "a" c "f" || between "A" c "F".

Definition unhex (c : ascii) : Z :=
  if is_digit c then byte_val c - 48
  else if between "a" c "f" then byte_val c - 97 + 10
  else if between "A" c "F" then byte_val c - 65 + 10
  else 0.

Definition upperhex := "0123456789ABCDEF".

(** [shouldEscape]: whether byte [c] must be percent-escaped when it
    appears in the part of a URL that [mode] designates. *)
Definition shouldEscape (c : ascii) (mode : encoding) : bool :=
  if is_alnum c then false
  else if (encoding_eqb mode encodeHost || encoding_eqb mode encodeZone)
          && (byte_in c "!$&'()*+,;=:[]<>" || Ascii.eqb c dquote) then false
  else if byte_in c "-_.~" then false
  else if byte_in c "$&+,/:;=?@" then
    match mode with
    | encodePath => Ascii.eqb c "?"
    | encodePathSegment => byte_in c "/;,?"
    | encodeUserPassword => byte_in c "@/?:"
    | encodeQueryComponent => true
    | encodeFragment => false
    | encodeHost | encodeZone => true
    end
  else if encoding_eqb mode encodeFragment && byte_in c "!()*" then false
  else true.

Definition take3 (s : string) : string := String.substring 0 3 s.

(** [unescape]: percent-decoding, [+] read as a space in a query component.
    Go validates the whole string and then rewrites it; the single pass
    below meets the same first error and builds the same string. *)
Fixpoint unescape (s : string) (mode : encoding) : result string :=
  match s with
  | EmptyString => Ok EmptyString
  | String c s1 =>
      if Ascii.eqb c "%" then
        match s1 with
        | String h1 (String h2 rest) =>
            if negb (ishex h1 && ishex h2) then Err (url_EscapeError (take3 s))
            else if encoding_eqb mode encodeHost && (unhex h1 <? 8)
                    && negb (String.eqb (take3 s) "%25")
            then Err (url_EscapeError (take3 s))
            else
              let v := byte_of (Z.lor (Z.shiftl (unhex h1) 4) (unhex h2)) in
              if encoding_eqb mode encodeZone
                 && negb (String.eqb (take3 s) "%25")
                 && negb (Ascii.eqb v " ") && shouldEscape v encodeHost
              then Err (url_EscapeError (take3 s))
              else t <-? unescape rest mode; Ok (String v t)
        | _ => Err (url_EscapeError (take3 s))
        end
      else if Ascii.eqb c "+" then
        t <-? unescape s1 mode;
        Ok (String (if encoding_eqb mode encodeQueryComponent then " "%char else "+"%char) t)
      else if (encoding_eqb mode encodeHost || encoding_eqb mode encodeZone)
              && (byte_val c <? 128) && shouldEscape c encodeHost
      then Err (url_InvalidHostError (String c EmptyString))
      else t <-? unescape s1 mode; Ok (String c t)
  end.

(** [escape]: a space becomes [+] in a query component; every other byte
    that [shouldEscape] names becomes [%XX], upper-case. *)
Definition escape_byte (c : ascii) (mode : encoding) : string :=
  if Ascii.eqb c " " && encoding_eqb mode encodeQueryComponent then "+"
  else if shouldEscape c mode then
    String "%" (String (index_byte upperhex (Z.shiftr (byte_val c) 4))
               (String (index_byte upperhex (Z.land (byte_val c) 15)) EmptyString))
  else String c EmptyString.

Fixpoint escape (s : string) (mode : encoding) : string :=
  match s with
  | EmptyString => EmptyString
  | String c s' => escape_byte c mode +:+ escape s' mode
  end.

Definition QueryEscape (s : string) : string := escape s encodeQueryComponent.
Definition QueryUnescape (s : string) : result string := unescape s encodeQueryComponent.

Record Userinfo := {
  username : string;
  password : string;
  passwordSet : bool
}.

Record URL := {
  Scheme : string;
  Opaque : string;
  User : option Userinfo;
  Host : string;
  Path : string;
  RawPath : string;
  ForceQuery : bool;
  RawQuery : string;
  Fragment : string
}.

Definition new_URL : URL :=
  {| Scheme := ""; Opaque := ""; User := None; Host := ""; Path := "";
     RawPath := ""; ForceQuery := false; RawQuery := ""; Fragment := "" |}.

Definition set_RawQuery (u : URL) (q : string) : URL :=
  {| Scheme := Scheme u; Opaque := Opaque u; User := User u; Host := Host u;
     Path := Path u; RawPath := RawPath u; ForceQuery := ForceQuery u;
     RawQuery := q; Fragment := Fragment u |}.

Definition set_Host (u : URL) (h : string) : URL :=
  {| Scheme := Scheme u; Opaque := Opaque u; User := User u; Host := h;
     Path := Path u; RawPath := RawPath u; ForceQuery := ForceQuery u;
     RawQuery := RawQuery u; Fragment := Fragment u |}.

Definition set_Fragment (u : URL) (f : string) : URL :=
  {| Scheme := Scheme u; Opaque := Opaque u; User := User u; Host := Host u;
     Path := Path u; RawPath := RawPath u; ForceQuery := ForceQuery u;
     RawQuery := RawQuery u; Fragment := f |}.

(** [split(s, sep, cutc)]: the two sides of the first [sep], which is left
    out when [cutc] and kept at the head of the second part otherwise. *)
Definition split (s : string) (sep : ascii) (cutc : bool) : string * string :=
  match strings.break_at s sep with
  | None => (s, "")
  | Some (l, r) => if cutc then (l, strings.tail r) else (l, r)
  end.

(** [getscheme]: [(scheme, rest)] at the first [:], provided only scheme
    bytes come before it. *)
Fixpoint getscheme_from (i : nat) (s rawurl : string) : result (string * string) :=
  match s with
  | EmptyString => Ok ("", rawurl)
  | String c s' =>
      if is_lower c || is_upper c then getscheme_from (S i) s' rawurl
      else if is_digit c || byte_in c "+-." then
        match i with
        | O => Ok ("", rawurl)
        | _ => getscheme_from (S i) s' rawurl
        end
      else if Ascii.eqb c ":" then
        match i with
        | O => Err (errors_New "missing protocol scheme")
        | _ => Ok (String.substring 0 i rawurl, s')
        end
      else Ok ("", rawurl)
  end.

Definition getscheme (rawurl : string) : result (string * string) :=
  getscheme_from 0 rawurl rawurl.

Definition stringContainsCTLByte (s : string) : bool :=
  negb (strings.all (fun c => negb ((byte_val c <? 32) || (byte_val c =? 127))) s).

Definition validOptionalPort (port : string) : bool :=
  match port with
  | EmptyString => true
  | String c digits => Ascii.eqb c ":" && strings.all is_digit digits
  end.

Definition validUserinfo (s : string) : bool :=
  strings.all (fun c => is_alnum c || byte_in c "-._:~!$&'()*+,;=%@") s.

(** [parseHost]: an IP literal in brackets, possibly with a zone, or a
    name; an optional port in both cases. *)
Definition parseHost (host : string) : result string :=
  let plain := unescape host encodeHost in
  if strings.HasPrefix host "[" then
    match strings.break_at_last host "]" with
    | None => Err (errors_New "missing ']' in host")
    | Some (upto, from) =>                (* host[:i], host[i:] *)
        let colonPort := strings.tail from in
        if negb (validOptionalPort colonPort) then
          Err (errors_New ("invalid port " +:+ colonPort +:+ " after host"))
        else
          match strings.break_at_sub upto "%25" with
          | Some (before, zone) =>        (* host[:zone], host[zone:i] *)
              host1 <-? unescape before encodeHost;
              host2 <-? unescape zone encodeZone;
              host3 <-? unescape from encodeHost;
              Ok (host1 +:+ host2 +:+ host3)
          | None => plain
          end
    end
  else
    match strings.break_at_last host ":" with
    | Some (_, colonPort) =>
        if negb (validOptionalPort colonPort) then
          Err (errors_New ("invalid port " +:+ colonPort +:+ " after host"))
        else plain
    | None => plain
    end.

Definition parseAuthority (authority : string) : result (option Userinfo * string) :=
  match strings.break_at_last authority "@" with
  | None =>
      host <-? parseHost authority;
      Ok (None, host)
  | Some (userinfo, from) =>
      host <-? parseHost (strings.tail from);
      if negb (validUserinfo userinfo) then Err (errors_New "net/url: invalid userinfo")
      else if negb (strings.ContainsByte userinfo ":") then
        u <-? unescape userinfo encodeUserPassword;
        Ok (Some {| username := u; password := ""; passwordSet := false |}, host)
      else
        let (name, pass) := split userinfo ":" true in
        u <-? unescape name encodeUserPassword;
        pw <-? unescape pass encodeUserPassword;
        Ok (Some {| username := u; password := pw; passwordSet := true |}, host)
  end.

(** [setPath]: [Path] is the decoded path; [RawPath] keeps the original
    spelling when it is not the default encoding of [Path]. *)
Definition setPath (u : URL) (p : string) : result URL :=
  path <-? unescape p encodePath;
  let raw := if String.eqb p (escape path encodePath) then "" else p in
  Ok {| Scheme := Scheme u; Opaque := Opaque u; User := User u; Host := Host u;
        Path := path; RawPath := raw; ForceQuery := ForceQuery u;
        RawQuery := RawQuery u; Fragment := Fragment u |}.

(** [parse(rawurl, viaRequest)], without the fragment. *)
Definition parse (rawurl : string) (viaRequest : bool) : result URL :=
  if stringContainsCTLByte rawurl then
    Err (errors_New "net/url: invalid control character in URL")
  else if String.eqb rawurl "" && viaRequest then Err (errors_New "empty url")
  else if String.eqb rawurl "*" then
    Ok {| Scheme := ""; Opaque := ""; User := None; Host := ""; Path := "*";
          RawPath := ""; ForceQuery := false; RawQuery := ""; Fragment := "" |}
  else
    sr <-? getscheme rawurl;
    let scheme := strings.map strings.lower_byte (fst sr) in
    let rest0 := snd sr in
    let force := match strings.last_byte rest0 with
                 | Some c => Ascii.eqb c "?" && (strings.Count rest0 "?" =? 1)
                 | None => false
                 end in
    let (rest, rawquery) :=
      if force then (strings.drop_last rest0, "") else split rest0 "?" true in
    let url := {| Scheme := scheme; Opaque := ""; User := None; Host := "";
                  Path := ""; RawPath := ""; ForceQuery := force;
                  RawQuery := rawquery; Fragment := "" |} in
    let rootless := negb (strings.HasPrefix rest "/") in
    if rootless && negb (String.eqb scheme "") then
      Ok {| Scheme := scheme; Opaque := rest; User := None; Host := "";
            Path := ""; RawPath := ""; ForceQuery := force;
            RawQuery := rawquery; Fragment := "" |}
    else if rootless && viaRequest then Err (errors_New "invalid URI for request")
    else if rootless
            && (let colon := strings.IndexByte rest ":" in
                let slash := strings.IndexByte rest "/" in
                (0 <=? colon) && ((slash <? 0) || (colon <? slash)))
    then Err (errors_New "first path segment in URL cannot contain colon")
    else if (negb (String.eqb scheme "")
             || (negb viaRequest && negb (strings.HasPrefix rest "///")))
            && strings.HasPrefix rest "//"
    then
      let (authority, rest') := split (strings.tail (strings.tail rest)) "/" false in
      uh <-? parseAuthority authority;
      setPath {| Scheme := scheme; Opaque := ""; User := fst uh; Host := snd uh;
                 Path := ""; RawPath := ""; ForceQuery := force;
                 RawQuery := rawquery; Fragment := "" |} rest'
    else setPath url rest.

(** [Parse(rawurl)] *)
Definition Parse (rawurl : string) : result URL :=
  let (u, frag) := split rawurl "#" true in
  match parse u false with
  | Err e => Err (url_Error "parse" u e)
  | Ok url =>
      if String.eqb frag "" then Ok url
      else match unescape frag encodeFragment with
           | Err e => Err (url_Error "parse" rawurl e)
           | Ok f => Ok (set_Fragment url f)
           end
  end.

(** *** Query values: [type Values map[string][]string] *)

(** The order of [sort.Strings]: bytewise lexicographic. *)
Definition string_le : relation string := fun s t => String.leb s t = true.

#[global] Instance string_le_dec s t : Decision (string_le s t).
Proof. unfold string_le. apply _. Defined.

Definition Values_get (v : gmap string (list string)) (key : string) : list string :=
  default [] (v !! key).

(** [v.Add(key, value)]: [v[key] = append(v[key], value)] *)
Definition Add (v : gmap string (list string)) (key value : string)
  : gmap string (list string) :=
  <[key := (Values_get v key ++ [value])%list]> v.

(** The pieces of [s] between the bytes that [sep] holds. *)
Fixpoint pieces (sep : ascii -> bool) (s : string) : list string :=
  match s with
  | EmptyString => [EmptyString]
  | String c s' =>
      if sep c then EmptyString :: pieces sep s'
      else match pieces sep s' with
           | p :: ps => String c p :: ps
           | [] => [String c EmptyString]
           end
  end.

(** One iteration of [parseQuery]'s loop, on the piece [key] of the query:
    empty pieces and ill-formed ones are passed over. *)
Definition parseQuery_step (m : gmap string (list string)) (key : string)
  : gmap string (list string) :=
  if String.eqb key "" then m
  else
    let (k, value) := split key "=" true in
    match QueryUnescape k with
    | Err _ => m
    | Ok k1 =>
        match QueryUnescape value with
        | Err _ => m
        | Ok v1 => Add m k1 v1
        end
    end.

(** [u.Query()]: [ParseQuery(u.RawQuery)] with its error dropped.  The
    pairs are separated by [&] or [;]. *)
Definition ParseQuery_values (query : string) : gmap string (list string) :=
  foldl parseQuery_step ∅ (pieces (fun c => Ascii.eqb c "&" || Ascii.eqb c ";") query).

Definition Query (u : URL) : gmap string (list string) :=
  ParseQuery_values (RawQuery u).

Definition sorted_keys (v : gmap string (list string)) : list string :=
  merge_sort string_le (fst <$> map_to_list v).

(** The body of [Encode]'s inner loop: one [key=value], after an [&] unless
    the buffer is still empty. *)
Definition Encode_write (keyEscaped : string) (buf : string) (value : string) : string :=
  (if String.eqb buf "" then buf else buf +:+ "&")
    +:+ keyEscaped +:+ "=" +:+ QueryEscape value.

(** [v.Encode()]: the keys in sorted order, the values of a key in the order
    they were added. *)
Definition Encode (v : gmap string (list string)) : string :=
  foldl (fun buf k => foldl (Encode_write (QueryEscape k)) buf (Values_get v k))
        "" (sorted_keys v).

End url.


(** ** Parameters of the Go library

    Floating point is outside this development: the [float64] that
    encoding/json stores in an [interface{}] for a JSON number, and the two
    conversions of package strconv between such a value and its text, are
    parameters.  So is one change of behaviour between Go releases that the
    program was built with: since Go 1.14 a quoted string is accepted for a
    [json.Number] only when it is a number literal; before, any string was. *)
Class GoLibrary := {
  float64 : Type;
  ParseFloat : string -> option float64;
    (** [strconv.ParseFloat(s, 64)] on a JSON number literal; [None] when
        the value is out of range *)
  FormatFloat : float64 -> option string;
    (** the digits encoding/json writes for a float; [None] for a NaN or
        an infinity, which Marshal rejects *)
  strictNumber : bool
    (** [true]: Go 1.14 and later *)
}.

(** ** Package encoding/json: values and their text *)
Module json.

(** A JSON text, parsed: number literals are kept as written, strings are
    unquoted, object members keep their order and their duplicates. *)
Inductive value : Type :=
  | JNull
  | JBool (b : bool)
  | JNumber (lit : string)
  | JString (s : string)
  | JArray (elems : list value)
  | JObject (members : list (string * value)).

(** [type Number string] *)
Definition Number := string.

Fixpoint skip_digits (s : string) : string :=
  match s with
  | String c s' => if is_digit c then skip_digits s' else s
  | EmptyString => s
  end.

(** [isValidNumber]: the number grammar of RFC 7159. *)
Definition isValidNumber (s : string) : bool :=
  match s with
  | EmptyString => false
  | String c0 _ =>
      let s1 := if Ascii.eqb c0 "-" then strings.tail s else s in
      match s1 with
      | EmptyString => false
      | String d s2 =>
          if negb (is_digit d) then false
          else
            let s3 := if Ascii.eqb d "0" then s2 else skip_digits s2 in
            let s4 := match s3 with
                      | String p (String q r) =>
                          if Ascii.eqb p "." && is_digit q then skip_digits r else s3
                      | _ => s3
                      end in
            let s5 := match s4 with
                      | String e (String q r) =>
                          if Ascii.eqb e "e" || Ascii.eqb e "E" then
                            if Ascii.eqb q "+" || Ascii.eqb q "-" then
                              match r with
                              | EmptyString => None
                              | _ => Some (skip_digits r)
                              end
                            else Some (skip_digits (String q r))
                          else Some s4
                      | _ => Some s4
                      end in
            match s5 with
            | Some EmptyString => true
            | _ => false
            end
      end
  end.

(** *** Reading a text *)

Definition isSpace (c : ascii) : bool :=
  Ascii.eqb c " " || (byte_val c =? 9) || (byte_val c =? 13) || (byte_val c =? 10).

Fixpoint skip_space (s : string) : string :=
  match s with
  | String c s' => if isSpace c then skip_space s' else s
  | EmptyString => s
  end.

(** The longest number literal at the head of [s], and what follows it. *)
Definition scan_number (s : string) : option (string * string) :=
  let after_sign := match s with
                    | String c s' => if Ascii.eqb c "-" then s' else s
                    | EmptyString => s
                    end in
  match after_sign with
  | String d s2 =>
      if negb (is_digit d) then None
      else
        let s3 := if Ascii.eqb d "0" then s2 else skip_digits s2 in
        let frac :=
          match s3 with
          | String p s4 =>
              if Ascii.eqb p "." then
                match s4 with
                | String q r => if is_digit q then Some (skip_digits r) else None
                | EmptyString => None
                end
              else Some s3
          | EmptyString => Some s3
          end in
        match frac with
        | None => None
        | Some s5 =>
            let exp :=
              match s5 with
              | String e s6 =>
                  if Ascii.eqb e "e" || Ascii.eqb e "E" then
                    let s7 := match s6 with
                              | String q r =>
                                  if Ascii.eqb q "+" || Ascii.eqb q "-" then r else s6
                              | EmptyString => s6
                              end in
                    match s7 with
                    | String q r => if is_digit q then Some (skip_digits r) else None
                    | EmptyString => None
                    end
                  else Some s5
              | EmptyString => Some s5
              end in
            match exp with
            | None => None
            | Some rest =>
                Some (String.substring 0 (String.length s - String.length rest) s, rest)
            end
        end
  | EmptyString => None
  end.

Definition hex4 (s : string) : option Z :=
  match s with
  | String a (String b (String c (String d _))) =>
      if url.ishex a && url.ishex b && url.ishex c && url.ishex d then
        Some (Z.lor (Z.lor (Z.lor (Z.shiftl (url.unhex a) 12) (Z.shiftl (url.unhex b) 8))
                           (Z.shiftl (url.unhex c) 4)) (url.unhex d))
      else None
  | _ => None
  end.

(** [getu4]: the code unit of a [\uXXXX] at the head of [s], [-1] when
    [s] does not start with one. *)
Definition getu4 (s : string) : Z :=
  match s with
  | String b (String u r) =>
      if Ascii.eqb b "\" && Ascii.eqb u "u" then default (-1) (hex4 r) else -1
  | _ => -1
  end.

(** The scanner inside a string literal, after the opening quote: the raw
    bytes up to the closing quote, and the text after it.  A control byte,
    an unknown escape and a truncated [\u] are syntax errors. *)
Fixpoint scan_string (s : string) : option (string * string) :=
  match s with
  | EmptyString => None
  | String c s1 =>
      if Ascii.eqb c dquote then Some (EmptyString, s1)
      else if byte_val c <? 32 then None
      else if Ascii.eqb c "\" then
        match s1 with
        | String e s2 =>
            if url.byte_in e "bfnrt\/" || Ascii.eqb e dquote then
              match scan_string s2 with
              | Some (raw, rest) => Some (String c (String e raw), rest)
              | None => None
              end
            else if Ascii.eqb e "u" then
              match hex4 s2, s2 with
              | Some _, String h1 (String h2 (String h3 (String h4 s3))) =>
                  match scan_string s3 with
                  | Some (raw, rest) =>
                      Some (String c (String e (String h1 (String h2
                              (String h3 (String h4 raw))))), rest)
                  | None => None
                  end
              | _, _ => None
              end
            else None
        | EmptyString => None
        end
      else
        match scan_string s1 with
        | Some (raw, rest) => Some (String c raw, rest)
        | None => None
        end
  end.

Fixpoint drop (n : nat) (s : string) : string :=
  match n, s with
  | S n', String _ s' => drop n' s'
  | _, _ => s
  end.

(** [utf16.DecodeRune]: the code point of a surrogate pair, U+FFFD when
    the two units are not one. *)
Definition utf16_DecodeRune (r1 r2 : Z) : Z :=
  if (55296 <=? r1) && (r1 <? 56320) && (56320 <=? r2) && (r2 <? 57344)
  then Z.lor (Z.shiftl (r1 - 55296) 10) (r2 - 56320) + 65536
  else utf8.RuneError.

Definition utf16_IsSurrogate (r : Z) : bool := (55296 <=? r) && (r <? 57344).

Definition unescape_byte (e : ascii) : ascii :=
  if Ascii.eqb e "b" then byte_of 8
  else if Ascii.eqb e "f" then byte_of 12
  else if Ascii.eqb e "n" then byte_of 10
  else if Ascii.eqb e "r" then byte_of 13
  else if Ascii.eqb e "t" then byte_of 9
  else e.

(** [unquote]: the Go string that the raw bytes of a literal denote.
    Escapes are replaced, a lone surrogate and an ill-formed UTF-8 sequence
    become U+FFFD.  [fuel] bounds the number of steps; the length of [s]
    is enough, each step consuming a byte or more. *)
Fixpoint unquote_fuel (fuel : nat) (s : string) : string :=
  match fuel with
  | O => EmptyString
  | S n =>
      match s with
      | EmptyString => EmptyString
      | String c s1 =>
          if Ascii.eqb c "\" then
            match s1 with
            | String e s2 =>
                if Ascii.eqb e "u" then
                  let rr := getu4 s in
                  let s3 := drop 4 s2 in
                  if utf16_IsSurrogate rr then
                    let dec := utf16_DecodeRune rr (getu4 s3) in
                    if negb (dec =? utf8.RuneError)
                    then utf8.EncodeRune dec +:+ unquote_fuel n (drop 6 s3)
                    else utf8.EncodeRune utf8.RuneError +:+ unquote_fuel n s3
                  else utf8.EncodeRune rr +:+ unquote_fuel n s3
                else String (unescape_byte e) (unquote_fuel n s2)
            | EmptyString => EmptyString
            end
          else if byte_val c <? utf8.RuneSelf then String c (unquote_fuel n s1)
          else
            let (rr, size) := utf8.DecodeRuneInString s in
            utf8.EncodeRune rr +:+ unquote_fuel n (drop size s)
      end
  end.

Definition unquote (raw : string) : string := unquote_fuel (String.length raw) raw.

Definition maxNestingDepth : Z := 10000.

Definition literal (word : string) (v : value) (s : string) : option (value * string) :=
  if String.prefix word s then Some (v, drop (String.length word) s) else None.

(** One value at the head of [s] (leading space allowed), and the rest.
    [depth] counts the arrays and objects that are open. *)
Fixpoint scan_value (fuel : nat) (depth : Z) (s : string) : option (value * string) :=
  match fuel with
  | O => None
  | S n =>
      match skip_space s with
      | EmptyString => None
      | String c s1 as s0 =>
          if Ascii.eqb c "{" then
            if maxNestingDepth <? depth + 1 then None
            else match skip_space s1 with
                 | String d s2 =>
                     if Ascii.eqb d "}" then Some (JObject [], s2)
                     else match scan_members n (depth + 1) s1 with
                          | Some (ms, rest) => Some (JObject ms, rest)
                          | None => None
                          end
                 | EmptyString => None
                 end
          else if Ascii.eqb c "[" then
            if maxNestingDepth <? depth + 1 then None
            else match skip_space s1 with
                 | String d s2 =>
                     if Ascii.eqb d "]" then Some (JArray [], s2)
                     else match scan_elems n (depth + 1) s1 with
                          | Some (vs, rest) => Some (JArray vs, rest)
                          | None => None
                          end
                 | EmptyString => None
                 end
          else if Ascii.eqb c dquote then
            match scan_string s1 with
            | Some (raw, rest) => Some (JString (unquote raw), rest)
            | None => None
            end
          else if Ascii.eqb c "t" then literal "true" (JBool true) s0
          else if Ascii.eqb c "f" then literal "false" (JBool false) s0
          else if Ascii.eqb c "n" then literal "null" JNull s0
          else match scan_number s0 with
               | Some (lit, rest) => Some (JNumber lit, rest)
               | None => None
               end
      end
  end

(** The elements of an array after its [[], up to and including its []]. *)
with scan_elems (fuel : nat) (depth : Z) (s : string) : option (list value * string) :=
  match fuel with
  | O => None
  | S n =>
      match scan_value n depth s with
      | None => None
      | Some (v, rest) =>
          match skip_space rest with
          | String c rest1 =>
              if Ascii.eqb c "]" then Some ([v], rest1)
              else if Ascii.eqb c "," then
                match scan_elems n depth rest1 with
                | Some (vs, rest2) => Some (v :: vs, rest2)
                | None => None
                end
              else None
          | EmptyString => None
          end
      end
  end

(** The members of an object after its [{], up to and including its [}]. *)
with scan_members (fuel : nat) (depth : Z) (s : string)
  : option (list (string * value) * string) :=
  match fuel with
  | O => None
  | S n =>
      match skip_space s with
      | String q s1 =>
          if negb (Ascii.eqb q dquote) then None
          else match scan_string s1 with
               | None => None
               | Some (raw, rest) =>
                   match skip_space rest with
                   | String colon rest1 =>
                       if negb (Ascii.eqb colon ":") then None
                       else match scan_value n depth rest1 with
                            | None => None
                            | Some (v, rest2) =>
                                match skip_space rest2 with
                                | String c rest3 =>
                                    if Ascii.eqb c "}" then Some ([(unquote raw, v)], rest3)
                                    else if Ascii.eqb c "," then
                                      match scan_members n depth rest3 with
                                      | Some (ms, rest4) => Some ((unquote raw, v) :: ms, rest4)
                                      | None => None
                                      end
                                    else None
                                | EmptyString => None
                                end
                            end
                   | EmptyString => None
                   end
               end
      | EmptyString => None
      end
  end.

(** [checkValid] and the reading of the text in one: [Some v] exactly for
    the texts that are one JSON value between optional space.  The nesting
    of a text is less than its length, so the fuel never runs out first. *)
Definition parse (data : string) : option value :=
  match scan_value (2 * String.length data + 2) 0 data with
  | Some (v, rest) =>
      match skip_space rest with
      | EmptyString => Some v
      | _ => None
      end
  | None => None
  end.

(** *** Writing a text *)

Definition hex := "0123456789abcdef".

(** [htmlSafeSet]: the ASCII bytes written as they are. *)
Definition htmlSafe (c : ascii) : bool :=
  (32 <=? byte_val c) && (byte_val c <? 128)
  && negb (Ascii.eqb c dquote || url.byte_in c "&<>\").

Definition escape_ascii (c : ascii) : string :=
  if Ascii.eqb c "\" || Ascii.eqb c dquote then String "\" (String c EmptyString)
  else if byte_val c =? 10 then "\n"
  else if byte_val c =? 13 then "\r"
  else if byte_val c =? 9 then "\t"
  else "\u00" +:+ String (index_byte hex (Z.shiftr (byte_val c) 4))
                     (String (index_byte hex (Z.land (byte_val c) 15)) EmptyString).

(** The inside of a string literal, as [encodeState.string] writes it with
    HTML escaping on (the default of [Marshal]): [<], [>], [&], the control
    bytes, U+2028 and U+2029 are escaped, ill-formed UTF-8 becomes U+FFFD. *)
Fixpoint quote_fuel (fuel : nat) (s : string) : string :=
  match fuel with
  | O => EmptyString
  | S n =>
      match s with
      | EmptyString => EmptyString
      | String c s1 =>
          if byte_val c <? utf8.RuneSelf then
            (if htmlSafe c then String c EmptyString else escape_ascii c)
              +:+ quote_fuel n s1
          else
            let (r, size) := utf8.DecodeRuneInString s in
            if (r =? utf8.RuneError) && (Nat.eqb size 1) then "\ufffd" +:+ quote_fuel n s1
            else if (r =? 8232) || (r =? 8233) then
              "\u202" +:+ String (index_byte hex (Z.land r 15)) (quote_fuel n (drop size s))
            else String.substring 0 size s +:+ quote_fuel n (drop size s)
      end
  end.

Definition quote (s : string) : string :=
  String dquote (quote_fuel (String.length s) s) +:+ String dquote EmptyString.

(** The compact text of a value. *)
Fixpoint render (v : value) : string :=
  match v with
  | JNull => "null"
  | JBool true => "true"
  | JBool false => "false"
  | JNumber lit => lit
  | JString s => quote s
  | JArray elems =>
      "[" +:+ strings.Join ((fix each (l : list value) : list string :=
                              match l with
                              | [] => []
                              | e :: l' => render e :: each l'
                              end) elems) "," +:+ "]"
  | JObject members =>
      "{" +:+ strings.Join ((fix each (l : list (string * value)) : list string :=
                              match l with
                              | [] => []
                              | (k, e) :: l' => (quote k +:+ ":" +:+ render e) :: each l'
                              end) members) "," +:+ "}"
  end.

(** *** Matching an object key with a field name

    A key selects the field whose name it equals, or else the first field
    whose name it equals up to case ([foldFunc] picks the comparison from
    the bytes of the field name). *)

Definition caseMask (c : ascii) : Z := Z.land (byte_val c) 223.

Definition is_letter (c : ascii) : bool := is_lower c || is_upper c.
Definition upper_is_letter (c : ascii) : bool :=
  (65 <=? caseMask c) && (caseMask c <=? 90).

Definition kelvin : Z := 8490.          (* U+212A *)
Definition smallLongEss : Z := 383.     (* U+017F *)

(** [s] is a field name holding [k] or [s]; the key [t] may spell them
    with the Kelvin sign and the long s. *)
Fixpoint equalFoldRight (s t : string) : bool :=
  match s with
  | EmptyString => match t with EmptyString => true | _ => false end
  | String sb s' =>
      match t with
      | EmptyString => false
      | String tb t' =>
          if byte_val tb <? utf8.RuneSelf then
            if Ascii.eqb sb tb then equalFoldRight s' t'
            else if upper_is_letter sb && (caseMask sb =? caseMask tb)
                 then equalFoldRight s' t'
                 else false
          else
            let (tr, size) := utf8.DecodeRuneInString t in
            if ((Ascii.eqb sb "s" || Ascii.eqb sb "S") && (tr =? smallLongEss))
               || ((Ascii.eqb sb "k" || Ascii.eqb sb "K") && (tr =? kelvin))
            then equalFoldRight s' (drop size t)
            else false
      end
  end.

Fixpoint asciiEqualFold (s t : string) : bool :=
  match s, t with
  | EmptyString, EmptyString => true
  | String sb s', String tb t' =>
      if Ascii.eqb sb tb then asciiEqualFold s' t'
      else if is_letter sb && (caseMask sb =? caseMask tb) then asciiEqualFold s' t'
      else false
  | _, _ => false
  end.

Fixpoint simpleLetterEqualFold (s t : string) : bool :=
  match s, t with
  | EmptyString, EmptyString => true
  | String sb s', String tb t' =>
      (caseMask sb =? caseMask tb) && simpleLetterEqualFold s' t'
  | _, _ => false
  end.

(** [foldFunc(name)] applied: the field names of this program are ASCII,
    for which [bytes.EqualFold] is never chosen. *)
Definition equalFold (name key : string) : bool :=
  let special := negb (strings.all (fun b => negb ((caseMask b =? 75) || (caseMask b =? 83))) name) in
  let nonLetter := negb (strings.all upper_is_letter name) in
  if special then equalFoldRight name key
  else if nonLetter then asciiEqualFold name key
  else simpleLetterEqualFold name key.

(** The field that [key] selects among [names], by position. *)
Fixpoint find_field_from (i : nat) (found : option nat) (names : list string) (key : string)
  : option nat :=
  match names with
  | [] => found
  | name :: rest =>
      if String.eqb name key then Some i
      else find_field_from (S i)
             (match found with
              | None => if equalFold name key then Some i else None
              | Some _ => found
              end) rest key
  end.

Definition find_field (names : list string) (key : string) : option nat :=
  find_field_from 0 None names key.

(** *** The decoder's state

    A value that does not fit its target is reported at the end and the
    decoding goes on ([saveError] keeps the first such report); a failure
    returned as an error stops it at once. *)
Definition decoder (A : Type) : Type := option error -> result (A * option error).

Definition dret {A} (a : A) : decoder A := fun saved => Ok (a, saved).

Definition dbind {A B} (m : decoder A) (k : A -> decoder B) : decoder B :=
  fun saved => match m saved with
               | Ok (a, saved') => k a saved'
               | Err e => Err e
               end.

Definition saveError (e : error) : decoder unit :=
  fun saved => Ok (tt, match saved with None => Some e | Some _ => saved end).

Definition abort {A} (e : error) : decoder A := fun _ => Err e.

(** The error of [Unmarshal]: the one that stopped the decoding, or else
    the first one saved. *)
Definition finish {A} (zero : A) (m : decoder A) : A * option error :=
  match m None with
  | Ok (a, saved) => (a, saved)
  | Err e => (zero, Some e)
  end.

(** The word an [UnmarshalTypeError] uses for a JSON value. *)
Definition kind_of (v : value) : string :=
  match v with
  | JNull => "null" | JBool _ => "bool" | JNumber _ => "number"
  | JString _ => "string" | JArray _ => "array" | JObject _ => "object"
  end.

(** Into a field of type [string]. *)
Definition store_string (v : value) (cur : string) : decoder string :=
  match v with
  | JNull => dret cur
  | JString s => dret s
  | _ => dbind (saveError (json_UnmarshalTypeError (kind_of v) "string")) (fun _ => dret cur)
  end.

Section with_library.
Context `{GoLibrary}.

(** Into a field of type [json.Number]: a number literal is stored as it
    is written; so is the content of a string, which since Go 1.14 has to
    be a number literal. *)
Definition store_Number (v : value) (cur : Number) : decoder Number :=
  match v with
  | JNull => dret cur
  | JNumber lit => dret lit
  | JString s =>
      if strictNumber && negb (isValidNumber s) then abort (json_InvalidNumber s)
      else dret s
  | _ => dbind (saveError (json_UnmarshalTypeError (kind_of v) "json.Number"))
               (fun _ => dret cur)
  end.

(** The dynamic values of type [interface{}] that encoding/json meets:
    those it builds itself when it decodes, and any other, known here by
    what Marshal makes of it. *)
Inductive any : Type :=
  | any_nil
  | of_bool (b : bool)
  | of_float64 (f : float64)
  | of_string (s : string)
  | of_slice (elems : list any)              (** [[]interface{}] *)
  | of_map (entries : list (string * any))   (** [map[string]interface{}] *)
  | of_other (marshal : result value).

(** [m[key] = x] on the entries of a map. *)
Definition map_set (m : list (string * any)) (key : string) (x : any)
  : list (string * any) :=
  (key, x) :: List.filter (fun kv => negb (String.eqb (fst kv) key)) m.

(** [valueInterface]: the Go value built for a JSON value that is stored
    in an [interface{}]; a number out of the range of a [float64] is
    reported and [nil] stands in its place. *)
Fixpoint valueInterface (v : value) : decoder any :=
  match v with
  | JNull => dret any_nil
  | JBool b => dret (of_bool b)
  | JString s => dret (of_string s)
  | JNumber lit =>
      match ParseFloat lit with
      | Some f => dret (of_float64 f)
      | None =>
          dbind (saveError (json_UnmarshalTypeError ("number " +:+ lit) "float64"))
                (fun _ => dret any_nil)
      end
  | JArray elems =>
      dbind ((fix each (l : list value) : decoder (list any) :=
                match l with
                | [] => dret []
                | e :: l' =>
                    dbind (valueInterface e) (fun x =>
                    dbind (each l') (fun xs => dret (x :: xs)))
                end) elems)
            (fun xs => dret (of_slice xs))
  | JObject members =>
      dbind ((fix each (l : list (string * value)) (m : list (string * any))
                : decoder (list (string * any)) :=
                match l with
                | [] => dret m
                | (k, e) :: l' =>
                    dbind (valueInterface e) (fun x => each l' (map_set m k x))
                end) members [])
            (fun m => dret (of_map m))
  end.

(** Into a field of type [interface{}] with no methods. *)
Definition store_interface (v : value) (cur : any) : decoder any :=
  match v with
  | JNumber lit =>
      match ParseFloat lit with
      | Some f => dret (of_float64 f)
      | None =>
          dbind (saveError (json_UnmarshalTypeError ("number " +:+ lit) "float64"))
                (fun _ => dret cur)
      end
  | _ => valueInterface v
  end.

(** *** The encoder *)

(** Marshal on a dynamic value; the keys of a map come out sorted. *)
Fixpoint encode_any (a : any) : result value :=
  match a with
  | any_nil => Ok JNull
  | of_bool b => Ok (JBool b)
  | of_float64 f =>
      match FormatFloat f with
      | Some lit => Ok (JNumber lit)
      | None => Err json_UnsupportedValue
      end
  | of_string s => Ok (JString s)
  | of_slice elems =>
      vs <-? (fix each (l : list any) : result (list value) :=
                match l with
                | [] => Ok []
                | e :: l' => v <-? encode_any e; vs <-? each l'; Ok (v :: vs)
                end) elems;
      Ok (JArray vs)
  | of_map entries =>
      ms <-? (fix each (l : list (string * any)) : result (list (string * value)) :=
                match l with
                | [] => Ok []
                | (k, e) :: l' => v <-? encode_any e; ms <-? each l'; Ok ((k, v) :: ms)
                end) entries;
      Ok (JObject (merge_sort (fun a b => url.string_le (fst a) (fst b)) ms))
  | of_other marshal => marshal
  end.

(** [isEmptyValue], for the three kinds of field of this program. *)
Definition isEmpty_string (s : string) : bool := String.eqb s "".
Definition isEmpty_interface (a : any) : bool :=
  match a with any_nil => true | _ => false end.

(** A [json.Number] is written as it stands, [0] when it is empty, and
    only when it is a number literal. *)
Definition encode_Number (n : Number) : result value :=
  let numStr := if String.eqb n "" then "0" else n in
  if negb (isValidNumber numStr) then Err (json_InvalidNumber numStr)
  else Ok (JNumber numStr).

(** One field of a struct: nothing when the tag has [omitempty] and the
    value is empty, else the member. *)
Definition member (name : string) (omitEmpty : bool) (empty : bool)
    (enc : result value) : result (list (string * value)) :=
  if omitEmpty && empty then Ok []
  else v <-? enc; Ok [(name, v)].

End with_library.

End json.

(** ** Package net/http *)
Module http.

Record Request := {
  Method : string;
  URL : url.URL;
  Header : gmap string (list string);
  Body : option string;          (** [None]: no body ([nil]) *)
  ContentLength : Z;
  Host : string
}.

(** A response body is a stream; what matters of it here is what reading
    it to its end yields: the bytes read and the error that stopped the
    reading, if one did. *)
Record ReadCloser := {
  data : string;
  read_error : option error
}.

Record Response := {
  StatusCode : Z;
  ResponseBody : ReadCloser      (** the field [Body] *)
}.

(** [*http.Client], as far as the program uses it: its method [Do]. *)
Record Client := { Do : Request -> result Response }.

(** [httpguts.IsTokenRune] on a byte *)
Definition isToken (c : ascii) : bool :=
  is_alnum c || url.byte_in c "!#$%&'*+-.^_`|~".

Definition validMethod (method : string) : bool :=
  negb (String.eqb method "") && strings.all isToken method.

Definition removeEmptyPort (host : string) : string :=
  let last c := match strings.break_at_last host c with
                | Some (l, _) => Z.of_nat (String.length l)
                | None => -1
                end in
  if (last "]"%char <? last ":"%char)
     && match strings.last_byte host with
        | Some c => Ascii.eqb c ":"
        | None => false
        end
  then strings.drop_last host else host.

(** [NewRequest(method, url, body)]; [body] is [nil] or a [*bytes.Buffer]. *)
Definition NewRequest (method url : string) (body : option string) : result Request :=
  let method := if String.eqb method "" then "GET" else method in
  if negb (validMethod method) then
    Err (errors_New ("net/http: invalid method " +:+ method))
  else
    u <-? url.Parse url;
    let u := url.set_Host u (removeEmptyPort (url.Host u)) in
    Ok {| Method := method; URL := u; Header := ∅; Body := body;
          ContentLength := match body with
                           | Some b => Z.of_nat (String.length b)
                           | None => 0
                           end;
          Host := url.Host u |}.

(** [textproto.CanonicalMIMEHeaderKey] *)
Fixpoint canonical (upper : bool) (s : string) : string :=
  match s with
  | EmptyString => EmptyString
  | String c s' =>
      let c' := if upper && is_lower c then strings.upper_byte c
                else if negb upper && is_upper c then strings.lower_byte c
                else c in
      String c' (canonical (Ascii.eqb c' "-") s')
  end.

Definition CanonicalMIMEHeaderKey (s : string) : string :=
  if strings.all isToken s then canonical true s else s.

(** [req.Header.Set(key, value)] *)
Definition Header_Set (req : Request) (key value : string) : Request :=
  {| Method := Method req; URL := URL req;
     Header := <[CanonicalMIMEHeaderKey key := [value]]> (Header req);
     Body := Body req; ContentLength := ContentLength req; Host := Host req |}.

(** [req.URL.RawQuery = q] *)
Definition set_RawQuery (req : Request) (q : string) : Request :=
  {| Method := Method req; URL := url.set_RawQuery (URL req) q;
     Header := Header req; Body := Body req;
     ContentLength := ContentLength req; Host := Host req |}.

End http.

(** [ioutil.ReadAll(body)]: the bytes and the error *)
Definition ioutil_ReadAll (body : http.ReadCloser) : string * option error :=
  (http.data body, http.read_error body).

(** * Package main: servicenow.go *)

(** ** Effects

    The calls that reach outside the program are recorded, in order, in a
    trace: the log lines, the request handed to the HTTP client, the reading
    and the closing of the response body.  A log line keeps its format and
    its operands, unformatted. *)

Inductive log_arg : Type :=
  | log_str (s : string)
  | log_err (e : error)
  | log_params (m : gmap string string).

Inductive event : Type :=
  | Log (level : string) (format : string) (args : list log_arg)
  | Sent (req : http.Request)      (** [snClient.client.Do(req)] *)
  | ReadAll                        (** [ioutil.ReadAll(resp.Body)] *)
  | Closed                         (** [resp.Body.Close()] *).

Definition io (A : Type) : Type := A * list event.

Definition ret {A} (a : A) : io A := (a, []).

Definition bind {A B} (m : io A) (k : A -> io B) : io B :=
  let (a, t) := m in
  let (b, t') := k a in
  (b, (t ++ t')%list).

Definition emit (e : event) : io unit := (tt, [e]).

Notation "x <- m ;; k" := (bind m (fun x => k))
  (at level 100, m at next level, right associativity).
Notation "m ;; k" := (bind m (fun _ => k))
  (at level 100, right associativity).

(** [defer cleanup] followed by [body]: [cleanup] runs when [body] returns. *)
Definition defer {A} (cleanup : io unit) (body : io A) : io A :=
  a <- body ;; cleanup ;; ret a.

Definition log_Info (msg : string) : io unit := emit (Log "info" msg []).
Definition log_Infof (format : string) (args : list log_arg) : io unit :=
  emit (Log "info" format args).
Definition log_Error (msg : string) : io unit := emit (Log "error" msg []).
Definition log_Errorf (format : string) (args : list log_arg) : io unit :=
  emit (Log "error" format args).

(** A Go result pair [(T, error)]: [None] is [nil] on either side. *)
Definition go_pair (T : Type) : Type := option T * option error.

(** The bytes of a [[]byte], [nil] being the empty sequence. *)
Definition bytes_of (b : option string) : string := default "" b.

Section main.
Context `{GoLibrary}.

Definition serviceNowBaseURL := "https://%s.service-now.com".
Definition tableAPI := "%s/api/now/v2/table/%s".
Definition groupKeySnField := "u_other_reference_1".

(** [type LinkedValue interface{}] *)
Definition LinkedValue := json.any.

Record Incident := {
  AssignmentGroup : LinkedValue;     (* json:"assignment_group" *)
  ContactType : string;              (* json:"contact_type,omitempty" *)
  CallerID : LinkedValue;            (* json:"caller_id,omitempty" *)
  Comments : string;                 (* json:"comments" *)
  Description : string;              (* json:"description" *)
  GroupKey : string;                 (* json:"u_other_reference_1" *)
  Impact : json.Number;              (* json:"impact,omitempty" *)
  Number : string;                   (* json:"number,omitempty" *)
  Priority : string;                 (* json:"priority,omitempty" *)
  ShortDescription : string;         (* json:"short_description" *)
  State : json.Number;               (* json:"state,omitempty" *)
  SysID : string;                    (* json:"sys_id,omitempty" *)
  Urgency : json.Number              (* json:"urgency,omitempty" *)
}.

(** [Incident{}] *)
Definition Incident_zero : Incident :=
  {| AssignmentGroup := json.any_nil; ContactType := ""; CallerID := json.any_nil;
     Comments := ""; Description := ""; GroupKey := ""; Impact := "";
     Number := ""; Priority := ""; ShortDescription := ""; State := "";
     SysID := ""; Urgency := "" |}.

(** Assignments to one field. *)
Definition set_AssignmentGroup (x : LinkedValue) (inc : Incident) : Incident :=
  {| AssignmentGroup := x; ContactType := ContactType inc; CallerID :=
     CallerID inc; Comments := Comments inc; Description := Description
     inc; GroupKey := GroupKey inc; Impact := Impact inc; Number := Number
     inc; Priority := Priority inc; ShortDescription := ShortDescription
     inc; State := State inc; SysID := SysID inc; Urgency := Urgency inc
     |}.

Definition set_ContactType (x : string) (inc : Incident) : Incident :=
  {| AssignmentGroup := AssignmentGroup inc; ContactType := x; CallerID :=
     CallerID inc; Comments := Comments inc; Description := Description
     inc; GroupKey := GroupKey inc; Impact := Impact inc; Number := Number
     inc; Priority := Priority inc; ShortDescription := ShortDescription
     inc; State := State inc; SysID := SysID inc; Urgency := Urgency inc
     |}.

Definition set_CallerID (x : LinkedValue) (inc : Incident) : Incident :=
  {| AssignmentGroup := AssignmentGroup inc; ContactType := ContactType
     inc; CallerID := x; Comments := Comments inc; Description :=
     Description inc; GroupKey := GroupKey inc; Impact := Impact inc;
     Number := Number inc; Priority := Priority inc; ShortDescription :=
     ShortDescription inc; State := State inc; SysID := SysID inc; Urgency
     := Urgency inc |}.

Definition set_Comments (x : string) (inc : Incident) : Incident :=
  {| AssignmentGroup := AssignmentGroup inc; ContactType := ContactType
     inc; CallerID := CallerID inc; Comments := x; Description :=
     Description inc; GroupKey := GroupKey inc; Impact := Impact inc;
     Number := Number inc; Priority := Priority inc; ShortDescription :=
     ShortDescription inc; State := State inc; SysID := SysID inc; Urgency
     := Urgency inc |}.

Definition set_Description (x : string) (inc : Incident) : Incident :=
  {| AssignmentGroup := AssignmentGroup inc; ContactType := ContactType
     inc; CallerID := CallerID inc; Comments := Comments inc; Description
     := x; GroupKey := GroupKey inc; Impact := Impact inc; Number :=
     Number inc; Priority := Priority inc; ShortDescription :=
     ShortDescription inc; State := State inc; SysID := SysID inc; Urgency
     := Urgency inc |}.

Definition set_GroupKey (x : string) (inc : Incident) : Incident :=
  {| AssignmentGroup := AssignmentGroup inc; ContactType := ContactType
     inc; CallerID := CallerID inc; Comments := Comments inc; Description
     := Description inc; GroupKey := x; Impact := Impact inc; Number :=
     Number inc; Priority := Priority inc; ShortDescription :=
     ShortDescription inc; State := State inc; SysID := SysID inc; Urgency
     := Urgency inc |}.

Definition set_Impact (x : json.Number) (inc : Incident) : Incident :=
  {| AssignmentGroup := AssignmentGroup inc; ContactType := ContactType
     inc; CallerID := CallerID inc; Comments := Comments inc; Description
     := Description inc; GroupKey := GroupKey inc; Impact := x; Number :=
     Number inc; Priority := Priority inc; ShortDescription :=
     ShortDescription inc; State := State inc; SysID := SysID inc; Urgency
     := Urgency inc |}.

Definition set_Number (x : string) (inc : Incident) : Incident :=
  {| AssignmentGroup := AssignmentGroup inc; ContactType := ContactType
     inc; CallerID := CallerID inc; Comments := Comments inc; Description
     := Description inc; GroupKey := GroupKey inc; Impact := Impact inc;
     Number := x; Priority := Priority inc; ShortDescription :=
     ShortDescription inc; State := State inc; SysID := SysID inc; Urgency
     := Urgency inc |}.

Definition set_Priority (x : string) (inc : Incident) : Incident :=
  {| AssignmentGroup := AssignmentGroup inc; ContactType := ContactType
     inc; CallerID := CallerID inc; Comments := Comments inc; Description
     := Description inc; GroupKey := GroupKey inc; Impact := Impact inc;
     Number := Number inc; Priority := x; ShortDescription :=
     ShortDescription inc; State := State inc; SysID := SysID inc; Urgency
     := Urgency inc |}.

Definition set_ShortDescription (x : string) (inc : Incident) : Incident :=
  {| AssignmentGroup := AssignmentGroup inc; ContactType := ContactType
     inc; CallerID := CallerID inc; Comments := Comments inc; Description
     := Description inc; GroupKey := GroupKey inc; Impact := Impact inc;
     Number := Number inc; Priority := Priority inc; ShortDescription :=
     x; State := State inc; SysID := SysID inc; Urgency := Urgency inc |}.

Definition set_State (x : json.Number) (inc : Incident) : Incident :=
  {| AssignmentGroup := AssignmentGroup inc; ContactType := ContactType
     inc; CallerID := CallerID inc; Comments := Comments inc; Description
     := Description inc; GroupKey := GroupKey inc; Impact := Impact inc;
     Number := Number inc; Priority := Priority inc; ShortDescription :=
     ShortDescription inc; State := x; SysID := SysID inc; Urgency :=
     Urgency inc |}.

Definition set_SysID (x : string) (inc : Incident) : Incident :=
  {| AssignmentGroup := AssignmentGroup inc; ContactType := ContactType
     inc; CallerID := CallerID inc; Comments := Comments inc; Description
     := Description inc; GroupKey := GroupKey inc; Impact := Impact inc;
     Number := Number inc; Priority := Priority inc; ShortDescription :=
     ShortDescription inc; State := State inc; SysID := x; Urgency :=
     Urgency inc |}.

Definition set_Urgency (x : json.Number) (inc : Incident) : Incident :=
  {| AssignmentGroup := AssignmentGroup inc; ContactType := ContactType
     inc; CallerID := CallerID inc; Comments := Comments inc; Description
     := Description inc; GroupKey := GroupKey inc; Impact := Impact inc;
     Number := Number inc; Priority := Priority inc; ShortDescription :=
     ShortDescription inc; State := State inc; SysID := SysID inc; Urgency
     := x |}.

Record IncidentsResponse := {
  Results : option (list Incident)   (* Result []Incident `json:"result"` *)
}.

Record IncidentResponse := {
  Result : Incident                  (* json:"result" *)
}.

Record ServiceNowClient := {
  baseURL : string;
  authHeader : string;
  client : http.Client
}.

(** [http.DefaultClient], the client shared by the process *)
Variable http_DefaultClient : http.Client.

Definition NewServiceNowClient (instanceName userName password : string)
  : go_pair ServiceNowClient :=
  if String.eqb instanceName "" then (None, Some (errors_New "Missing instanceName"))
  else if String.eqb userName "" then (None, Some (errors_New "Missing userName"))
  else if String.eqb password "" then (None, Some (errors_New "Missing password"))
  else
    (Some {| baseURL := fmt.Sprintf serviceNowBaseURL [fmt.str instanceName];
             authHeader :=
               fmt.Sprintf "Basic %s"
                 [fmt.str (base64.EncodeToString base64.URLEncoding
                             (userName +:+ ":" +:+ password))];
             client := http_DefaultClient |},
     None).

(** [doRequest] will do the given ServiceNow request and return the
    response as a byte array. *)
Definition doRequest (snClient : ServiceNowClient) (req : http.Request)
  : io (go_pair string) :=
  let req := http.Header_Set req "Content-Type" "application/json" in
  let req := http.Header_Set req "Authorization" (authHeader snClient) in
  emit (Sent req) ;;
  match http.Do (client snClient) req with
  | Err err =>
      log_Errorf "Error sending the request. %s" [log_err err] ;;
      ret (None, Some err)
  | Ok resp =>
      if 400 <=? http.StatusCode resp then
        let errorMsg :=
          fmt.Sprintf "ServiceNow returned the HTTP error code: %v"
                      [fmt.int (http.StatusCode resp)] in
        log_Error errorMsg ;;
        ret (None, Some (errors_New errorMsg))
      else
        defer (emit Closed)
          (emit ReadAll ;;
           match ioutil_ReadAll (http.ResponseBody resp) with
           | (_, Some err) =>
               log_Errorf "Error reading the body. %s" [log_err err] ;;
               ret (None, Some err)
           | (responseBody, None) => ret (Some responseBody, None)
           end)
  end.

(** Create a table item in ServiceNow from a post body. *)
Definition create (snClient : ServiceNowClient) (table : string) (body : string)
  : io (go_pair string) :=
  let url := fmt.Sprintf tableAPI [fmt.str (baseURL snClient); fmt.str table] in
  match http.NewRequest "POST" url (Some body) with
  | Err err =>
      log_Errorf "Error creating the request. %s" [log_err err] ;;
      ret (None, Some err)
  | Ok req => doRequest snClient req
  end.

(** The loop [for key, val := range params { q.Add(key, val) }], the
    entries of the map taken in the order [entries]. *)
Definition range_Add (q : gmap string (list string)) (entries : list (string * string))
  : gmap string (list string) :=
  foldl (fun q kv => url.Add q (fst kv) (snd kv)) q entries.

(** get a table item from ServiceNow using a map of arguments.  Go leaves
    the order in which [range] visits a map open; [map_to_list] is one
    order, and [range_Add_order] below shows that none gives another
    result. *)
Definition get (snClient : ServiceNowClient) (table : string) (params : gmap string string)
  : io (go_pair string) :=
  let url := fmt.Sprintf tableAPI [fmt.str (baseURL snClient); fmt.str table] in
  match http.NewRequest "GET" url None with
  | Err err =>
      log_Errorf "Error creating the request. %s" [log_err err] ;;
      ret (None, Some err)
  | Ok req =>
      let q := url.Query (http.URL req) in
      let q := range_Add q (map_to_list params) in
      let req := http.set_RawQuery req (url.Encode q) in
      doRequest snClient req
  end.

(** update a table item in ServiceNow from a post body and a sys_id. *)
Definition update (snClient : ServiceNowClient) (table : string) (body : string)
    (sysID : string) : io (go_pair string) :=
  let url := fmt.Sprintf (tableAPI +:+ "/%s")
               [fmt.str (baseURL snClient); fmt.str table; fmt.str sysID] in
  match http.NewRequest "PUT" url (Some body) with
  | Err err =>
      log_Errorf "Error creating the request. %s" [log_err err] ;;
      ret (None, Some err)
  | Ok req => doRequest snClient req
  end.

(** ** The JSON form of the structs

    encoding/json derives the encoder and the decoder of a struct from its
    field tags; here they are for the three structs of the program, field
    by field, in the order of declaration. *)

Definition Incident_names : list string :=
  ["assignment_group"; "contact_type"; "caller_id"; "comments"; "description";
   groupKeySnField; "impact"; "number"; "priority"; "short_description";
   "state"; "sys_id"; "urgency"].

Definition encode_Incident (inc : Incident) : result json.value :=
  m0 <-? json.member "assignment_group" false
           (json.isEmpty_interface (AssignmentGroup inc))
           (json.encode_any (AssignmentGroup inc));
  m1 <-? json.member "contact_type" true
           (json.isEmpty_string (ContactType inc)) (Ok (json.JString (ContactType inc)));
  m2 <-? json.member "caller_id" true
           (json.isEmpty_interface (CallerID inc)) (json.encode_any (CallerID inc));
  m3 <-? json.member "comments" false
           (json.isEmpty_string (Comments inc)) (Ok (json.JString (Comments inc)));
  m4 <-? json.member "description" false
           (json.isEmpty_string (Description inc)) (Ok (json.JString (Description inc)));
  m5 <-? json.member groupKeySnField false
           (json.isEmpty_string (GroupKey inc)) (Ok (json.JString (GroupKey inc)));
  m6 <-? json.member "impact" true
           (json.isEmpty_string (Impact inc)) (json.encode_Number (Impact inc));
  m7 <-? json.member "number" true
           (json.isEmpty_string (Number inc)) (Ok (json.JString (Number inc)));
  m8 <-? json.member "priority" true
           (json.isEmpty_string (Priority inc)) (Ok (json.JString (Priority inc)));
  m9 <-? json.member "short_description" false
           (json.isEmpty_string (ShortDescription inc))
           (Ok (json.JString (ShortDescription inc)));
  m10 <-? json.member "state" true
           (json.isEmpty_string (State inc)) (json.encode_Number (State inc));
  m11 <-? json.member "sys_id" true
           (json.isEmpty_string (SysID inc)) (Ok (json.JString (SysID inc)));
  m12 <-? json.member "urgency" true
           (json.isEmpty_string (Urgency inc)) (json.encode_Number (Urgency inc));
  Ok (json.JObject (m0 ++ m1 ++ m2 ++ m3 ++ m4 ++ m5 ++ m6 ++ m7 ++ m8 ++ m9
                      ++ m10 ++ m11 ++ m12)%list).

(** [json.Marshal(incident)] *)
Definition Marshal_Incident (inc : Incident) : result string :=
  v <-? encode_Incident inc; Ok (json.render v).

(** The member [key: v] of an object decoded into the struct. *)
Definition decode_member (inc : Incident) (key : string) (v : json.value)
  : json.decoder Incident :=
  let str get set := json.dbind (json.store_string v (get inc))
                                (fun x => json.dret (set x inc)) in
  let num get set := json.dbind (json.store_Number v (get inc))
                                (fun x => json.dret (set x inc)) in
  let dyn get set := json.dbind (json.store_interface v (get inc))
                                (fun x => json.dret (set x inc)) in
  match json.find_field Incident_names key with
  | Some 0%nat => dyn AssignmentGroup set_AssignmentGroup
  | Some 1%nat => str ContactType set_ContactType
  | Some 2%nat => dyn CallerID set_CallerID
  | Some 3%nat => str Comments set_Comments
  | Some 4%nat => str Description set_Description
  | Some 5%nat => str GroupKey set_GroupKey
  | Some 6%nat => num Impact set_Impact
  | Some 7%nat => str Number set_Number
  | Some 8%nat => str Priority set_Priority
  | Some 9%nat => str ShortDescription set_ShortDescription
  | Some 10%nat => num State set_State
  | Some 11%nat => str SysID set_SysID
  | Some 12%nat => num Urgency set_Urgency
  | _ => json.dret inc
  end.

Fixpoint decode_members (inc : Incident) (members : list (string * json.value))
  : json.decoder Incident :=
  match members with
  | [] => json.dret inc
  | (key, v) :: rest =>
      json.dbind (decode_member inc key v) (fun inc' => decode_members inc' rest)
  end.

(** A JSON value decoded into an [Incident] that holds [cur]: an object
    sets the fields its members name, [null] changes nothing, anything
    else does not fit. *)
Definition decode_Incident (v : json.value) (cur : Incident) : json.decoder Incident :=
  match v with
  | json.JObject members => decode_members cur members
  | json.JNull => json.dret cur
  | _ => json.dbind (json.saveError
                       (json_UnmarshalTypeError (json.kind_of v) "main.Incident"))
                    (fun _ => json.dret cur)
  end.

(** The elements of an array decoded into a slice: element [i] into what
    the slice holds at [i], or into a zero [Incident] past its length. *)
Fixpoint decode_elems (elems : list json.value) (cur : list Incident)
  : json.decoder (list Incident) :=
  match elems with
  | [] => json.dret []
  | e :: rest =>
      json.dbind (decode_Incident e (hd Incident_zero cur)) (fun x =>
      json.dbind (decode_elems rest (tl cur)) (fun xs => json.dret (x :: xs)))
  end.

(** Into a [[]Incident]: [null] makes the slice [nil]; an empty array
    makes it empty, not [nil]. *)
Definition decode_Incidents (v : json.value) (cur : option (list Incident))
  : json.decoder (option (list Incident)) :=
  match v with
  | json.JArray elems =>
      json.dbind (decode_elems elems (default [] cur)) (fun xs => json.dret (Some xs))
  | json.JNull => json.dret None
  | _ => json.dbind (json.saveError
                       (json_UnmarshalTypeError (json.kind_of v) "[]main.Incident"))
                    (fun _ => json.dret cur)
  end.

(** A struct whose only field is tagged [result]. *)
Fixpoint decode_result_members {A} (store : json.value -> A -> json.decoder A)
    (cur : A) (members : list (string * json.value)) : json.decoder A :=
  match members with
  | [] => json.dret cur
  | (key, v) :: rest =>
      match json.find_field ["result"] key with
      | Some _ => json.dbind (store v cur) (fun x => decode_result_members store x rest)
      | None => decode_result_members store cur rest
      end
  end.

Definition decode_envelope {A} (gotype : string)
    (store : json.value -> A -> json.decoder A) (v : json.value) (cur : A)
  : json.decoder A :=
  match v with
  | json.JObject members => decode_result_members store cur members
  | json.JNull => json.dret cur
  | _ => json.dbind (json.saveError (json_UnmarshalTypeError (json.kind_of v) gotype))
                    (fun _ => json.dret cur)
  end.

(** [json.Unmarshal(data, &target)]: the error, or the target as the call
    leaves it when there is none.  (After an error the program never reads
    the target; what a failed call has written into it is not modelled.) *)
Definition Unmarshal {A} (decode : json.value -> A -> json.decoder A)
    (data : string) (target : A) : result A :=
  match json.parse data with
  | None => Err json_SyntaxError
  | Some v =>
      match decode v target None with
      | Ok (a, None) => Ok a
      | Ok (_, Some e) => Err e
      | Err e => Err e
      end
  end.

Definition Unmarshal_IncidentResponse (data : string) (target : IncidentResponse)
  : result IncidentResponse :=
  r <-? Unmarshal (decode_envelope "main.IncidentResponse" decode_Incident)
          data (Result target);
  Ok {| Result := r |}.

Definition Unmarshal_IncidentsResponse (data : string) (target : IncidentsResponse)
  : result IncidentsResponse :=
  r <-? Unmarshal (decode_envelope "main.IncidentsResponse" decode_Incidents)
          data (Results target);
  Ok {| Results := r |}.

(** ** The typed operations *)

(** CreateIncident will create an incident in ServiceNow from a given
    Incident, and return the created incident. *)
Definition CreateIncident (snClient : ServiceNowClient) (incident : Incident)
  : io (go_pair Incident) :=
  log_Info "Create a ServiceNow incident" ;;
  match Marshal_Incident incident with
  | Err err =>
      log_Errorf "Error while marshalling the incident. %s" [log_err err] ;;
      ret (None, Some err)
  | Ok postBody =>
      r <- create snClient "incident" postBody ;;
      match r with
      | (_, Some err) =>
          log_Errorf "Error while creating the incident. %s" [log_err err] ;;
          ret (None, Some err)
      | (response, None) =>
          match Unmarshal_IncidentResponse (bytes_of response)
                  {| Result := Incident_zero |} with
          | Err err =>
              log_Errorf "Error while unmarshalling the incident. %s" [log_err err] ;;
              ret (None, Some err)
          | Ok incidentResponse =>
              log_Infof "Incident %s created"
                [log_str (Number (Result incidentResponse))] ;;
              ret (Some (Result incidentResponse), None)
          end
      end
  end.

(** GetIncidents will retrieve an incident from ServiceNow. *)
Definition GetIncidents (snClient : ServiceNowClient) (params : gmap string string)
  : io (go_pair (list Incident)) :=
  log_Infof "Get ServiceNow incidents with params: %v" [log_params params] ;;
  r <- get snClient "incident" params ;;
  match r with
  | (_, Some err) =>
      log_Errorf "Error while getting the incident. %s" [log_err err] ;;
      ret (None, Some err)
  | (response, None) =>
      match Unmarshal_IncidentsResponse (bytes_of response) {| Results := None |} with
      | Err err =>
          log_Errorf "Error while unmarshalling the incident. %s" [log_err err] ;;
          ret (None, Some err)
      | Ok incidentsResponse => ret (Results incidentsResponse, None)
      end
  end.

(** UpdateIncident will update an incident in ServiceNow from a given
    Incident, and return the updated incident. *)
Definition UpdateIncident (snClient : ServiceNowClient) (incident : Incident)
  : io (go_pair Incident) :=
  log_Infof "Update ServiceNow incident %s" [log_str (Number incident)] ;;
  match Marshal_Incident incident with
  | Err err =>
      log_Errorf "Error while marshalling the incident. %s" [log_err err] ;;
      ret (None, Some err)
  | Ok postBody =>
      r <- update snClient "incident" postBody (SysID incident) ;;
      match r with
      | (_, Some err) =>
          log_Errorf "Error while updating the incident. %s" [log_err err] ;;
          ret (None, Some err)
      | (response, None) =>
          match Unmarshal_IncidentResponse (bytes_of response)
                  {| Result := Incident_zero |} with
          | Err err =>
              log_Errorf "Error while unmarshalling the incident. %s" [log_err err] ;;
              ret (None, Some err)
          | Ok incidentResponse =>
              log_Infof "Incident %s updated"
                [log_str (Number (Result incidentResponse))] ;;
              ret (Some (Result incidentResponse), None)
          end
      end
  end.

End main.

(** * Properties *)

(** ** Strings *)

Lemma string_app_nil_r s : s +:+ "" = s.
Proof.
  induction s as [|a s IH]; [reflexivity|].
  change (String a (s +:+ "") = String a s). now rewrite IH.
Qed.

Lemma string_app_assoc s t u : (s +:+ t) +:+ u = s +:+ t +:+ u.
Proof.
  induction s as [|a s IH]; [reflexivity|].
  change (String a ((s +:+ t) +:+ u) = String a (s +:+ t +:+ u)). now rewrite IH.
Qed.

Lemma string_app_cons a s t : String a s +:+ t = String a (s +:+ t).
Proof. reflexivity. Qed.

(** ** What a trace holds *)

(** The requests handed to the HTTP client, in order. *)
Definition sent (t : list event) : list http.Request :=
  omap (fun e => match e with Sent req => Some req | _ => None end) t.

(** How many times the response body was closed, and read. *)
Definition closes (t : list event) : nat :=
  length (List.filter (fun e => match e with Closed => true | _ => false end) t).

Definition reads (t : list event) : nat :=
  length (List.filter (fun e => match e with ReadAll => true | _ => false end) t).

(** The error that [doRequest] builds from a status code. *)
Definition RemoteError (status : Z) : error :=
  errors_New ("ServiceNow returned the HTTP error code: " +:+ pretty status).

Lemma RemoteError_inj a b : RemoteError a = RemoteError b -> a = b.
Proof.
  unfold RemoteError. intros E. injection E as E.
  apply (inj pretty). exact E.
Qed.

Section properties.
Context `{GoLibrary}.

Lemma Sprintf_baseURL i :
  fmt.Sprintf serviceNowBaseURL [fmt.str i] = "https://" +:+ i +:+ ".service-now.com".
Proof. reflexivity. Qed.

Lemma Sprintf_tableAPI b t :
  fmt.Sprintf tableAPI [fmt.str b; fmt.str t] = b +:+ "/api/now/v2/table/" +:+ t.
Proof. unfold tableAPI. cbn. now rewrite string_app_nil_r. Qed.

Lemma Sprintf_tableAPI_id b t i :
  fmt.Sprintf (tableAPI +:+ "/%s") [fmt.str b; fmt.str t; fmt.str i]
  = b +:+ "/api/now/v2/table/" +:+ t +:+ "/" +:+ i.
Proof.
  change (tableAPI +:+ "/%s") with "%s/api/now/v2/table/%s/%s".
  cbn. now rewrite string_app_nil_r.
Qed.

(** The request as [doRequest] hands it to the client: with the two
    headers set. *)
Definition prepare (c : ServiceNowClient) (req : http.Request) : http.Request :=
  http.Header_Set (http.Header_Set req "Content-Type" "application/json")
                  "Authorization" (authHeader c).

(** [doRequest], path by path. *)
Lemma doRequest_eq c req :
  doRequest c req =
    match http.Do (client c) (prepare c req) with
    | Err err =>
        ((None, Some err),
         [Sent (prepare c req);
          Log "error" "Error sending the request. %s" [log_err err]])
    | Ok resp =>
        if 400 <=? http.StatusCode resp then
          ((None, Some (RemoteError (http.StatusCode resp))),
           [Sent (prepare c req);
            Log "error" ("ServiceNow returned the HTTP error code: "
                           +:+ pretty (http.StatusCode resp)) []])
        else
          match http.read_error (http.ResponseBody resp) with
          | Some err =>
              ((None, Some err),
               [Sent (prepare c req); ReadAll;
                Log "error" "Error reading the body. %s" [log_err err]; Closed])
          | None =>
              ((Some (http.data (http.ResponseBody resp)), None),
               [Sent (prepare c req); ReadAll; Closed])
          end
    end.
Proof.
  unfold doRequest, prepare, RemoteError. cbn.
  destruct (http.Do _ _) as [resp|e]; cbn; [|reflexivity].
  destruct (400 <=? _); cbn.
  - now rewrite string_app_nil_r.
  - destruct (http.read_error _); reflexivity.
Qed.

(** The outcomes of [doRequest]: nothing and an error, or the bytes and
    no error; one request is sent in every case. *)
Lemma doRequest_outcome c req :
  sent (snd (doRequest c req)) = [prepare c req]
  /\ ((exists e, fst (doRequest c req) = (None, Some e))
      \/ (exists resp,
            http.Do (client c) (prepare c req) = Ok resp
            /\ http.StatusCode resp < 400
            /\ http.read_error (http.ResponseBody resp) = None
            /\ fst (doRequest c req) = (Some (http.data (http.ResponseBody resp)), None))).
Proof.
  rewrite doRequest_eq.
  destruct (http.Do _ _) as [resp|e]; cbn; [|eauto].
  destruct (400 <=? _) eqn:E; cbn; [eauto|].
  destruct (http.read_error _) eqn:R; cbn; [eauto|].
  split; [reflexivity|]. right. exists resp. repeat split; auto. lia.
Qed.

Lemma create_eq c table body :
  create c table body =
    match http.NewRequest "POST" (baseURL c +:+ "/api/now/v2/table/" +:+ table)
                          (Some body) with
    | Err err =>
        ((None, Some err), [Log "error" "Error creating the request. %s" [log_err err]])
    | Ok req => doRequest c req
    end.
Proof.
  unfold create. rewrite Sprintf_tableAPI.
  destruct (http.NewRequest _ _ _); reflexivity.
Qed.

Lemma update_eq c table body sysID :
  update c table body sysID =
    match http.NewRequest "PUT"
            (baseURL c +:+ "/api/now/v2/table/" +:+ table +:+ "/" +:+ sysID)
            (Some body) with
    | Err err =>
        ((None, Some err), [Log "error" "Error creating the request. %s" [log_err err]])
    | Ok req => doRequest c req
    end.
Proof.
  unfold update. rewrite Sprintf_tableAPI_id.
  destruct (http.NewRequest _ _ _); reflexivity.
Qed.

Lemma get_eq c table params :
  get c table params =
    match http.NewRequest "GET" (baseURL c +:+ "/api/now/v2/table/" +:+ table) None with
    | Err err =>
        ((None, Some err), [Log "error" "Error creating the request. %s" [log_err err]])
    | Ok req =>
        doRequest c
          (http.set_RawQuery req
             (url.Encode (range_Add (url.Query (http.URL req)) (map_to_list params))))
    end.
Proof.
  unfold get. rewrite Sprintf_tableAPI.
  destruct (http.NewRequest _ _ _); reflexivity.
Qed.

(** A table operation sends no request and fails, or is [doRequest] on the
    request it built. *)
Definition table_call (c : ServiceNowClient) (m : io (go_pair string)) : Prop :=
  (exists e l, m = ((None, Some e), [Log "error" l [log_err e]]))
  \/ (exists req, m = doRequest c req).

Lemma create_call c table body : table_call c (create c table body).
Proof.
  rewrite create_eq. destruct (http.NewRequest _ _ _); [right|left]; eauto.
Qed.

Lemma update_call c table body sysID : table_call c (update c table body sysID).
Proof.
  rewrite update_eq. destruct (http.NewRequest _ _ _); [right|left]; eauto.
Qed.

Lemma get_call c table params : table_call c (get c table params).
Proof.
  rewrite get_eq. destruct (http.NewRequest _ _ _); [right|left]; eauto.
Qed.

(** What follows a table operation in [CreateIncident] and
    [UpdateIncident]: the error passed on, or the envelope decoded. *)
Definition decode_record (done : string) (failed : string) (m : io (go_pair string))
  : io (go_pair Incident) :=
  match fst m with
  | (_, Some err) => ((None, Some err), snd m ++ [Log "error" failed [log_err err]])
  | (response, None) =>
      match Unmarshal_IncidentResponse (bytes_of response)
              {| Result := Incident_zero |} with
      | Err err =>
          ((None, Some err),
           snd m ++ [Log "error" "Error while unmarshalling the incident. %s" [log_err err]])
      | Ok ir =>
          ((Some (Result ir), None),
           snd m ++ [Log "info" done [log_str (Number (Result ir))]])
      end
  end%list.

Lemma CreateIncident_eq c inc :
  CreateIncident c inc =
    match Marshal_Incident inc with
    | Err err =>
        ((None, Some err),
         [Log "info" "Create a ServiceNow incident" [];
          Log "error" "Error while marshalling the incident. %s" [log_err err]])
    | Ok postBody =>
        let m := decode_record "Incident %s created"
                   "Error while creating the incident. %s"
                   (create c "incident" postBody) in
        (fst m, Log "info" "Create a ServiceNow incident" [] :: snd m)
    end.
Proof.
  unfold CreateIncident, decode_record.
  destruct (Marshal_Incident inc) as [body|e]; [|reflexivity].
  destruct (create c "incident" body) as [[response [e|]] t]; cbn.
  - rewrite ?app_nil_r; reflexivity.
  - destruct (Unmarshal_IncidentResponse _ _); cbn; rewrite ?app_nil_r; reflexivity.
Qed.

Lemma UpdateIncident_eq c inc :
  UpdateIncident c inc =
    match Marshal_Incident inc with
    | Err err =>
        ((None, Some err),
         [Log "info" "Update ServiceNow incident %s" [log_str (Number inc)];
          Log "error" "Error while marshalling the incident. %s" [log_err err]])
    | Ok postBody =>
        let m := decode_record "Incident %s updated"
                   "Error while updating the incident. %s"
                   (update c "incident" postBody (SysID inc)) in
        (fst m, Log "info" "Update ServiceNow incident %s" [log_str (Number inc)] :: snd m)
    end.
Proof.
  unfold UpdateIncident, decode_record.
  destruct (Marshal_Incident inc) as [body|e]; [|reflexivity].
  destruct (update c "incident" body (SysID inc)) as [[response [e|]] t]; cbn.
  - rewrite ?app_nil_r; reflexivity.
  - destruct (Unmarshal_IncidentResponse _ _); cbn; rewrite ?app_nil_r; reflexivity.
Qed.

Lemma GetIncidents_eq c params :
  GetIncidents c params =
    let m := get c "incident" params in
    let hello := Log "info" "Get ServiceNow incidents with params: %v" [log_params params] in
    match fst m with
    | (_, Some err) =>
        ((None, Some err),
         hello :: snd m ++ [Log "error" "Error while getting the incident. %s" [log_err err]])
    | (response, None) =>
        match Unmarshal_IncidentsResponse (bytes_of response) {| Results := None |} with
        | Err err =>
            ((None, Some err),
             hello :: snd m
               ++ [Log "error" "Error while unmarshalling the incident. %s" [log_err err]])
        | Ok ir => ((Results ir, None), hello :: snd m)
        end
    end%list.
Proof.
  unfold GetIncidents.
  destruct (get c "incident" params) as [[response [e|]] t]; cbn.
  - rewrite ?app_nil_r; reflexivity.
  - destruct (Unmarshal_IncidentsResponse _ _); cbn; rewrite ?app_nil_r; reflexivity.
Qed.

(** ** Counting in traces *)

Lemma sent_app t u : sent (t ++ u) = (sent t ++ sent u)%list.
Proof. unfold sent. apply omap_app. Qed.

Lemma reads_app t u : reads (t ++ u) = (reads t + reads u)%nat.
Proof. unfold reads. now rewrite List.filter_app, length_app. Qed.

Lemma closes_app t u : closes (t ++ u) = (closes t + closes u)%nat.
Proof. unfold closes. now rewrite List.filter_app, length_app. Qed.

Lemma sent_Log l f a t : sent (Log l f a :: t) = sent t.
Proof. reflexivity. Qed.

Lemma reads_Log l f a t : reads (Log l f a :: t) = reads t.
Proof. reflexivity. Qed.

Lemma closes_Log l f a t : closes (Log l f a :: t) = closes t.
Proof. reflexivity. Qed.

Lemma decode_record_trace done failed m :
  exists l args, snd (decode_record done failed m) = (snd m ++ [Log l failed args])%list
                 \/ snd (decode_record done failed m) = (snd m ++ [Log l done args])%list
                 \/ snd (decode_record done failed m)
                    = (snd m ++ [Log l "Error while unmarshalling the incident. %s" args])%list.
Proof.
  unfold decode_record. destruct (fst m) as [response [e|]]; cbn; [eauto 6|].
  destruct (Unmarshal_IncidentResponse _ _); cbn; eauto 6.
Qed.

Lemma decode_record_sent done failed m :
  sent (snd (decode_record done failed m)) = sent (snd m).
Proof.
  destruct (decode_record_trace done failed m) as (l & args & [E|[E|E]]);
    rewrite E, sent_app; cbn; apply app_nil_r.
Qed.

Lemma decode_record_reads done failed m :
  reads (snd (decode_record done failed m)) = reads (snd m).
Proof.
  destruct (decode_record_trace done failed m) as (l & args & [E|[E|E]]);
    rewrite E, reads_app; cbn; lia.
Qed.

Lemma decode_record_closes done failed m :
  closes (snd (decode_record done failed m)) = closes (snd m).
Proof.
  destruct (decode_record_trace done failed m) as (l & args & [E|[E|E]]);
    rewrite E, closes_app; cbn; lia.
Qed.

Lemma decode_record_error done failed m e :
  fst m = (None, Some e) -> fst (decode_record done failed m) = (None, Some e).
Proof.
  destruct m as [[r o] t]. cbn. intros [= -> ->]. reflexivity.
Qed.

(** ** Responses with a status of 400 or more *)

Lemma doRequest_remote c req resp :
  http.Do (client c) (prepare c req) = Ok resp ->
  400 <= http.StatusCode resp ->
  fst (doRequest c req) = (None, Some (RemoteError (http.StatusCode resp)))
  /\ reads (snd (doRequest c req)) = 0%nat
  /\ closes (snd (doRequest c req)) = 0%nat.
Proof.
  intros D S. rewrite doRequest_eq, D.
  destruct (Z.leb_spec 400 (http.StatusCode resp)); [|lia]. now cbn.
Qed.

Lemma table_call_remote c m req resp :
  table_call c m ->
  req ∈ sent (snd m) ->
  http.Do (client c) req = Ok resp ->
  400 <= http.StatusCode resp ->
  fst m = (None, Some (RemoteError (http.StatusCode resp)))
  /\ reads (snd m) = 0%nat.
Proof.
  intros [(e & l & ->)|(req0 & ->)] S D St.
  - cbn in S. now apply elem_of_nil in S.
  - destruct (doRequest_outcome c req0) as [E _]. rewrite E in S.
    apply list_elem_of_singleton in S. subst req.
    destruct (doRequest_remote c req0 resp D St) as (? & ? & ?). auto.
Qed.

Lemma record_call_remote c done failed m req resp :
  table_call c m ->
  req ∈ sent (snd (decode_record done failed m)) ->
  http.Do (client c) req = Ok resp ->
  400 <= http.StatusCode resp ->
  fst (decode_record done failed m) = (None, Some (RemoteError (http.StatusCode resp)))
  /\ reads (snd (decode_record done failed m)) = 0%nat.
Proof.
  rewrite decode_record_sent, decode_record_reads. intros TC S D St.
  destruct (table_call_remote c m req resp TC S D St) as [E R].
  split; [now apply decode_record_error|exact R].
Qed.

(** The typed operations, case by case, with the table operation and what
    follows it named. *)
Lemma CreateIncident_cases c inc :
  (exists e,
      Marshal_Incident inc = Err e
      /\ CreateIncident c inc
         = ((None, Some e),
            [Log "info" "Create a ServiceNow incident" [];
             Log "error" "Error while marshalling the incident. %s" [log_err e]]))
  \/ (exists body m,
        Marshal_Incident inc = Ok body
        /\ m = decode_record "Incident %s created"
                 "Error while creating the incident. %s" (create c "incident" body)
        /\ CreateIncident c inc
           = (fst m, Log "info" "Create a ServiceNow incident" [] :: snd m)).
Proof.
  rewrite CreateIncident_eq.
  destruct (Marshal_Incident inc) as [body|e]; [right|left]; eauto.
Qed.

Lemma UpdateIncident_cases c inc :
  (exists e,
      Marshal_Incident inc = Err e
      /\ UpdateIncident c inc
         = ((None, Some e),
            [Log "info" "Update ServiceNow incident %s" [log_str (Number inc)];
             Log "error" "Error while marshalling the incident. %s" [log_err e]]))
  \/ (exists body m,
        Marshal_Incident inc = Ok body
        /\ m = decode_record "Incident %s updated"
                 "Error while updating the incident. %s"
                 (update c "incident" body (SysID inc))
        /\ UpdateIncident c inc
           = (fst m, Log "info" "Update ServiceNow incident %s" [log_str (Number inc)]
                       :: snd m)).
Proof.
  rewrite UpdateIncident_eq.
  destruct (Marshal_Incident inc) as [body|e]; [right|left]; eauto.
Qed.

(** What follows [get] in [GetIncidents]. *)
Definition decode_list (m : go_pair string * list event) : io (go_pair (list Incident)) :=
  match fst m with
  | (_, Some err) =>
      ((None, Some err),
       snd m ++ [Log "error" "Error while getting the incident. %s" [log_err err]])
  | (response, None) =>
      match Unmarshal_IncidentsResponse (bytes_of response) {| Results := None |} with
      | Err err =>
          ((None, Some err),
           snd m ++ [Log "error" "Error while unmarshalling the incident. %s" [log_err err]])
      | Ok ir => ((Results ir, None), snd m)
      end
  end%list.

Lemma GetIncidents_cases c params :
  exists m,
    m = decode_list (get c "incident" params)
    /\ GetIncidents c params
       = (fst m, Log "info" "Get ServiceNow incidents with params: %v" [log_params params]
                   :: snd m).
Proof.
  eexists. split; [reflexivity|].
  rewrite GetIncidents_eq. unfold decode_list.
  destruct (get c "incident" params) as [[response [e|]] t]; cbn [fst snd]; cbv zeta;
    cbn [fst snd]; [reflexivity|].
  destruct (Unmarshal_IncidentsResponse _ _); reflexivity.
Qed.

Lemma decode_list_trace m :
  snd (decode_list m) = snd m
  \/ exists l f args, snd (decode_list m) = (snd m ++ [Log l f args])%list.
Proof.
  destruct m as [[response [e|]] t]; unfold decode_list; cbn [fst snd]; [eauto 6|].
  destruct (Unmarshal_IncidentsResponse _ _); cbn [fst snd]; eauto 6.
Qed.

Lemma decode_list_sent m : sent (snd (decode_list m)) = sent (snd m).
Proof.
  destruct (decode_list_trace m) as [E|(l & f & args & E)]; rewrite E; [reflexivity|].
  rewrite sent_app. cbn. apply app_nil_r.
Qed.

Lemma decode_list_reads m : reads (snd (decode_list m)) = reads (snd m).
Proof.
  destruct (decode_list_trace m) as [E|(l & f & args & E)]; rewrite E; [reflexivity|].
  rewrite reads_app. cbn. lia.
Qed.

Lemma decode_list_closes m : closes (snd (decode_list m)) = closes (snd m).
Proof.
  destruct (decode_list_trace m) as [E|(l & f & args & E)]; rewrite E; [reflexivity|].
  rewrite closes_app. cbn. lia.
Qed.

Lemma decode_list_error m e :
  fst m = (None, Some e) -> fst (decode_list m) = (None, Some e).
Proof.
  destruct m as [[r o] t]. cbn. intros [= -> ->]. reflexivity.
Qed.

Lemma CreateIncident_remote c inc req resp :
  req ∈ sent (snd (CreateIncident c inc)) ->
  http.Do (client c) req = Ok resp ->
  400 <= http.StatusCode resp ->
  fst (CreateIncident c inc) = (None, Some (RemoteError (http.StatusCode resp)))
  /\ reads (snd (CreateIncident c inc)) = 0%nat.
Proof.
  destruct (CreateIncident_cases c inc) as [(e & M & E)|(body & m & M & Em & E)];
    rewrite E; cbn [fst snd].
  - intros S. cbn in S. apply elem_of_nil in S. destruct S.
  - rewrite sent_Log, reads_Log. subst m.
    apply record_call_remote, create_call.
Qed.

Lemma UpdateIncident_remote c inc req resp :
  req ∈ sent (snd (UpdateIncident c inc)) ->
  http.Do (client c) req = Ok resp ->
  400 <= http.StatusCode resp ->
  fst (UpdateIncident c inc) = (None, Some (RemoteError (http.StatusCode resp)))
  /\ reads (snd (UpdateIncident c inc)) = 0%nat.
Proof.
  destruct (UpdateIncident_cases c inc) as [(e & M & E)|(body & m & M & Em & E)];
    rewrite E; cbn [fst snd].
  - intros S. cbn in S. apply elem_of_nil in S. destruct S.
  - rewrite sent_Log, reads_Log. subst m.
    apply record_call_remote, update_call.
Qed.

Lemma GetIncidents_remote c params req resp :
  req ∈ sent (snd (GetIncidents c params)) ->
  http.Do (client c) req = Ok resp ->
  400 <= http.StatusCode resp ->
  fst (GetIncidents c params) = (None, Some (RemoteError (http.StatusCode resp)))
  /\ reads (snd (GetIncidents c params)) = 0%nat.
Proof.
  destruct (GetIncidents_cases c params) as (m & Em & E).
  rewrite E; cbn [fst snd]. rewrite sent_Log, reads_Log. subst m.
  rewrite decode_list_sent, decode_list_reads. intros S D St.
  destruct (table_call_remote c _ req resp (get_call c _ _) S D St) as [Er R].
  split; [now apply decode_list_error|exact R].
Qed.

(** C2. Whenever the request of a call is answered with a status of 400 or
    more, [doRequest], and with it [CreateIncident], [GetIncidents] and
    [UpdateIncident], returns a nil result and the error built from the
    numeric status code; the body is not read (so it is not parsed), and
    what is returned does not depend on it. *)
Theorem C2_status_from_400_is_remote_error (c : ServiceNowClient) (resp : http.Response) :
  400 <= http.StatusCode resp ->
  (forall req,
      http.Do (client c) (prepare c req) = Ok resp ->
      fst (doRequest c req) = (None, Some (RemoteError (http.StatusCode resp)))
      /\ reads (snd (doRequest c req)) = 0%nat)
  /\ (forall inc req,
        req ∈ sent (snd (CreateIncident c inc)) ->
        http.Do (client c) req = Ok resp ->
        fst (CreateIncident c inc) = (None, Some (RemoteError (http.StatusCode resp)))
        /\ reads (snd (CreateIncident c inc)) = 0%nat)
  /\ (forall params req,
        req ∈ sent (snd (GetIncidents c params)) ->
        http.Do (client c) req = Ok resp ->
        fst (GetIncidents c params) = (None, Some (RemoteError (http.StatusCode resp)))
        /\ reads (snd (GetIncidents c params)) = 0%nat)
  /\ (forall inc req,
        req ∈ sent (snd (UpdateIncident c inc)) ->
        http.Do (client c) req = Ok resp ->
        fst (UpdateIncident c inc) = (None, Some (RemoteError (http.StatusCode resp)))
        /\ reads (snd (UpdateIncident c inc)) = 0%nat).
Proof.
  intros St. split; [|split; [|split]].
  - intros req D. destruct (doRequest_remote c req resp D St) as (E & R & _). auto.
  - intros inc req S D. now apply (CreateIncident_remote c inc req resp).
  - intros params req S D. now apply (GetIncidents_remote c params req resp).
  - intros inc req S D. now apply (UpdateIncident_remote c inc req resp).
Qed.

(** ** All or nothing *)

Lemma table_call_outcome c m :
  table_call c m ->
  (exists e, fst m = (None, Some e))
  \/ (exists req resp,
        sent (snd m) = [req]
        /\ http.Do (client c) req = Ok resp
        /\ http.StatusCode resp < 400
        /\ http.read_error (http.ResponseBody resp) = None
        /\ fst m = (Some (http.data (http.ResponseBody resp)), None)).
Proof.
  intros [(e & l & ->)|(req0 & ->)]; [left; eauto|].
  destruct (doRequest_outcome c req0) as [S [E|(resp & D & St & R & E)]]; [left; auto|].
  right. exists (prepare c req0), resp. auto.
Qed.

Lemma decode_record_outcome c done failed m :
  table_call c m ->
  (exists e, fst (decode_record done failed m) = (None, Some e))
  \/ (exists req resp ir,
        sent (snd (decode_record done failed m)) = [req]
        /\ http.Do (client c) req = Ok resp
        /\ http.StatusCode resp < 400
        /\ http.read_error (http.ResponseBody resp) = None
        /\ Unmarshal_IncidentResponse (http.data (http.ResponseBody resp))
             {| Result := Incident_zero |} = Ok ir
        /\ fst (decode_record done failed m) = (Some (Result ir), None)).
Proof.
  intros TC. rewrite decode_record_sent.
  destruct (table_call_outcome c m TC) as [(e & E)|(req & resp & S & D & St & R & E)].
  - left. exists e. now apply decode_record_error.
  - destruct m as [[r o] t]. cbn [fst snd] in *. injection E as -> ->.
    unfold decode_record. cbn [fst snd bytes_of default].
    destruct (Unmarshal_IncidentResponse _ _) as [ir|e] eqn:U; cbn [fst snd].
    + right. exists req, resp, ir. auto 10.
    + left. eauto.
Qed.

Lemma decode_list_outcome c m :
  table_call c m ->
  (exists e, fst (decode_list m) = (None, Some e))
  \/ (exists req resp ir,
        sent (snd (decode_list m)) = [req]
        /\ http.Do (client c) req = Ok resp
        /\ http.StatusCode resp < 400
        /\ http.read_error (http.ResponseBody resp) = None
        /\ Unmarshal_IncidentsResponse (http.data (http.ResponseBody resp))
             {| Results := None |} = Ok ir
        /\ fst (decode_list m) = (Results ir, None)).
Proof.
  intros TC. rewrite decode_list_sent.
  destruct (table_call_outcome c m TC) as [(e & E)|(req & resp & S & D & St & R & E)].
  - left. exists e. now apply decode_list_error.
  - destruct m as [[r o] t]. cbn [fst snd] in *. injection E as -> ->.
    unfold decode_list. cbn [fst snd bytes_of default].
    destruct (Unmarshal_IncidentsResponse _ _) as [ir|e] eqn:U; cbn [fst snd].
    + right. exists req, resp, ir. auto 10.
    + left. eauto.
Qed.

(** ** Closing the response body *)

(** [doRequest] closes the body once when the status is below 400,
    whether the reading fails or not, and not at all from 400 on. *)
Lemma doRequest_closes c req resp :
  http.Do (client c) (prepare c req) = Ok resp ->
  closes (snd (doRequest c req)) = if 400 <=? http.StatusCode resp then 0%nat else 1%nat.
Proof.
  intros D. rewrite doRequest_eq, D.
  destruct (400 <=? http.StatusCode resp); [reflexivity|].
  destruct (http.read_error _); reflexivity.
Qed.

(** ** Responses that are read *)

Lemma table_call_answered c m req resp :
  table_call c m ->
  req ∈ sent (snd m) ->
  http.Do (client c) req = Ok resp ->
  http.StatusCode resp < 400 ->
  http.read_error (http.ResponseBody resp) = None ->
  fst m = (Some (http.data (http.ResponseBody resp)), None).
Proof.
  intros [(e & l & ->)|(req0 & ->)] S D St R.
  - cbn in S. now apply elem_of_nil in S.
  - destruct (doRequest_outcome c req0) as [E _]. rewrite E in S.
    apply list_elem_of_singleton in S. subst req.
    rewrite doRequest_eq, D.
    destruct (Z.leb_spec 400 (http.StatusCode resp)); [lia|]. now rewrite R.
Qed.

(** The pair that [CreateIncident] and [UpdateIncident] return for the
    bytes of a response that was read. *)
Definition record_of (data : string) : go_pair Incident :=
  match Unmarshal_IncidentResponse data {| Result := Incident_zero |} with
  | Ok ir => (Some (Result ir), None)
  | Err e => (None, Some e)
  end.

Definition list_of (data : string) : go_pair (list Incident) :=
  match Unmarshal_IncidentsResponse data {| Results := None |} with
  | Ok ir => (Results ir, None)
  | Err e => (None, Some e)
  end.

Lemma decode_record_answered done failed m data :
  fst m = (Some data, None) -> fst (decode_record done failed m) = record_of data.
Proof.
  destruct m as [[r o] t]. cbn [fst]. intros [= -> ->].
  unfold decode_record, record_of. cbn [fst snd bytes_of default].
  destruct (Unmarshal_IncidentResponse _ _); reflexivity.
Qed.

Lemma decode_list_answered m data :
  fst m = (Some data, None) -> fst (decode_list m) = list_of data.
Proof.
  destruct m as [[r o] t]. cbn [fst]. intros [= -> ->].
  unfold decode_list, list_of. cbn [fst snd bytes_of default].
  destruct (Unmarshal_IncidentsResponse _ _); reflexivity.
Qed.

Lemma CreateIncident_answered c inc req resp :
  req ∈ sent (snd (CreateIncident c inc)) ->
  http.Do (client c) req = Ok resp ->
  http.StatusCode resp < 400 ->
  http.read_error (http.ResponseBody resp) = None ->
  fst (CreateIncident c inc) = record_of (http.data (http.ResponseBody resp)).
Proof.
  destruct (CreateIncident_cases c inc) as [(e & M & E)|(body & m & M & Em & E)];
    rewrite E; cbn [fst snd].
  - intros S. cbn in S. apply elem_of_nil in S. destruct S.
  - rewrite sent_Log. subst m. rewrite decode_record_sent. intros S D St R.
    apply decode_record_answered.
    now apply (table_call_answered c _ req resp (create_call c _ _)).
Qed.

Lemma UpdateIncident_answered c inc req resp :
  req ∈ sent (snd (UpdateIncident c inc)) ->
  http.Do (client c) req = Ok resp ->
  http.StatusCode resp < 400 ->
  http.read_error (http.ResponseBody resp) = None ->
  fst (UpdateIncident c inc) = record_of (http.data (http.ResponseBody resp)).
Proof.
  destruct (UpdateIncident_cases c inc) as [(e & M & E)|(body & m & M & Em & E)];
    rewrite E; cbn [fst snd].
  - intros S. cbn in S. apply elem_of_nil in S. destruct S.
  - rewrite sent_Log. subst m. rewrite decode_record_sent. intros S D St R.
    apply decode_record_answered.
    now apply (table_call_answered c _ req resp (update_call c _ _ _)).
Qed.

Lemma GetIncidents_answered c params req resp :
  req ∈ sent (snd (GetIncidents c params)) ->
  http.Do (client c) req = Ok resp ->
  http.StatusCode resp < 400 ->
  http.read_error (http.ResponseBody resp) = None ->
  fst (GetIncidents c params) = list_of (http.data (http.ResponseBody resp)).
Proof.
  destruct (GetIncidents_cases c params) as (m & Em & E).
  rewrite E; cbn [fst snd]. rewrite sent_Log. subst m.
  rewrite decode_list_sent. intros S D St R.
  apply decode_list_answered.
  now apply (table_call_answered c _ req resp (get_call c _ _)).
Qed.

(** ** Envelopes without a result *)

Definition selects_result (key : string) : bool :=
  match json.find_field ["result"] key with Some _ => true | None => false end.

(** The value is [null], or an object each of whose members named [result]
    (in any case of the letters) is [null]. *)
Definition no_result (v : json.value) : bool :=
  match v with
  | json.JNull => true
  | json.JObject members =>
      forallb (fun kv => negb (selects_result (fst kv))
                         || match snd kv with json.JNull => true | _ => false end)
              members
  | _ => false
  end.

Lemma decode_result_members_null {A} (store : json.value -> A -> json.decoder A)
    (cur : A) members saved :
  (forall saved', store json.JNull cur saved' = Ok (cur, saved')) ->
  forallb (fun kv => negb (selects_result (fst kv))
                     || match snd kv with json.JNull => true | _ => false end)
          members = true ->
  decode_result_members store cur members saved = Ok (cur, saved).
Proof.
  intros Hnull. revert saved.
  induction members as [|[key v] rest IH]; intros saved Hall; [reflexivity|].
  cbn [forallb fst snd] in Hall. apply andb_prop in Hall as [Hm Hrest].
  cbn [decode_result_members]. unfold selects_result in Hm.
  destruct (json.find_field ["result"] key); cbn [negb orb] in Hm.
  - destruct v; try discriminate. unfold json.dbind. rewrite Hnull. now apply IH.
  - now apply IH.
Qed.

Lemma Unmarshal_no_result data v :
  json.parse data = Some v -> no_result v = true ->
  Unmarshal_IncidentResponse data {| Result := Incident_zero |}
    = Ok {| Result := Incident_zero |}
  /\ Unmarshal_IncidentsResponse data {| Results := None |} = Ok {| Results := None |}.
Proof.
  intros P N. unfold Unmarshal_IncidentResponse, Unmarshal_IncidentsResponse, Unmarshal.
  rewrite P. cbn [Result Results].
  destruct v; try discriminate; cbn [decode_envelope json.dret result_bind].
  - split; reflexivity.
  - cbn [no_result] in N.
    rewrite (decode_result_members_null decode_Incident Incident_zero members None)
      by (reflexivity || exact N).
    rewrite (decode_result_members_null decode_Incidents None members None)
      by (reflexivity || exact N).
    split; reflexivity.
Qed.


(** ** The numeric-as-text fields *)







(** ** The fields with [omitempty] *)








Definition string_or_null (v : json.value) : bool :=
  match v with json.JString _ | json.JNull => true | _ => false end.






End properties.

(** ** Construction *)

Lemma NewServiceNowClient_fails_iff (d : http.Client) (instanceName userName password : string) :
  (exists e, NewServiceNowClient d instanceName userName password = (None, Some e))
  <-> instanceName = "" \/ userName = "" \/ password = "".
Proof.
  unfold NewServiceNowClient.
  destruct (String.eqb_spec instanceName "") as [->|Hi]; [split; eauto|].
  destruct (String.eqb_spec userName "") as [->|Hu]; [split; eauto|].
  destruct (String.eqb_spec password "") as [->|Hp]; [split; eauto|].
  split; [intros [e E]; discriminate|tauto].
Qed.

Lemma Sprintf_Basic s : fmt.Sprintf "Basic %s" [fmt.str s] = "Basic " +:+ s.
Proof. cbn. now rewrite string_app_nil_r. Qed.

Lemma NewServiceNowClient_succeeds (d : http.Client) (instanceName userName password : string) :
  instanceName <> "" -> userName <> "" -> password <> "" ->
  NewServiceNowClient d instanceName userName password
  = (Some {| baseURL := "https://" +:+ instanceName +:+ ".service-now.com";
             authHeader := "Basic " +:+ base64.EncodeToString base64.URLEncoding
                                          (userName +:+ ":" +:+ password);
             client := d |},
     None).
Proof.
  intros Hi Hu Hp. unfold NewServiceNowClient.
  destruct (String.eqb_spec instanceName ""); [contradiction|].
  destruct (String.eqb_spec userName ""); [contradiction|].
  destruct (String.eqb_spec password ""); [contradiction|].
  now rewrite Sprintf_Basic.
Qed.

(** The alphabet of [base64.URLEncoding] is that of [base64.StdEncoding]
    with [-] for [+] and [_] for [/]. *)
Definition url_safe (c : ascii) : ascii :=
  if Ascii.eqb c "+" then "-"%char else if Ascii.eqb c "/" then "_"%char else c.

Lemma sextet_url_safe val shift :
  base64.sextet base64.URLEncoding val shift
  = url_safe (base64.sextet base64.StdEncoding val shift).
Proof.
  unfold base64.sextet.
  assert (R : 0 <= Z.land (Z.shiftr val shift) 63 < 64).
  { split; [apply Z.land_nonneg; lia|].
    change 63 with (Z.ones 6). rewrite Z.land_ones by lia. apply Z.mod_pos_bound. lia. }
  generalize dependent (Z.land (Z.shiftr val shift) 63). intros v R.
  assert (A : forallb (fun n => Ascii.eqb
                         (index_byte (base64.encode base64.URLEncoding) (Z.of_nat n))
                         (url_safe (index_byte (base64.encode base64.StdEncoding)
                                               (Z.of_nat n))))
                      (seq 0 64) = true) by (vm_compute; reflexivity).
  rewrite forallb_forall in A.
  specialize (A (Z.to_nat v)). rewrite Z2Nat.id in A by lia.
  apply Ascii.eqb_eq, A, in_seq. lia.
Qed.

Lemma string_triples (P : string -> Prop) :
  P "" ->
  (forall a, P (String a "")) ->
  (forall a b, P (String a (String b ""))) ->
  (forall a b c s, P s -> P (String a (String b (String c s)))) ->
  forall s, P s.
Proof.
  intros P0 P1 P2 P3 s.
  enough (A : P s /\ (forall a, P (String a s)) /\ (forall a b, P (String a (String b s))))
    by apply A.
  induction s as [|c s (IH0 & IH1 & IH2)]; [auto|].
  split; [apply IH1|]. split; [intros a; apply IH2|].
  intros a b. apply P3, IH0.
Qed.

Lemma URLEncoding_StdEncoding s :
  base64.EncodeToString base64.URLEncoding s
  = strings.map url_safe (base64.EncodeToString base64.StdEncoding s).
Proof.
  induction s as [|a|a b|a b c s IH] using string_triples.
  - reflexivity.
  - cbn [base64.EncodeToString strings.map]. now rewrite !sextet_url_safe.
  - cbn [base64.EncodeToString strings.map]. now rewrite !sextet_url_safe.
  - cbn [base64.EncodeToString strings.map]. now rewrite !sextet_url_safe, IH.
Qed.

(** [c] does not occur in [s]. *)
Definition without (c : ascii) (s : string) : bool :=
  strings.all (fun d => negb (Ascii.eqb d c)) s.

Lemma IndexByte_from_without i s c :
  0 <= i -> (0 <=? strings.IndexByte_from i s c) = negb (without c s).
Proof.
  revert i. induction s as [|d s IH]; intros i Hi; [reflexivity|].
  cbn [strings.IndexByte_from without strings.all].
  destruct (Ascii.eqb d c); cbn [negb andb].
  - now apply Z.leb_le.
  - apply IH. lia.
Qed.

Lemma ContainsByte_without s c : strings.ContainsByte s c = negb (without c s).
Proof. apply IndexByte_from_without. lia. Qed.

Lemma map_url_safe_id s :
  without "+" s = true -> without "/" s = true -> strings.map url_safe s = s.
Proof.
  induction s as [|c s IH]; [reflexivity|].
  cbn [without strings.all strings.map]. intros [Hc Hp]%andb_prop [Hd Hs]%andb_prop.
  unfold url_safe at 1. apply negb_true_iff in Hc, Hd. rewrite Hc, Hd.
  f_equal. now apply IH.
Qed.

(** * Test doubles

    The instance of the library parameters and the servers used to run the
    program on concrete inputs.  No example below puts a number in a
    [LinkedValue], so the stand-in for [float64] (the literal itself) plays
    no part in them. *)

Definition example_library : GoLibrary :=
  {| float64 := string;
     ParseFloat := fun lit => Some lit;
     FormatFloat := fun f => Some f;
     strictNumber := true |}.


(** A server that answers every request with [status] and [body]. *)
Definition mock_server (status : Z) (body : string) : http.Client :=
  {| http.Do := fun _ =>
       Ok {| http.StatusCode := status;
             http.ResponseBody := {| http.data := body; http.read_error := None |} |} |}.

(** The client of [NewServiceNowClient("acme", "bob", "secret")]. *)
Definition acme (transport : http.Client) : ServiceNowClient :=
  {| baseURL := "https://acme.service-now.com";
     authHeader := "Basic Ym9iOnNlY3JldA==";
     client := transport |}.

Example acme_constructed transport :
  NewServiceNowClient transport "acme" "bob" "secret" = (Some (acme transport), None).
Proof. reflexivity. Qed.

Example construction_rejects_empty transport :
  NewServiceNowClient transport "" "u" "p" = (None, Some (errors_New "Missing instanceName"))
  /\ NewServiceNowClient transport "i" "" "p" = (None, Some (errors_New "Missing userName"))
  /\ NewServiceNowClient transport "i" "u" "" = (None, Some (errors_New "Missing password")).
Proof. repeat split. Qed.

(** An incident as a caller fills it in before creation. *)
Definition example_incident : Incident (H := example_library) :=
  {| AssignmentGroup := json.of_string "network"; ContactType := "";
     CallerID := json.any_nil; Comments := "disk full"; Description := "host db1";
     GroupKey := "{}:{alertname=disk}"; Impact := ""; Number := ""; Priority := "";
     ShortDescription := "disk"; State := ""; SysID := ""; Urgency := "" |}.

(** C1. The Authorization header is built with [base64.URLEncoding], whose
    alphabet differs from that of Basic authentication ([base64.StdEncoding])
    in two digits: for the user [bob] and the password [??] the client holds
    [Basic Ym9iOj8_], and the header of RFC 7617 is [Basic Ym9iOj8/]. *)
Theorem C1_authorization_header_alphabet :
  NewServiceNowClient (mock_server 200 "") "acme" "bob" "??"
  = (Some {| baseURL := "https://acme.service-now.com";
             authHeader := "Basic Ym9iOj8_";
             client := mock_server 200 "" |}, None)
  /\ "Basic " +:+ base64.EncodeToString base64.StdEncoding "bob:??" = "Basic Ym9iOj8/".
Proof. split; reflexivity. Qed.

(** The request that [create] builds for the table [incident] of [acme]. *)
Definition example_request : http.Request :=
  {| http.Method := "POST";
     http.URL := {| url.Scheme := "https"; url.Opaque := ""; url.User := None;
                    url.Host := "acme.service-now.com";
                    url.Path := "/api/now/v2/table/incident"; url.RawPath := "";
                    url.ForceQuery := false; url.RawQuery := ""; url.Fragment := "" |};
     http.Header := ∅; http.Body := Some "{}"; http.ContentLength := 2;
     http.Host := "acme.service-now.com" |}.

Example example_request_built :
  http.NewRequest "POST" "https://acme.service-now.com/api/now/v2/table/incident" (Some "{}")
  = Ok example_request.
Proof. vm_compute. reflexivity. Qed.

Lemma C2_witness :
  400 <= 500
  /\ fst (doRequest (acme (mock_server 500 "{}")) example_request)
     = (None, Some (RemoteError 500))
  /\ reads (snd (doRequest (acme (mock_server 500 "{}")) example_request)) = 0%nat.
Proof.
  split; [lia|].
  apply (C2_status_from_400_is_remote_error (H := example_library)
           (acme (mock_server 500 "{}"))
           {| http.StatusCode := 500;
              http.ResponseBody := {| http.data := "{}"; http.read_error := None |} |});
    [cbn; lia|reflexivity].
Defined.

(** C3. On a response with status 500 [doRequest] returns before the
    deferred [Close] is set up: the body is read zero times and closed zero
    times, where one closing is due. *)
Theorem C3_body_left_open_from_400 :
  fst (doRequest (acme (mock_server 500 "{}")) example_request)
  = (None, Some (RemoteError 500))
  /\ closes (snd (doRequest (acme (mock_server 500 "{}")) example_request)) = 0%nat
  /\ closes (snd (doRequest (acme (mock_server 200 "{}")) example_request)) = 1%nat.
Proof. vm_compute. repeat split. Qed.

(** ** Decoding: examples and counterexamples *)




(** C6 as stated fails: a call that returns no error need not return a
    populated output.  On a body without a [result], or [null],
    [GetIncidents] returns a nil sequence and no error, and [CreateIncident]
    and [UpdateIncident] return a zero [Incident]: so does [CreateIncident]
    on the error object of the remote system sent with a status below 400. *)
Lemma C6_counterexample :
  fst (GetIncidents (H := example_library) (acme (mock_server 200 "{}")) ∅) = (None, None)
  /\ fst (GetIncidents (H := example_library) (acme (mock_server 200 "null")) ∅)
     = (None, None)
  /\ fst (CreateIncident (H := example_library)
            (acme (mock_server 200 (dq "{'error':{'message':'Invalid table'},'status':'failure'}")))
            example_incident)
     = (Some Incident_zero, None)
  /\ fst (UpdateIncident (H := example_library) (acme (mock_server 200 "{}"))
            example_incident)
     = (Some Incident_zero, None).
Proof. vm_compute. repeat split. Qed.


(** A quoted and a bare literal through the whole client: the record holds
    the texts, and encoding it writes them bare. *)
Example numbers_through_the_client :
  fst (CreateIncident (H := example_library)
         (acme (mock_server 201
                  (dq "{'result':{'impact':'3','state':2,'urgency':'1.50','number':'INC0001'}}")))
         example_incident)
  = (Some (set_Number "INC0001"
             (set_Urgency "1.50" (set_State "2" (set_Impact "3" Incident_zero)))), None)
  /\ Marshal_Incident (H := example_library)
       (set_Urgency "1.50" (set_State "2" (set_Impact "3" Incident_zero)))
     = Ok (dq "{'assignment_group':null,'comments':'','description':'','u_other_reference_1':'','impact':3,'short_description':'','state':2,'urgency':1.50}").
Proof. vm_compute. repeat split. Qed.

(** * The requests that are sent *)

(** ** Bytes, one by one *)

Definition all_bytes : list ascii := List.map (fun n => ascii_of_nat n) (seq 0 256).

Lemma in_all_bytes c : In c all_bytes.
Proof.
  unfold all_bytes. apply in_map_iff. exists (nat_of_ascii c).
  split; [apply ascii_nat_embedding|]. apply in_seq.
  pose proof (nat_ascii_bounded c). lia.
Qed.

(** A property of bytes that holds of the 256 of them. *)
Lemma for_all_bytes (f : ascii -> bool) : forallb f all_bytes = true -> forall c, f c = true.
Proof.
  intros A c. rewrite forallb_forall in A. apply A, in_all_bytes.
Qed.

Lemma all_app p s t : strings.all p (s +:+ t) = strings.all p s && strings.all p t.
Proof.
  induction s as [|c s IH]; [reflexivity|].
  simpl. now rewrite IH, andb_assoc.
Qed.

Lemma all_impl (p q : ascii -> bool) s :
  (forall c, implb (p c) (q c) = true) -> strings.all p s = true -> strings.all q s = true.
Proof.
  intros I. induction s as [|c s IH]; [reflexivity|].
  simpl. intros [Hc Hs]%andb_prop.
  specialize (I c). rewrite Hc in I. cbn in I. rewrite I. now apply IH.
Qed.

Lemma break_at_without s c : without c s = true -> strings.break_at s c = None.
Proof.
  induction s as [|d s IH]; [reflexivity|].
  unfold without. simpl. intros [Hd Hs]%andb_prop.
  apply negb_true_iff in Hd. rewrite Hd. now rewrite IH.
Qed.

Lemma break_at_app s c t :
  without c s = true -> strings.break_at (s +:+ String c t) c = Some (s, String c t).
Proof.
  induction s as [|d s IH]; intros W.
  - change ("" +:+ String c t) with (String c t).
    unfold strings.break_at. now rewrite Ascii.eqb_refl.
  - unfold without in W. simpl in W. apply andb_prop in W as [Hd Hs].
    apply negb_true_iff in Hd. simpl. rewrite Hd. now rewrite (IH Hs).
Qed.

Lemma break_at_last_without s c : without c s = true -> strings.break_at_last s c = None.
Proof.
  induction s as [|d s IH]; [reflexivity|].
  unfold without. simpl. intros [Hd Hs]%andb_prop.
  apply negb_true_iff in Hd. now rewrite IH, Hd.
Qed.

Lemma last_byte_without s c :
  without c s = true ->
  match strings.last_byte s with Some d => Ascii.eqb d c | None => false end = false.
Proof.
  induction s as [|d s IH]; [reflexivity|].
  unfold without. simpl strings.all. intros [Hd Hs]%andb_prop.
  apply negb_true_iff in Hd.
  destruct s as [|e s]; [exact Hd|]. exact (IH Hs).
Qed.

(** ** Host names and paths *)

(** The bytes of a host name: letters, digits, [-] and [.]. *)
Definition hostname_byte (c : ascii) : bool := is_alnum c || url.byte_in c "-.".

(** The bytes that stand for themselves in the path of a URL: all but the
    control bytes and [?], [#], [%]. *)
Definition path_byte (c : ascii) : bool :=
  negb ((byte_val c <? 32) || (byte_val c =? 127)) && negb (url.byte_in c "?#%").

Definition not_control (c : ascii) : bool :=
  negb ((byte_val c <? 32) || (byte_val c =? 127)).

Lemma hostname_byte_facts c :
  hostname_byte c = true ->
  path_byte c = true
  /\ Ascii.eqb c "/" = false /\ Ascii.eqb c "@" = false /\ Ascii.eqb c "[" = false
  /\ Ascii.eqb c ":" = false /\ Ascii.eqb c "%" = false /\ Ascii.eqb c "+" = false
  /\ url.shouldEscape c url.encodeHost = false.
Proof.
  pose proof (for_all_bytes
    (fun c => implb (hostname_byte c)
                (path_byte c && negb (Ascii.eqb c "/") && negb (Ascii.eqb c "@")
                 && negb (Ascii.eqb c "[") && negb (Ascii.eqb c ":")
                 && negb (Ascii.eqb c "%") && negb (Ascii.eqb c "+")
                 && negb (url.shouldEscape c url.encodeHost)))) as A.
  specialize (A ltac:(vm_compute; reflexivity) c). cbv beta in A.
  intros Hc. rewrite Hc in A.
  cbn [implb] in A. do 7 (apply andb_prop in A as [A ?]).
  repeat match goal with H : negb _ = true |- _ => apply negb_true_iff in H end.
  repeat split; assumption.
Qed.

Lemma path_byte_facts c :
  path_byte c = true ->
  not_control c = true
  /\ Ascii.eqb c "?" = false /\ Ascii.eqb c "#" = false /\ Ascii.eqb c "%" = false.
Proof.
  pose proof (for_all_bytes
    (fun c => implb (path_byte c)
                (not_control c && negb (Ascii.eqb c "?") && negb (Ascii.eqb c "#")
                 && negb (Ascii.eqb c "%")))) as A.
  specialize (A ltac:(vm_compute; reflexivity) c). cbv beta in A.
  intros Hc. rewrite Hc in A.
  cbn [implb] in A. do 3 (apply andb_prop in A as [A ?]).
  repeat match goal with H : negb _ = true |- _ => apply negb_true_iff in H end.
  repeat split; assumption.
Qed.

Lemma all_without p c s :
  (forall d, p d = true -> Ascii.eqb d c = false) ->
  strings.all p s = true -> without c s = true.
Proof.
  intros I. apply all_impl. intros d. destruct (p d) eqn:E; [|reflexivity].
  cbn. now rewrite (I d E).
Qed.

Lemma hostname_path s : strings.all hostname_byte s = true -> strings.all path_byte s = true.
Proof.
  apply all_impl. intros c. destruct (hostname_byte c) eqn:E; [|reflexivity].
  cbn. apply (hostname_byte_facts c E).
Qed.

Lemma without_app c s t : without c (s +:+ t) = without c s && without c t.
Proof. apply all_app. Qed.

(** A path without [%] is its own decoding. *)
Lemma unescape_path s : without "%" s = true -> url.unescape s url.encodePath = Ok s.
Proof.
  induction s as [|c s IH]; [reflexivity|].
  unfold without. simpl strings.all. intros [Hc Hs]%andb_prop.
  apply negb_true_iff in Hc. simpl. rewrite Hc.
  rewrite (IH Hs). destruct (Ascii.eqb_spec c "+") as [->|]; reflexivity.
Qed.

(** So is a host name. *)
Lemma unescape_host s :
  strings.all hostname_byte s = true -> url.unescape s url.encodeHost = Ok s.
Proof.
  induction s as [|c s IH]; [reflexivity|].
  simpl strings.all. intros [Hc Hs]%andb_prop.
  destruct (hostname_byte_facts c Hc) as (_ & _ & _ & _ & _ & Hp & Hplus & Hesc).
  simpl. rewrite Hp, Hplus, Hesc, andb_false_r. now rewrite (IH Hs).
Qed.

(** ** The URL of a table *)

Lemma force_query_without s :
  without "?" s = true ->
  match strings.last_byte s with
  | Some c => Ascii.eqb c "?" && (strings.Count s "?" =? 1)
  | None => false
  end = false.
Proof.
  intros W. pose proof (last_byte_without s "?" W) as L.
  destruct (strings.last_byte s); [|reflexivity]. now rewrite L.
Qed.

Lemma HasPrefix_without s c :
  without c s = true -> strings.HasPrefix s (String c "") = false.
Proof.
  destruct s as [|d s]; [reflexivity|].
  unfold without. simpl strings.all. intros [Hd _]%andb_prop.
  apply negb_true_iff in Hd. unfold strings.HasPrefix. simpl.
  destruct (ascii_dec c d) as [->|]; [|reflexivity].
  now rewrite Ascii.eqb_refl in Hd.
Qed.

Lemma HasPrefix_slashes rest : strings.HasPrefix ("//" +:+ rest) "//" = true.
Proof. unfold strings.HasPrefix. simpl. now destruct rest. Qed.

Lemma stringContainsCTLByte_path s :
  strings.all path_byte s = true -> url.stringContainsCTLByte s = false.
Proof.
  intros A. unfold url.stringContainsCTLByte. apply negb_false_iff.
  revert A. apply all_impl. intros c. destruct (path_byte c) eqn:E; [|reflexivity].
  apply (path_byte_facts c E).
Qed.

Lemma parseHost_hostname host :
  strings.all hostname_byte host = true -> url.parseHost host = Ok host.
Proof.
  intros A. unfold url.parseHost.
  rewrite (HasPrefix_without host "[")
    by (revert A; apply all_without; intros d Hd; apply (hostname_byte_facts d Hd)).
  rewrite (break_at_last_without host ":")
    by (revert A; apply all_without; intros d Hd; apply (hostname_byte_facts d Hd)).
  now apply unescape_host.
Qed.

Lemma parseAuthority_hostname host :
  strings.all hostname_byte host = true -> url.parseAuthority host = Ok (None, host).
Proof.
  intros A. unfold url.parseAuthority.
  rewrite (break_at_last_without host "@")
    by (revert A; apply all_without; intros d Hd; apply (hostname_byte_facts d Hd)).
  now rewrite (parseHost_hostname host A).
Qed.

(** The URL that [url.Parse] reads in [https://host/path], for a host name
    and a path whose bytes stand for themselves. *)
Definition https_URL (host path : string) : url.URL :=
  {| url.Scheme := "https"; url.Opaque := ""; url.User := None; url.Host := host;
     url.Path := path;
     url.RawPath := if String.eqb path (url.escape path url.encodePath) then "" else path;
     url.ForceQuery := false; url.RawQuery := ""; url.Fragment := "" |}.

Lemma parse_https host q :
  strings.all hostname_byte host = true ->
  strings.all path_byte q = true ->
  url.parse ("https://" +:+ host +:+ String "/" q) false
  = Ok (https_URL host (String "/" q)).
Proof.
  intros Hh Hq.
  assert (Hrest : strings.all path_byte (host +:+ String "/" q) = true).
  { rewrite all_app, (hostname_path host Hh). simpl. exact Hq. }
  assert (Hslash : without "/" host = true).
  { revert Hh. apply all_without. intros d Hd. apply (hostname_byte_facts d Hd). }
  assert (Hpct : without "%" (String "/" q) = true).
  { unfold without. simpl. revert Hq. apply all_impl. intros c.
    destruct (path_byte c) eqn:E; [|reflexivity]. cbn.
    destruct (path_byte_facts c E) as (_ & _ & _ & ->). reflexivity. }
  pose proof (break_at_app host "/" q Hslash) as Hbreak.
  remember (host +:+ String "/" q) as rest eqn:Erest.
  assert (Hraw : strings.all path_byte ("https://" +:+ rest) = true).
  { rewrite all_app, Hrest. reflexivity. }
  assert (Hq0 : without "?" ("//" +:+ rest) = true).
  { rewrite without_app. apply andb_true_intro. split; [reflexivity|].
    revert Hrest. apply all_without. intros d Hd. apply (path_byte_facts d Hd). }
  unfold url.parse.
  rewrite (stringContainsCTLByte_path _ Hraw).
  change (url.getscheme ("https://" +:+ rest)) with (Ok ("https", "//" +:+ rest)).
  change (String.eqb ("https://" +:+ rest) "") with false.
  change (String.eqb ("https://" +:+ rest) "*") with false.
  cbn [andb result_bind fst snd].
  change (strings.map strings.lower_byte "https") with "https".
  rewrite (force_query_without _ Hq0).
  unfold url.split at 1. rewrite (break_at_without _ _ Hq0).
  change (strings.HasPrefix ("//" +:+ rest) "/") with true.
  rewrite (HasPrefix_slashes rest).
  change (String.eqb "https" "") with false.
  cbn [andb negb orb].
  change (strings.tail (strings.tail ("//" +:+ rest))) with rest.
  unfold url.split. rewrite Hbreak.
  rewrite (parseAuthority_hostname host Hh). cbn [result_bind fst snd].
  unfold url.setPath. rewrite (unescape_path _ Hpct). reflexivity.
Qed.

Lemma Parse_https host q :
  strings.all hostname_byte host = true ->
  strings.all path_byte q = true ->
  url.Parse ("https://" +:+ host +:+ String "/" q) = Ok (https_URL host (String "/" q)).
Proof.
  intros Hh Hq.
  assert (Hhash : without "#" ("https://" +:+ host +:+ String "/" q) = true).
  { rewrite !without_app. apply andb_true_intro. split; [reflexivity|].
    apply andb_true_intro. split.
    - generalize (hostname_path host Hh). apply all_without.
      intros d Hd. apply (path_byte_facts d Hd).
    - unfold without. simpl. revert Hq. apply all_impl. intros c.
      destruct (path_byte c) eqn:E; [|reflexivity]. cbn.
      destruct (path_byte_facts c E) as (_ & _ & -> & _). reflexivity. }
  unfold url.Parse, url.split. rewrite (break_at_without _ _ Hhash).
  rewrite (parse_https host q Hh Hq). reflexivity.
Qed.

Lemma removeEmptyPort_hostname host :
  strings.all hostname_byte host = true -> http.removeEmptyPort host = host.
Proof.
  intros A. unfold http.removeEmptyPort.
  rewrite (break_at_last_without host ":")
    by (revert A; apply all_without; intros d Hd; apply (hostname_byte_facts d Hd)).
  destruct (strings.break_at_last host "]") as [[l r]|].
  - destruct (Z.ltb_spec (Z.of_nat (String.length l)) (-1)); [lia|reflexivity].
  - reflexivity.
Qed.

(** The request that [http.NewRequest] builds for [https://host/path]. *)
Definition https_request (method host path : string) (body : option string) : http.Request :=
  {| http.Method := method; http.URL := https_URL host path; http.Header := ∅;
     http.Body := body;
     http.ContentLength := match body with
                           | Some b => Z.of_nat (String.length b)
                           | None => 0
                           end;
     http.Host := host |}.

Lemma NewRequest_https method host q body :
  method <> "" -> http.validMethod method = true ->
  strings.all hostname_byte host = true ->
  strings.all path_byte q = true ->
  http.NewRequest method ("https://" +:+ host +:+ String "/" q) body
  = Ok (https_request method host (String "/" q) body).
Proof.
  intros Hm Hv Hh Hq. unfold http.NewRequest.
  destruct (String.eqb_spec method ""); [contradiction|].
  rewrite Hv, (Parse_https host q Hh Hq). cbn [negb result_bind].
  unfold url.set_Host, https_URL. cbn [url.Host url.Scheme url.Opaque url.User url.Path
    url.RawPath url.ForceQuery url.RawQuery url.Fragment].
  rewrite (removeEmptyPort_hostname host Hh). reflexivity.
Qed.

(** ** Clients made by [NewServiceNowClient] *)

Lemma NewServiceNowClient_inv (d : http.Client) (instanceName userName password : string) c :
  NewServiceNowClient d instanceName userName password = (Some c, None) ->
  c = {| baseURL := "https://" +:+ instanceName +:+ ".service-now.com";
         authHeader := "Basic " +:+ base64.EncodeToString base64.URLEncoding
                                      (userName +:+ ":" +:+ password);
         client := d |}.
Proof.
  intros E.
  assert (Hi : instanceName <> "").
  { intros ->. discriminate E. }
  assert (Hu : userName <> "").
  { intros ->. unfold NewServiceNowClient in E.
    destruct (String.eqb instanceName ""); discriminate E. }
  assert (Hp : password <> "").
  { intros ->. unfold NewServiceNowClient in E.
    destruct (String.eqb instanceName ""); [discriminate E|].
    destruct (String.eqb userName ""); discriminate E. }
  rewrite (NewServiceNowClient_succeeds d _ _ _ Hi Hu Hp) in E. congruence.
Qed.

(** The host of an instance and the paths of the table API. *)
Definition instance_host (instanceName : string) : string :=
  instanceName +:+ ".service-now.com".

Definition table_path (table : string) : string := "/api/now/v2/table/" +:+ table.

Definition record_path (table sysID : string) : string :=
  "/api/now/v2/table/" +:+ table +:+ "/" +:+ sysID.

Lemma instance_host_bytes i :
  strings.all hostname_byte i = true -> strings.all hostname_byte (instance_host i) = true.
Proof. intros A. unfold instance_host. now rewrite all_app, A. Qed.

Lemma table_url i table :
  ("https://" +:+ i +:+ ".service-now.com") +:+ "/api/now/v2/table/" +:+ table
  = "https://" +:+ instance_host i +:+ String "/" ("api/now/v2/table/" +:+ table).
Proof. unfold instance_host. now rewrite !string_app_assoc. Qed.

Lemma record_url i table sysID :
  ("https://" +:+ i +:+ ".service-now.com") +:+ "/api/now/v2/table/" +:+ table
     +:+ "/" +:+ sysID
  = "https://" +:+ instance_host i
      +:+ String "/" ("api/now/v2/table/" +:+ table +:+ "/" +:+ sysID).
Proof. unfold instance_host. now rewrite !string_app_assoc. Qed.

Section requests.
Context `{GoLibrary}.

(** The client was made for the instance [i]. *)
Definition client_of (i : string) (c : ServiceNowClient) : Prop :=
  strings.all hostname_byte i = true
  /\ baseURL c = "https://" +:+ i +:+ ".service-now.com".

Lemma create_request i c table body :
  client_of i c -> strings.all path_byte table = true ->
  create c table body
  = doRequest c (https_request "POST" (instance_host i) (table_path table) (Some body)).
Proof.
  intros [Hi Hb] Ht. rewrite create_eq, Hb, table_url.
  rewrite NewRequest_https; try reflexivity; try discriminate.
  - now apply instance_host_bytes.
  - now rewrite all_app, Ht.
Qed.

Lemma update_request i c table body sysID :
  client_of i c -> strings.all path_byte table = true ->
  strings.all path_byte sysID = true ->
  update c table body sysID
  = doRequest c (https_request "PUT" (instance_host i) (record_path table sysID) (Some body)).
Proof.
  intros [Hi Hb] Ht Hs. rewrite update_eq, Hb, record_url.
  rewrite NewRequest_https; try reflexivity; try discriminate.
  - now apply instance_host_bytes.
  - rewrite !all_app, Ht, Hs. reflexivity.
Qed.

(** What [doRequest] adds to a request, and what it leaves. *)
Lemma prepare_fields c req :
  http.Method (prepare c req) = http.Method req
  /\ http.URL (prepare c req) = http.URL req
  /\ http.Body (prepare c req) = http.Body req
  /\ http.Header (prepare c req) !! "Content-Type" = Some ["application/json"]
  /\ http.Header (prepare c req) !! "Authorization" = Some [authHeader c].
Proof.
  unfold prepare, http.Header_Set. cbn [http.Method http.URL http.Body http.Header].
  change (http.CanonicalMIMEHeaderKey "Content-Type") with "Content-Type".
  change (http.CanonicalMIMEHeaderKey "Authorization") with "Authorization".
  repeat split.
  - rewrite lookup_insert_ne by discriminate. apply lookup_insert_eq.
  - apply lookup_insert_eq.
Qed.

Lemma UpdateIncident_sends i c inc body :
  client_of i c ->
  Marshal_Incident inc = Ok body ->
  strings.all path_byte (SysID inc) = true ->
  sent (snd (UpdateIncident c inc))
  = [prepare c (https_request "PUT" (instance_host i)
                  (record_path "incident" (SysID inc)) (Some body))].
Proof.
  intros Hc M Hs.
  destruct (UpdateIncident_cases c inc) as [(e & M' & _)|(body' & m & M' & Em & E)];
    [congruence|].
  assert (body' = body) by congruence. subst body'.
  rewrite E. cbn [snd]. rewrite sent_Log. subst m. rewrite decode_record_sent.
  rewrite (update_request i c "incident" body (SysID inc) Hc eq_refl Hs).
  apply doRequest_outcome.
Qed.

Lemma UpdateIncident_request i c inc body :
  client_of i c ->
  Marshal_Incident inc = Ok body ->
  strings.all path_byte (SysID inc) = true ->
  exists req,
    sent (snd (UpdateIncident c inc)) = [req]
    /\ http.Method req = "PUT"
    /\ url.Scheme (http.URL req) = "https"
    /\ url.Host (http.URL req) = i +:+ ".service-now.com"
    /\ url.Path (http.URL req) = "/api/now/v2/table/incident/" +:+ SysID inc
    /\ url.RawQuery (http.URL req) = ""
    /\ http.Body req = Some body
    /\ http.Header req !! "Content-Type" = Some ["application/json"]
    /\ http.Header req !! "Authorization" = Some [authHeader c].
Proof.
  intros Hc M Hs. eexists. split; [exact (UpdateIncident_sends i c inc body Hc M Hs)|].
  destruct (prepare_fields c (https_request "PUT" (instance_host i)
              (record_path "incident" (SysID inc)) (Some body)))
    as (Em & Eu & Eb & Eh1 & Eh2).
  rewrite Em, Eu, Eb. repeat split; assumption.
Qed.

(** C7, as amended. On a client made for a host-name instance, for every
    incident that [json.Marshal] accepts and whose [SysID] is made of bytes
    that stand for themselves in a path (no control byte, [?], [#] or [%]),
    [UpdateIncident] sends one request: a PUT to
    [https://{instance}.service-now.com], path
    [/api/now/v2/table/incident/{SysID}], no query, with the JSON of the
    incident as body and the two headers. *)
Theorem C7_update_puts_to_record_path (i : string) (c : ServiceNowClient)
    (inc : Incident) (body : string) :
  client_of i c ->
  Marshal_Incident inc = Ok body ->
  strings.all path_byte (SysID inc) = true ->
  exists req,
    sent (snd (UpdateIncident c inc)) = [req]
    /\ http.Method req = "PUT"
    /\ url.Scheme (http.URL req) = "https"
    /\ url.Host (http.URL req) = i +:+ ".service-now.com"
    /\ url.Path (http.URL req) = "/api/now/v2/table/incident/" +:+ SysID inc
    /\ url.RawQuery (http.URL req) = ""
    /\ http.Body req = Some body
    /\ http.Header req !! "Content-Type" = Some ["application/json"]
    /\ http.Header req !! "Authorization" = Some [authHeader c].
Proof. apply UpdateIncident_request. Qed.

(** C9. [UpdateIncident] does not look at [SysID] before it sends: with an
    empty [SysID], whenever the incident can be serialized the PUT goes out,
    to the path [/api/now/v2/table/incident/], with the serialized incident;
    and when nothing is sent, it is the serialization that failed. *)
Theorem C9_empty_SysID_is_sent (i : string) (c : ServiceNowClient) (inc : Incident) :
  client_of i c ->
  SysID inc = "" ->
  (forall body,
      Marshal_Incident inc = Ok body ->
      exists req,
        sent (snd (UpdateIncident c inc)) = [req]
        /\ http.Method req = "PUT"
        /\ url.Host (http.URL req) = i +:+ ".service-now.com"
        /\ url.Path (http.URL req) = "/api/now/v2/table/incident/"
        /\ http.Body req = Some body)
  /\ (sent (snd (UpdateIncident c inc)) = [] ->
      exists e, Marshal_Incident inc = Err e
                /\ fst (UpdateIncident c inc) = (None, Some e)).
Proof.
  intros Hc Hs.
  assert (Hp : strings.all path_byte (SysID inc) = true) by now rewrite Hs.
  split.
  - intros body M.
    destruct (UpdateIncident_request i c inc body Hc M Hp)
      as (req & S & Em & _ & Eh & Ep & _ & Eb & _).
    exists req. rewrite Hs in Ep. auto.
  - destruct (Marshal_Incident inc) as [body|e] eqn:M.
    + rewrite (UpdateIncident_sends i c inc body Hc M Hp). discriminate.
    + intros _. exists e. split; [reflexivity|].
      destruct (UpdateIncident_cases c inc) as [(e' & M' & E)|(body' & m & M' & _)];
        [|congruence].
      rewrite E. cbn [fst]. congruence.
Qed.

End requests.

(** ** Query strings *)

(** What [escape] writes for one byte of a query component: [+] for a
    space, the byte itself when it needs no escape (it is then none of [%],
    [+], [&], [=]), or [%] and two hexadecimal digits that spell the byte. *)
Definition escaped_shape (c : ascii) : bool :=
  match url.escape_byte c url.encodeQueryComponent with
  | String d EmptyString =>
      (Ascii.eqb d "+" && Ascii.eqb c " ")
      || (Ascii.eqb d c && negb (url.byte_in d "%+&="))
  | String p (String h1 (String h2 EmptyString)) =>
      Ascii.eqb p "%" && url.ishex h1 && url.ishex h2
      && negb (url.byte_in h1 "%+&=") && negb (url.byte_in h2 "%+&=")
      && Ascii.eqb (byte_of (Z.lor (Z.shiftl (url.unhex h1) 4) (url.unhex h2))) c
  | _ => false
  end.

Lemma escape_byte_shape c : escaped_shape c = true.
Proof. revert c. apply for_all_bytes. vm_compute. reflexivity. Qed.

Lemma byte_in_4 d a b c e :
  url.byte_in d (String a (String b (String c (String e "")))) = false ->
  Ascii.eqb d a = false /\ Ascii.eqb d b = false /\ Ascii.eqb d c = false
  /\ Ascii.eqb d e = false.
Proof.
  unfold url.byte_in. rewrite ContainsByte_without. intros W%negb_false_iff.
  unfold without in W. simpl in W.
  rewrite !(Ascii.eqb_sym d).
  repeat (apply andb_prop in W as [?%negb_true_iff W]). auto.
Qed.

(** Decoding undoes the escape of one byte. *)
Lemma unescape_escape_byte c rest :
  url.unescape (url.escape_byte c url.encodeQueryComponent +:+ rest) url.encodeQueryComponent
  = (t <-? url.unescape rest url.encodeQueryComponent; Ok (String c t)).
Proof.
  pose proof (escape_byte_shape c) as S. unfold escaped_shape in S.
  destruct (url.escape_byte c url.encodeQueryComponent) as [|d [|h1 [|h2 [|x y]]]];
    try discriminate.
  - apply orb_prop in S as [[Hd Hc]%andb_prop|[Hd Hn]%andb_prop].
    + apply Ascii.eqb_eq in Hd, Hc. subst d c. reflexivity.
    + apply Ascii.eqb_eq in Hd. subst d. apply negb_true_iff in Hn.
      destruct (byte_in_4 _ _ _ _ _ Hn) as (Hp & Hplus & _ & _).
      simpl. rewrite Hp, Hplus. reflexivity.
  - repeat (apply andb_prop in S as [S ?]).
    apply Ascii.eqb_eq in S. subst d.
    match goal with E : Ascii.eqb (byte_of _) c = true |- _ => apply Ascii.eqb_eq in E end.
    simpl. 
    match goal with E1 : url.ishex h1 = true, E2 : url.ishex h2 = true |- _ =>
      rewrite E1, E2 end.
    simpl. subst c. reflexivity.
Qed.

Lemma QueryUnescape_QueryEscape s : url.QueryUnescape (url.QueryEscape s) = Ok s.
Proof.
  unfold url.QueryUnescape, url.QueryEscape.
  induction s as [|c s IH]; [reflexivity|].
  simpl url.escape. rewrite unescape_escape_byte, IH. reflexivity.
Qed.

Lemma QueryEscape_inj s t : url.QueryEscape s = url.QueryEscape t -> s = t.
Proof.
  intros E. pose proof (QueryUnescape_QueryEscape s) as Hs.
  rewrite E, QueryUnescape_QueryEscape in Hs. congruence.
Qed.

(** An escaped component holds neither [&] nor [=]. *)
Lemma QueryEscape_without s :
  without "&" (url.QueryEscape s) = true /\ without "=" (url.QueryEscape s) = true.
Proof.
  unfold url.QueryEscape. induction s as [|c s [IHa IHe]]; [split; reflexivity|].
  simpl url.escape. rewrite !without_app, IHa, IHe, !andb_true_r.
  pose proof (escape_byte_shape c) as S. unfold escaped_shape in S.
  destruct (url.escape_byte c url.encodeQueryComponent) as [|d [|h1 [|h2 [|x y]]]];
    try discriminate.
  - apply orb_prop in S as [[Hd Hc]%andb_prop|[Hd Hn]%andb_prop].
    + apply Ascii.eqb_eq in Hd. subst d. split; reflexivity.
    + apply negb_true_iff in Hn. destruct (byte_in_4 _ _ _ _ _ Hn) as (_ & _ & Ha & He).
      unfold without. simpl. now rewrite Ha, He.
  - repeat (apply andb_prop in S as [S ?]).
    apply Ascii.eqb_eq in S. subst d.
    repeat match goal with E : negb (url.byte_in _ _) = true |- _ =>
      apply negb_true_iff in E; apply byte_in_4 in E; destruct E as (_ & _ & ? & ?) end.
    unfold without. simpl.
    repeat match goal with E : Ascii.eqb _ _ = false |- _ => rewrite E; clear E end.
    split; reflexivity.
Qed.

(** One pair of a query string: [key=value], both escaped. *)
Definition query_pair (kv : string * string) : string :=
  url.QueryEscape (fst kv) +:+ "=" +:+ url.QueryEscape (snd kv).

Lemma string_app_inv_l s t u : s +:+ t = s +:+ u -> t = u.
Proof. induction s as [|c s IH]; [auto|]. intros [= E]. auto. Qed.

#[global] Instance query_pair_inj : Inj eq eq query_pair.
Proof.
  intros [k v] [k' v']. unfold query_pair. cbn [fst snd]. intros E.
  pose proof (break_at_app (url.QueryEscape k) "=" (url.QueryEscape v)
                (proj2 (QueryEscape_without k))) as B.
  pose proof (break_at_app (url.QueryEscape k') "=" (url.QueryEscape v')
                (proj2 (QueryEscape_without k'))) as B'.
  change (url.QueryEscape k +:+ "=" +:+ url.QueryEscape v)
    with (url.QueryEscape k +:+ String "=" (url.QueryEscape v)) in E.
  change (url.QueryEscape k' +:+ "=" +:+ url.QueryEscape v')
    with (url.QueryEscape k' +:+ String "=" (url.QueryEscape v')) in E.
  rewrite E, B' in B. injection B as Ek Ev.
  apply QueryEscape_inj in Ek, Ev. congruence.
Qed.

Lemma query_pair_without kv : without "&" (query_pair kv) = true.
Proof.
  unfold query_pair. rewrite !without_app.
  rewrite (proj1 (QueryEscape_without (fst kv))), (proj1 (QueryEscape_without (snd kv))).
  reflexivity.
Qed.

Lemma query_pair_nonempty kv : query_pair kv <> "".
Proof.
  unfold query_pair. destruct (url.QueryEscape (fst kv)); discriminate.
Qed.

(** The pairs of a query string: its pieces between the [&]. *)
Definition query_pairs (q : string) : list string :=
  if String.eqb q "" then [] else url.pieces (fun c => Ascii.eqb c "&") q.

Lemma pieces_without s : without "&" s = true -> url.pieces (fun c => Ascii.eqb c "&") s = [s].
Proof.
  induction s as [|c s IH]; [reflexivity|].
  unfold without. simpl strings.all. intros [Hc Hs]%andb_prop.
  apply negb_true_iff in Hc. simpl. rewrite Hc, (IH Hs). reflexivity.
Qed.

Lemma pieces_app s t :
  without "&" s = true ->
  url.pieces (fun c => Ascii.eqb c "&") (s +:+ String "&" t)
  = s :: url.pieces (fun c => Ascii.eqb c "&") t.
Proof.
  induction s as [|c s IH]; [reflexivity|].
  unfold without. simpl strings.all. intros [Hc Hs]%andb_prop.
  apply negb_true_iff in Hc. simpl. rewrite Hc, (IH Hs). reflexivity.
Qed.

Lemma Join_cons e es sep :
  es <> [] -> strings.Join (e :: es) sep = e +:+ sep +:+ strings.Join es sep.
Proof. destruct es; [contradiction|reflexivity]. Qed.

Lemma pieces_Join segs :
  segs <> [] ->
  Forall (fun s => without "&" s = true) segs ->
  url.pieces (fun c => Ascii.eqb c "&") (strings.Join segs "&") = segs.
Proof.
  induction segs as [|s rest IH]; [contradiction|]. intros _ F.
  apply Forall_cons in F as [Hs Hrest].
  destruct rest as [|r rest'].
  - now apply pieces_without.
  - rewrite Join_cons by discriminate.
    change (s +:+ "&" +:+ strings.Join (r :: rest') "&")
      with (s +:+ String "&" (strings.Join (r :: rest') "&")).
    rewrite (pieces_app _ _ Hs), IH; [reflexivity|discriminate|assumption].
Qed.

Lemma app_nonempty s t : t <> "" -> String.eqb (s +:+ t) "" = false.
Proof.
  intros Ht. apply String.eqb_neq. destruct s; [exact Ht|discriminate].
Qed.

Lemma Join_nonempty s rest sep : s <> "" -> strings.Join (s :: rest) sep <> "".
Proof.
  intros Hs. destruct rest; [exact Hs|].
  rewrite Join_cons by discriminate. destruct s; [contradiction|discriminate].
Qed.

Lemma query_pairs_Join segs :
  Forall (fun s => without "&" s = true /\ s <> "") segs ->
  query_pairs (strings.Join segs "&") = segs.
Proof.
  intros F. unfold query_pairs. destruct segs as [|s rest]; [reflexivity|].
  pose proof (Forall_inv F) as [_ Hs].
  destruct (String.eqb_spec (strings.Join (s :: rest) "&") "") as [E|_].
  - now apply Join_nonempty in E.
  - apply pieces_Join; [discriminate|].
    eapply Forall_impl; [exact F|]. intros x [Hx _]. exact Hx.
Qed.

(** The buffer of [Encode] after the pairs [segs] have been written. *)
Definition write (buf seg : string) : string :=
  (if String.eqb buf "" then buf else buf +:+ "&") +:+ seg.

Lemma foldl_write segs buf :
  Forall (fun s => s <> "") segs ->
  foldl write buf segs
  = match segs with
    | [] => buf
    | _ => (if String.eqb buf "" then "" else buf +:+ "&") +:+ strings.Join segs "&"
    end.
Proof.
  revert buf. induction segs as [|s rest IH]; intros buf F; [reflexivity|].
  apply Forall_cons in F as [Hs Hrest].
  cbn [foldl]. rewrite (IH _ Hrest). unfold write at 2.
  destruct rest as [|r rest'].
  - cbn [foldl strings.Join]. unfold write.
    destruct (String.eqb_spec buf "") as [->|]; reflexivity.
  - rewrite (app_nonempty _ s Hs). rewrite (Join_cons s (r :: rest')) by discriminate.
    unfold write. destruct (String.eqb_spec buf "") as [->|].
    + cbn [append]. now rewrite !string_app_assoc.
    + now rewrite !string_app_assoc.
Qed.

Lemma Encode_write_is_write k buf v :
  url.Encode_write (url.QueryEscape k) buf v = write buf (query_pair (k, v)).
Proof. reflexivity. Qed.

(** The pairs that [Encode] writes: key by key in sorted order, the values
    of a key in their order. *)
Definition Encode_pairs (v : gmap string (list string)) : list string :=
  url.sorted_keys v ≫= (fun k => (fun x => query_pair (k, x)) <$> url.Values_get v k).

Lemma foldl_Encode_write k vs buf :
  foldl (url.Encode_write (url.QueryEscape k)) buf vs
  = foldl write buf ((fun x => query_pair (k, x)) <$> vs).
Proof.
  revert buf. induction vs as [|x vs IH]; intros buf; [reflexivity|].
  cbn [foldl fmap list_fmap]. now rewrite IH.
Qed.

Lemma Encode_Join v : url.Encode v = strings.Join (Encode_pairs v) "&".
Proof.
  unfold url.Encode, Encode_pairs.
  assert (G : forall keys buf,
             foldl (fun buf k => foldl (url.Encode_write (url.QueryEscape k)) buf
                                       (url.Values_get v k)) buf keys
             = foldl write buf
                 (keys ≫= (fun k => (fun x => query_pair (k, x)) <$> url.Values_get v k))).
  { induction keys as [|k keys IH]; intros buf; [reflexivity|].
    cbn [foldl]. rewrite IH, foldl_Encode_write. cbn [mbind list_bind].
    now rewrite foldl_app. }
  rewrite G, foldl_write.
  - destruct (_ ≫= _); reflexivity.
  - apply Forall_forall. intros s [k [[x [-> _]]%list_elem_of_fmap _]]%list_elem_of_bind.
    apply query_pair_nonempty.
Qed.

(** ** The loop over the parameters *)

(** Whatever the order in which the entries of the map are visited, the loop
    leaves each key with the one value that the map gives it. *)
Lemma range_Add_entries (entries : list (string * string)) (q : gmap string (list string)) :
  NoDup entries.*1 ->
  (forall k, k ∈ entries.*1 -> q !! k = None) ->
  range_Add q entries = q ∪ ((fun v => [v]) <$> (list_to_map entries : gmap string string)).
Proof.
  revert q. induction entries as [|[k v] rest IH]; intros q ND Fresh.
  - cbn. now rewrite fmap_empty, (right_id_L ∅ (∪)).
  - cbn [fmap list_fmap fst] in ND. apply NoDup_cons in ND as [Hk ND].
    unfold range_Add. cbn [foldl fst snd]. fold (range_Add (url.Add q k v) rest).
    assert (Eq : url.Add q k v = <[k := [v]]> q).
    { unfold url.Add, url.Values_get. rewrite (Fresh k) by (cbn; left). reflexivity. }
    rewrite Eq, IH; [| exact ND |].
    + rewrite list_to_map_cons, fmap_insert.
      rewrite <- insert_union_l, <- insert_union_r; [reflexivity|].
      apply Fresh. cbn. left.
    + intros k' Hk'. rewrite lookup_insert_ne by (intros ->; contradiction).
      apply Fresh. cbn. now right.
Qed.

Lemma range_Add_order (params : gmap string string) (entries : list (string * string)) :
  entries ≡ₚ map_to_list params ->
  range_Add ∅ entries = (fun v => [v]) <$> params.
Proof.
  intros P. rewrite range_Add_entries.
  - rewrite (left_id_L ∅ (∪)). f_equal.
    rewrite (list_to_map_proper entries (map_to_list params)).
    + apply list_to_map_to_list.
    + rewrite P. apply NoDup_fst_map_to_list.
    + exact P.
  - rewrite P. apply NoDup_fst_map_to_list.
  - intros k _. apply lookup_empty.
Qed.

Lemma Values_get_singleton (params : gmap string string) k v :
  params !! k = Some v -> url.Values_get ((fun v => [v]) <$> params) k = [v].
Proof. intros E. unfold url.Values_get. now rewrite lookup_fmap, E. Qed.

Lemma bind_entries (params : gmap string string) (entries : list (string * string)) :
  (forall k v, (k, v) ∈ entries -> params !! k = Some v) ->
  entries.*1 ≫= (fun k => (fun x => query_pair (k, x))
                            <$> url.Values_get ((fun v => [v]) <$> params) k)
  = query_pair <$> entries.
Proof.
  induction entries as [|[k v] rest IH]; intros Hin; [reflexivity|].
  cbn [fmap list_fmap fst mbind list_bind].
  rewrite (Values_get_singleton params k v) by (apply Hin; left).
  cbn [fmap list_fmap app]. f_equal. apply IH. intros k' v' H'. apply Hin. now right.
Qed.

(** The pairs written for the map of parameters, up to their order. *)
Lemma Encode_pairs_params (params : gmap string string) :
  Encode_pairs ((fun v => [v]) <$> params) ≡ₚ query_pair <$> map_to_list params.
Proof.
  unfold Encode_pairs, url.sorted_keys.
  rewrite merge_sort_Permutation, map_to_list_fmap.
  rewrite <- list_fmap_compose.
  change (fst ∘ prod_map id (fun v : string => [v])) with (@fst string string).
  rewrite (bind_entries params (map_to_list params)); [reflexivity|].
  intros k v. apply elem_of_map_to_list.
Qed.

Section queries.
Context `{GoLibrary}.

Lemma get_request i c table params :
  client_of i c -> strings.all path_byte table = true ->
  get c table params
  = doRequest c
      (http.set_RawQuery (https_request "GET" (instance_host i) (table_path table) None)
                         (url.Encode ((fun v => [v]) <$> params))).
Proof.
  intros [Hi Hb] Ht. rewrite get_eq, Hb, table_url.
  rewrite NewRequest_https; try reflexivity; try discriminate.
  - change (url.Query (http.URL (https_request "GET" (instance_host i)
                                   (String "/" ("api/now/v2/table/" +:+ table)) None)))
      with (∅ : gmap string (list string)).
    now rewrite (range_Add_order params (map_to_list params)).
  - now apply instance_host_bytes.
  - now rewrite all_app, Ht.
Qed.

(** What is claimed of the request of [get]. *)
Definition get_request_of (i table : string) (params : gmap string string)
    (req : http.Request) : Prop :=
  http.Method req = "GET"
  /\ url.Scheme (http.URL req) = "https"
  /\ url.Host (http.URL req) = i +:+ ".service-now.com"
  /\ url.Path (http.URL req) = "/api/now/v2/table/" +:+ table
  /\ http.Body req = None
  /\ query_pairs (url.RawQuery (http.URL req)) ≡ₚ query_pair <$> map_to_list params
  /\ NoDup (query_pairs (url.RawQuery (http.URL req))).

Lemma query_of_params (params : gmap string string) :
  query_pairs (url.Encode ((fun v => [v]) <$> params)) ≡ₚ query_pair <$> map_to_list params
  /\ NoDup (query_pairs (url.Encode ((fun v => [v]) <$> params))).
Proof.
  rewrite Encode_Join, query_pairs_Join.
  - split; [apply Encode_pairs_params|].
    rewrite Encode_pairs_params. apply (NoDup_fmap_2 _), NoDup_map_to_list.
  - apply Forall_forall. intros s Hs.
    rewrite Encode_pairs_params in Hs. apply list_elem_of_fmap in Hs as (kv & -> & _).
    split; [apply query_pair_without|apply query_pair_nonempty].
Qed.

Lemma get_sends i c table params :
  client_of i c -> strings.all path_byte table = true ->
  exists req, sent (snd (get c table params)) = [req] /\ get_request_of i table params req.
Proof.
  intros Hc Ht. rewrite (get_request i c table params Hc Ht).
  eexists. split; [apply doRequest_outcome|].
  destruct (prepare_fields c
              (http.set_RawQuery
                 (https_request "GET" (instance_host i) (table_path table) None)
                 (url.Encode ((fun v => [v]) <$> params)))) as (Em & Eu & Eb & _).
  unfold get_request_of. rewrite Em, Eu, Eb.
  destruct (query_of_params params) as [P N].
  repeat split; assumption.
Qed.

(** C8. On a client made for a host-name instance, [get] (for a table whose
    name stands for itself in a path) and [GetIncidents] send one GET to
    [https://{instance}.service-now.com/api/now/v2/table/{table}], and the
    pieces of its query string between the [&] are, up to their order, the
    pairs [key=value] of the parameters, both sides URL-encoded, each pair
    once and no piece twice. *)
Theorem C8_get_query_pairs (i : string) (c : ServiceNowClient)
    (params : gmap string string) :
  client_of i c ->
  (forall table,
      strings.all path_byte table = true ->
      exists req,
        sent (snd (get c table params)) = [req] /\ get_request_of i table params req)
  /\ (exists req,
        sent (snd (GetIncidents c params)) = [req]
        /\ get_request_of i "incident" params req).
Proof.
  intros Hc. split.
  - intros table Ht. now apply get_sends.
  - destruct (get_sends i c "incident" params Hc eq_refl) as (req & S & R).
    exists req. split; [|exact R].
    destruct (GetIncidents_cases c params) as (m & Em & E).
    rewrite E. cbn [snd]. rewrite sent_Log. subst m. now rewrite decode_list_sent.
Qed.

End queries.

(** ** Requests: examples and counterexamples *)

Lemma acme_client_of transport : client_of "acme" (acme transport).
Proof. split; reflexivity. Qed.

(** C7 as stated fails.  A [SysID] with a [?] is cut at it, the rest being
    read as the query: the path does not end in the [SysID].  An incident
    that cannot be serialized, or whose [SysID] makes the URL ill-formed,
    sends no request at all. *)
Lemma C7_counterexample :
  (fun req => (url.Path (http.URL req), url.RawQuery (http.URL req)))
    <$> sent (snd (UpdateIncident (H := example_library) (acme (mock_server 200 "{}"))
                     (set_SysID "a?b" example_incident)))
  = [("/api/now/v2/table/incident/a", "b")]
  /\ sent (snd (UpdateIncident (H := example_library) (acme (mock_server 200 "{}"))
                  (set_SysID "50%" example_incident))) = []
  /\ sent (snd (UpdateIncident (H := example_library) (acme (mock_server 200 "{}"))
                  (set_Urgency "high" (set_SysID "abc123" example_incident)))) = [].
Proof. vm_compute. repeat split. Qed.

Lemma C7_witness :
  exists req,
    sent (snd (UpdateIncident (H := example_library) (acme (mock_server 200 "{}"))
                 (set_SysID "9d385017c611228701d22104cc95c371" example_incident)))
    = [req]
    /\ http.Method req = "PUT"
    /\ url.Path (http.URL req)
       = "/api/now/v2/table/incident/9d385017c611228701d22104cc95c371".
Proof.
  destruct (C7_update_puts_to_record_path (H := example_library) "acme"
              (acme (mock_server 200 "{}"))
              (set_SysID "9d385017c611228701d22104cc95c371" example_incident)
              (dq "{'assignment_group':'network','comments':'disk full','description':'host db1','u_other_reference_1':'{}:{alertname=disk}','short_description':'disk','sys_id':'9d385017c611228701d22104cc95c371'}")
              (acme_client_of _))
    as (req & S & M & _ & _ & P & _).
  - vm_compute. reflexivity.
  - vm_compute. reflexivity.
  - exists req. auto.
Defined.

Lemma C9_witness :
  exists req,
    sent (snd (UpdateIncident (H := example_library) (acme (mock_server 200 "{}"))
                 example_incident)) = [req]
    /\ http.Method req = "PUT"
    /\ url.Path (http.URL req) = "/api/now/v2/table/incident/".
Proof.
  destruct (C9_empty_SysID_is_sent (H := example_library) "acme"
              (acme (mock_server 200 "{}")) example_incident
              (acme_client_of _) eq_refl) as [A _].
  destruct (A (dq "{'assignment_group':'network','comments':'disk full','description':'host db1','u_other_reference_1':'{}:{alertname=disk}','short_description':'disk'}"))
    as (req & S & M & _ & P & _).
  - vm_compute. reflexivity.
  - exists req. auto.
Defined.

(** The parameters of the specification's example. *)
Definition example_params : gmap string string :=
  <["active" := "true"]> (<["priority" := "1"]> ∅).

Lemma C8_witness :
  exists req,
    sent (snd (GetIncidents (H := example_library) (acme (mock_server 200 "{}"))
                 example_params)) = [req]
    /\ get_request_of "acme" "incident" example_params req.
Proof.
  apply (C8_get_query_pairs (H := example_library) "acme" (acme (mock_server 200 "{}"))
           example_params (acme_client_of _)).
Defined.

Example example_query :
  (fun req => url.RawQuery (http.URL req))
    <$> sent (snd (GetIncidents (H := example_library) (acme (mock_server 200 "{}"))
                     example_params))
  = ["active=true&priority=1"]
  /\ (fun req => url.RawQuery (http.URL req))
       <$> sent (snd (GetIncidents (H := example_library) (acme (mock_server 200 "{}"))
                        (<["short description" := "a&b=c"]> ∅)))
     = ["short+description=a%26b%3Dc"].
Proof. vm_compute. repeat split. Qed.

(** The text that is sent for an incident whose fields with [omitempty]
    hold their zero value, and what zero means for a [LinkedValue]: a
    [CallerID] that holds the empty string is not [nil], and it is written. *)
Example unset_fields_in_the_text :
  Marshal_Incident (H := example_library) example_incident
  = Ok (dq "{'assignment_group':'network','comments':'disk full','description':'host db1','u_other_reference_1':'{}:{alertname=disk}','short_description':'disk'}")
  /\ Marshal_Incident (H := example_library)
       (set_CallerID (json.of_string "") example_incident)
     = Ok (dq "{'assignment_group':'network','caller_id':'','comments':'disk full','description':'host db1','u_other_reference_1':'{}:{alertname=disk}','short_description':'disk'}").
Proof. vm_compute. repeat split. Qed.

(** The examples of the specification. *)
Example created_incident :
  fst (CreateIncident (H := example_library)
         (acme (mock_server 201 (dq "{'result':{'number':'INC0001','sys_id':'abc123'}}")))
         example_incident)
  = (Some (set_SysID "abc123" (set_Number "INC0001" Incident_zero)), None).
Proof. vm_compute. reflexivity. Qed.

Example no_incidents :
  fst (GetIncidents (H := example_library) (acme (mock_server 200 (dq "{'result':[]}"))) ∅)
  = (Some [], None).
Proof. vm_compute. reflexivity. Qed.

(** * Further properties of the client

    What the code does beyond the statements of the specification: the
    outcome of a call for each answer of the HTTP client, the accounting of
    the response body, the requests as they leave, the log. *)

(** ** The answer of the HTTP client and the outcome of a call *)

(** What [doRequest] returns for the answer [r] of [client.Do]. *)
Definition answer_of (r : result http.Response) : go_pair string :=
  match r with
  | Err err => (None, Some err)
  | Ok resp =>
      if 400 <=? http.StatusCode resp then (None, Some (RemoteError (http.StatusCode resp)))
      else match http.read_error (http.ResponseBody resp) with
           | Some err => (None, Some err)
           | None => (Some (http.data (http.ResponseBody resp)), None)
           end
  end.

(** How many times the body is then read, and closed. *)
Definition body_uses (r : result http.Response) : nat :=
  match r with
  | Err _ => 0%nat
  | Ok resp => if 400 <=? http.StatusCode resp then 0%nat else 1%nat
  end.

(** The log lines of level [error]. *)
Definition error_lines (t : list event) : list event :=
  List.filter (fun e => match e with
                        | Log level _ _ => String.eqb level "error"
                        | _ => false
                        end) t.

Lemma error_lines_app t u : error_lines (t ++ u) = (error_lines t ++ error_lines u)%list.
Proof. unfold error_lines. apply List.filter_app. Qed.

Lemma NewRequest_fields method url body req :
  method <> "" ->
  http.NewRequest method url body = Ok req ->
  http.Method req = method /\ http.Header req = ∅ /\ http.Body req = body
  /\ http.ContentLength req = match body with
                              | Some b => Z.of_nat (String.length b)
                              | None => 0
                              end.
Proof.
  intros Hm. unfold http.NewRequest.
  destruct (String.eqb_spec method ""); [contradiction|].
  destruct (negb (http.validMethod method)); [discriminate|].
  destruct (url.Parse url) as [u|e]; cbn [result_bind]; [|discriminate].
  intros [= <-]. repeat split.
Qed.

Section calls.
Context `{GoLibrary}.

Lemma doRequest_answer c req :
  fst (doRequest c req) = answer_of (http.Do (client c) (prepare c req))
  /\ reads (snd (doRequest c req)) = body_uses (http.Do (client c) (prepare c req))
  /\ closes (snd (doRequest c req)) = body_uses (http.Do (client c) (prepare c req))
  /\ sent (snd (doRequest c req)) = [prepare c req]
  /\ (error_lines (snd (doRequest c req)) = [] <-> snd (fst (doRequest c req)) = None).
Proof.
  rewrite doRequest_eq. unfold answer_of, body_uses.
  destruct (http.Do _ _) as [resp|e]; [|cbn; repeat split; discriminate].
  destruct (400 <=? _); [cbn; repeat split; discriminate|].
  destruct (http.read_error _); cbn; repeat split; discriminate.
Qed.

(** A table operation built its request with [http.NewRequest]: when it
    fails before sending, nothing is sent, read or closed and one error line
    is logged; otherwise it is [doRequest] on a request with the method and
    the body asked for and no header yet. *)
Definition fresh_call (c : ServiceNowClient) (method : string) (body : option string)
    (m : io (go_pair string)) : Prop :=
  (exists e l, m = ((None, Some e), [Log "error" l [log_err e]]))
  \/ (exists req,
        http.Method req = method /\ http.Header req = ∅ /\ http.Body req = body
        /\ http.ContentLength req = match body with
                                    | Some b => Z.of_nat (String.length b)
                                    | None => 0
                                    end
        /\ m = doRequest c req).

Lemma create_fresh c table body : fresh_call c "POST" (Some body) (create c table body).
Proof.
  rewrite create_eq. destruct (http.NewRequest _ _ _) as [req|e] eqn:N; [right|left; eauto].
  exists req. apply NewRequest_fields in N as (? & ? & ? & ?); [auto|discriminate].
Qed.

Lemma update_fresh c table body sysID :
  fresh_call c "PUT" (Some body) (update c table body sysID).
Proof.
  rewrite update_eq. destruct (http.NewRequest _ _ _) as [req|e] eqn:N; [right|left; eauto].
  exists req. apply NewRequest_fields in N as (? & ? & ? & ?); [auto|discriminate].
Qed.

Lemma get_fresh c table params : fresh_call c "GET" None (get c table params).
Proof.
  rewrite get_eq. destruct (http.NewRequest _ _ _) as [req|e] eqn:N; [right|left; eauto].
  eexists. apply NewRequest_fields in N as (Em & Eh & Eb & El); [|discriminate].
  repeat split; [exact Em|exact Eh|exact Eb|exact El].
Qed.

(** The two headers that [doRequest] sets, on a request that had none. *)
Definition client_headers (c : ServiceNowClient) : gmap string (list string) :=
  <["Authorization" := [authHeader c]]> (<["Content-Type" := ["application/json"]]> ∅).

(** The facts about a table operation that the typed operations inherit. *)
Record call_facts (c : ServiceNowClient) (method : string) (body : option string)
    (m : io (go_pair string)) : Prop := {
  call_sent_once : (length (sent (snd m)) <= 1)%nat;
  call_unsent : sent (snd m) = [] ->
                reads (snd m) = 0%nat /\ closes (snd m) = 0%nat
                /\ exists e, fst m = (None, Some e);
  call_answer : forall req, req ∈ sent (snd m) ->
                fst m = answer_of (http.Do (client c) req)
                /\ reads (snd m) = body_uses (http.Do (client c) req)
                /\ closes (snd m) = body_uses (http.Do (client c) req);
  call_request : forall req, req ∈ sent (snd m) ->
                 http.Method req = method /\ http.Body req = body
                 /\ http.ContentLength req = match body with
                                             | Some b => Z.of_nat (String.length b)
                                             | None => 0
                                             end
                 /\ http.Header req = client_headers c;
  call_balance : closes (snd m) = reads (snd m) /\ (closes (snd m) <= 1)%nat;
  call_errors : error_lines (snd m) = [] <-> snd (fst m) = None
}.

Lemma body_uses_le r : (body_uses r <= 1)%nat.
Proof. destruct r as [resp|e]; cbn; [destruct (400 <=? _)|]; lia. Qed.

Lemma fresh_call_facts c method body m : fresh_call c method body m -> call_facts c method body m.
Proof.
  intros [(e & l & ->)|(req0 & Em & Eh & Eb & El & ->)].
  - split; cbn [fst snd].
    + cbn. lia.
    + intros _. cbn. eauto.
    + intros req S. cbn in S. apply elem_of_nil in S. destruct S.
    + intros req S. cbn in S. apply elem_of_nil in S. destruct S.
    + cbn. lia.
    + cbn. split; discriminate.
  - destruct (doRequest_answer c req0) as (A & R & C & S & L).
    split.
    + rewrite S. cbn. lia.
    + rewrite S. discriminate.
    + intros req Hreq. rewrite S in Hreq. apply list_elem_of_singleton in Hreq.
      subst req. auto.
    + intros req Hreq. rewrite S in Hreq. apply list_elem_of_singleton in Hreq.
      subst req. unfold prepare, http.Header_Set, client_headers.
      cbn [http.Method http.Body http.ContentLength http.Header].
      rewrite Eh. auto.
    + rewrite R, C. split; [reflexivity|apply body_uses_le].
    + exact L.
Qed.

(** What [CreateIncident] and [UpdateIncident] make of the outcome of the
    table operation. *)
Definition record_after (r : go_pair string) : go_pair Incident :=
  match r with
  | (_, Some err) => (None, Some err)
  | (response, None) => record_of (bytes_of response)
  end.

Definition list_after (r : go_pair string) : go_pair (list Incident) :=
  match r with
  | (_, Some err) => (None, Some err)
  | (response, None) => list_of (bytes_of response)
  end.

Lemma decode_record_after done failed m :
  fst (decode_record done failed m) = record_after (fst m).
Proof.
  destruct m as [[r [e|]] t]; unfold decode_record, record_after, record_of; cbn [fst snd];
    [reflexivity|].
  destruct (Unmarshal_IncidentResponse _ _); reflexivity.
Qed.

Lemma decode_list_after m : fst (decode_list m) = list_after (fst m).
Proof.
  destruct m as [[r [e|]] t]; unfold decode_list, list_after, list_of; cbn [fst snd];
    [reflexivity|].
  destruct (Unmarshal_IncidentsResponse _ _); reflexivity.
Qed.

Lemma decode_record_errors done failed m :
  (error_lines (snd m) = [] <-> snd (fst m) = None) ->
  (error_lines (snd (decode_record done failed m)) = []
   <-> snd (fst (decode_record done failed m)) = None).
Proof.
  destruct m as [[r [e|]] t]; unfold decode_record; cbn [fst snd]; intros L.
  - rewrite error_lines_app. cbn. split; [|discriminate].
    intros E. apply app_eq_nil in E as [_ E]. discriminate E.
  - destruct (Unmarshal_IncidentResponse _ _); cbn [fst snd]; rewrite error_lines_app; cbn.
    + rewrite app_nil_r. exact L.
    + split; [|discriminate]. intros E. apply app_eq_nil in E as [_ E]. discriminate E.
Qed.

Lemma decode_list_errors m :
  (error_lines (snd m) = [] <-> snd (fst m) = None) ->
  (error_lines (snd (decode_list m)) = [] <-> snd (fst (decode_list m)) = None).
Proof.
  destruct m as [[r [e|]] t]; unfold decode_list; cbn [fst snd]; intros L.
  - rewrite error_lines_app. cbn. split; [|discriminate].
    intros E. apply app_eq_nil in E as [_ E]. discriminate E.
  - destruct (Unmarshal_IncidentsResponse _ _); cbn [fst snd].
    + exact L.
    + rewrite error_lines_app; cbn.
      split; [|discriminate]. intros E. apply app_eq_nil in E as [_ E]. discriminate E.
Qed.

(** The facts about a typed operation [op] that ran the table operation
    [m]: what it returned is [after] applied to the outcome of [m]. *)
Record operation_facts {A} (c : ServiceNowClient) (method : string) (body : option string)
    (after : go_pair string -> go_pair A) (op : io (go_pair A)) : Prop := {
  op_sent_once : (length (sent (snd op)) <= 1)%nat;
  op_unsent : sent (snd op) = [] ->
              reads (snd op) = 0%nat /\ closes (snd op) = 0%nat
              /\ exists e, fst op = (None, Some e);
  op_answer : forall req, req ∈ sent (snd op) ->
              fst op = after (answer_of (http.Do (client c) req))
              /\ reads (snd op) = body_uses (http.Do (client c) req)
              /\ closes (snd op) = body_uses (http.Do (client c) req);
  op_request : forall req, req ∈ sent (snd op) ->
               http.Method req = method /\ http.Body req = body
               /\ http.ContentLength req = match body with
                                           | Some b => Z.of_nat (String.length b)
                                           | None => 0
                                           end
               /\ http.Header req = client_headers c;
  op_balance : closes (snd op) = reads (snd op) /\ (closes (snd op) <= 1)%nat;
  op_errors : error_lines (snd op) = [] <-> snd (fst op) = None
}.

Lemma record_operation c method body done failed m hello args op :
  fresh_call c method body m ->
  op = (fst (decode_record done failed m), Log "info" hello args :: snd (decode_record done failed m)) ->
  operation_facts c method body record_after op.
Proof.
  intros F ->. apply fresh_call_facts in F. destruct F as [F1 F2 F3 F4 F5 F6].
  split; cbn [fst snd];
    rewrite ?sent_Log, ?reads_Log, ?closes_Log, ?decode_record_sent, ?decode_record_reads,
      ?decode_record_closes, ?decode_record_after.
  - exact F1.
  - intros S. destruct (F2 S) as (R & C & e & E). rewrite E. cbn. eauto.
  - intros req S. destruct (F3 req S) as (A & R & C). rewrite A. auto.
  - exact F4.
  - exact F5.
  - change (error_lines (Log "info" hello args :: ?t)) with (error_lines t).
    rewrite <- (decode_record_after done failed m). now apply decode_record_errors.
Qed.

Lemma list_operation c m hello args op :
  fresh_call c "GET" None m ->
  op = (fst (decode_list m), Log "info" hello args :: snd (decode_list m)) ->
  operation_facts c "GET" None list_after op.
Proof.
  intros F ->. apply fresh_call_facts in F. destruct F as [F1 F2 F3 F4 F5 F6].
  split; cbn [fst snd];
    rewrite ?sent_Log, ?reads_Log, ?closes_Log, ?decode_list_sent, ?decode_list_reads,
      ?decode_list_closes, ?decode_list_after.
  - exact F1.
  - intros S. destruct (F2 S) as (R & C & e & E). rewrite E. cbn. eauto.
  - intros req S. destruct (F3 req S) as (A & R & C). rewrite A. auto.
  - exact F4.
  - exact F5.
  - change (error_lines (Log "info" hello args :: ?t)) with (error_lines t).
    rewrite <- (decode_list_after m). now apply decode_list_errors.
Qed.

(** A typed operation whose incident cannot be serialized. *)
Lemma unserializable_operation c method body e hello args (op : io (go_pair Incident)) :
  op = ((None, Some e),
        [Log "info" hello args;
         Log "error" "Error while marshalling the incident. %s" [log_err e]]) ->
  operation_facts c method body record_after op.
Proof.
  intros ->. split; cbn [fst snd].
  - cbn. lia.
  - intros _. cbn. eauto.
  - intros req S. cbn in S. apply elem_of_nil in S. destruct S.
  - intros req S. cbn in S. apply elem_of_nil in S. destruct S.
  - cbn. lia.
  - cbn. split; discriminate.
Qed.

Lemma CreateIncident_facts c inc :
  match Marshal_Incident inc with
  | Ok body => operation_facts c "POST" (Some body) record_after (CreateIncident c inc)
  | Err e =>
      CreateIncident c inc
      = ((None, Some e),
         [Log "info" "Create a ServiceNow incident" [];
          Log "error" "Error while marshalling the incident. %s" [log_err e]])
  end.
Proof.
  destruct (CreateIncident_cases c inc) as [(e & M & E)|(body & m & M & Em & E)];
    rewrite M; [exact E|].
  eapply (record_operation c "POST" (Some body) _ _ (create c "incident" body));
    [apply create_fresh|].
  rewrite E. subst m. reflexivity.
Qed.

Lemma UpdateIncident_facts c inc :
  match Marshal_Incident inc with
  | Ok body => operation_facts c "PUT" (Some body) record_after (UpdateIncident c inc)
  | Err e =>
      UpdateIncident c inc
      = ((None, Some e),
         [Log "info" "Update ServiceNow incident %s" [log_str (Number inc)];
          Log "error" "Error while marshalling the incident. %s" [log_err e]])
  end.
Proof.
  destruct (UpdateIncident_cases c inc) as [(e & M & E)|(body & m & M & Em & E)];
    rewrite M; [exact E|].
  eapply (record_operation c "PUT" (Some body) _ _
            (update c "incident" body (SysID inc))); [apply update_fresh|].
  rewrite E. subst m. reflexivity.
Qed.

(** The same whether the incident could be serialized or not, the body
    left open. *)
Lemma CreateIncident_operation c inc :
  exists body, operation_facts c "POST" body record_after (CreateIncident c inc).
Proof.
  pose proof (CreateIncident_facts c inc) as F.
  destruct (Marshal_Incident inc) as [body|e]; [eauto|].
  exists None. eapply unserializable_operation. exact F.
Qed.

Lemma UpdateIncident_operation c inc :
  exists body, operation_facts c "PUT" body record_after (UpdateIncident c inc).
Proof.
  pose proof (UpdateIncident_facts c inc) as F.
  destruct (Marshal_Incident inc) as [body|e]; [eauto|].
  exists None. eapply unserializable_operation. exact F.
Qed.

Lemma GetIncidents_facts c params :
  operation_facts c "GET" None list_after (GetIncidents c params).
Proof.
  destruct (GetIncidents_cases c params) as (m & Em & E).
  eapply (list_operation c (get c "incident" params)); [apply get_fresh|].
  rewrite E. subst m. reflexivity.
Qed.

End calls.

(** ** Test doubles for failures *)

(** A transport that fails on every request. *)
Definition broken_transport (err : error) : http.Client :=
  {| http.Do := fun _ => Err err |}.

(** A server whose body breaks off with [err] after [data]. *)
Definition broken_body (status : Z) (data : string) (err : error) : http.Client :=
  {| http.Do := fun _ =>
       Ok {| http.StatusCode := status;
             http.ResponseBody := {| http.data := data; http.read_error := Some err |} |} |}.

Section outcomes.
Context `{GoLibrary}.

(** X1. When the HTTP client fails on the request of a call, so that there
    is no response, [doRequest], [CreateIncident], [GetIncidents] and
    [UpdateIncident] return a nil result together with the very error of
    the client; no body is read and none is closed. *)
Theorem transport_error_is_passed_on (c : ServiceNowClient) (err : error) :
  (forall req,
      http.Do (client c) (prepare c req) = Err err ->
      fst (doRequest c req) = (None, Some err)
      /\ reads (snd (doRequest c req)) = 0%nat
      /\ closes (snd (doRequest c req)) = 0%nat)
  /\ (forall inc req,
        req ∈ sent (snd (CreateIncident c inc)) ->
        http.Do (client c) req = Err err ->
        fst (CreateIncident c inc) = (None, Some err)
        /\ reads (snd (CreateIncident c inc)) = 0%nat
        /\ closes (snd (CreateIncident c inc)) = 0%nat)
  /\ (forall params req,
        req ∈ sent (snd (GetIncidents c params)) ->
        http.Do (client c) req = Err err ->
        fst (GetIncidents c params) = (None, Some err)
        /\ reads (snd (GetIncidents c params)) = 0%nat
        /\ closes (snd (GetIncidents c params)) = 0%nat)
  /\ (forall inc req,
        req ∈ sent (snd (UpdateIncident c inc)) ->
        http.Do (client c) req = Err err ->
        fst (UpdateIncident c inc) = (None, Some err)
        /\ reads (snd (UpdateIncident c inc)) = 0%nat
        /\ closes (snd (UpdateIncident c inc)) = 0%nat).
Proof.
  split; [|split; [|split]].
  - intros req D. destruct (doRequest_answer c req) as (A & R & C & _).
    rewrite A, R, C, D. repeat split.
  - intros inc req S D. destruct (CreateIncident_operation c inc) as [body F].
    destruct (op_answer _ _ _ _ _ F req S) as (A & R & C).
    rewrite A, R, C, D. repeat split.
  - intros params req S D.
    destruct (op_answer _ _ _ _ _ (GetIncidents_facts c params) req S) as (A & R & C).
    rewrite A, R, C, D. repeat split.
  - intros inc req S D. destruct (UpdateIncident_operation c inc) as [body F].
    destruct (op_answer _ _ _ _ _ F req S) as (A & R & C).
    rewrite A, R, C, D. repeat split.
Qed.

(** X2. When the response has a status below 400 and reading its body
    fails, the calls return a nil result together with the error of the
    reading: the bytes read so far are dropped, not decoded.  The body was
    read once and, the reading having failed, it is still closed once. *)
Theorem read_error_is_passed_on (c : ServiceNowClient) (resp : http.Response) (err : error) :
  http.StatusCode resp < 400 ->
  http.read_error (http.ResponseBody resp) = Some err ->
  (forall req,
      http.Do (client c) (prepare c req) = Ok resp ->
      fst (doRequest c req) = (None, Some err)
      /\ reads (snd (doRequest c req)) = 1%nat
      /\ closes (snd (doRequest c req)) = 1%nat)
  /\ (forall inc req,
        req ∈ sent (snd (CreateIncident c inc)) ->
        http.Do (client c) req = Ok resp ->
        fst (CreateIncident c inc) = (None, Some err)
        /\ reads (snd (CreateIncident c inc)) = 1%nat
        /\ closes (snd (CreateIncident c inc)) = 1%nat)
  /\ (forall params req,
        req ∈ sent (snd (GetIncidents c params)) ->
        http.Do (client c) req = Ok resp ->
        fst (GetIncidents c params) = (None, Some err)
        /\ reads (snd (GetIncidents c params)) = 1%nat
        /\ closes (snd (GetIncidents c params)) = 1%nat)
  /\ (forall inc req,
        req ∈ sent (snd (UpdateIncident c inc)) ->
        http.Do (client c) req = Ok resp ->
        fst (UpdateIncident c inc) = (None, Some err)
        /\ reads (snd (UpdateIncident c inc)) = 1%nat
        /\ closes (snd (UpdateIncident c inc)) = 1%nat).
Proof.
  intros St Re.
  assert (A0 : answer_of (Ok resp) = (None, Some err)).
  { unfold answer_of. destruct (Z.leb_spec 400 (http.StatusCode resp)); [lia|].
    now rewrite Re. }
  assert (B0 : body_uses (Ok resp) = 1%nat).
  { unfold body_uses. destruct (Z.leb_spec 400 (http.StatusCode resp)); [lia|reflexivity]. }
  split; [|split; [|split]].
  - intros req D. destruct (doRequest_answer c req) as (A & R & C & _).
    rewrite A, R, C, D, A0, B0. repeat split.
  - intros inc req S D. destruct (CreateIncident_operation c inc) as [body F].
    destruct (op_answer _ _ _ _ _ F req S) as (A & R & C).
    rewrite A, R, C, D, A0, B0. repeat split.
  - intros params req S D.
    destruct (op_answer _ _ _ _ _ (GetIncidents_facts c params) req S) as (A & R & C).
    rewrite A, R, C, D, A0, B0. repeat split.
  - intros inc req S D. destruct (UpdateIncident_operation c inc) as [body F].
    destruct (op_answer _ _ _ _ _ F req S) as (A & R & C).
    rewrite A, R, C, D, A0, B0. repeat split.
Qed.

(** The accounting of one call: at most one request; the body closed as
    often as it is read, once at most, and exactly when a response with a
    status below 400 came back. *)
Definition balanced {A} (c : ServiceNowClient) (op : io (go_pair A)) : Prop :=
  (length (sent (snd op)) <= 1)%nat
  /\ closes (snd op) = reads (snd op)
  /\ (closes (snd op) <= 1)%nat
  /\ (closes (snd op) = 1%nat
      <-> exists req resp,
            req ∈ sent (snd op) /\ http.Do (client c) req = Ok resp
            /\ http.StatusCode resp < 400).

Lemma operation_balanced {A} c method body (after : go_pair string -> go_pair A) op :
  operation_facts c method body after op -> balanced c op.
Proof.
  intros [F1 F2 F3 F4 [F5 F5'] F6]. unfold balanced.
  split; [exact F1|]. split; [exact F5|]. split; [exact F5'|].
  split.
  - intros C1. destruct (sent (snd op)) as [|req rest] eqn:S.
    + destruct (F2 eq_refl) as (_ & C0 & _). lia.
    + destruct (F3 req (list_elem_of_here _ _)) as (_ & _ & C).
      rewrite C1 in C. unfold body_uses in C.
      destruct (http.Do (client c) req) as [resp|e] eqn:D; [|discriminate].
      exists req, resp. split; [apply list_elem_of_here|]. split; [exact D|].
      destruct (Z.leb_spec 400 (http.StatusCode resp)); [discriminate|lia].
  - intros (req & resp & S & D & St).
    destruct (F3 req S) as (_ & _ & C). rewrite C, D. unfold body_uses.
    destruct (Z.leb_spec 400 (http.StatusCode resp)); [lia|reflexivity].
Qed.

(** X3. Every call of [CreateIncident], [GetIncidents] and [UpdateIncident]
    hands at most one request to the HTTP client (nothing is sent twice),
    closes the response body exactly as many times as it reads it, and that
    is once when a response with a status below 400 came back and never
    otherwise. *)
Theorem one_request_and_body_closed_as_read (c : ServiceNowClient) :
  (forall inc, balanced c (CreateIncident c inc))
  /\ (forall params, balanced c (GetIncidents c params))
  /\ (forall inc, balanced c (UpdateIncident c inc)).
Proof.
  split; [|split].
  - intros inc. destruct (CreateIncident_operation c inc) as [body F].
    exact (operation_balanced _ _ _ _ _ F).
  - intros params. exact (operation_balanced _ _ _ _ _ (GetIncidents_facts c params)).
  - intros inc. destruct (UpdateIncident_operation c inc) as [body F].
    exact (operation_balanced _ _ _ _ _ F).
Qed.

(** X4. Whatever the client was made for, a request that leaves
    [CreateIncident] is a POST, one that leaves [UpdateIncident] a PUT, each
    with the serialized incident as body and its length as content length;
    one that leaves [GetIncidents] is a GET without a body.  Each carries
    two headers and no other: [Content-Type: application/json] and
    [Authorization] with the value the client holds. *)
Theorem requests_method_body_headers (c : ServiceNowClient) :
  (forall inc req,
      req ∈ sent (snd (CreateIncident c inc)) ->
      exists body,
        Marshal_Incident inc = Ok body
        /\ http.Method req = "POST" /\ http.Body req = Some body
        /\ http.ContentLength req = Z.of_nat (String.length body)
        /\ http.Header req = client_headers c)
  /\ (forall inc req,
        req ∈ sent (snd (UpdateIncident c inc)) ->
        exists body,
          Marshal_Incident inc = Ok body
          /\ http.Method req = "PUT" /\ http.Body req = Some body
          /\ http.ContentLength req = Z.of_nat (String.length body)
          /\ http.Header req = client_headers c)
  /\ (forall params req,
        req ∈ sent (snd (GetIncidents c params)) ->
        http.Method req = "GET" /\ http.Body req = None
        /\ http.ContentLength req = 0
        /\ http.Header req = client_headers c).
Proof.
  split; [|split].
  - intros inc req S. pose proof (CreateIncident_facts c inc) as F.
    destruct (Marshal_Incident inc) as [body|e].
    + exists body. split; [reflexivity|]. exact (op_request _ _ _ _ _ F req S).
    + rewrite F in S. cbn in S. apply elem_of_nil in S. destruct S.
  - intros inc req S. pose proof (UpdateIncident_facts c inc) as F.
    destruct (Marshal_Incident inc) as [body|e].
    + exists body. split; [reflexivity|]. exact (op_request _ _ _ _ _ F req S).
    + rewrite F in S. cbn in S. apply elem_of_nil in S. destruct S.
  - intros params req S. exact (op_request _ _ _ _ _ (GetIncidents_facts c params) req S).
Qed.

(** X5. A call returns an error exactly when it has logged a line of level
    [error]; and the first thing every call does is to log its opening line,
    of level [info]. *)
Theorem errors_are_logged (c : ServiceNowClient) :
  (forall inc,
      (error_lines (snd (CreateIncident c inc)) = [] <-> snd (fst (CreateIncident c inc)) = None)
      /\ head (snd (CreateIncident c inc))
         = Some (Log "info" "Create a ServiceNow incident" []))
  /\ (forall params,
        (error_lines (snd (GetIncidents c params)) = []
         <-> snd (fst (GetIncidents c params)) = None)
        /\ head (snd (GetIncidents c params))
           = Some (Log "info" "Get ServiceNow incidents with params: %v" [log_params params]))
  /\ (forall inc,
        (error_lines (snd (UpdateIncident c inc)) = []
         <-> snd (fst (UpdateIncident c inc)) = None)
        /\ head (snd (UpdateIncident c inc))
           = Some (Log "info" "Update ServiceNow incident %s" [log_str (Number inc)])).
Proof.
  split; [|split].
  - intros inc. split.
    + destruct (CreateIncident_operation c inc) as [body F]. exact (op_errors _ _ _ _ _ F).
    + destruct (CreateIncident_cases c inc) as [(e & M & E)|(body & m & M & Em & E)];
        rewrite E; reflexivity.
  - intros params. split.
    + exact (op_errors _ _ _ _ _ (GetIncidents_facts c params)).
    + destruct (GetIncidents_cases c params) as (m & Em & E). rewrite E. reflexivity.
  - intros inc. split.
    + destruct (UpdateIncident_operation c inc) as [body F]. exact (op_errors _ _ _ _ _ F).
    + destruct (UpdateIncident_cases c inc) as [(e & M & E)|(body & m & M & Em & E)];
        rewrite E; reflexivity.
Qed.

(** X6. When the body of a response with a status below 400 was read but is
    not a JSON text (it is empty, say, as that of a 204 is, or an HTML
    page), the calls fail with the syntax error of the decoder and a nil
    result. *)
Theorem body_that_is_not_JSON (c : ServiceNowClient) (req : http.Request)
    (resp : http.Response) :
  http.Do (client c) req = Ok resp ->
  http.StatusCode resp < 400 ->
  http.read_error (http.ResponseBody resp) = None ->
  json.parse (http.data (http.ResponseBody resp)) = None ->
  (forall inc, req ∈ sent (snd (CreateIncident c inc)) ->
               fst (CreateIncident c inc) = (None, Some json_SyntaxError))
  /\ (forall params, req ∈ sent (snd (GetIncidents c params)) ->
                     fst (GetIncidents c params) = (None, Some json_SyntaxError))
  /\ (forall inc, req ∈ sent (snd (UpdateIncident c inc)) ->
                  fst (UpdateIncident c inc) = (None, Some json_SyntaxError)).
Proof.
  intros D St R P.
  split; [|split].
  - intros inc S. rewrite (CreateIncident_answered c inc req resp S D St R).
    unfold record_of, Unmarshal_IncidentResponse, Unmarshal. now rewrite P.
  - intros params S. rewrite (GetIncidents_answered c params req resp S D St R).
    unfold list_of, Unmarshal_IncidentsResponse, Unmarshal. now rewrite P.
  - intros inc S. rewrite (UpdateIncident_answered c inc req resp S D St R).
    unfold record_of, Unmarshal_IncidentResponse, Unmarshal. now rewrite P.
Qed.

End outcomes.

(** ** Serialization that fails *)

Definition is_ok {A} (r : result A) : bool :=
  match r with Ok _ => true | Err _ => false end.

Section serialization.
Context `{GoLibrary}.

(** [Marshal] accepts the dynamic value [a]. *)
Definition encodable (a : json.any) : bool := is_ok (json.encode_any a).

(** A [json.Number] that [Marshal] accepts in a field with [omitempty]: it
    is empty (the field is left out) or a number literal. *)
Definition number_ok (n : json.Number) : bool := String.eqb n "" || json.isValidNumber n.

Definition serializable (inc : Incident) : bool :=
  encodable (AssignmentGroup inc)
  && (json.isEmpty_interface (CallerID inc) || encodable (CallerID inc))
  && number_ok (Impact inc) && number_ok (State inc) && number_ok (Urgency inc).

Lemma member_Number_ok name n :
  is_ok (json.member name true (json.isEmpty_string n) (json.encode_Number n)) = number_ok n.
Proof.
  unfold json.member, json.isEmpty_string, json.encode_Number, number_ok.
  destruct (String.eqb n ""); cbn [andb orb]; [reflexivity|].
  destruct (json.isValidNumber n); reflexivity.
Qed.

Lemma member_string_ok name omitEmpty s :
  exists m, json.member name omitEmpty (json.isEmpty_string s) (Ok (json.JString s)) = Ok m.
Proof.
  unfold json.member. destruct (omitEmpty && _); cbn [result_bind]; eauto.
Qed.

Lemma member_required_ok name a :
  is_ok (json.member name false (json.isEmpty_interface a) (json.encode_any a)) = encodable a.
Proof.
  unfold json.member, encodable. cbn [andb].
  destruct (json.encode_any a); reflexivity.
Qed.

Lemma member_optional_ok name a :
  is_ok (json.member name true (json.isEmpty_interface a) (json.encode_any a))
  = json.isEmpty_interface a || encodable a.
Proof.
  unfold json.member, encodable. cbn [andb].
  destruct (json.isEmpty_interface a); cbn [orb]; [reflexivity|].
  destruct (json.encode_any a); reflexivity.
Qed.

Lemma Marshal_Incident_serializable inc : is_ok (Marshal_Incident inc) = serializable inc.
Proof.
  destruct inc as [ag ct cid co de gk im nu pr sd st sy ur].
  unfold Marshal_Incident, encode_Incident, serializable.
  cbn [AssignmentGroup ContactType CallerID Comments Description GroupKey Impact Number
       Priority ShortDescription State SysID Urgency].
  rewrite <- (member_required_ok "assignment_group" ag).
  rewrite <- (member_optional_ok "caller_id" cid).
  rewrite <- (member_Number_ok "impact" im), <- (member_Number_ok "state" st),
    <- (member_Number_ok "urgency" ur).
  destruct (member_string_ok "contact_type" true ct) as [m1 ->].
  destruct (member_string_ok "comments" false co) as [m3 ->].
  destruct (member_string_ok "description" false de) as [m4 ->].
  destruct (member_string_ok groupKeySnField false gk) as [m5 ->].
  destruct (member_string_ok "number" true nu) as [m7 ->].
  destruct (member_string_ok "priority" true pr) as [m8 ->].
  destruct (member_string_ok "short_description" false sd) as [m9 ->].
  destruct (member_string_ok "sys_id" true sy) as [m11 ->].
  destruct (json.member "assignment_group" _ _ _) as [m0|e0]; [|reflexivity].
  destruct (json.member "caller_id" _ _ _) as [m2|e2]; [|reflexivity].
  destruct (json.member "impact" _ _ _) as [m6|e6]; [|reflexivity].
  destruct (json.member "state" _ _ _) as [m10|e10]; [|reflexivity].
  destruct (json.member "urgency" _ _ _) as [m12|e12]; reflexivity.
Qed.

(** X7. [json.Marshal] accepts an incident exactly when the dynamic values
    of [AssignmentGroup] and [CallerID] can be encoded ([nil] always can, and
    a nil [CallerID] is left out) and each of [Impact], [State], [Urgency] is
    empty or a number literal: the text fields never make it fail.  When it
    refuses the incident, [CreateIncident] and [UpdateIncident] return that
    error with a nil result after two log lines, and nothing is sent. *)
Theorem unserializable_incident_is_not_sent (c : ServiceNowClient) (inc : Incident) :
  ((exists body, Marshal_Incident inc = Ok body) <-> serializable inc = true)
  /\ (forall e,
        Marshal_Incident inc = Err e ->
        CreateIncident c inc
        = ((None, Some e),
           [Log "info" "Create a ServiceNow incident" [];
            Log "error" "Error while marshalling the incident. %s" [log_err e]])
        /\ UpdateIncident c inc
           = ((None, Some e),
              [Log "info" "Update ServiceNow incident %s" [log_str (Number inc)];
               Log "error" "Error while marshalling the incident. %s" [log_err e]])
        /\ sent (snd (CreateIncident c inc)) = []
        /\ sent (snd (UpdateIncident c inc)) = []).
Proof.
  split.
  - rewrite <- Marshal_Incident_serializable.
    destruct (Marshal_Incident inc) as [body|e]; cbn; split; eauto.
    + intros [body E]. discriminate E.
    + discriminate.
  - intros e M.
    pose proof (CreateIncident_facts c inc) as Fc.
    pose proof (UpdateIncident_facts c inc) as Fu.
    rewrite M in Fc, Fu. rewrite Fc, Fu. repeat split.
Qed.

End serialization.

(** ** The request of [CreateIncident] *)

Section creation.
Context `{GoLibrary}.

Lemma CreateIncident_sends i c inc body :
  client_of i c ->
  Marshal_Incident inc = Ok body ->
  sent (snd (CreateIncident c inc))
  = [prepare c (https_request "POST" (instance_host i) (table_path "incident") (Some body))].
Proof.
  intros Hc M.
  destruct (CreateIncident_cases c inc) as [(e & M' & _)|(body' & m & M' & Em & E)];
    [congruence|].
  assert (body' = body) by congruence. subst body'.
  rewrite E. cbn [snd]. rewrite sent_Log. subst m. rewrite decode_record_sent.
  rewrite (create_request i c "incident" body Hc eq_refl).
  apply doRequest_outcome.
Qed.

(** X8. On a client made for a host-name instance, [create] (for a table
    whose name stands for itself in a path) sends one request, a POST to
    [https://{instance}.service-now.com/api/now/v2/table/{table}] with no
    query and no fragment, with the bytes it was given as body; and
    [CreateIncident], for an incident that [json.Marshal] accepts, sends
    that request for the table [incident] with the serialized incident. *)
Theorem create_posts_to_table_path (i : string) (c : ServiceNowClient) :
  client_of i c ->
  (forall table body,
      strings.all path_byte table = true ->
      exists req,
        sent (snd (create c table body)) = [req]
        /\ http.Method req = "POST"
        /\ url.Scheme (http.URL req) = "https"
        /\ url.Host (http.URL req) = i +:+ ".service-now.com"
        /\ url.Path (http.URL req) = "/api/now/v2/table/" +:+ table
        /\ url.RawQuery (http.URL req) = ""
        /\ url.Fragment (http.URL req) = ""
        /\ http.Body req = Some body)
  /\ (forall inc body,
        Marshal_Incident inc = Ok body ->
        exists req,
          sent (snd (CreateIncident c inc)) = [req]
          /\ http.Method req = "POST"
          /\ url.Scheme (http.URL req) = "https"
          /\ url.Host (http.URL req) = i +:+ ".service-now.com"
          /\ url.Path (http.URL req) = "/api/now/v2/table/incident"
          /\ url.RawQuery (http.URL req) = ""
          /\ url.Fragment (http.URL req) = ""
          /\ http.Body req = Some body).
Proof.
  intros Hc. split.
  - intros table body Ht. rewrite (create_request i c table body Hc Ht).
    eexists. split; [apply doRequest_outcome|].
    destruct (prepare_fields c (https_request "POST" (instance_host i) (table_path table)
                                  (Some body))) as (Em & Eu & Eb & _).
    rewrite Em, Eu, Eb. repeat split.
  - intros inc body M. eexists. split; [exact (CreateIncident_sends i c inc body Hc M)|].
    destruct (prepare_fields c (https_request "POST" (instance_host i) (table_path "incident")
                                  (Some body))) as (Em & Eu & Eb & _).
    rewrite Em, Eu, Eb. repeat split.
Qed.

End creation.

(** ** The outcomes on the test doubles *)

Lemma transport_error_witness :
  fst (CreateIncident (H := example_library)
         (acme (broken_transport (net_Error "connection refused"))) example_incident)
  = (None, Some (net_Error "connection refused")).
Proof.
  pose (c := acme (broken_transport (net_Error "connection refused"))).
  destruct (sent (snd (CreateIncident (H := example_library) c example_incident)))
    as [|req rest] eqn:S; [vm_compute in S; discriminate|].
  destruct (transport_error_is_passed_on (H := example_library) c
              (net_Error "connection refused")) as (_ & A & _).
  apply (A example_incident req); [rewrite S; apply list_elem_of_here|reflexivity].
Defined.

Lemma read_error_witness :
  fst (GetIncidents (H := example_library)
         (acme (broken_body 200 "{" (net_Error "unexpected EOF"))) example_params)
  = (None, Some (net_Error "unexpected EOF"))
  /\ reads (snd (GetIncidents (H := example_library)
                   (acme (broken_body 200 "{" (net_Error "unexpected EOF"))) example_params))
     = 1%nat
  /\ closes (snd (GetIncidents (H := example_library)
                    (acme (broken_body 200 "{" (net_Error "unexpected EOF"))) example_params))
     = 1%nat.
Proof.
  pose (c := acme (broken_body 200 "{" (net_Error "unexpected EOF"))).
  destruct (sent (snd (GetIncidents (H := example_library) c example_params)))
    as [|req rest] eqn:S; [vm_compute in S; discriminate|].
  destruct (read_error_is_passed_on (H := example_library) c
              {| http.StatusCode := 200;
                 http.ResponseBody := {| http.data := "{";
                                         http.read_error := Some (net_Error "unexpected EOF") |} |}
              (net_Error "unexpected EOF")) as (_ & _ & A & _).
  - cbn. lia.
  - reflexivity.
  - apply (A example_params req); [rewrite S; apply list_elem_of_here|reflexivity].
Defined.

Lemma requests_witness :
  exists req,
    sent (snd (UpdateIncident (H := example_library) (acme (mock_server 200 "{}"))
                 example_incident)) = [req]
    /\ http.Method req = "PUT"
    /\ http.Header req
       = <["Authorization" := ["Basic Ym9iOnNlY3JldA=="]]>
           (<["Content-Type" := ["application/json"]]> ∅).
Proof.
  pose (c := acme (mock_server 200 "{}")).
  destruct (sent (snd (UpdateIncident (H := example_library) c example_incident)))
    as [|req [|req' rest]] eqn:S;
    [vm_compute in S; discriminate| |vm_compute in S; discriminate].
  destruct (requests_method_body_headers (H := example_library) c) as (_ & A & _).
  destruct (A example_incident req) as (body & _ & Em & _ & _ & Eh);
    [rewrite S; apply list_elem_of_here|].
  exists req. auto.
Defined.

Lemma not_JSON_witness :
  fst (CreateIncident (H := example_library) (acme (mock_server 204 "")) example_incident)
  = (None, Some json_SyntaxError).
Proof.
  pose (c := acme (mock_server 204 "")).
  destruct (sent (snd (CreateIncident (H := example_library) c example_incident)))
    as [|req rest] eqn:S; [vm_compute in S; discriminate|].
  refine (proj1 (body_that_is_not_JSON (H := example_library) c req
                   {| http.StatusCode := 204;
                      http.ResponseBody := {| http.data := ""; http.read_error := None |} |}
                   eq_refl _ eq_refl eq_refl) example_incident _).
  - cbn. lia.
  - rewrite S. apply list_elem_of_here.
Defined.

Lemma unserializable_witness :
  sent (snd (CreateIncident (H := example_library) (acme (mock_server 200 "{}"))
               (set_Urgency "high" example_incident))) = []
  /\ fst (CreateIncident (H := example_library) (acme (mock_server 200 "{}"))
            (set_Urgency "high" example_incident))
     = (None, Some (json_InvalidNumber "high")).
Proof.
  destruct (unserializable_incident_is_not_sent (H := example_library)
              (acme (mock_server 200 "{}")) (set_Urgency "high" example_incident))
    as [_ A].
  destruct (A (json_InvalidNumber "high") eq_refl) as (Ec & _ & Sc & _).
  split; [exact Sc|]. rewrite Ec. reflexivity.
Defined.

Lemma create_posts_witness :
  exists req,
    sent (snd (CreateIncident (H := example_library) (acme (mock_server 201 "{}"))
                 example_incident)) = [req]
    /\ http.Method req = "POST"
    /\ url.Host (http.URL req) = "acme.service-now.com"
    /\ url.Path (http.URL req) = "/api/now/v2/table/incident".
Proof.
  destruct (create_posts_to_table_path (H := example_library) "acme"
              (acme (mock_server 201 "{}")) (acme_client_of _)) as [_ A].
  destruct (A example_incident
              (dq "{'assignment_group':'network','comments':'disk full','description':'host db1','u_other_reference_1':'{}:{alertname=disk}','short_description':'disk'}"))
    as (req & S & Em & _ & Eh & Ep & _).
  - vm_compute. reflexivity.
  - exists req. auto.
Defined.

(** ** The Authorization header and the credentials *)

Lemma map_url_safe_fixed s :
  strings.map url_safe s = s -> without "+" s = true /\ without "/" s = true.
Proof.
  induction s as [|c s IH]; [split; reflexivity|].
  cbn [strings.map]. intros [= Ec Es]. destruct (IH Es) as [Hp Hs].
  unfold without in *. cbn [strings.all]. rewrite Hp, Hs, !andb_true_r.
  unfold url_safe in Ec.
  destruct (Ascii.eqb_spec c "+") as [->|_]; [discriminate Ec|].
  destruct (Ascii.eqb_spec c "/") as [->|_]; [discriminate Ec|].
  split; reflexivity.
Qed.

(** X9. The Authorization header of a client that was made is the header
    of Basic authentication (the standard base64 of [userName:password])
    with each [+] turned into [-] and each [/] into [_]; so it is that
    header exactly when the standard encoding of the credentials has
    neither digit. *)
Theorem authorization_header_standard_iff (d : http.Client)
    (instanceName userName password : string) (c : ServiceNowClient) :
  NewServiceNowClient d instanceName userName password = (Some c, None) ->
  let standard := base64.EncodeToString base64.StdEncoding (userName +:+ ":" +:+ password) in
  authHeader c = "Basic " +:+ strings.map url_safe standard
  /\ (authHeader c = "Basic " +:+ standard
      <-> without "+" standard = true /\ without "/" standard = true).
Proof.
  intros E standard. apply NewServiceNowClient_inv in E. subst c. cbn [authHeader].
  rewrite URLEncoding_StdEncoding. fold standard.
  split; [reflexivity|]. split.
  - intros E. apply string_app_inv_l in E. now apply map_url_safe_fixed.
  - intros [Hp Hs]. now rewrite map_url_safe_id.
Qed.

Lemma authorization_header_witness :
  authHeader (acme (mock_server 200 "")) = "Basic Ym9iOnNlY3JldA=="
  /\ "Basic " +:+ base64.EncodeToString base64.StdEncoding "bob:secret"
     = "Basic Ym9iOnNlY3JldA==".
Proof.
  destruct (authorization_header_standard_iff (mock_server 200 "") "acme" "bob" "secret"
              (acme (mock_server 200 "")) eq_refl) as [E _].
  split; [exact E|reflexivity].
Defined.

(** *** The encoding loses nothing *)

Lemma land_disjoint a b n :
  0 <= n -> 0 <= b < 2 ^ n -> Z.land (a * 2 ^ n) b = 0.
Proof.
  intros Hn Hb. apply Z.bits_inj'. intros m Hm.
  rewrite Z.land_spec, Z.bits_0.
  destruct (Z.lt_ge_cases m n) as [Hlt|Hge].
  - now rewrite Z.mul_pow2_bits_low.
  - rewrite <- (Z.mod_small b (2 ^ n)) by lia.
    rewrite Z.mod_pow2_bits_high by lia. apply andb_false_r.
Qed.

Lemma lor_pack a b n p :
  0 <= n -> p = 2 ^ n -> 0 <= b < p -> Z.lor (a * p) b = a * p + b.
Proof.
  intros Hn -> Hb. pose proof (Z.add_lor_land (a * 2 ^ n) b) as E.
  rewrite (land_disjoint a b n Hn Hb) in E. lia.
Qed.

Lemma shiftl_byte b n p : 0 <= n -> p = 2 ^ n -> Z.shiftl b n = b * p.
Proof. intros Hn ->. now apply Z.shiftl_mul_pow2. Qed.

(** The 24 bits of a group of three bytes, as a sum. *)
Lemma group_val b0 b1 b2 :
  Z.lor (Z.lor (Z.shiftl (byte_val b0) 16) (Z.shiftl (byte_val b1) 8)) (byte_val b2)
  = byte_val b0 * 65536 + byte_val b1 * 256 + byte_val b2.
Proof.
  pose proof (byte_val_range b0). pose proof (byte_val_range b1).
  pose proof (byte_val_range b2).
  rewrite (shiftl_byte _ 16 65536), (shiftl_byte _ 8 256) by (lia || reflexivity).
  rewrite (lor_pack (byte_val b0) (byte_val b1 * 256) 16 65536) by (lia || reflexivity).
  replace (byte_val b0 * 65536 + byte_val b1 * 256)
    with ((byte_val b0 * 256 + byte_val b1) * 256) by lia.
  rewrite (lor_pack _ (byte_val b2) 8 256) by (lia || reflexivity). lia.
Qed.

Lemma pair_val b0 b1 :
  Z.lor (Z.shiftl (byte_val b0) 16) (Z.shiftl (byte_val b1) 8)
  = byte_val b0 * 65536 + byte_val b1 * 256.
Proof.
  pose proof (byte_val_range b0). pose proof (byte_val_range b1).
  rewrite (shiftl_byte _ 16 65536), (shiftl_byte _ 8 256) by (lia || reflexivity).
  now rewrite (lor_pack (byte_val b0) (byte_val b1 * 256) 16 65536) by (lia || reflexivity).
Qed.

(** The six bits that select a digit. *)
Definition six (val shift : Z) : Z := Z.land (Z.shiftr val shift) 63.

Lemma six_div val shift : 0 <= shift -> six val shift = (val / 2 ^ shift) mod 64.
Proof.
  intros Hs. unfold six. rewrite Z.shiftr_div_pow2 by lia.
  change 63 with (Z.ones 6). now rewrite Z.land_ones by lia.
Qed.

Lemma six_range val shift : 0 <= shift -> 0 <= six val shift < 64.
Proof. intros Hs. rewrite six_div by lia. apply Z.mod_pos_bound. lia. Qed.

(** The digits of [URLEncoding] are 64 different bytes, none of them the
    padding. *)
Lemma digit_inj a b :
  0 <= a < 64 -> 0 <= b < 64 ->
  index_byte base64.encodeURL a = index_byte base64.encodeURL b -> a = b.
Proof.
  intros Ha Hb E.
  assert (A : forallb (fun n => forallb (fun m =>
                implb (Ascii.eqb (index_byte base64.encodeURL (Z.of_nat n))
                                 (index_byte base64.encodeURL (Z.of_nat m)))
                      (Nat.eqb n m)) (seq 0 64)) (seq 0 64) = true)
    by (vm_compute; reflexivity).
  rewrite forallb_forall in A.
  specialize (A (Z.to_nat a) ltac:(apply in_seq; lia)).
  rewrite forallb_forall in A.
  specialize (A (Z.to_nat b) ltac:(apply in_seq; lia)).
  rewrite !Z2Nat.id in A by lia. rewrite E, Ascii.eqb_refl in A. cbn in A.
  apply Nat.eqb_eq in A. lia.
Qed.

Lemma digit_not_pad a :
  0 <= a < 64 -> index_byte base64.encodeURL a <> base64.StdPadding.
Proof.
  intros Ha E.
  assert (A : forallb (fun n => negb (Ascii.eqb (index_byte base64.encodeURL (Z.of_nat n))
                                                base64.StdPadding)) (seq 0 64) = true)
    by (vm_compute; reflexivity).
  rewrite forallb_forall in A. specialize (A (Z.to_nat a) ltac:(apply in_seq; lia)).
  rewrite Z2Nat.id in A by lia. rewrite E, Ascii.eqb_refl in A. discriminate A.
Qed.

Lemma sextet_inj v w shift :
  0 <= shift ->
  base64.sextet base64.URLEncoding v shift = base64.sextet base64.URLEncoding w shift ->
  six v shift = six w shift.
Proof.
  intros Hs. unfold base64.sextet. fold (six v shift). fold (six w shift).
  apply digit_inj; now apply six_range.
Qed.

Lemma sextet_not_pad v shift :
  0 <= shift -> base64.sextet base64.URLEncoding v shift <> "="%char.
Proof.
  intros Hs. unfold base64.sextet. fold (six v shift).
  apply (digit_not_pad _ (six_range v shift Hs)).
Qed.

Lemma three_bytes_inj a0 a1 a2 b0 b1 b2 :
  let v := byte_val a0 * 65536 + byte_val a1 * 256 + byte_val a2 in
  let w := byte_val b0 * 65536 + byte_val b1 * 256 + byte_val b2 in
  six v 18 = six w 18 -> six v 12 = six w 12 -> six v 6 = six w 6 -> six v 0 = six w 0 ->
  a0 = b0 /\ a1 = b1 /\ a2 = b2.
Proof.
  intros v w. rewrite !six_div by lia.
  change (2 ^ 18) with 262144. change (2 ^ 12) with 4096. change (2 ^ 6) with 64.
  change (2 ^ 0) with 1.
  pose proof (byte_val_range a0). pose proof (byte_val_range a1).
  pose proof (byte_val_range a2). pose proof (byte_val_range b0).
  pose proof (byte_val_range b1). pose proof (byte_val_range b2).
  intros E18 E12 E6 E0.
  assert (byte_val a0 = byte_val b0 /\ byte_val a1 = byte_val b1
          /\ byte_val a2 = byte_val b2) as (E & F & G).
  { subst v w. revert E18 E12 E6 E0. Z.div_mod_to_equations. lia. }
  auto using byte_val_inj.
Qed.

Lemma two_bytes_inj a0 a1 b0 b1 :
  let v := byte_val a0 * 65536 + byte_val a1 * 256 in
  let w := byte_val b0 * 65536 + byte_val b1 * 256 in
  six v 18 = six w 18 -> six v 12 = six w 12 -> six v 6 = six w 6 ->
  a0 = b0 /\ a1 = b1.
Proof.
  intros v w. rewrite !six_div by lia.
  change (2 ^ 18) with 262144. change (2 ^ 12) with 4096. change (2 ^ 6) with 64.
  pose proof (byte_val_range a0). pose proof (byte_val_range a1).
  pose proof (byte_val_range b0). pose proof (byte_val_range b1).
  intros E18 E12 E6.
  assert (byte_val a0 = byte_val b0 /\ byte_val a1 = byte_val b1) as (E & F).
  { subst v w. revert E18 E12 E6. Z.div_mod_to_equations. lia. }
  auto using byte_val_inj.
Qed.

Lemma one_byte_inj a0 b0 :
  six (Z.shiftl (byte_val a0) 16) 18 = six (Z.shiftl (byte_val b0) 16) 18 ->
  six (Z.shiftl (byte_val a0) 16) 12 = six (Z.shiftl (byte_val b0) 16) 12 ->
  a0 = b0.
Proof.
  rewrite !six_div by lia. rewrite !(shiftl_byte _ 16 65536) by (lia || reflexivity).
  change (2 ^ 18) with 262144. change (2 ^ 12) with 4096.
  pose proof (byte_val_range a0). pose proof (byte_val_range b0).
  intros E18 E12. apply byte_val_inj.
  revert E18 E12. Z.div_mod_to_equations. lia.
Qed.

Lemma pad_1 : base64.pad base64.URLEncoding 1 = "=".
Proof. reflexivity. Qed.

Lemma pad_2 : base64.pad base64.URLEncoding 2 = "==".
Proof. reflexivity. Qed.

(** Two byte strings with the same [URLEncoding] are the same. *)
Lemma EncodeToString_inj s :
  forall t,
    base64.EncodeToString base64.URLEncoding s = base64.EncodeToString base64.URLEncoding t ->
    s = t.
Proof.
  induction s as [|a0|a0 a1|a0 a1 a2 s IH] using string_triples;
    intros [|b0 [|b1 [|b2 t]]]; cbn [base64.EncodeToString]; cbv zeta;
    rewrite ?pad_1, ?pad_2, ?group_val, ?pair_val; intros E;
    try reflexivity; try discriminate E; injection E; clear E; intros;
    repeat match goal with
           | E : base64.sextet _ _ _ = "="%char |- _ =>
               exfalso; revert E; apply sextet_not_pad; lia
           | E : "="%char = base64.sextet _ _ _ |- _ =>
               exfalso; symmetry in E; revert E; apply sextet_not_pad; lia
           | E : base64.sextet _ ?v ?s = base64.sextet _ ?w ?s |- _ =>
               apply sextet_inj in E; [|lia]
           end.
  - f_equal. now apply one_byte_inj.
  - match goal with
    | E18 : six _ 18 = _, E12 : six _ 12 = _, E6 : six _ 6 = _ |- _ =>
        destruct (two_bytes_inj a0 a1 b0 b1 E18 E12 E6) as [-> ->]
    end. reflexivity.
  - match goal with
    | E18 : six _ 18 = _, E12 : six _ 12 = _, E6 : six _ 6 = _, E0 : six _ 0 = _ |- _ =>
        destruct (three_bytes_inj a0 a1 a2 b0 b1 b2 E18 E12 E6 E0) as (-> & -> & ->)
    end.
    f_equal. f_equal. f_equal. now apply IH.
Qed.

Lemma string_length_app s t : String.length (s +:+ t) = (String.length s + String.length t)%nat.
Proof.
  induction s as [|c s IH]; [reflexivity|].
  change (S (String.length (s +:+ t)) = S (String.length s + String.length t)).
  now rewrite IH.
Qed.

Lemma string_app_inv_r s : forall t u, s +:+ u = t +:+ u -> s = t.
Proof.
  induction s as [|c s IH]; intros [|d t] u E.
  - reflexivity.
  - apply (f_equal String.length) in E. rewrite !string_length_app in E. simpl in E. lia.
  - apply (f_equal String.length) in E. rewrite !string_length_app in E. simpl in E. lia.
  - injection E as -> E. f_equal. exact (IH _ _ E).
Qed.

(** X10. The header loses nothing of the credentials: two clients that
    were made hold the same Authorization header exactly when the strings
    [userName:password] they were made from are the same, so that, for user
    names without a colon, it is the same user name and the same password.
    And two clients hold the same base address exactly when they were made
    for the same instance name. *)
Theorem header_determines_credentials (d : http.Client)
    (i1 u1 p1 i2 u2 p2 : string) (c1 c2 : ServiceNowClient) :
  NewServiceNowClient d i1 u1 p1 = (Some c1, None) ->
  NewServiceNowClient d i2 u2 p2 = (Some c2, None) ->
  (authHeader c1 = authHeader c2 <-> u1 +:+ ":" +:+ p1 = u2 +:+ ":" +:+ p2)
  /\ (without ":" u1 = true -> without ":" u2 = true ->
      authHeader c1 = authHeader c2 -> u1 = u2 /\ p1 = p2)
  /\ (baseURL c1 = baseURL c2 <-> i1 = i2).
Proof.
  intros E1 E2. apply NewServiceNowClient_inv in E1, E2. subst c1 c2.
  cbn [authHeader baseURL].
  assert (A : "Basic " +:+ base64.EncodeToString base64.URLEncoding (u1 +:+ ":" +:+ p1)
              = "Basic " +:+ base64.EncodeToString base64.URLEncoding (u2 +:+ ":" +:+ p2)
              <-> u1 +:+ ":" +:+ p1 = u2 +:+ ":" +:+ p2).
  { split; [|now intros ->].
    intros E. apply string_app_inv_l in E. now apply EncodeToString_inj. }
  split; [exact A|]. split.
  - intros W1 W2 E. apply A in E.
    pose proof (break_at_app u1 ":" p1 W1) as B1.
    pose proof (break_at_app u2 ":" p2 W2) as B2.
    change (u1 +:+ ":" +:+ p1) with (u1 +:+ String ":" p1) in E.
    change (u2 +:+ ":" +:+ p2) with (u2 +:+ String ":" p2) in E.
    rewrite E, B2 in B1. injection B1 as -> ->. split; reflexivity.
  - split; [|now intros ->].
    intros E. apply string_app_inv_l in E. now apply string_app_inv_r in E.
Qed.

Lemma header_determines_credentials_witness :
  "Basic Ym9iOnNlY3JldA==" = "Basic Ym9iOmh1bnRlcjI=" <-> "bob:secret" = "bob:hunter2".
Proof.
  apply (header_determines_credentials (mock_server 200 "") "acme" "bob" "secret"
           "acme" "bob" "hunter2" (acme (mock_server 200 ""))
           {| baseURL := "https://acme.service-now.com";
              authHeader := "Basic Ym9iOmh1bnRlcjI=";
              client := mock_server 200 "" |} eq_refl eq_refl).
Defined.

(** ** The order of the query string *)

Lemma ascii_compare_N a b : Ascii.compare a b = N.compare (N_of_ascii a) (N_of_ascii b).
Proof. reflexivity. Qed.

Lemma string_compare_lt_trans s :
  forall t u, String.compare s t = Lt -> String.compare t u = Lt -> String.compare s u = Lt.
Proof.
  induction s as [|a s IH]; intros [|b t] [|c u]; cbn [String.compare];
    try discriminate; try reflexivity.
  destruct (Ascii.compare a b) eqn:Eab; try discriminate;
    destruct (Ascii.compare b c) eqn:Ebc; try discriminate; intros Hst Htu.
  - apply Ascii.compare_eq_iff in Eab, Ebc. subst b c.
    assert (E : Ascii.compare a a = Eq) by (rewrite ascii_compare_N; apply N.compare_refl).
    rewrite E. now apply (IH t u).
  - apply Ascii.compare_eq_iff in Eab. subst b. now rewrite Ebc.
  - apply Ascii.compare_eq_iff in Ebc. subst c. now rewrite Eab.
  - rewrite ascii_compare_N in *. rewrite N.compare_lt_iff in *.
    assert (L : (N_of_ascii a < N_of_ascii c)%N) by lia.
    apply N.compare_lt_iff in L. now rewrite L.
Qed.

#[global] Instance string_le_trans : Transitive url.string_le.
Proof.
  intros s t u. unfold url.string_le, String.leb.
  destruct (String.compare s t) eqn:Est; try discriminate; intros _.
  - apply String.compare_eq_iff in Est. now subst t.
  - destruct (String.compare t u) eqn:Etu; try discriminate; intros _.
    + apply String.compare_eq_iff in Etu. subst u. now rewrite Est.
    + now rewrite (string_compare_lt_trans s t u Est Etu).
Qed.

#[global] Instance string_le_total : Total url.string_le.
Proof. intros s t. apply String.leb_total. Qed.

(** The entry of the map under the key [k]. *)
Definition entry_of (params : gmap string string) (k : string) : string * string :=
  (k, default "" (params !! k)).

Lemma entry_of_entries (params : gmap string string) (entries : list (string * string)) :
  (forall k v, (k, v) ∈ entries -> params !! k = Some v) ->
  entry_of params <$> entries.*1 = entries.
Proof.
  induction entries as [|[k v] rest IH]; intros Hin; [reflexivity|].
  cbn [fmap list_fmap fst]. unfold entry_of at 1.
  rewrite (Hin k v) by left. cbn [default]. f_equal.
  apply IH. intros k' v' H'. apply Hin. now right.
Qed.

(** The keys of the parameters in the order of [Encode], with their
    values. *)
Definition sorted_entries (params : gmap string string) : list (string * string) :=
  entry_of params <$> url.sorted_keys ((fun v => [v]) <$> params).

Lemma sorted_keys_params (params : gmap string string) :
  url.sorted_keys ((fun v => [v]) <$> params) ≡ₚ (map_to_list params).*1.
Proof.
  unfold url.sorted_keys. rewrite merge_sort_Permutation, map_to_list_fmap.
  rewrite <- list_fmap_compose. reflexivity.
Qed.

Lemma sorted_entries_facts (params : gmap string string) :
  sorted_entries params ≡ₚ map_to_list params
  /\ (sorted_entries params).*1 = url.sorted_keys ((fun v => [v]) <$> params)
  /\ StronglySorted url.string_le (sorted_entries params).*1
  /\ Encode_pairs ((fun v => [v]) <$> params) = query_pair <$> sorted_entries params.
Proof.
  assert (K : (sorted_entries params).*1 = url.sorted_keys ((fun v => [v]) <$> params)).
  { unfold sorted_entries. rewrite <- list_fmap_compose.
    change (fst ∘ entry_of params) with (@id string). apply list_fmap_id. }
  assert (P : sorted_entries params ≡ₚ map_to_list params).
  { unfold sorted_entries. rewrite sorted_keys_params.
    rewrite (entry_of_entries params (map_to_list params)); [reflexivity|].
    intros k v. apply elem_of_map_to_list. }
  split; [exact P|]. split; [exact K|]. split.
  - rewrite K. unfold url.sorted_keys. apply (StronglySorted_merge_sort _).
  - unfold Encode_pairs. rewrite <- K.
    apply (bind_entries params (sorted_entries params)).
    intros k v Hin. rewrite P in Hin. now apply elem_of_map_to_list.
Qed.

(** ** The query string read back *)

(** No piece separator of [ParseQuery] in [s]. *)
Definition unseparated (s : string) : bool :=
  strings.all (fun c => negb (Ascii.eqb c "&" || Ascii.eqb c ";")) s.

Lemma QueryEscape_unseparated s : unseparated (url.QueryEscape s) = true.
Proof.
  unfold url.QueryEscape, unseparated. induction s as [|c s IH]; [reflexivity|].
  simpl url.escape. rewrite all_app, IH, andb_true_r.
  revert c. apply for_all_bytes. vm_compute. reflexivity.
Qed.

Lemma query_pair_unseparated kv : unseparated (query_pair kv) = true.
Proof.
  unfold query_pair, unseparated. rewrite !all_app.
  fold (unseparated (url.QueryEscape (fst kv))). fold (unseparated (url.QueryEscape (snd kv))).
  now rewrite !QueryEscape_unseparated.
Qed.

Definition separator (c : ascii) : bool := Ascii.eqb c "&" || Ascii.eqb c ";".

Lemma pieces_unseparated s : unseparated s = true -> url.pieces separator s = [s].
Proof.
  induction s as [|c s IH]; [reflexivity|].
  unfold unseparated. simpl strings.all. intros [Hc Hs]%andb_prop.
  apply negb_true_iff in Hc. simpl. unfold separator at 1. rewrite Hc.
  now rewrite (IH Hs).
Qed.

Lemma pieces_separated s t :
  unseparated s = true ->
  url.pieces separator (s +:+ String "&" t) = s :: url.pieces separator t.
Proof.
  induction s as [|c s IH]; [reflexivity|].
  unfold unseparated. simpl strings.all. intros [Hc Hs]%andb_prop.
  apply negb_true_iff in Hc. simpl. unfold separator at 1. rewrite Hc.
  now rewrite (IH Hs).
Qed.

Lemma pieces_Join_separated segs :
  segs <> [] ->
  Forall (fun s => unseparated s = true) segs ->
  url.pieces separator (strings.Join segs "&") = segs.
Proof.
  induction segs as [|s rest IH]; [contradiction|]. intros _ F.
  apply Forall_cons in F as [Hs Hrest].
  destruct rest as [|r rest'].
  - now apply pieces_unseparated.
  - rewrite Join_cons by discriminate.
    change (s +:+ "&" +:+ strings.Join (r :: rest') "&")
      with (s +:+ String "&" (strings.Join (r :: rest') "&")).
    rewrite (pieces_separated _ _ Hs), IH; [reflexivity|discriminate|assumption].
Qed.

(** One pair read back: the key and the value it was written from. *)
Lemma parseQuery_step_pair m k v :
  url.parseQuery_step m (query_pair (k, v)) = url.Add m k v.
Proof.
  unfold url.parseQuery_step.
  destruct (String.eqb_spec (query_pair (k, v)) "") as [E|_];
    [now apply query_pair_nonempty in E|].
  unfold url.split, query_pair. cbn [fst snd].
  change (url.QueryEscape k +:+ "=" +:+ url.QueryEscape v)
    with (url.QueryEscape k +:+ String "=" (url.QueryEscape v)).
  rewrite (break_at_app _ "=" _ (proj2 (QueryEscape_without k))).
  cbn [strings.tail]. now rewrite !QueryUnescape_QueryEscape.
Qed.

Lemma foldl_parseQuery_step entries m :
  foldl url.parseQuery_step m (query_pair <$> entries) = range_Add m entries.
Proof.
  revert m. induction entries as [|[k v] rest IH]; intros m; [reflexivity|].
  cbn [fmap list_fmap foldl]. rewrite parseQuery_step_pair.
  unfold range_Add. cbn [foldl fst snd]. apply IH.
Qed.

Lemma ParseQuery_Join entries :
  url.ParseQuery_values (strings.Join (query_pair <$> entries) "&") = range_Add ∅ entries.
Proof.
  unfold url.ParseQuery_values. fold separator.
  destruct entries as [|e rest]; [reflexivity|].
  rewrite pieces_Join_separated.
  - apply foldl_parseQuery_step.
  - discriminate.
  - apply Forall_forall. intros s Hs.
    apply list_elem_of_fmap in Hs as (kv & -> & _). apply query_pair_unseparated.
Qed.

Section sorted_queries.
Context `{GoLibrary}.

(** What the request of [get] is shown to be: its query string is the
    pairs [key=value] of the parameters, escaped and joined by [&], in
    ascending order of the keys; reading any order of the entries of the map
    gives that string; and the query read back by [ParseQuery] is the
    parameters, one value under each key. *)
Definition sorted_query_of (params : gmap string string) (req : http.Request) : Prop :=
  exists entries,
    entries ≡ₚ map_to_list params
    /\ StronglySorted url.string_le entries.*1
    /\ url.RawQuery (http.URL req) = strings.Join (query_pair <$> entries) "&"
    /\ (forall visited,
          visited ≡ₚ map_to_list params ->
          url.Encode (range_Add ∅ visited) = url.RawQuery (http.URL req))
    /\ url.Query (http.URL req) = (fun v => [v]) <$> params.

Lemma get_sorted i c table params :
  client_of i c -> strings.all path_byte table = true ->
  exists req, sent (snd (get c table params)) = [req] /\ sorted_query_of params req.
Proof.
  intros Hc Ht. rewrite (get_request i c table params Hc Ht).
  eexists. split; [apply doRequest_outcome|].
  destruct (sorted_entries_facts params) as (P & K & S & E).
  assert (Q : url.Encode ((fun v => [v]) <$> params)
              = strings.Join (query_pair <$> sorted_entries params) "&").
  { now rewrite Encode_Join, E. }
  exists (sorted_entries params).
  destruct (prepare_fields c
              (http.set_RawQuery
                 (https_request "GET" (instance_host i) (table_path table) None)
                 (url.Encode ((fun v => [v]) <$> params)))) as (_ & Eu & _).
  unfold url.Query. rewrite Eu.
  cbn [http.set_RawQuery http.URL url.set_RawQuery url.RawQuery].
  split; [exact P|]. split; [exact S|]. split; [exact Q|]. split.
  - intros visited V. now rewrite (range_Add_order params visited V).
  - rewrite Q, ParseQuery_Join. now apply range_Add_order.
Qed.

Lemma GetIncidents_sent c params :
  sent (snd (GetIncidents c params)) = sent (snd (get c "incident" params)).
Proof.
  destruct (GetIncidents_cases c params) as (m & Em & E).
  rewrite E. cbn [snd]. rewrite sent_Log. subst m. apply decode_list_sent.
Qed.

(** The query string of [req] is the pairs of [params] in ascending order
    of their keys, whatever the order in which the map is visited. *)
Definition query_in_key_order (params : gmap string string) (req : http.Request) : Prop :=
  exists entries,
    entries ≡ₚ map_to_list params
    /\ StronglySorted url.string_le entries.*1
    /\ url.RawQuery (http.URL req) = strings.Join (query_pair <$> entries) "&"
    /\ (forall visited,
          visited ≡ₚ map_to_list params ->
          url.Encode (range_Add ∅ visited) = url.RawQuery (http.URL req)).

(** X11. On a client made for a host-name instance, the query string that
    [get] and [GetIncidents] send is the pairs [key=value] of the
    parameters, both sides escaped, joined by [&] in ascending (bytewise)
    order of the keys.  Go visits the entries of a map in no fixed order:
    whichever order the loop takes them in, the query string is this one. *)
Theorem query_is_sorted_by_key (i : string) (c : ServiceNowClient)
    (params : gmap string string) :
  client_of i c ->
  (forall table,
      strings.all path_byte table = true ->
      exists req,
        sent (snd (get c table params)) = [req] /\ query_in_key_order params req)
  /\ (exists req,
        sent (snd (GetIncidents c params)) = [req] /\ query_in_key_order params req).
Proof.
  intros Hc.
  assert (A : forall table, strings.all path_byte table = true ->
              exists req, sent (snd (get c table params)) = [req]
                          /\ query_in_key_order params req).
  { intros table Ht. destruct (get_sorted i c table params Hc Ht) as (req & S & Q).
    exists req. split; [exact S|]. destruct Q as (entries & P & So & R & V & _).
    exists entries. auto. }
  split; [exact A|]. rewrite GetIncidents_sent. now apply A.
Qed.

(** X12. On such a client, the query string that [get] and [GetIncidents]
    send reads back, by [ParseQuery] of the same library, as the parameters
    themselves: each key of the map with its one value, and no other key. *)
Theorem query_reads_back_as_params (i : string) (c : ServiceNowClient)
    (params : gmap string string) :
  client_of i c ->
  (forall table,
      strings.all path_byte table = true ->
      exists req,
        sent (snd (get c table params)) = [req]
        /\ url.Query (http.URL req) = (fun v => [v]) <$> params)
  /\ (exists req,
        sent (snd (GetIncidents c params)) = [req]
        /\ url.Query (http.URL req) = (fun v => [v]) <$> params).
Proof.
  intros Hc.
  assert (A : forall table, strings.all path_byte table = true ->
              exists req, sent (snd (get c table params)) = [req]
                          /\ url.Query (http.URL req) = (fun v => [v]) <$> params).
  { intros table Ht. destruct (get_sorted i c table params Hc Ht) as (req & S & Q).
    exists req. split; [exact S|]. now destruct Q as (entries & _ & _ & _ & _ & R). }
  split; [exact A|]. rewrite GetIncidents_sent. now apply A.
Qed.

End sorted_queries.

Lemma query_is_sorted_witness :
  exists req,
    sent (snd (GetIncidents (H := example_library) (acme (mock_server 200 "{}"))
                 example_params)) = [req]
    /\ query_in_key_order example_params req.
Proof.
  apply (query_is_sorted_by_key (H := example_library) "acme" (acme (mock_server 200 "{}"))
           example_params (acme_client_of _)).
Defined.

Lemma query_reads_back_witness :
  exists req,
    sent (snd (GetIncidents (H := example_library) (acme (mock_server 200 "{}"))
                 (<["short description" := "a&b=c;d"]> ∅))) = [req]
    /\ url.Query (http.URL req) = <["short description" := ["a&b=c;d"]]> ∅.
Proof.
  destruct (query_reads_back_as_params (H := example_library) "acme"
              (acme (mock_server 200 "{}")) (<["short description" := "a&b=c;d"]> ∅)
              (acme_client_of _)) as [_ (req & S & Q)].
  exists req. split; [exact S|]. rewrite Q. now rewrite fmap_insert, fmap_empty.
Defined.

(** ** What decoding reads of a record *)

Section records.
Context `{GoLibrary}.

(** The key of the member names a field of [Incident] (exactly, or up to
    the case of the letters). *)
Definition names_a_field (kv : string * json.value) : bool :=
  match json.find_field Incident_names (fst kv) with Some _ => true | None => false end.

Lemma decode_members_known members :
  forall cur saved,
    decode_members cur members saved
    = decode_members cur (List.filter names_a_field members) saved.
Proof.
  induction members as [|[key v] rest IH]; intros cur saved; [reflexivity|].
  cbn [List.filter]. unfold names_a_field at 1. cbn [fst].
  destruct (json.find_field Incident_names key) as [n|] eqn:F.
  - cbn [decode_members]. unfold json.dbind.
    destruct (decode_member cur key v saved) as [[inc saved']|e]; [apply IH|reflexivity].
  - cbn [decode_members]. unfold json.dbind, decode_member. rewrite F.
    unfold json.dret. apply IH.
Qed.

Lemma decode_elems_known objs :
  forall cur saved,
    decode_elems (json.JObject <$> objs) cur saved
    = decode_elems (json.JObject <$> (List.filter names_a_field <$> objs)) cur saved.
Proof.
  induction objs as [|members rest IH]; intros cur saved; [reflexivity|].
  cbn [fmap list_fmap decode_elems decode_Incident]. unfold json.dbind.
  rewrite <- decode_members_known.
  destruct (decode_members _ members saved) as [[x saved']|e]; [|reflexivity].
  change (list_fmap _ _ json.JObject rest) with (json.JObject <$> rest).
  change (list_fmap _ _ json.JObject (list_fmap _ _ (List.filter names_a_field) rest))
    with (json.JObject <$> (List.filter names_a_field <$> rest)).
  now rewrite IH.
Qed.

(** X13. Decoding reads of a record only the members whose key names a
    field of [Incident]: the other members, whatever their values, change
    neither the incident decoded nor the error.  So a response that carries
    more members than the struct has fields (as the table API's do) is
    decoded as the same response without them, for one record and for a
    list of records alike. *)
Theorem unknown_members_are_ignored :
  (forall members cur saved,
      decode_Incident (json.JObject members) cur saved
      = decode_Incident (json.JObject (List.filter names_a_field members)) cur saved)
  /\ (forall data data' members,
        json.parse data = Some (json.JObject [("result", json.JObject members)]) ->
        json.parse data'
        = Some (json.JObject [("result", json.JObject (List.filter names_a_field members))]) ->
        record_of data = record_of data')
  /\ (forall data data' objs,
        json.parse data = Some (json.JObject [("result", json.JArray (json.JObject <$> objs))]) ->
        json.parse data'
        = Some (json.JObject
                  [("result", json.JArray (json.JObject <$> (List.filter names_a_field <$> objs)))]) ->
        list_of data = list_of data').
Proof.
  split; [|split].
  - intros members cur saved. apply decode_members_known.
  - intros data data' members P P'.
    unfold record_of, Unmarshal_IncidentResponse, Unmarshal. rewrite P, P'.
    cbn [Result decode_envelope decode_result_members].
    replace (json.find_field ["result"] "result") with (Some 0%nat)
      by (vm_compute; reflexivity).
    unfold json.dbind. cbn [decode_Incident].
    now rewrite <- decode_members_known.
  - intros data data' objs P P'.
    unfold list_of, Unmarshal_IncidentsResponse, Unmarshal. rewrite P, P'.
    cbn [Results decode_envelope decode_result_members].
    replace (json.find_field ["result"] "result") with (Some 0%nat)
      by (vm_compute; reflexivity).
    unfold json.dbind. cbn [decode_Incidents default]. unfold json.dbind.
    now rewrite <- decode_elems_known.
Qed.

(** The elements of an array decoded one after the other, each into a zero
    [Incident]. *)
Lemma decode_elems_each elems xs :
  Forall2 (fun e x => decode_Incident e Incident_zero None = Ok (x, None)) elems xs ->
  decode_elems elems [] None = Ok (xs, None).
Proof.
  induction 1 as [|e x elems xs E _ IH]; [reflexivity|].
  cbn [decode_elems hd tl]. unfold json.dbind. rewrite E, IH. reflexivity.
Qed.

(** X14. When the body that [GetIncidents] has read is an object whose
    [result] is an array, and each element of the array, decoded on its own
    into a zero [Incident], gives a record without error, [GetIncidents]
    returns these records, as many as the array has elements and in its
    order: an empty array gives an empty sequence that is not nil, and no
    record inherits a field from the one before it. *)
Theorem incidents_are_decoded_in_order (c : ServiceNowClient) (params : gmap string string)
    (req : http.Request) (resp : http.Response) (elems : list json.value)
    (xs : list Incident) :
  req ∈ sent (snd (GetIncidents c params)) ->
  http.Do (client c) req = Ok resp ->
  http.StatusCode resp < 400 ->
  http.read_error (http.ResponseBody resp) = None ->
  json.parse (http.data (http.ResponseBody resp))
  = Some (json.JObject [("result", json.JArray elems)]) ->
  Forall2 (fun e x => decode_Incident e Incident_zero None = Ok (x, None)) elems xs ->
  fst (GetIncidents c params) = (Some xs, None) /\ length xs = length elems.
Proof.
  intros S D St R P F. split; [|symmetry; exact (Forall2_length _ _ _ F)].
  rewrite (GetIncidents_answered c params req resp S D St R).
  unfold list_of, Unmarshal_IncidentsResponse, Unmarshal. rewrite P.
  cbn [Results decode_envelope decode_result_members].
  replace (json.find_field ["result"] "result") with (Some 0%nat)
    by (vm_compute; reflexivity).
  unfold json.dbind. cbn [decode_Incidents default]. unfold json.dbind.
  now rewrite (decode_elems_each elems xs F).
Qed.

End records.

Lemma unknown_members_witness :
  record_of (H := example_library)
    (dq "{'result':{'number':'INC0001','sys_class_name':'incident','opened_by':{'link':'u','value':'6816f79cc0a8016401c5a33be04be441'},'sys_id':'abc123'}}")
  = record_of (H := example_library) (dq "{'result':{'number':'INC0001','sys_id':'abc123'}}").
Proof.
  destruct (unknown_members_are_ignored (H := example_library)) as (_ & A & _).
  apply (A _ _ [("number", json.JString "INC0001");
                ("sys_class_name", json.JString "incident");
                ("opened_by", json.JObject
                                [("link", json.JString "u");
                                 ("value", json.JString "6816f79cc0a8016401c5a33be04be441")]);
                ("sys_id", json.JString "abc123")]).
  - vm_compute. reflexivity.
  - vm_compute. reflexivity.
Defined.

Lemma incidents_in_order_witness :
  fst (GetIncidents (H := example_library)
         (acme (mock_server 200 (dq "{'result':[{'number':'INC0002'},{'number':'INC0001','state':'2'}]}")))
         example_params)
  = (Some [set_Number "INC0002" Incident_zero;
           set_State "2" (set_Number "INC0001" Incident_zero)], None).
Proof.
  pose (body := dq "{'result':[{'number':'INC0002'},{'number':'INC0001','state':'2'}]}").
  pose (c := acme (mock_server 200 body)).
  destruct (sent (snd (GetIncidents (H := example_library) c example_params)))
    as [|req rest] eqn:S; [vm_compute in S; discriminate|].
  refine (proj1 (incidents_are_decoded_in_order (H := example_library) c example_params req
                   {| http.StatusCode := 200;
                      http.ResponseBody := {| http.data := body; http.read_error := None |} |}
                   [json.JObject [("number", json.JString "INC0002")];
                    json.JObject [("number", json.JString "INC0001");
                                  ("state", json.JString "2")]]
                   _ _ eq_refl _ eq_refl _ _)).
  - rewrite S. apply list_elem_of_here.
  - cbn. lia.
  - vm_compute. reflexivity.
  - repeat constructor.
Defined.

(** * The incident written and read back *)

(** ** UTF-8: a well-formed sequence is the encoding of its code point *)

Lemma land_low x k m : 0 <= k -> m = Z.ones k -> Z.land x m = x mod 2 ^ k.
Proof. intros Hk ->. now apply Z.land_ones. Qed.

Lemma shiftr_pow x k p : 0 <= k -> p = 2 ^ k -> Z.shiftr x k = x / p.
Proof. intros Hk ->. now apply Z.shiftr_div_pow2. Qed.

(** [Z.lor] of a marker and the bits below it. *)
Lemma lor_marker a b n p m :
  0 <= n -> p = 2 ^ n -> m = a * p -> 0 <= b < p -> Z.lor m b = m + b.
Proof. intros Hn Hp -> Hb. now apply (lor_pack a b n p). Qed.

Lemma bytes_cons z l : utf8.bytes (z :: l) = String (byte_of z) (utf8.bytes l).
Proof. reflexivity. Qed.

Lemma EncodeRune_2 c0 c1 :
  194 <= byte_val c0 <= 223 -> 128 <= byte_val c1 <= 191 ->
  utf8.EncodeRune (Z.lor (Z.shiftl (Z.land (byte_val c0) 31) 6) (Z.land (byte_val c1) 63))
  = String c0 (String c1 "").
Proof.
  intros H0 H1.
  rewrite (land_low _ 5 31), (land_low _ 6 63) by (lia || reflexivity).
  rewrite (shiftl_byte _ 6 64) by (lia || reflexivity).
  change (2 ^ 5) with 32. change (2 ^ 6) with 64.
  rewrite (lor_pack _ (byte_val c1 mod 64) 6 64)
    by (lia || reflexivity || (apply Z.mod_pos_bound; lia)).
  set (r := byte_val c0 mod 32 * 64 + byte_val c1 mod 64).
  assert (E0 : byte_val c0 mod 32 = byte_val c0 - 192)
    by (Z.div_mod_to_equations; lia).
  assert (E1 : byte_val c1 mod 64 = byte_val c1 - 128)
    by (Z.div_mod_to_equations; lia).
  assert (Hr : r = (byte_val c0 - 192) * 64 + (byte_val c1 - 128)) by (subst r; lia).
  unfold utf8.EncodeRune.
  destruct (Z.ltb_spec r 0); [lia|].
  destruct (Z.leb_spec r 127); [lia|].
  destruct (Z.leb_spec r 2047); [|lia].
  rewrite (shiftr_pow r 6 64), (land_low r 6 63) by (lia || reflexivity).
  change (2 ^ 6) with 64.
  assert (Q : r / 64 = byte_val c0 - 192) by (Z.div_mod_to_equations; lia).
  assert (M : r mod 64 = byte_val c1 - 128) by (Z.div_mod_to_equations; lia).
  rewrite Q, M.
  rewrite (lor_marker 6 (byte_val c0 - 192) 5 32 192),
    (lor_marker 2 (byte_val c1 - 128) 6 64 128) by (lia || reflexivity).
  rewrite !bytes_cons.
  replace (192 + (byte_val c0 - 192)) with (byte_val c0) by lia.
  replace (128 + (byte_val c1 - 128)) with (byte_val c1) by lia.
  now rewrite !byte_of_val.
Qed.

Lemma EncodeRune_3 c0 c1 c2 :
  224 <= byte_val c0 <= 239 ->
  (if byte_val c0 =? 224 then 160 else 128) <= byte_val c1
    <= (if byte_val c0 =? 237 then 159 else 191) ->
  128 <= byte_val c2 <= 191 ->
  let r := Z.lor (Z.lor (Z.shiftl (Z.land (byte_val c0) 15) 12)
                        (Z.shiftl (Z.land (byte_val c1) 63) 6))
                 (Z.land (byte_val c2) 63) in
  utf8.EncodeRune r = String c0 (String c1 (String c2 "")).
Proof.
  intros H0 H1 H2.
  assert (B1 : 128 <= byte_val c1 <= 191).
  { destruct (byte_val c0 =? 224), (byte_val c0 =? 237); lia. }
  rewrite (land_low _ 4 15), !(land_low _ 6 63) by (lia || reflexivity).
  rewrite (shiftl_byte _ 12 4096), (shiftl_byte _ 6 64) by (lia || reflexivity).
  change (2 ^ 4) with 16. change (2 ^ 6) with 64.
  assert (E0 : byte_val c0 mod 16 = byte_val c0 - 224) by (Z.div_mod_to_equations; lia).
  assert (E1 : byte_val c1 mod 64 = byte_val c1 - 128) by (Z.div_mod_to_equations; lia).
  assert (E2 : byte_val c2 mod 64 = byte_val c2 - 128) by (Z.div_mod_to_equations; lia).
  rewrite E0, E1, E2.
  rewrite (lor_pack _ ((byte_val c1 - 128) * 64) 12 4096) by (lia || reflexivity).
  replace ((byte_val c0 - 224) * 4096 + (byte_val c1 - 128) * 64)
    with (((byte_val c0 - 224) * 64 + (byte_val c1 - 128)) * 64) by lia.
  rewrite (lor_pack _ (byte_val c2 - 128) 6 64) by (lia || reflexivity).
  set (r := ((byte_val c0 - 224) * 64 + (byte_val c1 - 128)) * 64 + (byte_val c2 - 128)).
  cbv zeta.
  assert (Lo : 2048 <= r).
  { subst r. destruct (Z.eqb_spec (byte_val c0) 224); lia. }
  assert (Hi : r <= 65535) by (subst r; lia).
  assert (Su : ~ (55296 <= r <= 57343)).
  { subst r. destruct (Z.eqb_spec (byte_val c0) 237); lia. }
  unfold utf8.EncodeRune, utf8.MaxRune.
  destruct (Z.ltb_spec r 0); [lia|].
  destruct (Z.leb_spec r 127); [lia|].
  destruct (Z.leb_spec r 2047); [lia|].
  destruct (Z.ltb_spec 1114111 r); [lia|].
  destruct (Z.leb_spec 55296 r), (Z.leb_spec r 57343); cbn [andb orb]; try lia;
    (destruct (Z.leb_spec r 65535); [|lia]);
    rewrite (shiftr_pow r 12 4096), (shiftr_pow r 6 64), !(land_low _ 6 63)
      by (lia || reflexivity);
    change (2 ^ 6) with 64;
    assert (Q0 : r / 4096 = byte_val c0 - 224) by (subst r; Z.div_mod_to_equations; lia);
    assert (Q1 : (r / 64) mod 64 = byte_val c1 - 128)
      by (subst r; Z.div_mod_to_equations; lia);
    assert (Q2 : r mod 64 = byte_val c2 - 128) by (subst r; Z.div_mod_to_equations; lia);
    rewrite Q0, Q1, Q2;
    rewrite (lor_marker 14 (byte_val c0 - 224) 4 16 224),
      (lor_marker 2 (byte_val c1 - 128) 6 64 128),
      (lor_marker 2 (byte_val c2 - 128) 6 64 128) by (lia || reflexivity);
    rewrite !bytes_cons;
    replace (224 + (byte_val c0 - 224)) with (byte_val c0) by lia;
    replace (128 + (byte_val c1 - 128)) with (byte_val c1) by lia;
    replace (128 + (byte_val c2 - 128)) with (byte_val c2) by lia;
    now rewrite !byte_of_val.
Qed.

Lemma EncodeRune_4 c0 c1 c2 c3 :
  240 <= byte_val c0 <= 244 ->
  (if byte_val c0 =? 240 then 144 else 128) <= byte_val c1
    <= (if byte_val c0 =? 244 then 143 else 191) ->
  128 <= byte_val c2 <= 191 ->
  128 <= byte_val c3 <= 191 ->
  let r := Z.lor (Z.lor (Z.lor (Z.shiftl (Z.land (byte_val c0) 7) 18)
                               (Z.shiftl (Z.land (byte_val c1) 63) 12))
                        (Z.shiftl (Z.land (byte_val c2) 63) 6))
                 (Z.land (byte_val c3) 63) in
  utf8.EncodeRune r = String c0 (String c1 (String c2 (String c3 ""))).
Proof.
  intros H0 H1 H2 H3.
  assert (B1 : 128 <= byte_val c1 <= 191).
  { destruct (byte_val c0 =? 240), (byte_val c0 =? 244); lia. }
  rewrite (land_low _ 3 7), !(land_low _ 6 63) by (lia || reflexivity).
  rewrite (shiftl_byte _ 18 262144), (shiftl_byte _ 12 4096), (shiftl_byte _ 6 64)
    by (lia || reflexivity).
  change (2 ^ 3) with 8. change (2 ^ 6) with 64.
  assert (E0 : byte_val c0 mod 8 = byte_val c0 - 240) by (Z.div_mod_to_equations; lia).
  assert (E1 : byte_val c1 mod 64 = byte_val c1 - 128) by (Z.div_mod_to_equations; lia).
  assert (E2 : byte_val c2 mod 64 = byte_val c2 - 128) by (Z.div_mod_to_equations; lia).
  assert (E3 : byte_val c3 mod 64 = byte_val c3 - 128) by (Z.div_mod_to_equations; lia).
  rewrite E0, E1, E2, E3.
  rewrite (lor_pack _ ((byte_val c1 - 128) * 4096) 18 262144) by (lia || reflexivity).
  replace ((byte_val c0 - 240) * 262144 + (byte_val c1 - 128) * 4096)
    with (((byte_val c0 - 240) * 64 + (byte_val c1 - 128)) * 4096) by lia.
  rewrite (lor_pack _ ((byte_val c2 - 128) * 64) 12 4096) by (lia || reflexivity).
  replace (((byte_val c0 - 240) * 64 + (byte_val c1 - 128)) * 4096 + (byte_val c2 - 128) * 64)
    with ((((byte_val c0 - 240) * 64 + (byte_val c1 - 128)) * 64 + (byte_val c2 - 128)) * 64)
    by lia.
  rewrite (lor_pack _ (byte_val c3 - 128) 6 64) by (lia || reflexivity).
  set (r := (((byte_val c0 - 240) * 64 + (byte_val c1 - 128)) * 64 + (byte_val c2 - 128)) * 64
            + (byte_val c3 - 128)).
  cbv zeta.
  assert (Lo : 65536 <= r).
  { subst r. destruct (Z.eqb_spec (byte_val c0) 240); lia. }
  assert (Hi : r <= 1114111).
  { subst r. destruct (Z.eqb_spec (byte_val c0) 244); lia. }
  unfold utf8.EncodeRune, utf8.MaxRune.
  destruct (Z.ltb_spec r 0); [lia|].
  destruct (Z.leb_spec r 127); [lia|].
  destruct (Z.leb_spec r 2047); [lia|].
  destruct (Z.ltb_spec 1114111 r); [lia|].
  destruct (Z.leb_spec 55296 r), (Z.leb_spec r 57343); cbn [andb orb]; try lia.
  destruct (Z.leb_spec r 65535); [lia|].
  rewrite (shiftr_pow r 18 262144), (shiftr_pow r 12 4096), (shiftr_pow r 6 64),
    !(land_low _ 6 63) by (lia || reflexivity).
  change (2 ^ 6) with 64.
  assert (Q0 : r / 262144 = byte_val c0 - 240) by (subst r; Z.div_mod_to_equations; lia).
  assert (Q1 : (r / 4096) mod 64 = byte_val c1 - 128)
    by (subst r; Z.div_mod_to_equations; lia).
  assert (Q2 : (r / 64) mod 64 = byte_val c2 - 128)
    by (subst r; Z.div_mod_to_equations; lia).
  assert (Q3 : r mod 64 = byte_val c3 - 128) by (subst r; Z.div_mod_to_equations; lia).
  rewrite Q0, Q1, Q2, Q3.
  rewrite (lor_marker 30 (byte_val c0 - 240) 3 8 240),
    (lor_marker 2 (byte_val c1 - 128) 6 64 128),
    (lor_marker 2 (byte_val c2 - 128) 6 64 128),
    (lor_marker 2 (byte_val c3 - 128) 6 64 128) by (lia || reflexivity).
  rewrite !bytes_cons.
  replace (240 + (byte_val c0 - 240)) with (byte_val c0) by lia.
  replace (128 + (byte_val c1 - 128)) with (byte_val c1) by lia.
  replace (128 + (byte_val c2 - 128)) with (byte_val c2) by lia.
  replace (128 + (byte_val c3 - 128)) with (byte_val c3) by lia.
  now rewrite !byte_of_val.
Qed.

(** The code points that [DecodeRuneInString] reads in two, three and four
    bytes. *)
Definition rune2 (c0 c1 : ascii) : Z :=
  Z.lor (Z.shiftl (Z.land (byte_val c0) 31) 6) (Z.land (byte_val c1) 63).

Definition rune3 (c0 c1 c2 : ascii) : Z :=
  Z.lor (Z.lor (Z.shiftl (Z.land (byte_val c0) 15) 12) (Z.shiftl (Z.land (byte_val c1) 63) 6))
        (Z.land (byte_val c2) 63).

Definition rune4 (c0 c1 c2 c3 : ascii) : Z :=
  Z.lor (Z.lor (Z.lor (Z.shiftl (Z.land (byte_val c0) 7) 18)
                      (Z.shiftl (Z.land (byte_val c1) 63) 12))
               (Z.shiftl (Z.land (byte_val c2) 63) 6))
        (Z.land (byte_val c3) 63).

(** What [DecodeRuneInString] does on a string that starts with a byte
    from 128 on. *)
Ltac decide_bounds :=
  repeat match goal with
         | |- context [Z.eqb ?a ?b] => destruct (Z.eqb_spec a b); try lia
         | |- context [Z.ltb ?a ?b] => destruct (Z.ltb_spec a b); try lia
         | |- context [Z.leb ?a ?b] => destruct (Z.leb_spec a b); try lia
         end.

Lemma DecodeRune_cases c0 s1 :
  128 <= byte_val c0 ->
  utf8.DecodeRuneInString (String c0 s1) = (utf8.RuneError, 1%nat)
  \/ (exists c1 t,
        s1 = String c1 t
        /\ 194 <= byte_val c0 <= 223 /\ 128 <= byte_val c1 <= 191
        /\ forall t', utf8.DecodeRuneInString (String c0 (String c1 t'))
                      = (rune2 c0 c1, 2%nat))
  \/ (exists c1 c2 t,
        s1 = String c1 (String c2 t)
        /\ 224 <= byte_val c0 <= 239
        /\ (if byte_val c0 =? 224 then 160 else 128) <= byte_val c1
             <= (if byte_val c0 =? 237 then 159 else 191)
        /\ 128 <= byte_val c2 <= 191
        /\ forall t', utf8.DecodeRuneInString (String c0 (String c1 (String c2 t')))
                      = (rune3 c0 c1 c2, 3%nat))
  \/ (exists c1 c2 c3 t,
        s1 = String c1 (String c2 (String c3 t))
        /\ 240 <= byte_val c0 <= 244
        /\ (if byte_val c0 =? 240 then 144 else 128) <= byte_val c1
             <= (if byte_val c0 =? 244 then 143 else 191)
        /\ 128 <= byte_val c2 <= 191
        /\ 128 <= byte_val c3 <= 191
        /\ forall t', utf8.DecodeRuneInString
                        (String c0 (String c1 (String c2 (String c3 t'))))
                      = (rune4 c0 c1 c2 c3, 4%nat)).
Proof.
  intros H0. unfold utf8.DecodeRuneInString, utf8.cont. cbv zeta.
  destruct (Z.ltb_spec (byte_val c0) 128) as [|_]; [lia|].
  destruct (Z.ltb_spec (byte_val c0) 194) as [|L0]; cbn [orb]; [now left|].
  destruct (Z.ltb_spec 244 (byte_val c0)) as [|U0]; cbn [orb]; [now left|].
  destruct s1 as [|c1 s2]; [now left|].
  destruct (Z.ltb_spec (byte_val c0) 224) as [T2|T2].
  - (* two bytes *)
    destruct (Z.eqb_spec (byte_val c0) 224) as [|_]; [lia|].
    destruct (Z.eqb_spec (byte_val c0) 240) as [|_]; [lia|].
    destruct (Z.eqb_spec (byte_val c0) 237) as [|_]; [lia|].
    destruct (Z.eqb_spec (byte_val c0) 244) as [|_]; [lia|].
    destruct (Z.ltb_spec (byte_val c1) 128) as [|L1]; cbn [orb]; [now left|].
    destruct (Z.ltb_spec 191 (byte_val c1)) as [|U1]; cbn [orb]; [now left|].
    right. left. exists c1, s2. repeat split; try lia.
    intros t'; decide_bounds; reflexivity.
  - destruct (Z.ltb_spec (byte_val c0) 240) as [T3|T3].
    + (* three bytes *)
      destruct (Z.eqb_spec (byte_val c0) 240) as [|_]; [lia|].
      destruct (Z.eqb_spec (byte_val c0) 244) as [|_]; [lia|].
      set (lo := if byte_val c0 =? 224 then 160 else 128).
      set (hi := if byte_val c0 =? 237 then 159 else 191).
      destruct (Z.ltb_spec (byte_val c1) lo) as [|L1]; cbn [orb]; [now left|].
      destruct (Z.ltb_spec hi (byte_val c1)) as [|U1]; cbn [orb]; [now left|].
      destruct s2 as [|c2 s3]; [now left|].
      destruct (Z.leb_spec 128 (byte_val c2)) as [L2|]; cbn [andb negb]; [|now left].
      destruct (Z.leb_spec (byte_val c2) 191) as [U2|]; cbn [andb negb]; [|now left].
      right. right. left. exists c1, c2, s3. subst lo hi. repeat split; try lia.
      intros t'; decide_bounds; reflexivity.
    + (* four bytes *)
      destruct (Z.eqb_spec (byte_val c0) 224) as [|_]; [lia|].
      destruct (Z.eqb_spec (byte_val c0) 237) as [|_]; [lia|].
      set (lo := if byte_val c0 =? 240 then 144 else 128).
      set (hi := if byte_val c0 =? 244 then 143 else 191).
      destruct (Z.ltb_spec (byte_val c1) lo) as [|L1]; cbn [orb]; [now left|].
      destruct (Z.ltb_spec hi (byte_val c1)) as [|U1]; cbn [orb]; [now left|].
      destruct s2 as [|c2 s3]; [now left|].
      destruct (Z.leb_spec 128 (byte_val c2)) as [L2|]; cbn [andb negb]; [|now left].
      destruct (Z.leb_spec (byte_val c2) 191) as [U2|]; cbn [andb negb]; [|now left].
      destruct s3 as [|c3 s4]; [now left|].
      destruct (Z.leb_spec 128 (byte_val c3)) as [L3|]; cbn [andb negb]; [|now left].
      destruct (Z.leb_spec (byte_val c3) 191) as [U3|]; cbn [andb negb]; [|now left].
      right. right. right. exists c1, c2, c3, s4. subst lo hi. repeat split; try lia.
      intros t'; decide_bounds; reflexivity.
Qed.

(** ** String literals *)

(** What [quote] writes for one ASCII byte. *)
Definition ascii_piece (c : ascii) : string :=
  if json.htmlSafe c then String c "" else json.escape_ascii c.

(** It is the byte itself, which then is none of those that end or escape
    a literal; or a two-byte escape that [unquote] reads as the byte; or
    [\u] and four hexadecimal digits that spell the byte. *)
Definition piece_shape (c : ascii) : bool :=
  match ascii_piece c with
  | String d EmptyString =>
      Ascii.eqb d c && negb (Ascii.eqb d dquote) && negb (byte_val d <? 32)
      && negb (Ascii.eqb d "\")
  | String b (String e EmptyString) =>
      Ascii.eqb b "\" && (url.byte_in e "bfnrt\/" || Ascii.eqb e dquote)
      && negb (Ascii.eqb e "u") && Ascii.eqb (json.unescape_byte e) c
  | String b (String u (String h1 (String h2 (String h3 (String h4 EmptyString))))) =>
      Ascii.eqb b "\" && Ascii.eqb u "u"
      && match json.hex4 (String h1 (String h2 (String h3 (String h4 ""))))  with
         | Some v => v =? byte_val c
         | None => false
         end
  | _ => false
  end.

Lemma piece_shape_ok c : byte_val c < 128 -> piece_shape c = true.
Proof.
  intros Hc.
  pose proof (for_all_bytes (fun c => implb (byte_val c <? 128) (piece_shape c))
                ltac:(vm_compute; reflexivity) c) as A.
  cbv beta in A. destruct (Z.ltb_spec (byte_val c) 128); [exact A|lia].
Qed.

Lemma scan_string_piece c t :
  byte_val c < 128 ->
  json.scan_string (ascii_piece c +:+ t)
  = match json.scan_string t with
    | Some (raw, rest) => Some (ascii_piece c +:+ raw, rest)
    | None => None
    end.
Proof.
  intros Hc. pose proof (piece_shape_ok c Hc) as S. unfold piece_shape in S.
  destruct (ascii_piece c) as [|d [|e [|h1 [|h2 [|h3 [|h4 [|x y]]]]]]]; try discriminate.
  - apply andb_prop in S as [[[_ Hq]%andb_prop Hl]%andb_prop Hb].
    apply negb_true_iff in Hq, Hl, Hb.
    change (String d "" +:+ t) with (String d t).
    simpl json.scan_string. rewrite Hq, Hl, Hb.
    destruct (json.scan_string t) as [[raw rest]|]; reflexivity.
  - apply andb_prop in S as [[[Hb He]%andb_prop _]%andb_prop _].
    apply Ascii.eqb_eq in Hb. subst d.
    change ("\" +:+ String e "" +:+ t) with (String "\" (String e t)).
    change (String "\" (String e "") +:+ t) with (String "\" (String e t)).
    simpl json.scan_string. rewrite He.
    destruct (json.scan_string t) as [[raw rest]|]; reflexivity.
  - apply andb_prop in S as [[Hb Hu]%andb_prop Hh].
    apply Ascii.eqb_eq in Hb, Hu. subst d e.
    change (String "\" (String "u" (String h1 (String h2 (String h3 (String h4 ""))))) +:+ t)
      with (String "\" (String "u" (String h1 (String h2 (String h3 (String h4 t)))))).
    simpl json.scan_string. unfold json.hex4 in Hh.
    destruct (url.ishex h1 && url.ishex h2 && url.ishex h3 && url.ishex h4); [|discriminate].
    destruct (json.scan_string t) as [[raw rest]|]; reflexivity.
Qed.

Lemma EncodeRune_ascii c : byte_val c < 128 -> utf8.EncodeRune (byte_val c) = String c "".
Proof.
  intros Hc. pose proof (byte_val_range c). unfold utf8.EncodeRune.
  destruct (Z.ltb_spec (byte_val c) 0); [lia|].
  destruct (Z.leb_spec (byte_val c) 127); [|lia].
  rewrite bytes_cons, byte_of_val. reflexivity.
Qed.

Lemma unquote_piece c f t :
  byte_val c < 128 ->
  json.unquote_fuel (S f) (ascii_piece c +:+ t) = String c (json.unquote_fuel f t).
Proof.
  intros Hc. pose proof (piece_shape_ok c Hc) as S. unfold piece_shape in S.
  destruct (ascii_piece c) as [|d [|e [|h1 [|h2 [|h3 [|h4 [|x y]]]]]]]; try discriminate.
  - apply andb_prop in S as [[[Hd Hq]%andb_prop Hl]%andb_prop Hb].
    apply negb_true_iff in Hb. apply Ascii.eqb_eq in Hd. subst d.
    change (String c "" +:+ t) with (String c t).
    cbn [json.unquote_fuel]. rewrite Hb.
    unfold utf8.RuneSelf. destruct (Z.ltb_spec (byte_val c) 128); [reflexivity|lia].
  - apply andb_prop in S as [[[Hb He]%andb_prop Hu]%andb_prop Hx].
    apply Ascii.eqb_eq in Hb, Hx. apply negb_true_iff in Hu. subst d.
    change (String "\" (String e "") +:+ t) with (String "\" (String e t)).
    cbn [json.unquote_fuel]. change (Ascii.eqb "\" "\") with true. cbv iota.
    rewrite Hu, Hx. reflexivity.
  - apply andb_prop in S as [[Hb Hu]%andb_prop Hh].
    apply Ascii.eqb_eq in Hb, Hu. subst d e.
    change (String "\" (String "u" (String h1 (String h2 (String h3 (String h4 ""))))) +:+ t)
      with (String "\" (String "u" (String h1 (String h2 (String h3 (String h4 t)))))).
    cbn [json.unquote_fuel]. change (Ascii.eqb "\" "\") with true.
    change (Ascii.eqb "u" "u") with true. cbv iota.
    unfold json.getu4. change (Ascii.eqb "\" "\" && Ascii.eqb "u" "u") with true. cbv iota.
    change (json.hex4 (String h1 (String h2 (String h3 (String h4 t)))))
      with (json.hex4 (String h1 (String h2 (String h3 (String h4 ""))))).
    destruct (json.hex4 _) as [v|]; [|discriminate].
    apply Z.eqb_eq in Hh. subst v. cbn [default from_option json.drop]. unfold id.
    pose proof (byte_val_range c).
    unfold json.utf16_IsSurrogate.
    destruct (Z.leb_spec 55296 (byte_val c)); [lia|]. cbn [andb].
    now rewrite (EncodeRune_ascii c Hc).
Qed.

(** [s] is well-formed UTF-8 (the test of [utf8.ValidString]), read rune by
    rune as [quote] reads it. *)
Fixpoint valid_fuel (fuel : nat) (s : string) : bool :=
  match fuel with
  | O => true
  | S n =>
      match s with
      | EmptyString => true
      | String c s1 =>
          if byte_val c <? utf8.RuneSelf then valid_fuel n s1
          else
            let (r, size) := utf8.DecodeRuneInString s in
            negb ((r =? utf8.RuneError) && Nat.eqb size 1)
            && valid_fuel n (json.drop size s)
      end
  end.

Definition well_formed (s : string) : bool := valid_fuel (String.length s) s.

Lemma high_byte c :
  128 <= byte_val c ->
  Ascii.eqb c dquote = false /\ (byte_val c <? 32) = false /\ Ascii.eqb c "\" = false.
Proof.
  intros Hc. repeat split.
  - destruct (Ascii.eqb_spec c dquote) as [->|]; [vm_compute in Hc; now destruct Hc|reflexivity].
  - destruct (Z.ltb_spec (byte_val c) 32); [lia|reflexivity].
  - destruct (Ascii.eqb_spec c "\") as [->|]; [vm_compute in Hc; now destruct Hc|reflexivity].
Qed.

(** A string is scanned through [piece]: the scanner, given [piece] and
    then [t], goes on with [t] and keeps [piece] in what it has read. *)
Definition scanned_through (piece : string) : Prop :=
  forall t,
    json.scan_string (piece +:+ t)
    = match json.scan_string t with
      | Some (raw, rest) => Some (piece +:+ raw, rest)
      | None => None
      end.

Lemma scanned_through_high c : 128 <= byte_val c -> scanned_through (String c "").
Proof.
  intros Hc t. destruct (high_byte c Hc) as (Hq & Hl & Hb).
  change (String c "" +:+ t) with (String c t).
  simpl json.scan_string. rewrite Hq, Hl, Hb.
  destruct (json.scan_string t) as [[raw rest]|]; reflexivity.
Qed.

Lemma scanned_through_app p q :
  scanned_through p -> scanned_through q -> scanned_through (p +:+ q).
Proof.
  intros Hp Hq t. rewrite string_app_assoc, Hp, Hq.
  destruct (json.scan_string t) as [[raw rest]|]; [|reflexivity].
  now rewrite string_app_assoc.
Qed.

Lemma scanned_through_escapes :
  scanned_through "\ufffd" /\ scanned_through "\u2028" /\ scanned_through "\u2029".
Proof.
  repeat split; intros t; simpl; destruct (json.scan_string t) as [[raw rest]|]; reflexivity.
Qed.

Lemma unquote_escapes f t :
  json.unquote_fuel (S f) ("\u2028" +:+ t) = utf8.EncodeRune 8232 +:+ json.unquote_fuel f t
  /\ json.unquote_fuel (S f) ("\u2029" +:+ t) = utf8.EncodeRune 8233 +:+ json.unquote_fuel f t.
Proof. split; reflexivity. Qed.

Lemma unquote_high f c0 s1 r size :
  128 <= byte_val c0 ->
  utf8.DecodeRuneInString (String c0 s1) = (r, size) ->
  json.unquote_fuel (S f) (String c0 s1)
  = utf8.EncodeRune r +:+ json.unquote_fuel f (json.drop size (String c0 s1)).
Proof.
  intros Hc D. destruct (high_byte c0 Hc) as (_ & _ & Hb).
  cbn [json.unquote_fuel]. rewrite Hb. unfold utf8.RuneSelf.
  destruct (Z.ltb_spec (byte_val c0) 128); [lia|]. now rewrite D.
Qed.

Lemma substring_0_0 t : String.substring 0 0 t = "".
Proof. now destruct t. Qed.

Lemma EncodeRune_rune2 c0 c1 :
  194 <= byte_val c0 <= 223 -> 128 <= byte_val c1 <= 191 ->
  utf8.EncodeRune (rune2 c0 c1) = String c0 (String c1 "").
Proof. apply EncodeRune_2. Qed.

Lemma EncodeRune_rune3 c0 c1 c2 :
  224 <= byte_val c0 <= 239 ->
  (if byte_val c0 =? 224 then 160 else 128) <= byte_val c1
    <= (if byte_val c0 =? 237 then 159 else 191) ->
  128 <= byte_val c2 <= 191 ->
  utf8.EncodeRune (rune3 c0 c1 c2) = String c0 (String c1 (String c2 "")).
Proof. apply EncodeRune_3. Qed.

Lemma EncodeRune_rune4 c0 c1 c2 c3 :
  240 <= byte_val c0 <= 244 ->
  (if byte_val c0 =? 240 then 144 else 128) <= byte_val c1
    <= (if byte_val c0 =? 244 then 143 else 191) ->
  128 <= byte_val c2 <= 191 ->
  128 <= byte_val c3 <= 191 ->
  utf8.EncodeRune (rune4 c0 c1 c2 c3)
  = String c0 (String c1 (String c2 (String c3 ""))).
Proof. apply EncodeRune_4. Qed.

(** One step of [quote]: the bytes it writes for the first rune of a
    string and the source it goes on with; the step as the scanner and as
    [unquote] see it. *)
Lemma quote_step n c s1 :
  exists piece src,
    json.quote_fuel (S n) (String c s1) = piece +:+ json.quote_fuel n src
    /\ (String.length src <= String.length s1)%nat
    /\ (String.length (String c s1) <= String.length piece + String.length src)%nat
    /\ scanned_through piece
    /\ (valid_fuel (S n) (String c s1) = true ->
        valid_fuel n src = true
        /\ exists prefix,
             String c s1 = prefix +:+ src
             /\ forall f t, json.unquote_fuel (S f) (piece +:+ t)
                            = prefix +:+ json.unquote_fuel f t).
Proof.
  cbn [json.quote_fuel valid_fuel]. unfold utf8.RuneSelf.
  destruct (Z.ltb_spec (byte_val c) 128) as [Hc|Hc].
  - exists (ascii_piece c), s1. split; [reflexivity|]. split; [lia|]. split.
    { pose proof (piece_shape_ok c Hc) as S. unfold piece_shape in S.
      destruct (ascii_piece c); [discriminate|]. cbn [String.length]. lia. }
    split; [intros t; now apply scan_string_piece|].
    intros V. split; [exact V|]. exists (String c ""). split; [reflexivity|].
    intros f t. now apply unquote_piece.
  - destruct scanned_through_escapes as (Sfffd & S2028 & S2029).
    destruct (DecodeRune_cases c s1 Hc)
      as [E|[(c1 & t & -> & H0 & H1 & D)
            |[(c1 & c2 & t & -> & H0 & H1 & H2 & D)
             |(c1 & c2 & c3 & t & -> & H0 & H1 & H2 & H3 & D)]]].
    + rewrite E. change ((utf8.RuneError =? utf8.RuneError) && Nat.eqb 1 1) with true.
      cbv iota. exists "\ufffd", s1. split; [reflexivity|]. split; [lia|].
      split; [cbn [String.length]; lia|]. split; [exact Sfffd|]. discriminate.
    + rewrite (D t). change (Nat.eqb 2 1) with false. rewrite andb_false_r.
      cbn [negb andb json.drop String.substring]. rewrite ?substring_0_0.
      assert (U : forall f t', json.unquote_fuel (S f) (String c (String c1 "") +:+ t')
                               = String c (String c1 "") +:+ json.unquote_fuel f t').
      { intros f t'. change (String c (String c1 "") +:+ t') with (String c (String c1 t')).
        rewrite (unquote_high f c (String c1 t') _ _ Hc (D t')).
        now rewrite (EncodeRune_rune2 c c1 H0 H1). }
      destruct (Z.eqb_spec (rune2 c c1) 8232) as [E8|_]; cbn [orb];
        [|destruct (Z.eqb_spec (rune2 c c1) 8233) as [E9|_]].
      * exists "\u2028", t. rewrite E8. split; [reflexivity|]. split; [cbn; lia|].
        split; [cbn [String.length]; lia|]. split; [exact S2028|].
        intros V. split; [exact V|]. exists (String c (String c1 "")).
        split; [reflexivity|]. intros f t'.
        rewrite (proj1 (unquote_escapes f t')), <- E8. now rewrite (EncodeRune_rune2 c c1 H0 H1).
      * exists "\u2029", t. rewrite E9. split; [reflexivity|]. split; [cbn; lia|].
        split; [cbn [String.length]; lia|]. split; [exact S2029|].
        intros V. split; [exact V|]. exists (String c (String c1 "")).
        split; [reflexivity|]. intros f t'.
        rewrite (proj2 (unquote_escapes f t')), <- E9. now rewrite (EncodeRune_rune2 c c1 H0 H1).
      * exists (String c (String c1 "")), t. split; [reflexivity|]. split; [cbn; lia|].
        split; [cbn [String.length]; lia|].
        split; [apply (scanned_through_app (String c "") (String c1 ""));
                apply scanned_through_high; lia|].
        intros V. split; [exact V|]. exists (String c (String c1 "")).
        split; [reflexivity|]. exact U.
    + rewrite (D t). change (Nat.eqb 3 1) with false. rewrite andb_false_r.
      cbn [negb andb json.drop String.substring]. rewrite ?substring_0_0.
      assert (B1 : 128 <= byte_val c1 <= 191).
      { destruct (byte_val c =? 224), (byte_val c =? 237); lia. }
      assert (U : forall f t',
                 json.unquote_fuel (S f) (String c (String c1 (String c2 "")) +:+ t')
                 = String c (String c1 (String c2 "")) +:+ json.unquote_fuel f t').
      { intros f t'. change (String c (String c1 (String c2 "")) +:+ t')
          with (String c (String c1 (String c2 t'))).
        rewrite (unquote_high f c (String c1 (String c2 t')) _ _ Hc (D t')).
        now rewrite (EncodeRune_rune3 c c1 c2 H0 H1 H2). }
      destruct (Z.eqb_spec (rune3 c c1 c2) 8232) as [E8|_]; cbn [orb];
        [|destruct (Z.eqb_spec (rune3 c c1 c2) 8233) as [E9|_]].
      * exists "\u2028", t. rewrite E8. split; [reflexivity|]. split; [cbn; lia|].
        split; [cbn [String.length]; lia|]. split; [exact S2028|].
        intros V. split; [exact V|]. exists (String c (String c1 (String c2 ""))).
        split; [reflexivity|]. intros f t'.
        rewrite (proj1 (unquote_escapes f t')), <- E8. now rewrite (EncodeRune_rune3 c c1 c2 H0 H1 H2).
      * exists "\u2029", t. rewrite E9. split; [reflexivity|]. split; [cbn; lia|].
        split; [cbn [String.length]; lia|]. split; [exact S2029|].
        intros V. split; [exact V|]. exists (String c (String c1 (String c2 ""))).
        split; [reflexivity|]. intros f t'.
        rewrite (proj2 (unquote_escapes f t')), <- E9. now rewrite (EncodeRune_rune3 c c1 c2 H0 H1 H2).
      * exists (String c (String c1 (String c2 ""))), t.
        split; [reflexivity|]. split; [cbn; lia|]. split; [cbn [String.length]; lia|].
        split; [apply (scanned_through_app (String c "") (String c1 (String c2 "")));
                [|apply (scanned_through_app (String c1 "") (String c2 ""))];
                apply scanned_through_high; lia|].
        intros V. split; [exact V|]. exists (String c (String c1 (String c2 ""))).
        split; [reflexivity|]. exact U.
    + rewrite (D t). change (Nat.eqb 4 1) with false. rewrite andb_false_r.
      cbn [negb andb json.drop String.substring]. rewrite ?substring_0_0.
      assert (B1 : 128 <= byte_val c1 <= 191).
      { destruct (byte_val c =? 240), (byte_val c =? 244); lia. }
      assert (U : forall f t',
                 json.unquote_fuel (S f)
                   (String c (String c1 (String c2 (String c3 ""))) +:+ t')
                 = String c (String c1 (String c2 (String c3 ""))) +:+ json.unquote_fuel f t').
      { intros f t'. change (String c (String c1 (String c2 (String c3 ""))) +:+ t')
          with (String c (String c1 (String c2 (String c3 t')))).
        rewrite (unquote_high f c (String c1 (String c2 (String c3 t'))) _ _ Hc (D t')).
        now rewrite (EncodeRune_rune4 c c1 c2 c3 H0 H1 H2 H3). }
      destruct (Z.eqb_spec (rune4 c c1 c2 c3) 8232) as [E8|_]; cbn [orb];
        [|destruct (Z.eqb_spec (rune4 c c1 c2 c3) 8233) as [E9|_]].
      * exists "\u2028", t. rewrite E8. split; [reflexivity|]. split; [cbn; lia|].
        split; [cbn [String.length]; lia|]. split; [exact S2028|].
        intros V. split; [exact V|].
        exists (String c (String c1 (String c2 (String c3 "")))).
        split; [reflexivity|]. intros f t'.
        rewrite (proj1 (unquote_escapes f t')), <- E8. now rewrite (EncodeRune_rune4 c c1 c2 c3 H0 H1 H2 H3).
      * exists "\u2029", t. rewrite E9. split; [reflexivity|]. split; [cbn; lia|].
        split; [cbn [String.length]; lia|]. split; [exact S2029|].
        intros V. split; [exact V|].
        exists (String c (String c1 (String c2 (String c3 "")))).
        split; [reflexivity|]. intros f t'.
        rewrite (proj2 (unquote_escapes f t')), <- E9. now rewrite (EncodeRune_rune4 c c1 c2 c3 H0 H1 H2 H3).
      * exists (String c (String c1 (String c2 (String c3 "")))), t.
        split; [reflexivity|]. split; [cbn; lia|]. split; [cbn [String.length]; lia|].
        split; [apply (scanned_through_app (String c "")
                         (String c1 (String c2 (String c3 ""))));
                [|apply (scanned_through_app (String c1 "") (String c2 (String c3 "")));
                  [|apply (scanned_through_app (String c2 "") (String c3 ""))]];
                apply scanned_through_high; lia|].
        intros V. split; [exact V|].
        exists (String c (String c1 (String c2 (String c3 "")))).
        split; [reflexivity|]. exact U.
Qed.

Lemma quote_fuel_length n :
  forall s, (String.length s <= n)%nat ->
            (String.length s <= String.length (json.quote_fuel n s))%nat.
Proof.
  induction n as [|n IH]; intros [|c s1] L; cbn [String.length] in *; try lia.
  destruct (quote_step n c s1) as (piece & src & E & L1 & L2 & _).
  rewrite E, string_length_app. specialize (IH src ltac:(lia)).
  cbn [String.length] in L2. lia.
Qed.

(** The scanner reads what [quote] has written up to the closing quote. *)
Lemma scan_string_quote n :
  forall s rest,
    json.scan_string (json.quote_fuel n s +:+ String dquote rest)
    = Some (json.quote_fuel n s, rest).
Proof.
  assert (Z : forall rest, json.scan_string (String dquote rest) = Some ("", rest)).
  { intros rest. reflexivity. }
  induction n as [|n IH]; intros [|c s1] rest; try apply Z.
  destruct (quote_step n c s1) as (piece & src & E & _ & _ & Sc & _).
  rewrite E, string_app_assoc, Sc, IH. reflexivity.
Qed.

(** [unquote] reads it back as the string it was written from, when that
    is well-formed UTF-8. *)
Lemma unquote_quote n :
  forall s f,
    (String.length s <= n)%nat -> (String.length s <= f)%nat ->
    valid_fuel n s = true ->
    json.unquote_fuel f (json.quote_fuel n s) = s.
Proof.
  induction n as [|n IH]; intros [|c s1] [|f] Ln Lf V; cbn [String.length] in *;
    try lia; try reflexivity.
  destruct (quote_step n c s1) as (piece & src & E & L1 & _ & _ & U).
  destruct (U V) as (Vsrc & prefix & Es & Up).
  rewrite E, Up, (IH src f) by (lia || exact Vsrc). now rewrite Es.
Qed.

Lemma unquote_quoted s :
  well_formed s = true -> json.unquote (json.quote_fuel (String.length s) s) = s.
Proof.
  intros V. unfold json.unquote. apply unquote_quote; [lia| |exact V].
  now apply quote_fuel_length.
Qed.

(** A string literal at the head of a text, after its opening quote. *)
Lemma scan_string_literal s rest :
  json.quote s +:+ rest
  = String dquote (json.quote_fuel (String.length s) s +:+ String dquote rest).
Proof.
  unfold json.quote. cbn [append]. now rewrite string_app_assoc.
Qed.

(** ** Number literals *)

(** The text [rest] cannot go on a number literal: it is empty, or starts
    with a byte that is no digit and none of [.], [e], [E]. *)
Definition stops_number (rest : string) : bool :=
  match rest with
  | EmptyString => true
  | String c _ => negb (is_digit c || Ascii.eqb c "." || Ascii.eqb c "e" || Ascii.eqb c "E")
  end.

Lemma stops_number_head rest :
  stops_number rest = true ->
  json.skip_digits rest = rest
  /\ match rest with
     | String c _ => Ascii.eqb c "." = false /\ Ascii.eqb c "e" = false
                     /\ Ascii.eqb c "E" = false
     | EmptyString => True
     end.
Proof.
  destruct rest as [|c rest]; [auto|]. cbn [stops_number json.skip_digits].
  intros S. apply negb_true_iff in S.
  apply orb_false_elim in S as [S HE]. apply orb_false_elim in S as [S He].
  apply orb_false_elim in S as [Hd Hp]. rewrite Hd. auto.
Qed.

Lemma string_app_nil_l t : "" +:+ t = t.
Proof. reflexivity. Qed.

Ltac push_app := rewrite ?string_app_cons, ?string_app_nil_l.

Lemma skip_digits_app x rest :
  json.skip_digits rest = rest ->
  json.skip_digits (x +:+ rest) = json.skip_digits x +:+ rest.
Proof.
  intros R. induction x as [|c x IH]; [exact R|].
  push_app. cbn [json.skip_digits]. destruct (is_digit c); [exact IH|reflexivity].
Qed.

Lemma skip_digits_empty x :
  json.skip_digits x = "" -> x = "" \/ exists d y, x = String d y /\ is_digit d = true
                                                   /\ json.skip_digits y = "".
Proof.
  destruct x as [|d y]; [auto|]. cbn [json.skip_digits].
  destruct (is_digit d) eqn:D; [|discriminate]. right. eauto.
Qed.

Lemma substring_prefix lit rest :
  String.substring 0 (String.length (lit +:+ rest) - String.length rest) (lit +:+ rest) = lit.
Proof.
  rewrite string_length_app.
  replace (String.length lit + String.length rest - String.length rest)%nat
    with (String.length lit) by lia.
  induction lit as [|c lit IH]; [apply substring_0_0|].
  push_app. cbn [String.length String.substring]. now rewrite IH.
Qed.

(** The fraction of a number literal, as [isValidNumber] and as the scanner
    step over it. *)
Definition after_fraction (s3 : string) : string :=
  match s3 with
  | String p (String q r) =>
      if Ascii.eqb p "." && is_digit q then json.skip_digits r else s3
  | _ => s3
  end.

Definition after_exponent (s4 : string) : option string :=
  match s4 with
  | String e (String q r) =>
      if Ascii.eqb e "e" || Ascii.eqb e "E" then
        if Ascii.eqb q "+" || Ascii.eqb q "-" then
          match r with
          | EmptyString => None
          | _ => Some (json.skip_digits r)
          end
        else Some (json.skip_digits (String q r))
      else Some s4
  | _ => Some s4
  end.

Definition scan_fraction (s3 : string) : option string :=
  match s3 with
  | String p s4 =>
      if Ascii.eqb p "." then
        match s4 with
        | String q r => if is_digit q then Some (json.skip_digits r) else None
        | EmptyString => None
        end
      else Some s3
  | EmptyString => Some s3
  end.

Definition scan_exponent (s5 : string) : option string :=
  match s5 with
  | String e s6 =>
      if Ascii.eqb e "e" || Ascii.eqb e "E" then
        let s7 := match s6 with
                  | String q r => if Ascii.eqb q "+" || Ascii.eqb q "-" then r else s6
                  | EmptyString => s6
                  end in
        match s7 with
        | String q r => if is_digit q then Some (json.skip_digits r) else None
        | EmptyString => None
        end
      else Some s5
  | EmptyString => Some s5
  end.

Lemma after_exponent_start s4 :
  after_exponent s4 = Some "" ->
  s4 = "" \/ exists e t, s4 = String e t /\ (Ascii.eqb e "e" || Ascii.eqb e "E") = true.
Proof.
  destruct s4 as [|e [|q r]]; [auto|discriminate|]. cbn [after_exponent].
  destruct (Ascii.eqb e "e" || Ascii.eqb e "E") eqn:E; [|discriminate]. right. eauto.
Qed.

Lemma scan_exponent_app s4 rest :
  stops_number rest = true ->
  after_exponent s4 = Some "" ->
  scan_exponent (s4 +:+ rest) = Some rest.
Proof.
  intros St V. destruct (stops_number_head rest St) as [Sk Hd].
  destruct s4 as [|e [|q r]]; [|discriminate|].
  - push_app. destruct rest as [|c rest]; [reflexivity|].
    destruct Hd as (_ & He & HE). cbn [scan_exponent]. now rewrite He, HE.
  - cbn [after_exponent] in V. push_app. cbn [scan_exponent].
    destruct (Ascii.eqb e "e" || Ascii.eqb e "E"); [|discriminate].
    destruct (Ascii.eqb q "+" || Ascii.eqb q "-") eqn:Sg.
    + destruct r as [|q' r']; [discriminate|]. injection V as V.
      cbn [json.skip_digits] in V. destruct (is_digit q') eqn:D; [|discriminate].
      push_app. cbv zeta. rewrite D.
      now rewrite (skip_digits_app r' rest Sk), V.
    + injection V as V. cbn [json.skip_digits] in V.
      destruct (is_digit q) eqn:D; [|discriminate]. cbv zeta.
      now rewrite (skip_digits_app r rest Sk), V.
Qed.

Lemma scan_fraction_app s3 rest :
  stops_number rest = true ->
  after_exponent (after_fraction s3) = Some "" ->
  scan_fraction (s3 +:+ rest) = Some (after_fraction s3 +:+ rest).
Proof.
  intros St V. destruct (stops_number_head rest St) as [Sk Hd].
  destruct s3 as [|p s4].
  - push_app. cbn [after_fraction]. destruct rest as [|c rest]; [reflexivity|].
    destruct Hd as (Hp & _). cbn [scan_fraction]. now rewrite Hp.
  - push_app. cbn [scan_fraction]. destruct (Ascii.eqb_spec p ".") as [->|Hp].
    + destruct s4 as [|q r]; [discriminate V|].
      cbn [after_fraction] in *. change (Ascii.eqb "." ".") with true in *.
      cbn [andb] in *. push_app. destruct (is_digit q).
      * now rewrite (skip_digits_app r rest Sk).
      * discriminate V.
    + destruct s4 as [|q r]; cbn [after_fraction].
      * reflexivity.
      * destruct (Ascii.eqb_spec p "."); [contradiction|]. reflexivity.
Qed.

(** [scan_number] and [isValidNumber], in the steps they share. *)
Definition number_rest (s : string) : option string :=
  match (match s with
         | String c s' => if Ascii.eqb c "-" then s' else s
         | EmptyString => s
         end) with
  | String d s2 =>
      if negb (is_digit d) then None
      else
        match scan_fraction (if Ascii.eqb d "0" then s2 else json.skip_digits s2) with
        | None => None
        | Some s5 => scan_exponent s5
        end
  | EmptyString => None
  end.

Lemma scan_number_rest s :
  json.scan_number s
  = match number_rest s with
    | Some rest => Some (String.substring 0 (String.length s - String.length rest) s, rest)
    | None => None
    end.
Proof.
  unfold json.scan_number, number_rest.
  fold (scan_fraction
          (match (match s with
                  | String c s' => if Ascii.eqb c "-" then s' else s
                  | EmptyString => s
                  end) with
           | String d s2 => if Ascii.eqb d "0" then s2 else json.skip_digits s2
           | EmptyString => ""
           end)).
  destruct (match s with
            | String c s' => if Ascii.eqb c "-" then s' else s
            | EmptyString => s
            end) as [|d s2]; [reflexivity|].
  destruct (negb (is_digit d)); [reflexivity|].
  change (match (if Ascii.eqb d "0" then s2 else json.skip_digits s2) with
          | "" => Some (if Ascii.eqb d "0" then s2 else json.skip_digits s2)
          | String p s4 =>
              if Ascii.eqb p "."
              then match s4 with
                   | "" => None
                   | String q r => if is_digit q then Some (json.skip_digits r) else None
                   end
              else Some (if Ascii.eqb d "0" then s2 else json.skip_digits s2)
          end)
    with (scan_fraction (if Ascii.eqb d "0" then s2 else json.skip_digits s2)).
  destruct (scan_fraction _) as [s5|]; [|reflexivity].
  change (match s5 with
          | "" => Some s5
          | String e s6 =>
              if Ascii.eqb e "e" || Ascii.eqb e "E"
              then
                match
                  match s6 with
                  | "" => s6
                  | String q r => if Ascii.eqb q "+" || Ascii.eqb q "-" then r else s6
                  end
                with
                | "" => None
                | String q r => if is_digit q then Some (json.skip_digits r) else None
                end
              else Some s5
          end) with (scan_exponent s5).
  destruct (scan_exponent s5); reflexivity.
Qed.

Lemma isValidNumber_steps s :
  json.isValidNumber s
  = match s with
    | EmptyString => false
    | String c0 _ =>
        match (if Ascii.eqb c0 "-" then strings.tail s else s) with
        | EmptyString => false
        | String d s2 =>
            if negb (is_digit d) then false
            else
              match after_exponent
                      (after_fraction (if Ascii.eqb d "0" then s2 else json.skip_digits s2))
              with
              | Some EmptyString => true
              | _ => false
              end
        end
    end.
Proof. reflexivity. Qed.

(** The scanner reads a number literal whole, when what follows cannot go
    on it. *)
Lemma scan_number_literal lit rest :
  json.isValidNumber lit = true ->
  stops_number rest = true ->
  json.scan_number (lit +:+ rest) = Some (lit, rest).
Proof.
  intros V St. destruct (stops_number_head rest St) as [Sk _].
  rewrite isValidNumber_steps in V. rewrite scan_number_rest.
  enough (R : number_rest (lit +:+ rest) = Some rest) by now rewrite R, substring_prefix.
  unfold number_rest.
  destruct lit as [|c0 l']; [discriminate|].
  push_app. cbn [strings.tail] in V.
  assert (G : forall d s2,
             (if negb (is_digit d) then false
              else match after_exponent
                           (after_fraction (if Ascii.eqb d "0" then s2 else json.skip_digits s2))
                   with
                   | Some EmptyString => true
                   | _ => false
                   end) = true ->
             (if negb (is_digit d) then None
              else match scan_fraction (if Ascii.eqb d "0" then s2 +:+ rest
                                        else json.skip_digits (s2 +:+ rest)) with
                   | None => None
                   | Some s5 => scan_exponent s5
                   end) = Some rest).
  { intros d s2 W. destruct (negb (is_digit d)); [discriminate|].
    set (s3 := if Ascii.eqb d "0" then s2 else json.skip_digits s2) in *.
    assert (E3 : (if Ascii.eqb d "0" then s2 +:+ rest else json.skip_digits (s2 +:+ rest))
                 = s3 +:+ rest).
    { subst s3. destruct (Ascii.eqb d "0"); [reflexivity|now apply skip_digits_app]. }
    rewrite E3.
    destruct (after_exponent (after_fraction s3)) as [[|]|] eqn:A; try discriminate.
    rewrite (scan_fraction_app s3 rest St A). now apply scan_exponent_app. }
  destruct (Ascii.eqb c0 "-").
  - destruct l' as [|d s2]; [discriminate|]. push_app. exact (G d s2 V).
  - exact (G c0 l' V).
Qed.

(** ** Objects of scalars *)

(** A value without structure whose text is read back as it is: [null], a
    boolean, a number literal, a string of well-formed UTF-8. *)
Definition scalar (v : json.value) : bool :=
  match v with
  | json.JNull | json.JBool _ => true
  | json.JNumber lit => json.isValidNumber lit
  | json.JString s => well_formed s
  | _ => false
  end.

Definition flat_member (kv : string * json.value) : bool :=
  well_formed (fst kv) && scalar (snd kv).

(** The text of one member. *)
Definition member_text (kv : string * json.value) : string :=
  json.quote (fst kv) +:+ ":" +:+ json.render (snd kv).

Lemma render_object ms :
  json.render (json.JObject ms) = "{" +:+ strings.Join (member_text <$> ms) "," +:+ "}".
Proof.
  cbn [json.render]. do 3 f_equal.
  induction ms as [|[k e] ms IH]; [reflexivity|].
  cbn [fmap list_fmap] in IH |- *. rewrite <- IH. reflexivity.
Qed.

(** A number literal starts with a digit or a minus sign. *)
Definition starts_number (c : ascii) : bool := Ascii.eqb c "-" || is_digit c.

Lemma isValidNumber_head lit :
  json.isValidNumber lit = true -> exists c l, lit = String c l /\ starts_number c = true.
Proof.
  rewrite isValidNumber_steps. destruct lit as [|c l]; [discriminate|].
  intros V. exists c, l. split; [reflexivity|]. unfold starts_number.
  destruct (Ascii.eqb c "-"); [reflexivity|].
  destruct (is_digit c); [reflexivity|discriminate].
Qed.

Lemma starts_number_facts c :
  starts_number c = true ->
  json.isSpace c = false /\ Ascii.eqb c "{" = false /\ Ascii.eqb c "[" = false
  /\ Ascii.eqb c dquote = false /\ Ascii.eqb c "t" = false /\ Ascii.eqb c "f" = false
  /\ Ascii.eqb c "n" = false.
Proof.
  pose proof (for_all_bytes
    (fun c => implb (starts_number c)
                (negb (json.isSpace c) && negb (Ascii.eqb c "{") && negb (Ascii.eqb c "[")
                 && negb (Ascii.eqb c dquote) && negb (Ascii.eqb c "t")
                 && negb (Ascii.eqb c "f") && negb (Ascii.eqb c "n")))
    ltac:(vm_compute; reflexivity) c) as A.
  cbv beta in A. intros Hc. rewrite Hc in A. cbn [implb] in A.
  do 6 (apply andb_prop in A as [A ?]).
  repeat match goal with H : negb _ = true |- _ => apply negb_true_iff in H end.
  repeat split; assumption.
Qed.

Lemma prefix_app word rest : String.prefix word (word +:+ rest) = true.
Proof.
  induction word as [|c word IH]; [now destruct rest|].
  rewrite string_app_cons. cbn [String.prefix].
  destruct (ascii_dec c c); [exact IH|contradiction].
Qed.

Lemma drop_app word rest : json.drop (String.length word) (word +:+ rest) = rest.
Proof.
  induction word as [|c word IH]; [reflexivity|].
  rewrite string_app_cons. exact IH.
Qed.

Lemma literal_app word v rest : json.literal word v (word +:+ rest) = Some (v, rest).
Proof. unfold json.literal. now rewrite prefix_app, drop_app. Qed.

(** The scanner on the text of a scalar. *)
Lemma scan_scalar n depth v rest :
  scalar v = true ->
  stops_number rest = true ->
  json.scan_value (S n) depth (json.render v +:+ rest) = Some (v, rest).
Proof.
  intros Sv St. destruct v as [|[|]|lit|s|elems|members]; try discriminate.
  - cbn [json.render]. change ("null" +:+ rest) with (String "n" ("ull" +:+ rest)).
    cbn [json.scan_value json.skip_space]. change (json.isSpace "n") with false.
    change (Ascii.eqb "n" "{") with false. change (Ascii.eqb "n" "[") with false.
    change (Ascii.eqb "n" dquote) with false. change (Ascii.eqb "n" "t") with false.
    change (Ascii.eqb "n" "f") with false. change (Ascii.eqb "n" "n") with true.
    cbv iota. apply (literal_app "null").
  - cbn [json.render]. change ("true" +:+ rest) with (String "t" ("rue" +:+ rest)).
    cbn [json.scan_value json.skip_space]. change (json.isSpace "t") with false.
    change (Ascii.eqb "t" "{") with false. change (Ascii.eqb "t" "[") with false.
    change (Ascii.eqb "t" dquote) with false. change (Ascii.eqb "t" "t") with true.
    cbv iota. apply (literal_app "true").
  - cbn [json.render]. change ("false" +:+ rest) with (String "f" ("alse" +:+ rest)).
    cbn [json.scan_value json.skip_space]. change (json.isSpace "f") with false.
    change (Ascii.eqb "f" "{") with false. change (Ascii.eqb "f" "[") with false.
    change (Ascii.eqb "f" dquote) with false. change (Ascii.eqb "f" "t") with false.
    change (Ascii.eqb "f" "f") with true.
    cbv iota. apply (literal_app "false").
  - cbn [scalar] in Sv. cbn [json.render].
    destruct (isValidNumber_head lit Sv) as (c & l & -> & Hc).
    destruct (starts_number_facts c Hc) as (Hs & Ho & Ha & Hq & Ht & Hf & Hn).
    rewrite string_app_cons. cbn [json.scan_value json.skip_space].
    rewrite Hs, Ho, Ha, Hq, Ht, Hf, Hn. rewrite <- string_app_cons.
    now rewrite (scan_number_literal _ rest Sv St).
  - cbn [scalar] in Sv. cbn [json.render]. rewrite scan_string_literal.
    cbn [json.scan_value json.skip_space].
    change (json.isSpace dquote) with false. change (Ascii.eqb dquote "{") with false.
    change (Ascii.eqb dquote "[") with false. change (Ascii.eqb dquote dquote) with true.
    cbv iota. rewrite scan_string_quote. now rewrite (unquote_quoted s Sv).
Qed.

(** One member and what follows it: the next member after a comma, or the
    end of the object. *)
Lemma scan_member n depth k v tail :
  well_formed k = true ->
  json.scan_value n depth (json.render v +:+ tail) = Some (v, tail) ->
  json.scan_members (S n) depth (member_text (k, v) +:+ tail)
  = match json.skip_space tail with
    | String c rest3 =>
        if Ascii.eqb c "}" then Some ([(k, v)], rest3)
        else if Ascii.eqb c "," then
          match json.scan_members n depth rest3 with
          | Some (ms', rest4) => Some ((k, v) :: ms', rest4)
          | None => None
          end
        else None
    | EmptyString => None
    end.
Proof.
  intros Fk Sv. unfold member_text. cbn [fst snd].
  rewrite !string_app_assoc, scan_string_literal.
  cbn [json.scan_members json.skip_space].
  change (json.isSpace dquote) with false. change (Ascii.eqb dquote dquote) with true.
  cbn [negb]. rewrite scan_string_quote.
  change (":" +:+ json.render v +:+ tail) with (String ":" (json.render v +:+ tail)).
  cbn [json.skip_space]. change (json.isSpace ":") with false.
  change (Ascii.eqb ":" ":") with true. cbn [negb].
  rewrite Sv, (unquote_quoted k Fk). reflexivity.
Qed.

Lemma scan_members_flat ms :
  forall n depth rest,
    ms <> [] ->
    forallb flat_member ms = true ->
    (length ms < n)%nat ->
    json.scan_members n depth (strings.Join (member_text <$> ms) "," +:+ "}" +:+ rest)
    = Some (ms, rest).
Proof.
  induction ms as [|[k v] ms IH]; intros n depth rest NE F L; [contradiction|].
  cbn [forallb] in F. apply andb_prop in F as [Fm F].
  apply andb_prop in Fm as [Fk Fv]. cbn [fst snd] in Fk, Fv.
  destruct n as [|[|n]]; cbn [length] in L; try lia.
  cbn [fmap list_fmap]. destruct ms as [|m ms'].
  - cbn [fmap list_fmap strings.Join].
    rewrite (scan_member (S n) depth k v ("}" +:+ rest) Fk)
      by (apply scan_scalar; [exact Fv|reflexivity]).
    reflexivity.
  - change (list_fmap _ _ member_text (m :: ms')) with (member_text <$> (m :: ms')).
    rewrite Join_cons by discriminate. rewrite !string_app_assoc.
    rewrite (scan_member (S n) depth k v
               ("," +:+ strings.Join (member_text <$> m :: ms') "," +:+ "}" +:+ rest) Fk)
      by (apply scan_scalar; [exact Fv|reflexivity]).
    change ("," +:+ strings.Join (member_text <$> m :: ms') "," +:+ "}" +:+ rest)
      with (String "," (strings.Join (member_text <$> m :: ms') "," +:+ "}" +:+ rest)).
    cbn [json.skip_space]. change (json.isSpace ",") with false.
    change (Ascii.eqb "," "}") with false. change (Ascii.eqb "," ",") with true. cbv iota.
    rewrite (IH (S n) depth rest) by (discriminate || exact F || (cbn [length] in *; lia)).
    reflexivity.
Qed.

Lemma member_text_nonempty kv : member_text kv <> "".
Proof. unfold member_text, json.quote. discriminate. Qed.

Lemma Join_length segs sep :
  Forall (fun s => s <> "") segs ->
  (length segs <= String.length (strings.Join segs sep))%nat.
Proof.
  induction 1 as [|s segs Hs _ IH]; [cbn; lia|].
  destruct segs as [|r segs'].
  - cbn [strings.Join length]. destruct s; [contradiction|cbn; lia].
  - rewrite Join_cons by discriminate. rewrite !string_length_app.
    destruct s; [contradiction|]. cbn [length String.length] in *. lia.
Qed.

Lemma object_text_length ms :
  (length ms + 2 <= String.length (json.render (json.JObject ms)))%nat.
Proof.
  rewrite render_object, !string_length_app. cbn [String.length].
  pose proof (Join_length (member_text <$> ms) ","
                ltac:(apply Forall_forall; intros s [kv [-> _]]%list_elem_of_fmap;
                      apply member_text_nonempty)) as L.
  rewrite length_fmap in L. lia.
Qed.

(** The scanner on the text of an object of scalars. *)
Lemma scan_flat_object n depth ms rest :
  forallb flat_member ms = true ->
  depth + 1 <= json.maxNestingDepth ->
  (length ms + 1 < n)%nat ->
  json.scan_value n depth (json.render (json.JObject ms) +:+ rest)
  = Some (json.JObject ms, rest).
Proof.
  intros F D L. destruct n as [|n]; [lia|].
  rewrite render_object, !string_app_assoc.
  change ("{" +:+ strings.Join (member_text <$> ms) "," +:+ "}" +:+ rest)
    with (String "{" (strings.Join (member_text <$> ms) "," +:+ "}" +:+ rest)).
  cbn [json.scan_value json.skip_space]. change (json.isSpace "{") with false.
  change (Ascii.eqb "{" "{") with true. cbv iota.
  destruct (Z.ltb_spec json.maxNestingDepth (depth + 1)); [lia|].
  destruct ms as [|[k v] ms'].
  - reflexivity.
  - rewrite (scan_members_flat ((k, v) :: ms') n (depth + 1) rest)
      by (discriminate || exact F || lia).
    cbn [fmap list_fmap]. destruct ms' as [|m ms''].
    + cbn [fmap list_fmap strings.Join]. unfold member_text at 1, json.quote at 1.
      reflexivity.
    + change (list_fmap _ _ member_text (m :: ms'')) with (member_text <$> (m :: ms'')).
      rewrite Join_cons by discriminate. unfold member_text at 1, json.quote at 1.
      reflexivity.
Qed.

(** The text of a response that holds one record: the object with the one
    member [result]. *)
Definition envelope_text (record : string) : string :=
  dq "{'result':" +:+ record +:+ "}".

Lemma parse_envelope ms :
  forallb flat_member ms = true ->
  json.parse (envelope_text (json.render (json.JObject ms)))
  = Some (json.JObject [("result", json.JObject ms)]).
Proof.
  intros F. unfold json.parse, envelope_text.
  set (obj := json.render (json.JObject ms)).
  assert (L : (length ms + 2 <= String.length obj)%nat) by apply object_text_length.
  set (len := String.length (dq "{'result':" +:+ obj +:+ "}")).
  assert (Llen : (length ms + 2 <= len)%nat).
  { subst len. rewrite !string_length_app. lia. }
  replace (2 * len + 2)%nat with (S (S (2 * len))) by lia.
  change (dq "{'result':" +:+ obj +:+ "}")
    with (String "{" (member_text ("result", json.JObject ms) +:+ "}")).
  cbn [json.scan_value json.skip_space]. change (json.isSpace "{") with false.
  change (Ascii.eqb "{" "{") with true. cbv iota.
  change (json.maxNestingDepth <? 0 + 1) with false. cbv iota.
  assert (Inner : json.scan_value (2 * len) (0 + 1) (json.render (json.JObject ms) +:+ "}")
                  = Some (json.JObject ms, "}")).
  { apply scan_flat_object; [exact F|unfold json.maxNestingDepth; lia|lia]. }
  rewrite (scan_member (2 * len) (0 + 1) "result" (json.JObject ms) "}" eq_refl Inner).
  unfold member_text at 1, json.quote at 1. reflexivity.
Qed.

(** ** The members of an incident *)

Section incident_members.
Context `{GoLibrary}.

(** A dynamic value that is read back as it was written: [nil], a boolean,
    a string of well-formed UTF-8.  (A number comes back as a [float64]
    and a map in the order of the decoder, which this development leaves
    aside.) *)
Definition plain_link (a : LinkedValue) : bool :=
  match a with
  | json.any_nil | json.of_bool _ => true
  | json.of_string s => well_formed s
  | _ => false
  end.

Definition link_value (a : LinkedValue) : json.value :=
  match a with
  | json.of_bool b => json.JBool b
  | json.of_string s => json.JString s
  | _ => json.JNull
  end.

(** The members written for a field, by the kind of the field. *)
Definition text_member (name : string) (omitEmpty : bool) (s : string)
  : list (string * json.value) :=
  if omitEmpty && String.eqb s "" then [] else [(name, json.JString s)].

Definition number_member (name : string) (n : json.Number) : list (string * json.value) :=
  if String.eqb n "" then [] else [(name, json.JNumber n)].

Definition link_member (name : string) (omitEmpty : bool) (a : LinkedValue)
  : list (string * json.value) :=
  if omitEmpty && json.isEmpty_interface a then [] else [(name, link_value a)].

Lemma member_text_member name omitEmpty s :
  json.member name omitEmpty (json.isEmpty_string s) (Ok (json.JString s))
  = Ok (text_member name omitEmpty s).
Proof.
  unfold json.member, text_member, json.isEmpty_string.
  destruct (omitEmpty && String.eqb s ""); reflexivity.
Qed.

Lemma member_number_member name n :
  number_ok n = true ->
  json.member name true (json.isEmpty_string n) (json.encode_Number n)
  = Ok (number_member name n).
Proof.
  unfold json.member, number_member, json.isEmpty_string, json.encode_Number, number_ok.
  destruct (String.eqb n ""); cbn [andb orb]; [reflexivity|].
  intros ->. reflexivity.
Qed.

Lemma member_link_member name omitEmpty a :
  plain_link a = true ->
  json.member name omitEmpty (json.isEmpty_interface a) (json.encode_any a)
  = Ok (link_member name omitEmpty a).
Proof.
  unfold json.member, link_member.
  destruct a as [|b|f|s|elems|entries|other]; try discriminate; intros _;
    destruct omitEmpty; reflexivity.
Qed.

Lemma flat_text_member name omitEmpty s :
  well_formed name = true -> well_formed s = true ->
  forallb flat_member (text_member name omitEmpty s) = true.
Proof.
  intros Hn Hs. unfold text_member. destruct (omitEmpty && String.eqb s ""); [reflexivity|].
  cbn [forallb]. unfold flat_member. cbn [fst snd scalar]. now rewrite Hn, Hs.
Qed.

Lemma flat_number_member name n :
  well_formed name = true -> number_ok n = true ->
  forallb flat_member (number_member name n) = true.
Proof.
  intros Hn Hs. unfold number_member, number_ok in *.
  destruct (String.eqb n ""); [reflexivity|]. cbn [orb] in Hs.
  cbn [forallb]. unfold flat_member. cbn [fst snd scalar]. now rewrite Hn, Hs.
Qed.

Lemma flat_link_member name omitEmpty a :
  well_formed name = true -> plain_link a = true ->
  forallb flat_member (link_member name omitEmpty a) = true.
Proof.
  intros Hn Ha. unfold link_member.
  destruct (omitEmpty && json.isEmpty_interface a); [reflexivity|].
  cbn [forallb]. unfold flat_member. cbn [fst snd]. rewrite Hn.
  destruct a; try discriminate; cbn [link_value scalar plain_link] in *;
    rewrite ?Ha; reflexivity.
Qed.

Lemma decode_members_app cur ms ms' saved :
  decode_members cur (ms ++ ms') saved
  = match decode_members cur ms saved with
    | Ok (inc, saved') => decode_members inc ms' saved'
    | Err e => Err e
    end.
Proof.
  revert cur saved. induction ms as [|[k v] ms IH]; intros cur saved; [reflexivity|].
  cbn [app decode_members]. unfold json.dbind.
  destruct (decode_member cur k v saved) as [[inc saved']|e]; [apply IH|reflexivity].
Qed.

Lemma store_link a cur saved :
  plain_link a = true -> json.store_interface (link_value a) cur saved = Ok (a, saved).
Proof. destruct a; try discriminate; reflexivity. Qed.

End incident_members.

(** ** Each field written and read *)

Section incident_round_trip.
Context `{GoLibrary}.

Lemma find_fields :
  json.find_field Incident_names "assignment_group" = Some 0%nat
  /\ json.find_field Incident_names "contact_type" = Some 1%nat
  /\ json.find_field Incident_names "caller_id" = Some 2%nat
  /\ json.find_field Incident_names "comments" = Some 3%nat
  /\ json.find_field Incident_names "description" = Some 4%nat
  /\ json.find_field Incident_names groupKeySnField = Some 5%nat
  /\ json.find_field Incident_names "impact" = Some 6%nat
  /\ json.find_field Incident_names "number" = Some 7%nat
  /\ json.find_field Incident_names "priority" = Some 8%nat
  /\ json.find_field Incident_names "short_description" = Some 9%nat
  /\ json.find_field Incident_names "state" = Some 10%nat
  /\ json.find_field Incident_names "sys_id" = Some 11%nat
  /\ json.find_field Incident_names "urgency" = Some 12%nat.
Proof. vm_compute. repeat split. Qed.

Ltac field_found :=
  destruct find_fields as (F0 & F1 & F2 & F3 & F4 & F5 & F6 & F7 & F8 & F9 & F10 & F11 & F12);
  unfold decode_member;
  rewrite ?F0, ?F1, ?F2, ?F3, ?F4, ?F5, ?F6, ?F7, ?F8, ?F9, ?F10, ?F11, ?F12.

Lemma decode_AssignmentGroup cur a saved :
  plain_link a = true ->
  decode_members cur (link_member "assignment_group" false a) saved = Ok (set_AssignmentGroup a cur, saved).
Proof.
  intros Pa. unfold link_member. cbn [andb decode_members]. unfold json.dbind. field_found.
  unfold json.dbind. rewrite (store_link a _ saved Pa). reflexivity.
Qed.

Lemma decode_ContactType cur s saved :
  ContactType cur = "" ->
  decode_members cur (text_member "contact_type" true s) saved = Ok (set_ContactType s cur, saved).
Proof.
  intros E. unfold text_member. cbn [andb]. destruct (String.eqb_spec s "") as [->|_].
  - destruct cur. cbn in E. subst. reflexivity.
  - cbn [decode_members]. unfold json.dbind. field_found. reflexivity.
Qed.

Lemma decode_CallerID cur a saved :
  plain_link a = true ->
  CallerID cur = json.any_nil ->
  decode_members cur (link_member "caller_id" true a) saved = Ok (set_CallerID a cur, saved).
Proof.
  intros Pa E. unfold link_member. cbn [andb].
  destruct (json.isEmpty_interface a) eqn:Em.
  - destruct a; try discriminate. destruct cur. cbn in E. subst. reflexivity.
  - cbn [decode_members]. unfold json.dbind. field_found.
    unfold json.dbind. rewrite (store_link a _ saved Pa). reflexivity.
Qed.

Lemma decode_Comments cur s saved :
  decode_members cur (text_member "comments" false s) saved = Ok (set_Comments s cur, saved).
Proof.
  unfold text_member. cbn [andb decode_members]. unfold json.dbind. field_found.
  reflexivity.
Qed.

Lemma decode_Description cur s saved :
  decode_members cur (text_member "description" false s) saved = Ok (set_Description s cur, saved).
Proof.
  unfold text_member. cbn [andb decode_members]. unfold json.dbind. field_found.
  reflexivity.
Qed.

Lemma decode_GroupKey cur s saved :
  decode_members cur (text_member groupKeySnField false s) saved = Ok (set_GroupKey s cur, saved).
Proof.
  unfold text_member. cbn [andb decode_members]. unfold json.dbind. field_found.
  reflexivity.
Qed.

Lemma decode_Impact cur n saved :
  Impact cur = "" ->
  decode_members cur (number_member "impact" n) saved = Ok (set_Impact n cur, saved).
Proof.
  intros E. unfold number_member. destruct (String.eqb_spec n "") as [->|_].
  - destruct cur. cbn in E. subst. reflexivity.
  - cbn [decode_members]. unfold json.dbind. field_found. reflexivity.
Qed.

Lemma decode_Number cur s saved :
  Number cur = "" ->
  decode_members cur (text_member "number" true s) saved = Ok (set_Number s cur, saved).
Proof.
  intros E. unfold text_member. cbn [andb]. destruct (String.eqb_spec s "") as [->|_].
  - destruct cur. cbn in E. subst. reflexivity.
  - cbn [decode_members]. unfold json.dbind. field_found. reflexivity.
Qed.

Lemma decode_Priority cur s saved :
  Priority cur = "" ->
  decode_members cur (text_member "priority" true s) saved = Ok (set_Priority s cur, saved).
Proof.
  intros E. unfold text_member. cbn [andb]. destruct (String.eqb_spec s "") as [->|_].
  - destruct cur. cbn in E. subst. reflexivity.
  - cbn [decode_members]. unfold json.dbind. field_found. reflexivity.
Qed.

Lemma decode_ShortDescription cur s saved :
  decode_members cur (text_member "short_description" false s) saved = Ok (set_ShortDescription s cur, saved).
Proof.
  unfold text_member. cbn [andb decode_members]. unfold json.dbind. field_found.
  reflexivity.
Qed.

Lemma decode_State cur n saved :
  State cur = "" ->
  decode_members cur (number_member "state" n) saved = Ok (set_State n cur, saved).
Proof.
  intros E. unfold number_member. destruct (String.eqb_spec n "") as [->|_].
  - destruct cur. cbn in E. subst. reflexivity.
  - cbn [decode_members]. unfold json.dbind. field_found. reflexivity.
Qed.

Lemma decode_SysID cur s saved :
  SysID cur = "" ->
  decode_members cur (text_member "sys_id" true s) saved = Ok (set_SysID s cur, saved).
Proof.
  intros E. unfold text_member. cbn [andb]. destruct (String.eqb_spec s "") as [->|_].
  - destruct cur. cbn in E. subst. reflexivity.
  - cbn [decode_members]. unfold json.dbind. field_found. reflexivity.
Qed.

Lemma decode_Urgency cur n saved :
  Urgency cur = "" ->
  decode_members cur (number_member "urgency" n) saved = Ok (set_Urgency n cur, saved).
Proof.
  intros E. unfold number_member. destruct (String.eqb_spec n "") as [->|_].
  - destruct cur. cbn in E. subst. reflexivity.
  - cbn [decode_members]. unfold json.dbind. field_found. reflexivity.
Qed.

(** An incident whose every field is read back as it is written: text of
    well-formed UTF-8, [Impact], [State] and [Urgency] empty or number
    literals, [AssignmentGroup] and [CallerID] nil, a boolean or such a
    text. *)
Definition plain (inc : Incident) : bool :=
  plain_link (AssignmentGroup inc) && well_formed (ContactType inc)
  && plain_link (CallerID inc) && well_formed (Comments inc)
  && well_formed (Description inc) && well_formed (GroupKey inc)
  && number_ok (Impact inc) && well_formed (Number inc) && well_formed (Priority inc)
  && well_formed (ShortDescription inc) && number_ok (State inc)
  && well_formed (SysID inc) && number_ok (Urgency inc).

(** The members that [Marshal] writes for it. *)
Definition incident_members (inc : Incident) : list (string * json.value) :=
  (link_member "assignment_group" false (AssignmentGroup inc)
   ++ text_member "contact_type" true (ContactType inc)
   ++ link_member "caller_id" true (CallerID inc)
   ++ text_member "comments" false (Comments inc)
   ++ text_member "description" false (Description inc)
   ++ text_member groupKeySnField false (GroupKey inc)
   ++ number_member "impact" (Impact inc)
   ++ text_member "number" true (Number inc)
   ++ text_member "priority" true (Priority inc)
   ++ text_member "short_description" false (ShortDescription inc)
   ++ number_member "state" (State inc)
   ++ text_member "sys_id" true (SysID inc)
   ++ number_member "urgency" (Urgency inc))%list.

Lemma plain_fields inc :
  plain inc = true ->
  plain_link (AssignmentGroup inc) = true /\ well_formed (ContactType inc) = true
  /\ plain_link (CallerID inc) = true /\ well_formed (Comments inc) = true
  /\ well_formed (Description inc) = true /\ well_formed (GroupKey inc) = true
  /\ number_ok (Impact inc) = true /\ well_formed (Number inc) = true
  /\ well_formed (Priority inc) = true /\ well_formed (ShortDescription inc) = true
  /\ number_ok (State inc) = true /\ well_formed (SysID inc) = true
  /\ number_ok (Urgency inc) = true.
Proof.
  unfold plain. intros P. do 12 (apply andb_prop in P as [P ?]). repeat split; assumption.
Qed.

Lemma encode_plain inc :
  plain inc = true -> encode_Incident inc = Ok (json.JObject (incident_members inc)).
Proof.
  intros P.
  destruct (plain_fields inc P)
    as (P0 & P1 & P2 & P3 & P4 & P5 & P6 & P7 & P8 & P9 & P10 & P11 & P12).
  unfold encode_Incident, incident_members.
  rewrite !member_text_member.
  rewrite (member_link_member "assignment_group" false _ P0),
    (member_link_member "caller_id" true _ P2),
    (member_number_member "impact" _ P6), (member_number_member "state" _ P10),
    (member_number_member "urgency" _ P12).
  reflexivity.
Qed.

Lemma flat_incident_members inc :
  plain inc = true -> forallb flat_member (incident_members inc) = true.
Proof.
  intros P.
  destruct (plain_fields inc P)
    as (P0 & P1 & P2 & P3 & P4 & P5 & P6 & P7 & P8 & P9 & P10 & P11 & P12).
  unfold incident_members. rewrite !forallb_app.
  rewrite !flat_text_member, !flat_number_member, !flat_link_member
    by (assumption || reflexivity).
  reflexivity.
Qed.

Lemma decode_incident_members inc saved :
  plain inc = true ->
  decode_members Incident_zero (incident_members inc) saved = Ok (inc, saved).
Proof.
  intros P.
  destruct (plain_fields inc P)
    as (P0 & P1 & P2 & P3 & P4 & P5 & P6 & P7 & P8 & P9 & P10 & P11 & P12).
  destruct inc as [ag ct cid co de gk im nu pr sd st sy ur].
  unfold incident_members.
  cbn [AssignmentGroup ContactType CallerID Comments Description GroupKey Impact Number
       Priority ShortDescription State SysID Urgency] in *.
  rewrite decode_members_app, (decode_AssignmentGroup _ _ _ P0).
  rewrite decode_members_app, decode_ContactType by reflexivity.
  rewrite decode_members_app, decode_CallerID by (exact P2 || reflexivity).
  rewrite decode_members_app, decode_Comments.
  rewrite decode_members_app, decode_Description.
  rewrite decode_members_app, decode_GroupKey.
  rewrite decode_members_app, decode_Impact by reflexivity.
  rewrite decode_members_app, decode_Number by reflexivity.
  rewrite decode_members_app, decode_Priority by reflexivity.
  rewrite decode_members_app, decode_ShortDescription.
  rewrite decode_members_app, decode_State by reflexivity.
  rewrite decode_members_app, decode_SysID by reflexivity.
  rewrite decode_Urgency by reflexivity.
  reflexivity.
Qed.

(** The incident through [Marshal], the envelope of a response, and
    [Unmarshal]. *)
Lemma Unmarshal_Marshal inc :
  plain inc = true ->
  exists body,
    Marshal_Incident inc = Ok body
    /\ Unmarshal_IncidentResponse (envelope_text body) {| Result := Incident_zero |}
       = Ok {| Result := inc |}.
Proof.
  intros P. exists (json.render (json.JObject (incident_members inc))). split.
  - unfold Marshal_Incident. now rewrite (encode_plain inc P).
  - unfold Unmarshal_IncidentResponse, Unmarshal.
    rewrite (parse_envelope _ (flat_incident_members inc P)).
    cbn [Result decode_envelope decode_result_members].
    replace (json.find_field ["result"] "result") with (Some 0%nat)
      by (vm_compute; reflexivity).
    unfold json.dbind. cbn [decode_Incident].
    rewrite (decode_incident_members inc None P). reflexivity.
Qed.

(** X15. An incident whose text fields are well-formed UTF-8, whose
    [Impact], [State] and [Urgency] are empty or number literals, and whose
    [AssignmentGroup] and [CallerID] are nil, a boolean or such a text, is
    read back as it is written: [json.Marshal] accepts it, and when the
    remote system answers [CreateIncident] or [UpdateIncident] with the
    record it was sent, as the [result] of its response, the call returns
    that very incident, field for field, and no error. *)
Theorem incident_is_read_back (inc : Incident) :
  plain inc = true ->
  exists body,
    Marshal_Incident inc = Ok body
    /\ Unmarshal_IncidentResponse (envelope_text body) {| Result := Incident_zero |}
       = Ok {| Result := inc |}
    /\ forall (c : ServiceNowClient) (req : http.Request) (resp : http.Response),
         http.Do (client c) req = Ok resp ->
         http.StatusCode resp < 400 ->
         http.read_error (http.ResponseBody resp) = None ->
         http.data (http.ResponseBody resp) = envelope_text body ->
         (req ∈ sent (snd (CreateIncident c inc)) ->
          fst (CreateIncident c inc) = (Some inc, None))
         /\ (req ∈ sent (snd (UpdateIncident c inc)) ->
             fst (UpdateIncident c inc) = (Some inc, None)).
Proof.
  intros P. destruct (Unmarshal_Marshal inc P) as (body & M & U).
  exists body. split; [exact M|]. split; [exact U|].
  intros c req resp D St R E. split; intros S.
  - rewrite (CreateIncident_answered c inc req resp S D St R).
    unfold record_of. now rewrite E, U.
  - rewrite (UpdateIncident_answered c inc req resp S D St R).
    unfold record_of. now rewrite E, U.
Qed.

End incident_round_trip.

(** An incident with text beyond ASCII and bytes that [Marshal] escapes. *)
Definition example_update : Incident (H := example_library) :=
  {| AssignmentGroup := json.of_string "réseau"; ContactType := "";
     CallerID := json.any_nil; Comments := "disk <full> & hot";
     Description := dq "host 'db1' at 95%";
     GroupKey := "{}:{alertname=disk}"; Impact := "2"; Number := "INC0001";
     Priority := ""; ShortDescription := "disk"; State := "";
     SysID := "9d385017c611228701d22104cc95c371"; Urgency := "1.5e0" |}.

Lemma incident_is_read_back_witness :
  exists body,
    Marshal_Incident example_update = Ok body
    /\ fst (UpdateIncident (acme (mock_server 200 (envelope_text body))) example_update)
       = (Some example_update, None).
Proof.
  destruct (incident_is_read_back (H := example_library) example_update eq_refl)
    as (body & M & _ & A).
  exists body. split; [exact M|].
  pose (c := acme (mock_server 200 (envelope_text body))).
  destruct (A c (prepare c (https_request "PUT" "acme.service-now.com"
                              "/api/now/v2/table/incident/9d385017c611228701d22104cc95c371"
                              (Some body)))
              {| http.StatusCode := 200;
                 http.ResponseBody := {| http.data := envelope_text body;
                                         http.read_error := None |} |}
              eq_refl ltac:(cbn; lia) eq_refl eq_refl) as [_ B].
  apply B.
  rewrite (UpdateIncident_sends (H := example_library) "acme" c example_update body
             (acme_client_of _) M eq_refl).
  apply list_elem_of_here.
Defined.

(** The text on the wire for it. *)
Example example_update_text :
  Marshal_Incident example_update
  = Ok (dq "{'assignment_group':'réseau','comments':'disk \u003cfull\u003e \u0026 hot','description':'host \'db1\' at 95%','u_other_reference_1':'{}:{alertname=disk}','impact':2,'number':'INC0001','short_description':'disk','sys_id':'9d385017c611228701d22104cc95c371','urgency':1.5e0}").
Proof. vm_compute. reflexivity. Qed.

(** * The credentials and the log *)

(** The log lines of a trace, in order. *)
Definition logged (t : list event) : list event :=
  List.filter (fun e => match e with Log _ _ _ => true | _ => false end) t.

Lemma logged_app t u : logged (t ++ u) = (logged t ++ logged u)%list.
Proof. unfold logged. apply List.filter_app. Qed.

Section credentials.
Context `{GoLibrary}.

(** Two clients are answered alike when the HTTP client of each gives the
    same answer to the request as that client sends it. *)
Definition answered_alike (c1 c2 : ServiceNowClient) : Prop :=
  forall req, http.Do (client c1) (prepare c1 req) = http.Do (client c2) (prepare c2 req).

(** Two calls agree: the same result and the same log lines. *)
Definition agree {A} (m1 m2 : io A) : Prop :=
  fst m1 = fst m2 /\ logged (snd m1) = logged (snd m2).

Lemma doRequest_agree c1 c2 req :
  answered_alike c1 c2 -> agree (doRequest c1 req) (doRequest c2 req).
Proof.
  intros A. unfold agree. rewrite !doRequest_eq, (A req).
  destruct (http.Do _ _) as [resp|e]; [|split; reflexivity].
  destruct (400 <=? _); [split; reflexivity|].
  destruct (http.read_error _); split; reflexivity.
Qed.

Lemma create_agree c1 c2 table body :
  baseURL c1 = baseURL c2 -> answered_alike c1 c2 ->
  agree (create c1 table body) (create c2 table body).
Proof.
  intros B A. rewrite !create_eq, B.
  destruct (http.NewRequest _ _ _); [now apply doRequest_agree|split; reflexivity].
Qed.

Lemma update_agree c1 c2 table body sysID :
  baseURL c1 = baseURL c2 -> answered_alike c1 c2 ->
  agree (update c1 table body sysID) (update c2 table body sysID).
Proof.
  intros B A. rewrite !update_eq, B.
  destruct (http.NewRequest _ _ _); [now apply doRequest_agree|split; reflexivity].
Qed.

Lemma get_agree c1 c2 table params :
  baseURL c1 = baseURL c2 -> answered_alike c1 c2 ->
  agree (get c1 table params) (get c2 table params).
Proof.
  intros B A. rewrite !get_eq, B.
  destruct (http.NewRequest _ _ _); [now apply doRequest_agree|split; reflexivity].
Qed.

Lemma decode_record_agree done failed m1 m2 :
  agree m1 m2 -> agree (decode_record done failed m1) (decode_record done failed m2).
Proof.
  destruct m1 as [r1 t1], m2 as [r2 t2]. unfold agree. cbn [fst snd].
  intros [<- L]. unfold decode_record. cbn [fst snd].
  destruct r1 as [r [e|]]; cbn [fst snd]; [rewrite !logged_app, L; split; reflexivity|].
  destruct (Unmarshal_IncidentResponse _ _); cbn [fst snd]; rewrite !logged_app, L;
    split; reflexivity.
Qed.

Lemma decode_list_agree m1 m2 : agree m1 m2 -> agree (decode_list m1) (decode_list m2).
Proof.
  destruct m1 as [r1 t1], m2 as [r2 t2]. unfold agree. cbn [fst snd].
  intros [<- L]. unfold decode_list. cbn [fst snd].
  destruct r1 as [r [e|]]; cbn [fst snd]; [rewrite !logged_app, L; split; reflexivity|].
  destruct (Unmarshal_IncidentsResponse _ _); cbn [fst snd]; rewrite ?logged_app, L;
    split; reflexivity.
Qed.

Lemma agree_Log {A} l f a (m1 m2 : io A) :
  agree m1 m2 -> agree (fst m1, Log l f a :: snd m1) (fst m2, Log l f a :: snd m2).
Proof.
  intros [E L]. split; cbn [fst snd]; [exact E|].
  change (logged (Log l f a :: ?t)) with (Log l f a :: logged t). now rewrite L.
Qed.

Lemma CreateIncident_agree c1 c2 inc :
  baseURL c1 = baseURL c2 -> answered_alike c1 c2 ->
  agree (CreateIncident c1 inc) (CreateIncident c2 inc).
Proof.
  intros B A.
  destruct (CreateIncident_cases c1 inc) as [(e1 & M1 & E1)|(b1 & m1 & M1 & Em1 & E1)];
    destruct (CreateIncident_cases c2 inc) as [(e2 & M2 & E2)|(b2 & m2 & M2 & Em2 & E2)];
    rewrite M1 in M2; try discriminate M2; injection M2 as <-; rewrite E1, E2.
  - split; reflexivity.
  - subst m1 m2. apply agree_Log, decode_record_agree, create_agree; assumption.
Qed.

Lemma UpdateIncident_agree c1 c2 inc :
  baseURL c1 = baseURL c2 -> answered_alike c1 c2 ->
  agree (UpdateIncident c1 inc) (UpdateIncident c2 inc).
Proof.
  intros B A.
  destruct (UpdateIncident_cases c1 inc) as [(e1 & M1 & E1)|(b1 & m1 & M1 & Em1 & E1)];
    destruct (UpdateIncident_cases c2 inc) as [(e2 & M2 & E2)|(b2 & m2 & M2 & Em2 & E2)];
    rewrite M1 in M2; try discriminate M2; injection M2 as <-; rewrite E1, E2.
  - split; reflexivity.
  - subst m1 m2. apply agree_Log, decode_record_agree, update_agree; assumption.
Qed.

Lemma GetIncidents_agree c1 c2 params :
  baseURL c1 = baseURL c2 -> answered_alike c1 c2 ->
  agree (GetIncidents c1 params) (GetIncidents c2 params).
Proof.
  intros B A.
  destruct (GetIncidents_cases c1 params) as (m1 & Em1 & E1).
  destruct (GetIncidents_cases c2 params) as (m2 & Em2 & E2).
  rewrite E1, E2. subst m1 m2. apply agree_Log, decode_list_agree, get_agree; assumption.
Qed.

(** X16. The credentials reach nothing but the request: two clients for the
    same base URL whose [authHeader] differ, and whose HTTP clients answer
    the requests alike, return the same result and write the same log lines
    in [doRequest], [CreateIncident], [GetIncidents] and [UpdateIncident].
    So no log line and no returned error is made from the [authHeader]. *)
Theorem credentials_stay_out_of_log_and_result (c1 c2 : ServiceNowClient) :
  baseURL c1 = baseURL c2 ->
  answered_alike c1 c2 ->
  (forall req, agree (doRequest c1 req) (doRequest c2 req))
  /\ (forall inc, agree (CreateIncident c1 inc) (CreateIncident c2 inc))
  /\ (forall params, agree (GetIncidents c1 params) (GetIncidents c2 params))
  /\ (forall inc, agree (UpdateIncident c1 inc) (UpdateIncident c2 inc)).
Proof.
  intros B A. split; [|split; [|split]]; intros x.
  - apply doRequest_agree, A.
  - apply CreateIncident_agree; assumption.
  - apply GetIncidents_agree; assumption.
  - apply UpdateIncident_agree; assumption.
Qed.

End credentials.

(** The client of [NewServiceNowClient("acme", "bob", "hunter2")]. *)
Definition acme_hunter (transport : http.Client) : ServiceNowClient :=
  {| baseURL := "https://acme.service-now.com";
     authHeader := "Basic Ym9iOmh1bnRlcjI=";
     client := transport |}.

Example acme_hunter_constructed transport :
  NewServiceNowClient transport "acme" "bob" "hunter2" = (Some (acme_hunter transport), None).
Proof. reflexivity. Qed.

Lemma credentials_witness :
  authHeader (acme (mock_server 401 "")) <> authHeader (acme_hunter (mock_server 401 ""))
  /\ agree (CreateIncident (H := example_library) (acme (mock_server 401 "")) example_incident)
           (CreateIncident (H := example_library) (acme_hunter (mock_server 401 ""))
              example_incident).
Proof.
  split; [discriminate|].
  apply (credentials_stay_out_of_log_and_result (H := example_library)
           (acme (mock_server 401 "")) (acme_hunter (mock_server 401 ""))).
  - reflexivity.
  - intros req. reflexivity.
Defined.

(** ** Arrays of objects *)

Lemma render_array vs :
  json.render (json.JArray vs) = "[" +:+ strings.Join (json.render <$> vs) "," +:+ "]".
Proof.
  cbn [json.render]. do 2 f_equal.
Qed.

(** The elements of an array of objects of scalars, each of fewer than
    [b - 1] members. *)
Lemma scan_elems_objects mss :
  forall n depth rest b,
    mss <> [] ->
    Forall (fun ms => forallb flat_member ms = true /\ (length ms + 1 < b)%nat) mss ->
    depth + 1 <= json.maxNestingDepth ->
    (b + length mss <= n)%nat ->
    json.scan_elems n depth
      (strings.Join (json.render <$> (json.JObject <$> mss)) "," +:+ "]" +:+ rest)
    = Some (json.JObject <$> mss, rest).
Proof.
  induction mss as [|ms mss IH]; intros n depth rest b NE F D L; [contradiction|].
  apply Forall_cons in F as [[Fm Lm] F].
  destruct n as [|n]; cbn [length] in L; [lia|].
  cbn [fmap list_fmap]. destruct mss as [|ms' mss'].
  - cbn [fmap list_fmap strings.Join json.scan_elems].
    rewrite (scan_flat_object n depth ms ("]" +:+ rest) Fm D) by lia.
    reflexivity.
  - change (list_fmap _ _ json.JObject (ms' :: mss')) with (json.JObject <$> (ms' :: mss')).
    change (list_fmap _ _ json.render (json.JObject <$> ms' :: mss'))
      with (json.render <$> (json.JObject <$> ms' :: mss')).
    rewrite Join_cons by discriminate. rewrite !string_app_assoc.
    cbn [json.scan_elems].
    rewrite (scan_flat_object n depth ms _ Fm D) by lia.
    change ("," +:+ ?t) with (String "," t).
    cbn [json.skip_space]. change (json.isSpace ",") with false.
    change (Ascii.eqb "," "]") with false. change (Ascii.eqb "," ",") with true. cbv iota.
    rewrite (IH n depth rest b) by (discriminate || exact F || exact D || (cbn [length] in *; lia)).
    reflexivity.
Qed.

Lemma scan_array_objects n depth mss rest b :
  Forall (fun ms => forallb flat_member ms = true /\ (length ms + 1 < b)%nat) mss ->
  depth + 2 <= json.maxNestingDepth ->
  (b + length mss < n)%nat ->
  json.scan_value n depth (json.render (json.JArray (json.JObject <$> mss)) +:+ rest)
  = Some (json.JArray (json.JObject <$> mss), rest).
Proof.
  intros F D L. destruct n as [|n]; [lia|].
  rewrite render_array, !string_app_assoc.
  change ("[" +:+ ?t) with (String "[" t).
  cbn [json.scan_value json.skip_space]. change (json.isSpace "[") with false.
  change (Ascii.eqb "[" "{") with false. change (Ascii.eqb "[" "[") with true. cbv iota.
  destruct (Z.ltb_spec json.maxNestingDepth (depth + 1)); [lia|].
  destruct mss as [|ms mss'].
  - reflexivity.
  - rewrite (scan_elems_objects (ms :: mss') n (depth + 1) rest b)
      by (discriminate || exact F || lia).
    cbn [fmap list_fmap]. rewrite render_object.
    destruct mss' as [|m mss'']; [reflexivity|].
    change (list_fmap _ _ json.JObject (m :: mss'')) with (json.JObject <$> (m :: mss'')).
    change (list_fmap _ _ json.render (json.JObject <$> m :: mss''))
      with (json.render <$> (json.JObject <$> m :: mss'')).
    rewrite Join_cons by discriminate. reflexivity.
Qed.

(** The text of a response that holds a list of records. *)
Definition list_text (records : list string) : string :=
  dq "{'result':[" +:+ strings.Join records "," +:+ "]}".

Lemma render_nonempty_object ms : json.render (json.JObject ms) <> "".
Proof. rewrite render_object. discriminate. Qed.

Lemma parse_list mss b :
  Forall (fun ms => forallb flat_member ms = true /\ (length ms + 1 < b)%nat) mss ->
  (b <= 20)%nat ->
  json.parse (list_text (json.render <$> (json.JObject <$> mss)))
  = Some (json.JObject [("result", json.JArray (json.JObject <$> mss))]).
Proof.
  intros F B. unfold json.parse, list_text.
  set (texts := json.render <$> (json.JObject <$> mss)).
  assert (L : (length mss <= String.length (strings.Join texts ","))%nat).
  { pose proof (Join_length texts ","
                  ltac:(subst texts; apply Forall_forall; intros s [v [-> Hv]]%list_elem_of_fmap;
                        apply list_elem_of_fmap in Hv as [ms [-> _]];
                        apply render_nonempty_object)) as J.
    subst texts. now rewrite !length_fmap in J. }
  set (len := String.length (dq "{'result':[" +:+ strings.Join texts "," +:+ "]}")).
  assert (Llen : (length mss + 13 <= len)%nat).
  { subst len. rewrite !string_length_app. cbn [String.length dq]. lia. }
  replace (2 * len + 2)%nat with (S (S (2 * len))) by lia.
  replace (dq "{'result':[" +:+ strings.Join texts "," +:+ "]}")
    with (String "{" (member_text ("result", json.JArray (json.JObject <$> mss)) +:+ "}")).
  2:{ unfold member_text. cbn [fst snd]. rewrite render_array. fold texts.
      rewrite !string_app_assoc. reflexivity. }
  cbn [json.scan_value json.skip_space]. change (json.isSpace "{") with false.
  change (Ascii.eqb "{" "{") with true. cbv iota.
  change (json.maxNestingDepth <? 0 + 1) with false. cbv iota.
  assert (Inner : json.scan_value (2 * len) (0 + 1)
                    (json.render (json.JArray (json.JObject <$> mss)) +:+ "}")
                  = Some (json.JArray (json.JObject <$> mss), "}")).
  { apply (scan_array_objects _ _ _ _ b); [exact F|unfold json.maxNestingDepth; lia|lia]. }
  rewrite (scan_member (2 * len) (0 + 1) "result" _ "}" eq_refl Inner).
  unfold member_text at 1, json.quote at 1. reflexivity.
Qed.

(** ** A list of incidents, written and read back *)

Section incidents_round_trip.
Context `{GoLibrary}.

Lemma text_member_length name omitEmpty s : (length (text_member name omitEmpty s) <= 1)%nat.
Proof. unfold text_member. destruct (omitEmpty && String.eqb s ""); cbn; lia. Qed.

Lemma number_member_length name n : (length (number_member name n) <= 1)%nat.
Proof. unfold number_member. destruct (String.eqb n ""); cbn; lia. Qed.

Lemma link_member_length name omitEmpty a : (length (link_member name omitEmpty a) <= 1)%nat.
Proof. unfold link_member. destruct (omitEmpty && json.isEmpty_interface a); cbn; lia. Qed.

Lemma incident_members_length inc : (length (incident_members inc) <= 13)%nat.
Proof.
  unfold incident_members. rewrite !length_app.
  pose proof (link_member_length "assignment_group" false (AssignmentGroup inc)).
  pose proof (text_member_length "contact_type" true (ContactType inc)).
  pose proof (link_member_length "caller_id" true (CallerID inc)).
  pose proof (text_member_length "comments" false (Comments inc)).
  pose proof (text_member_length "description" false (Description inc)).
  pose proof (text_member_length groupKeySnField false (GroupKey inc)).
  pose proof (number_member_length "impact" (Impact inc)).
  pose proof (text_member_length "number" true (Number inc)).
  pose proof (text_member_length "priority" true (Priority inc)).
  pose proof (text_member_length "short_description" false (ShortDescription inc)).
  pose proof (number_member_length "state" (State inc)).
  pose proof (text_member_length "sys_id" true (SysID inc)).
  pose proof (number_member_length "urgency" (Urgency inc)).
  lia.
Qed.

(** The text that [Marshal] writes for a plain incident. *)
Lemma Marshal_plain inc :
  plain inc = true ->
  Marshal_Incident inc = Ok (json.render (json.JObject (incident_members inc))).
Proof. intros P. unfold Marshal_Incident. now rewrite (encode_plain inc P). Qed.

Lemma decode_plain_elems incs :
  forallb plain incs = true ->
  decode_elems (json.JObject <$> (incident_members <$> incs)) [] None = Ok (incs, None).
Proof.
  intros P. apply decode_elems_each.
  induction incs as [|inc incs IH]; [constructor|].
  cbn [forallb] in P. apply andb_prop in P as [Pi P].
  cbn [fmap list_fmap]. constructor; [|exact (IH P)].
  cbn [decode_Incident]. now apply decode_incident_members.
Qed.

Lemma Unmarshal_Marshal_list incs :
  forallb plain incs = true ->
  exists bodies,
    Forall2 (fun inc body => Marshal_Incident inc = Ok body) incs bodies
    /\ Unmarshal_IncidentsResponse (list_text bodies) {| Results := None |}
       = Ok {| Results := Some incs |}.
Proof.
  intros P. exists (json.render <$> (json.JObject <$> (incident_members <$> incs))). split.
  - clear -P. induction incs as [|inc incs IH]; [constructor|].
    cbn [forallb] in P. apply andb_prop in P as [Pi P].
    cbn [fmap list_fmap]. constructor; [now apply Marshal_plain|exact (IH P)].
  - unfold Unmarshal_IncidentsResponse, Unmarshal.
    rewrite (parse_list (incident_members <$> incs) 15).
    + cbn [Results decode_envelope decode_result_members].
      replace (json.find_field ["result"] "result") with (Some 0%nat)
        by (vm_compute; reflexivity).
      unfold json.dbind. cbn [decode_Incidents default]. unfold json.dbind.
      rewrite (decode_plain_elems incs P). reflexivity.
    + apply Forall_forall. intros ms [inc [-> Hinc]]%list_elem_of_fmap.
      rewrite forallb_forall in P. apply list_elem_of_In in Hinc.
      split; [now apply flat_incident_members, P|].
      pose proof (incident_members_length inc). lia.
    + lia.
Qed.

(** X17. What the client writes it reads back from a list: for incidents
    that are plain (text fields of well-formed UTF-8, [Impact], [State] and
    [Urgency] empty or number literals, [AssignmentGroup] and [CallerID]
    nil, a boolean or such a text), [json.Marshal] accepts each, and when
    the body read by [GetIncidents] is an object whose [result] is the
    array of these texts, [GetIncidents] returns these very incidents, as
    many and in that order, and no error; for no incident it returns an
    empty list. *)
Theorem incidents_are_read_back (incs : list Incident) :
  forallb plain incs = true ->
  exists bodies,
    Forall2 (fun inc body => Marshal_Incident inc = Ok body) incs bodies
    /\ forall (c : ServiceNowClient) (params : gmap string string)
              (req : http.Request) (resp : http.Response),
         req ∈ sent (snd (GetIncidents c params)) ->
         http.Do (client c) req = Ok resp ->
         http.StatusCode resp < 400 ->
         http.read_error (http.ResponseBody resp) = None ->
         http.data (http.ResponseBody resp) = list_text bodies ->
         fst (GetIncidents c params) = (Some incs, None).
Proof.
  intros P. destruct (Unmarshal_Marshal_list incs P) as (bodies & M & U).
  exists bodies. split; [exact M|].
  intros c params req resp S D St R E.
  rewrite (GetIncidents_answered c params req resp S D St R).
  unfold list_of. now rewrite E, U.
Qed.

End incidents_round_trip.

Lemma incidents_are_read_back_witness :
  exists bodies,
    Forall2 (fun inc body => Marshal_Incident inc = Ok body)
      [example_update; example_incident] bodies
    /\ fst (GetIncidents (acme (mock_server 200 (list_text bodies))) example_params)
       = (Some [example_update; example_incident], None).
Proof.
  destruct (incidents_are_read_back (H := example_library)
              [example_update; example_incident] eq_refl) as (bodies & M & A).
  exists bodies. split; [exact M|].
  pose (c := acme (mock_server 200 (list_text bodies))).
  destruct (get_sends "acme" c "incident" example_params
              (acme_client_of _) eq_refl) as (req & S & _).
  apply (A c example_params req
           {| http.StatusCode := 200;
              http.ResponseBody := {| http.data := list_text bodies;
                                      http.read_error := None |} |}).
  - rewrite GetIncidents_sent, S. apply list_elem_of_here.
  - reflexivity.
  - cbn. lia.
  - reflexivity.
  - reflexivity.
Defined.

(** The text of such a response, and of the one without incidents. *)
Example example_list_text :
  list_text [dq "{'number':'INC0002'}"; dq "{'number':'INC0001'}"]
  = dq "{'result':[{'number':'INC0002'},{'number':'INC0001'}]}"
  /\ list_text [] = dq "{'result':[]}".
Proof. split; reflexivity. Qed.

(** * A [SysID] that is not a path segment *)

(** ** Bytes after the path *)

Lemma Count_app s t c : strings.Count (s +:+ t) c = strings.Count s c + strings.Count t c.
Proof.
  induction s as [|d s IH]; [reflexivity|].
  rewrite string_app_cons. cbn [strings.Count]. rewrite IH. lia.
Qed.

Lemma Count_without s c : without c s = true -> strings.Count s c = 0.
Proof.
  induction s as [|d s IH]; [reflexivity|].
  unfold without. cbn [strings.all strings.Count]. intros [Hd Hs]%andb_prop.
  apply negb_true_iff in Hd. rewrite Hd. now rewrite (IH Hs).
Qed.

Lemma Count_nonneg s c : 0 <= strings.Count s c.
Proof.
  induction s as [|d s IH]; cbn [strings.Count]; [lia|].
  destruct (Ascii.eqb d c); lia.
Qed.

Lemma last_byte_app s c t :
  strings.last_byte (s +:+ String c t) = strings.last_byte (String c t).
Proof.
  induction s as [|d s IH]; [reflexivity|].
  rewrite string_app_cons. cbn [strings.last_byte].
  destruct (s +:+ String c t) eqn:E; [destruct s; discriminate E|exact IH].
Qed.

Lemma drop_last_app s c : strings.drop_last (s +:+ String c "") = s.
Proof.
  induction s as [|d s IH]; [reflexivity|].
  rewrite string_app_cons. cbn [strings.drop_last].
  destruct (s +:+ String c "") eqn:E; [destruct s; discriminate E|now rewrite IH].
Qed.

Lemma last_byte_Count q c :
  strings.last_byte q = Some c -> 1 <= strings.Count q c.
Proof.
  induction q as [|d q IH]; [discriminate|].
  cbn [strings.last_byte strings.Count]. destruct q as [|e q].
  - intros [= ->]. rewrite Ascii.eqb_refl. cbn. lia.
  - intros L. specialize (IH L). destruct (Ascii.eqb d c); lia.
Qed.

(** [parse] takes the query to be forced when the only [?] is the last
    byte; the path and the query come out the same either way. *)
Lemma force_query_app s q :
  without "?" s = true ->
  match strings.last_byte (s +:+ String "?" q) with
  | Some c => Ascii.eqb c "?" && (strings.Count (s +:+ String "?" q) "?" =? 1)
  | None => false
  end = String.eqb q "".
Proof.
  intros W. rewrite last_byte_app, Count_app, (Count_without s "?" W).
  destruct q as [|d q]; [reflexivity|].
  change (strings.last_byte (String "?" (String d q)))
    with (strings.last_byte (String d q)).
  change (strings.Count (String "?" (String d q)) "?")
    with (1 + strings.Count (String d q) "?").
  cbn [String.eqb]. destruct (strings.last_byte (String d q)) as [c|] eqn:L; [|reflexivity].
  destruct (Ascii.eqb_spec c "?") as [->|]; [|reflexivity].
  apply last_byte_Count in L. cbn [andb]. apply Z.eqb_neq. lia.
Qed.

Lemma cut_query s q :
  without "?" s = true ->
  (if String.eqb q "" then (strings.drop_last (s +:+ String "?" q), "")
   else url.split (s +:+ String "?" q) "?" true) = (s, q).
Proof.
  intros W. destruct (String.eqb_spec q "") as [->|_].
  - now rewrite drop_last_app.
  - unfold url.split. now rewrite (break_at_app s "?" q W).
Qed.

Lemma all_not_control s :
  strings.all not_control s = true -> url.stringContainsCTLByte s = false.
Proof. intros A. unfold url.stringContainsCTLByte. apply negb_false_iff. exact A. Qed.

Lemma path_not_control s :
  strings.all path_byte s = true -> strings.all not_control s = true.
Proof.
  apply all_impl. intros c. unfold path_byte, not_control.
  destruct (negb (_ || _)); [|reflexivity]. destruct (negb _); reflexivity.
Qed.

(** ** The URL with a query or a fragment *)

(** The URL that [url.Parse] reads in [https://host/path?query#fragment]. *)
Definition https_URL_with (host path query fragment : string) (force : bool) : url.URL :=
  {| url.Scheme := "https"; url.Opaque := ""; url.User := None; url.Host := host;
     url.Path := path;
     url.RawPath := if String.eqb path (url.escape path url.encodePath) then "" else path;
     url.ForceQuery := force; url.RawQuery := query; url.Fragment := fragment |}.

Lemma parse_https_query host p q :
  strings.all hostname_byte host = true ->
  strings.all path_byte p = true ->
  strings.all not_control q = true ->
  url.parse ("https://" +:+ host +:+ String "/" (p +:+ String "?" q)) false
  = Ok (https_URL_with host (String "/" p) q "" (String.eqb q "")).
Proof.
  intros Hh Hp Hq.
  assert (Hrest : strings.all path_byte (host +:+ String "/" p) = true).
  { rewrite all_app, (hostname_path host Hh). simpl. exact Hp. }
  assert (Hslash : without "/" host = true).
  { revert Hh. apply all_without. intros d Hd. apply (hostname_byte_facts d Hd). }
  assert (Hpct : without "%" (String "/" p) = true).
  { unfold without. simpl. revert Hp. apply all_impl. intros c.
    destruct (path_byte c) eqn:E; [|reflexivity]. cbn.
    destruct (path_byte_facts c E) as (_ & _ & _ & ->). reflexivity. }
  pose proof (break_at_app host "/" p Hslash) as Hbreak.
  replace (host +:+ String "/" (p +:+ String "?" q))
    with ((host +:+ String "/" p) +:+ String "?" q)
    by (rewrite string_app_assoc, string_app_cons; reflexivity).
  remember (host +:+ String "/" p) as hp eqn:Ehp.
  assert (Hraw : strings.all not_control ("https://" +:+ hp +:+ String "?" q) = true).
  { rewrite !all_app, (path_not_control hp Hrest). cbn [strings.all]. rewrite Hq. reflexivity. }
  assert (Hq0 : without "?" ("//" +:+ hp) = true).
  { rewrite without_app. apply andb_true_intro. split; [reflexivity|].
    revert Hrest. apply all_without. intros d Hd. apply (path_byte_facts d Hd). }
  unfold url.parse.
  rewrite (all_not_control _ Hraw).
  change (url.getscheme ("https://" +:+ hp +:+ String "?" q))
    with (Ok ("https", ("//" +:+ hp) +:+ String "?" q)).
  change (String.eqb ("https://" +:+ hp +:+ String "?" q) "") with false.
  change (String.eqb ("https://" +:+ hp +:+ String "?" q) "*") with false.
  cbn [andb result_bind fst snd].
  change (strings.map strings.lower_byte "https") with "https".
  rewrite (force_query_app _ q Hq0), (cut_query _ q Hq0).
  change (strings.HasPrefix ("//" +:+ hp) "/") with true.
  rewrite (HasPrefix_slashes hp).
  change (String.eqb "https" "") with false.
  cbn [andb negb orb].
  change (strings.tail (strings.tail ("//" +:+ hp))) with hp.
  unfold url.split. rewrite Hbreak.
  rewrite (parseAuthority_hostname host Hh). cbn [result_bind fst snd].
  unfold url.setPath. rewrite (unescape_path _ Hpct). reflexivity.
Qed.

Lemma unescape_fragment s : without "%" s = true -> url.unescape s url.encodeFragment = Ok s.
Proof.
  induction s as [|c s IH]; [reflexivity|].
  unfold without. simpl strings.all. intros [Hc Hs]%andb_prop.
  apply negb_true_iff in Hc. simpl. rewrite Hc.
  rewrite (IH Hs). destruct (Ascii.eqb_spec c "+") as [->|]; reflexivity.
Qed.

Lemma Parse_https_query host p q :
  strings.all hostname_byte host = true ->
  strings.all path_byte p = true ->
  strings.all not_control q = true ->
  without "#" q = true ->
  url.Parse ("https://" +:+ host +:+ String "/" (p +:+ String "?" q))
  = Ok (https_URL_with host (String "/" p) q "" (String.eqb q "")).
Proof.
  intros Hh Hp Hq Hhash.
  assert (W : without "#" ("https://" +:+ host +:+ String "/" (p +:+ String "?" q)) = true).
  { rewrite !without_app. apply andb_true_intro. split; [reflexivity|].
    apply andb_true_intro. split.
    - generalize (hostname_path host Hh). apply all_without.
      intros d Hd. apply (path_byte_facts d Hd).
    - change (String "/" (p +:+ String "?" q)) with ("/" +:+ p +:+ String "?" q).
      rewrite !without_app. apply andb_true_intro. split; [reflexivity|].
      apply andb_true_intro. split.
      + revert Hp. apply all_without. intros d Hd. apply (path_byte_facts d Hd).
      + unfold without in *. cbn [strings.all]. rewrite Hhash. reflexivity. }
  unfold url.Parse, url.split. rewrite (break_at_without _ _ W).
  rewrite (parse_https_query host p q Hh Hp Hq). reflexivity.
Qed.

Lemma Parse_https_fragment host p f :
  strings.all hostname_byte host = true ->
  strings.all path_byte p = true ->
  without "%" f = true ->
  url.Parse ("https://" +:+ host +:+ String "/" (p +:+ String "#" f))
  = Ok (https_URL_with host (String "/" p) "" f false).
Proof.
  intros Hh Hp Hf.
  assert (W : without "#" ("https://" +:+ host +:+ String "/" p) = true).
  { rewrite !without_app. apply andb_true_intro. split; [reflexivity|].
    apply andb_true_intro. split.
    - generalize (hostname_path host Hh). apply all_without.
      intros d Hd. apply (path_byte_facts d Hd).
    - unfold without. simpl. revert Hp. apply all_impl. intros c.
      destruct (path_byte c) eqn:E; [|reflexivity]. cbn.
      destruct (path_byte_facts c E) as (_ & _ & -> & _). reflexivity. }
  replace ("https://" +:+ host +:+ String "/" (p +:+ String "#" f))
    with (("https://" +:+ host +:+ String "/" p) +:+ String "#" f)
    by (rewrite !string_app_assoc, string_app_cons; reflexivity).
  unfold url.Parse, url.split. rewrite (break_at_app _ "#" f W).
  cbn [strings.tail]. rewrite (parse_https host p Hh Hp).
  destruct (String.eqb_spec f "") as [->|_]; [reflexivity|].
  now rewrite (unescape_fragment f Hf).
Qed.

Definition https_request_with (method host path query fragment : string) (force : bool)
    (body : option string) : http.Request :=
  {| http.Method := method; http.URL := https_URL_with host path query fragment force;
     http.Header := ∅; http.Body := body;
     http.ContentLength := match body with
                           | Some b => Z.of_nat (String.length b)
                           | None => 0
                           end;
     http.Host := host |}.

Lemma NewRequest_of_Parse method rawurl body host path query fragment force :
  method <> "" -> http.validMethod method = true ->
  strings.all hostname_byte host = true ->
  url.Parse rawurl = Ok (https_URL_with host path query fragment force) ->
  http.NewRequest method rawurl body
  = Ok (https_request_with method host path query fragment force body).
Proof.
  intros Hm Hv Hh P. unfold http.NewRequest.
  destruct (String.eqb_spec method ""); [contradiction|].
  rewrite Hv, P. cbn [negb result_bind].
  unfold url.set_Host, https_URL_with. cbn [url.Host url.Scheme url.Opaque url.User url.Path
    url.RawPath url.ForceQuery url.RawQuery url.Fragment].
  rewrite (removeEmptyPort_hostname host Hh). reflexivity.
Qed.

Lemma stringContainsCTLByte_app s t :
  url.stringContainsCTLByte (s +:+ t)
  = url.stringContainsCTLByte s || url.stringContainsCTLByte t.
Proof. unfold url.stringContainsCTLByte. rewrite all_app. apply negb_andb. Qed.

(** A URL with a control byte before any [#] is refused. *)
Lemma Parse_control rawurl :
  without "#" rawurl = true ->
  url.stringContainsCTLByte rawurl = true ->
  url.Parse rawurl
  = Err (url_Error "parse" rawurl (errors_New "net/url: invalid control character in URL")).
Proof.
  intros W C. unfold url.Parse, url.split. rewrite (break_at_without _ _ W).
  unfold url.parse. rewrite C. reflexivity.
Qed.

Section record_addresses.
Context `{GoLibrary}.

(** What [UpdateIncident] sends when [http.NewRequest] accepts its URL. *)
Lemma UpdateIncident_sends_request c inc body req :
  Marshal_Incident inc = Ok body ->
  http.NewRequest "PUT"
    (baseURL c +:+ "/api/now/v2/table/" +:+ "incident" +:+ "/" +:+ SysID inc) (Some body)
  = Ok req ->
  sent (snd (UpdateIncident c inc)) = [prepare c req].
Proof.
  intros M N.
  destruct (UpdateIncident_cases c inc) as [(e & M' & _)|(body' & m & M' & Em & E)];
    [congruence|].
  assert (body' = body) by congruence. subst body'.
  rewrite E. cbn [snd]. rewrite sent_Log. subst m. rewrite decode_record_sent.
  rewrite update_eq, N. apply doRequest_outcome.
Qed.

(** And what it does when [http.NewRequest] refuses the URL. *)
Lemma UpdateIncident_refused c inc body err :
  Marshal_Incident inc = Ok body ->
  http.NewRequest "PUT"
    (baseURL c +:+ "/api/now/v2/table/" +:+ "incident" +:+ "/" +:+ SysID inc) (Some body)
  = Err err ->
  UpdateIncident c inc
  = ((None, Some err),
     [Log "info" "Update ServiceNow incident %s" [log_str (Number inc)];
      Log "error" "Error creating the request. %s" [log_err err];
      Log "error" "Error while updating the incident. %s" [log_err err]]).
Proof.
  intros M N. rewrite UpdateIncident_eq, M. cbv zeta.
  rewrite update_eq, N. reflexivity.
Qed.

Lemma record_url_cut i a mark rest :
  ("https://" +:+ i +:+ ".service-now.com") +:+ "/api/now/v2/table/" +:+ "incident"
     +:+ "/" +:+ (a +:+ String mark rest)
  = "https://" +:+ instance_host i
      +:+ String "/" (("api/now/v2/table/incident/" +:+ a) +:+ String mark rest).
Proof. unfold instance_host. now rewrite !string_app_assoc. Qed.

Lemma record_segment_bytes a :
  strings.all path_byte a = true ->
  strings.all path_byte ("api/now/v2/table/incident/" +:+ a) = true.
Proof. intros A. now rewrite all_app, A. Qed.

Lemma UpdateIncident_query i c inc body a q :
  client_of i c ->
  Marshal_Incident inc = Ok body ->
  strings.all path_byte a = true ->
  SysID inc = a +:+ String "?" q ->
  strings.all not_control q = true ->
  without "#" q = true ->
  sent (snd (UpdateIncident c inc))
  = [prepare c (https_request_with "PUT" (instance_host i) (record_path "incident" a) q ""
                  (String.eqb q "") (Some body))].
Proof.
  intros [Hi Hb] M Ha E Hq Hh.
  apply (UpdateIncident_sends_request c inc body _ M).
  rewrite Hb, E, record_url_cut.
  apply NewRequest_of_Parse; [discriminate|reflexivity|now apply instance_host_bytes|].
  apply Parse_https_query;
    [now apply instance_host_bytes|now apply record_segment_bytes|exact Hq|exact Hh].
Qed.

Lemma UpdateIncident_fragment i c inc body a f :
  client_of i c ->
  Marshal_Incident inc = Ok body ->
  strings.all path_byte a = true ->
  SysID inc = a +:+ String "#" f ->
  without "%" f = true ->
  sent (snd (UpdateIncident c inc))
  = [prepare c (https_request_with "PUT" (instance_host i) (record_path "incident" a) "" f
                  false (Some body))].
Proof.
  intros [Hi Hb] M Ha E Hf.
  apply (UpdateIncident_sends_request c inc body _ M).
  rewrite Hb, E, record_url_cut.
  apply NewRequest_of_Parse; [discriminate|reflexivity|now apply instance_host_bytes|].
  apply Parse_https_fragment;
    [now apply instance_host_bytes|now apply record_segment_bytes|exact Hf].
Qed.

(** X18. [UpdateIncident] writes the [SysID] into the URL as it is, so a
    [SysID] is cut at its first [?] or [#].  On a client made for a
    host-name instance and for an incident that [json.Marshal] accepts:
    with a [SysID] of the form [a?q] (no control byte and no [#] in [q])
    the PUT goes to the record [a], [q] being its query string; with a
    [SysID] of the form [a#f] (no [%] in [f]) the PUT goes to the record
    [a] without a query, [f] being the fragment of the URL.  In both cases
    the path of the request does not hold the whole [SysID]. *)
Theorem SysID_is_cut_at_its_first_mark (i : string) (c : ServiceNowClient) (inc : Incident)
    (body a rest : string) :
  client_of i c ->
  Marshal_Incident inc = Ok body ->
  strings.all path_byte a = true ->
  (SysID inc = a +:+ String "?" rest ->
   strings.all not_control rest = true ->
   without "#" rest = true ->
   exists req,
     sent (snd (UpdateIncident c inc)) = [req]
     /\ http.Method req = "PUT"
     /\ url.Host (http.URL req) = i +:+ ".service-now.com"
     /\ url.Path (http.URL req) = "/api/now/v2/table/incident/" +:+ a
     /\ url.RawQuery (http.URL req) = rest
     /\ url.Fragment (http.URL req) = ""
     /\ url.Path (http.URL req) <> "/api/now/v2/table/incident/" +:+ SysID inc)
  /\ (SysID inc = a +:+ String "#" rest ->
      without "%" rest = true ->
      exists req,
        sent (snd (UpdateIncident c inc)) = [req]
        /\ http.Method req = "PUT"
        /\ url.Host (http.URL req) = i +:+ ".service-now.com"
        /\ url.Path (http.URL req) = "/api/now/v2/table/incident/" +:+ a
        /\ url.RawQuery (http.URL req) = ""
        /\ url.Fragment (http.URL req) = rest
        /\ url.Path (http.URL req) <> "/api/now/v2/table/incident/" +:+ SysID inc).
Proof.
  intros Hc M Ha. split.
  - intros E Hq Hh. eexists. split; [exact (UpdateIncident_query i c inc body a rest Hc M Ha E Hq Hh)|].
    destruct (prepare_fields c (https_request_with "PUT" (instance_host i)
                (record_path "incident" a) rest "" (String.eqb rest "") (Some body)))
      as (Em & Eu & _).
    rewrite Em, Eu. repeat split.
    cbn [http.URL https_request_with https_URL_with url.Path]. unfold record_path.
    rewrite E. intros Q. apply (f_equal String.length) in Q.
    rewrite !string_length_app in Q. simpl in Q. lia.
  - intros E Hf. eexists. split; [exact (UpdateIncident_fragment i c inc body a rest Hc M Ha E Hf)|].
    destruct (prepare_fields c (https_request_with "PUT" (instance_host i)
                (record_path "incident" a) "" rest false (Some body)))
      as (Em & Eu & _).
    rewrite Em, Eu. repeat split.
    cbn [http.URL https_request_with https_URL_with url.Path]. unfold record_path.
    rewrite E. intros Q. apply (f_equal String.length) in Q.
    rewrite !string_length_app in Q. simpl in Q. lia.
Qed.

(** X19. [UpdateIncident] does not send an incident whose [SysID] holds a
    control byte (below 0x20, or 0x7f) and no [#]: on a client made for a
    host-name instance, when [json.Marshal] accepts the incident,
    [http.NewRequest] refuses the URL, [update] logs that the request could
    not be created, and [UpdateIncident] logs that the update failed and
    returns nil with the error of [url.Parse]; no request is sent. *)
Theorem SysID_with_control_byte_is_refused (i : string) (c : ServiceNowClient)
    (inc : Incident) (body : string) :
  client_of i c ->
  Marshal_Incident inc = Ok body ->
  url.stringContainsCTLByte (SysID inc) = true ->
  without "#" (SysID inc) = true ->
  exists err,
    err = url_Error "parse" (baseURL c +:+ "/api/now/v2/table/incident/" +:+ SysID inc)
            (errors_New "net/url: invalid control character in URL")
    /\ UpdateIncident c inc
       = ((None, Some err),
          [Log "info" "Update ServiceNow incident %s" [log_str (Number inc)];
           Log "error" "Error creating the request. %s" [log_err err];
           Log "error" "Error while updating the incident. %s" [log_err err]])
    /\ sent (snd (UpdateIncident c inc)) = [].
Proof.
  intros [Hi Hb] M C W. eexists. split; [reflexivity|].
  assert (N : http.NewRequest "PUT"
                (baseURL c +:+ "/api/now/v2/table/" +:+ "incident" +:+ "/" +:+ SysID inc)
                (Some body)
              = Err (url_Error "parse"
                       (baseURL c +:+ "/api/now/v2/table/incident/" +:+ SysID inc)
                       (errors_New "net/url: invalid control character in URL"))).
  { unfold http.NewRequest. cbn [String.eqb].
    change (negb (http.validMethod "PUT")) with false. cbv iota.
    replace (baseURL c +:+ "/api/now/v2/table/" +:+ "incident" +:+ "/" +:+ SysID inc)
      with (baseURL c +:+ "/api/now/v2/table/incident/" +:+ SysID inc)
      by reflexivity.
    rewrite Parse_control; [reflexivity| |].
    - assert (Wi : without "#" i = true).
      { generalize (hostname_path i Hi). apply all_without.
        intros d Hd. apply (path_byte_facts d Hd). }
      rewrite Hb, !without_app, W, Wi. reflexivity.
    - rewrite !stringContainsCTLByte_app, C. now rewrite !orb_true_r. }
  rewrite (UpdateIncident_refused c inc body _ M N). split; reflexivity.
Qed.

End record_addresses.

Lemma SysID_cut_witness :
  (exists req,
      sent (snd (UpdateIncident (H := example_library) (acme (mock_server 200 "{}"))
                   (set_SysID "9d38?sysparm_fields=number" example_incident))) = [req]
      /\ url.Path (http.URL req) = "/api/now/v2/table/incident/9d38"
      /\ url.RawQuery (http.URL req) = "sysparm_fields=number")
  /\ (exists req,
        sent (snd (UpdateIncident (H := example_library) (acme (mock_server 200 "{}"))
                     (set_SysID "9d38#c611" example_incident))) = [req]
        /\ url.Path (http.URL req) = "/api/now/v2/table/incident/9d38"
        /\ url.Fragment (http.URL req) = "c611").
Proof.
  split.
  - destruct (Marshal_Incident (H := example_library)
                (set_SysID "9d38?sysparm_fields=number" example_incident))
      as [body|e] eqn:M; [|vm_compute in M; discriminate].
    destruct (SysID_is_cut_at_its_first_mark (H := example_library) "acme"
                (acme (mock_server 200 "{}"))
                (set_SysID "9d38?sysparm_fields=number" example_incident)
                body "9d38" "sysparm_fields=number" (acme_client_of _) M eq_refl)
      as [A _].
    destruct (A eq_refl eq_refl eq_refl) as (req & S & _ & _ & P & Q & _).
    exists req. auto.
  - destruct (Marshal_Incident (H := example_library)
                (set_SysID "9d38#c611" example_incident))
      as [body|e] eqn:M; [|vm_compute in M; discriminate].
    destruct (SysID_is_cut_at_its_first_mark (H := example_library) "acme"
                (acme (mock_server 200 "{}"))
                (set_SysID "9d38#c611" example_incident)
                body "9d38" "c611" (acme_client_of _) M eq_refl)
      as [_ A].
    destruct (A eq_refl eq_refl) as (req & S & _ & _ & P & _ & F & _).
    exists req. auto.
Defined.

Lemma SysID_control_witness :
  fst (UpdateIncident (H := example_library) (acme (mock_server 200 "{}"))
         (set_SysID (String "009" "9d38") example_incident))
  = (None,
     Some (url_Error "parse"
             ("https://acme.service-now.com/api/now/v2/table/incident/" +:+ String "009" "9d38")
             (errors_New "net/url: invalid control character in URL")))
  /\ sent (snd (UpdateIncident (H := example_library) (acme (mock_server 200 "{}"))
                  (set_SysID (String "009" "9d38") example_incident))) = [].
Proof.
  destruct (Marshal_Incident (H := example_library)
              (set_SysID (String "009" "9d38") example_incident))
    as [body|e] eqn:M; [|vm_compute in M; discriminate].
  destruct (SysID_with_control_byte_is_refused (H := example_library) "acme"
              (acme (mock_server 200 "{}"))
              (set_SysID (String "009" "9d38") example_incident)
              body (acme_client_of _) M eq_refl eq_refl) as (err & -> & E & S).
  split; [rewrite E; reflexivity|exact S].
Defined.

(** * An instance name that makes no URL *)

Lemma break_at_prefix pre s c :
  without c pre = true ->
  strings.break_at (pre +:+ s) c
  = match strings.break_at s c with
    | Some (l, r) => Some (pre +:+ l, r)
    | None => None
    end.
Proof.
  induction pre as [|d pre IH]; intros W.
  - rewrite string_app_nil_l. destruct (strings.break_at s c) as [[l r]|]; reflexivity.
  - unfold without in W. cbn [strings.all] in W. apply andb_prop in W as [Hd W].
    apply negb_true_iff in Hd. rewrite string_app_cons. cbn [strings.break_at].
    rewrite Hd, (IH W). destruct (strings.break_at s c) as [[l r]|]; reflexivity.
Qed.

(** A URL that starts with [pre], where [pre] holds a control byte and no
    [#], is refused, whatever follows. *)
Lemma Parse_control_prefix pre s :
  without "#" pre = true ->
  url.stringContainsCTLByte pre = true ->
  exists u,
    url.Parse (pre +:+ s)
    = Err (url_Error "parse" u (errors_New "net/url: invalid control character in URL")).
Proof.
  intros W C. unfold url.Parse, url.split. rewrite (break_at_prefix pre s "#" W).
  destruct (strings.break_at s "#") as [[l r]|].
  - exists (pre +:+ l). unfold url.parse.
    rewrite stringContainsCTLByte_app, C. reflexivity.
  - exists (pre +:+ s). unfold url.parse.
    rewrite stringContainsCTLByte_app, C. reflexivity.
Qed.

Lemma NewRequest_control_prefix method pre s body :
  http.validMethod method = true ->
  without "#" pre = true ->
  url.stringContainsCTLByte pre = true ->
  exists u,
    http.NewRequest method (pre +:+ s) body
    = Err (url_Error "parse" u (errors_New "net/url: invalid control character in URL")).
Proof.
  intros V W C. destruct (Parse_control_prefix pre s W C) as [u P].
  exists u. unfold http.NewRequest.
  destruct (String.eqb_spec method "") as [->|_]; [discriminate V|].
  rewrite V, P. reflexivity.
Qed.

Section unusable_client.
Context `{GoLibrary}.

(** The outcome of an operation that stopped before sending. *)
Definition stopped {A} (op : io (go_pair A)) : Prop :=
  sent (snd op) = [] /\ reads (snd op) = 0%nat /\ closes (snd op) = 0%nat
  /\ exists e, fst op = (None, Some e).

Lemma unsent_stopped {A} c method body after (op : io (go_pair A)) :
  operation_facts c method body after op -> sent (snd op) = [] -> stopped op.
Proof.
  intros F S. destruct (op_unsent _ _ _ _ _ F S) as (R & C & E).
  repeat split; assumption.
Qed.

Lemma control_base_stops c :
  without "#" (baseURL c) = true ->
  url.stringContainsCTLByte (baseURL c) = true ->
  (forall inc, stopped (CreateIncident c inc))
  /\ (forall params,
        stopped (GetIncidents c params)
        /\ exists u,
             fst (GetIncidents c params)
             = (None, Some (url_Error "parse" u
                              (errors_New "net/url: invalid control character in URL"))))
  /\ (forall inc, stopped (UpdateIncident c inc)).
Proof.
  intros W C. split; [|split].
  - intros inc. destruct (CreateIncident_operation c inc) as [b F].
    apply (unsent_stopped _ _ _ _ _ F).
    destruct (CreateIncident_cases c inc) as [(e & M & E)|(body & m & M & Em & E)];
      rewrite E; [reflexivity|].
    cbn [snd]. rewrite sent_Log. subst m. rewrite decode_record_sent, create_eq.
    destruct (NewRequest_control_prefix "POST" (baseURL c) ("/api/now/v2/table/" +:+ "incident")
                (Some body) eq_refl W C) as [u ->].
    reflexivity.
  - intros params.
    destruct (NewRequest_control_prefix "GET" (baseURL c) ("/api/now/v2/table/" +:+ "incident")
                None eq_refl W C) as [u N].
    split.
    + apply (unsent_stopped _ _ _ _ _ (GetIncidents_facts c params)).
      rewrite GetIncidents_sent, get_eq, N. reflexivity.
    + exists u. rewrite GetIncidents_eq. cbv zeta. rewrite get_eq, N. reflexivity.
  - intros inc. destruct (UpdateIncident_operation c inc) as [b F].
    apply (unsent_stopped _ _ _ _ _ F).
    destruct (UpdateIncident_cases c inc) as [(e & M & E)|(body & m & M & Em & E)];
      rewrite E; [reflexivity|].
    cbn [snd]. rewrite sent_Log. subst m. rewrite decode_record_sent, update_eq.
    destruct (NewRequest_control_prefix "PUT" (baseURL c)
                ("/api/now/v2/table/" +:+ "incident" +:+ "/" +:+ SysID inc)
                (Some body) eq_refl W C) as [u ->].
    reflexivity.
Qed.

(** X20. [NewServiceNowClient] does not check the instance name beyond its
    being non-empty.  With an instance name that holds a control byte (a
    trailing newline, say) and no [#], and a user name and a password that
    are not empty, it returns a client and no error; every call of
    [CreateIncident], [GetIncidents] and [UpdateIncident] on this client
    then stops before sending: no request goes out, no body is read or
    closed, and the call returns nil with an error, which for
    [GetIncidents] is the error of [url.Parse] on a control character. *)
Theorem instance_name_is_not_checked (d : http.Client)
    (instanceName userName password : string) :
  url.stringContainsCTLByte instanceName = true ->
  without "#" instanceName = true ->
  userName <> "" -> password <> "" ->
  exists c,
    NewServiceNowClient d instanceName userName password = (Some c, None)
    /\ (forall inc, stopped (CreateIncident c inc))
    /\ (forall params,
          stopped (GetIncidents c params)
          /\ exists u,
               fst (GetIncidents c params)
               = (None, Some (url_Error "parse" u
                                (errors_New "net/url: invalid control character in URL"))))
    /\ (forall inc, stopped (UpdateIncident c inc)).
Proof.
  intros C W Hu Hp.
  assert (Hi : instanceName <> "") by (intros ->; discriminate C).
  eexists. split; [exact (NewServiceNowClient_succeeds d _ _ _ Hi Hu Hp)|].
  apply control_base_stops; cbn [baseURL].
  - rewrite !without_app, W. reflexivity.
  - rewrite !stringContainsCTLByte_app, C. now rewrite orb_true_r.
Qed.

End unusable_client.

Lemma instance_name_witness :
  exists c,
    NewServiceNowClient (mock_server 200 "{}") (String "a" (String "010" "")) "bob" "secret"
    = (Some c, None)
    /\ stopped (GetIncidents (H := example_library) c example_params).
Proof.
  destruct (instance_name_is_not_checked (H := example_library) (mock_server 200 "{}")
              (String "a" (String "010" "")) "bob" "secret" eq_refl eq_refl)
    as (c & N & _ & G & _); [discriminate|discriminate|].
  exists c. split; [exact N|apply G].
Defined.

(** * Members that do not fit their field *)

(** A decoder keeps an error that was saved before it ran. *)
Definition keeps {A} (m : json.decoder A) : Prop :=
  forall e0, match m (Some e0) with
             | Ok (_, saved) => saved = Some e0
             | Err _ => True
             end.

(** A decoder ends with an error, whatever was saved before. *)
Definition fails {A} (m : json.decoder A) : Prop :=
  forall saved, match m saved with
                | Ok (_, saved') => saved' <> None
                | Err _ => True
                end.

Lemma keeps_dret {A} (a : A) : keeps (json.dret a).
Proof. intros e0. reflexivity. Qed.

Lemma keeps_abort {A} e : keeps (json.abort (A := A) e).
Proof. intros e0. exact I. Qed.

Lemma keeps_saveError e : keeps (json.saveError e).
Proof. intros e0. reflexivity. Qed.

Lemma keeps_dbind {A B} (m : json.decoder A) (k : A -> json.decoder B) :
  keeps m -> (forall a, keeps (k a)) -> keeps (json.dbind m k).
Proof.
  intros Hm Hk e0. unfold json.dbind. specialize (Hm e0).
  destruct (m (Some e0)) as [[a saved]|e]; [|exact I]. subst saved. apply Hk.
Qed.

Lemma fails_dbind_l {A B} (m : json.decoder A) (k : A -> json.decoder B) :
  fails m -> (forall a, keeps (k a)) -> fails (json.dbind m k).
Proof.
  intros Hm Hk saved. unfold json.dbind. specialize (Hm saved).
  destruct (m saved) as [[a [e0|]]|e]; [|contradiction|exact I].
  specialize (Hk a e0). destruct (k a (Some e0)) as [[b saved']|e]; [|exact I].
  subst saved'. discriminate.
Qed.

Lemma fails_dbind_r {A B} (m : json.decoder A) (k : A -> json.decoder B) :
  (forall a, fails (k a)) -> fails (json.dbind m k).
Proof.
  intros Hk saved. unfold json.dbind.
  destruct (m saved) as [[a saved']|e]; [apply Hk|exact I].
Qed.

Lemma fails_saveError e : fails (json.saveError e).
Proof. intros [e0|]; discriminate. Qed.

Section misfits.
Context `{GoLibrary}.

Lemma keeps_valueInterface : forall v, keeps (json.valueInterface v).
Proof.
  fix IH 1. intros v. destruct v as [|b|lit|str|elems|members]; cbn [json.valueInterface].
  - apply keeps_dret.
  - apply keeps_dret.
  - destruct (ParseFloat lit); [apply keeps_dret|].
    apply keeps_dbind; [apply keeps_saveError|intros; apply keeps_dret].
  - apply keeps_dret.
  - match goal with |- context [json.dbind (?f elems) _] => set (each := f) end.
    apply keeps_dbind; [|intros; apply keeps_dret].
    induction elems as [|e rest IHrest]; [apply keeps_dret|].
    change (each (e :: rest))
      with (json.dbind (json.valueInterface e) (fun x =>
            json.dbind (each rest) (fun xs => json.dret (x :: xs)))).
    apply keeps_dbind; [apply IH|]. intros x.
    apply keeps_dbind; [exact IHrest|intros; apply keeps_dret].
  - match goal with |- context [json.dbind (?f members []) _] => set (each := f) end.
    apply keeps_dbind; [|intros; apply keeps_dret].
    generalize (@nil (string * json.any)).
    induction members as [|[k e] rest IHrest]; intros m; [apply keeps_dret|].
    change (each ((k, e) :: rest) m)
      with (json.dbind (json.valueInterface e) (fun x => each rest (json.map_set m k x))).
    apply keeps_dbind; [apply IH|]. intros x. apply IHrest.
Qed.

Lemma keeps_store_string v cur : keeps (json.store_string v cur).
Proof.
  destruct v; cbn [json.store_string]; try apply keeps_dret;
    (apply keeps_dbind; [apply keeps_saveError|intros; apply keeps_dret]).
Qed.

Lemma keeps_store_Number v cur : keeps (json.store_Number v cur).
Proof.
  destruct v; cbn [json.store_Number]; try apply keeps_dret;
    try (apply keeps_dbind; [apply keeps_saveError|intros; apply keeps_dret]).
  destruct (strictNumber && negb (json.isValidNumber s)); [apply keeps_abort|apply keeps_dret].
Qed.

Lemma keeps_store_interface v cur : keeps (json.store_interface v cur).
Proof.
  destruct v; cbn [json.store_interface]; try apply keeps_valueInterface.
  destruct (ParseFloat lit); [apply keeps_dret|].
  apply keeps_dbind; [apply keeps_saveError|intros; apply keeps_dret].
Qed.

Lemma keeps_decode_member inc key v : keeps (decode_member inc key v).
Proof.
  unfold decode_member.
  destruct (json.find_field Incident_names key) as [n|]; [|apply keeps_dret].
  do 13 (destruct n as [|n];
         [apply keeps_dbind;
          [first [apply keeps_store_string|apply keeps_store_Number|apply keeps_store_interface]
          |intros; apply keeps_dret]|]).
  apply keeps_dret.
Qed.

Lemma keeps_decode_members members : forall inc, keeps (decode_members inc members).
Proof.
  induction members as [|[key v] rest IH]; intros inc; cbn [decode_members];
    [apply keeps_dret|].
  apply keeps_dbind; [apply keeps_decode_member|exact IH].
Qed.

Lemma keeps_decode_Incident v cur : keeps (decode_Incident v cur).
Proof.
  destruct v; cbn [decode_Incident]; try apply keeps_dret; try apply keeps_decode_members;
    (apply keeps_dbind; [apply keeps_saveError|intros; apply keeps_dret]).
Qed.

Lemma keeps_decode_elems elems : forall cur, keeps (decode_elems elems cur).
Proof.
  induction elems as [|e rest IH]; intros cur; cbn [decode_elems]; [apply keeps_dret|].
  apply keeps_dbind; [apply keeps_decode_Incident|]. intros x.
  apply keeps_dbind; [apply IH|intros; apply keeps_dret].
Qed.

(** The value of a member does not fit the field that its key selects: a
    field of type [string] takes a string or [null], a field of type
    [json.Number] a number, a string or [null]. *)
Definition misfit (kv : string * json.value) : bool :=
  match json.find_field Incident_names (fst kv) with
  | Some 1%nat | Some 3%nat | Some 4%nat | Some 5%nat | Some 7%nat | Some 8%nat
  | Some 9%nat | Some 11%nat => negb (string_or_null (snd kv))
  | Some 6%nat | Some 10%nat | Some 12%nat =>
      match snd kv with
      | json.JBool _ | json.JArray _ | json.JObject _ => true
      | _ => false
      end
  | _ => false
  end.

Lemma fails_store_string v cur :
  string_or_null v = false -> fails (json.store_string v cur).
Proof.
  destruct v; try discriminate; intros _; cbn [json.store_string];
    (apply fails_dbind_l; [apply fails_saveError|intros; apply keeps_dret]).
Qed.

Lemma fails_store_Number v cur :
  match v with json.JBool _ | json.JArray _ | json.JObject _ => true | _ => false end = true ->
  fails (json.store_Number v cur).
Proof.
  destruct v; try discriminate; intros _; cbn [json.store_Number];
    (apply fails_dbind_l; [apply fails_saveError|intros; apply keeps_dret]).
Qed.

Lemma fails_decode_member inc key v :
  misfit (key, v) = true -> fails (decode_member inc key v).
Proof.
  unfold misfit, decode_member. cbn [fst snd].
  destruct (json.find_field Incident_names key) as [n|]; [|discriminate].
  do 13 (destruct n as [|n];
         [first [discriminate
                |intros F; apply fails_dbind_l;
                 [first [apply fails_store_string; now apply negb_true_iff
                        |apply fails_store_Number; exact F]
                 |intros; apply keeps_dret]]|]).
  discriminate.
Qed.

Lemma fails_decode_members members :
  existsb misfit members = true -> forall inc, fails (decode_members inc members).
Proof.
  induction members as [|[key v] rest IH]; [discriminate|].
  cbn [existsb]. intros E inc. cbn [decode_members].
  destruct (misfit (key, v)) eqn:F.
  - apply fails_dbind_l; [now apply fails_decode_member|apply keeps_decode_members].
  - apply fails_dbind_r. apply IH. exact E.
Qed.

Lemma fails_decode_elems elems members :
  json.JObject members ∈ elems ->
  existsb misfit members = true ->
  forall cur, fails (decode_elems elems cur).
Proof.
  intros In E. induction elems as [|e rest IH]; [now apply elem_of_nil in In|].
  intros cur. cbn [decode_elems]. apply elem_of_cons in In as [<-|In].
  - apply fails_dbind_l; [cbn [decode_Incident]; now apply fails_decode_members|].
    intros x. apply keeps_dbind; [apply keeps_decode_elems|intros; apply keeps_dret].
  - apply fails_dbind_r. intros x.
    apply fails_dbind_l; [apply (IH In)|intros; apply keeps_dret].
Qed.

Lemma Unmarshal_fails {A} (decode : json.value -> A -> json.decoder A) data v target :
  json.parse data = Some v ->
  fails (decode v target) ->
  exists e, Unmarshal decode data target = Err e.
Proof.
  intros P F. unfold Unmarshal. rewrite P. specialize (F None).
  destruct (decode v target None) as [[a [e|]]|e]; [eauto|contradiction|eauto].
Qed.

Lemma record_of_misfit data members :
  json.parse data = Some (json.JObject [("result", json.JObject members)]) ->
  existsb misfit members = true ->
  exists e, record_of data = (None, Some e).
Proof.
  intros P E. unfold record_of, Unmarshal_IncidentResponse. cbn [Result].
  destruct (Unmarshal_fails (decode_envelope "main.IncidentResponse" decode_Incident)
              data _ Incident_zero P) as [e ->]; [|cbn [result_bind]; eauto].
  cbn [decode_envelope decode_result_members].
  replace (json.find_field ["result"] "result") with (Some 0%nat)
    by (vm_compute; reflexivity).
  apply fails_dbind_l; [cbn [decode_Incident]; now apply fails_decode_members|].
  intros; apply keeps_dret.
Qed.

Lemma list_of_misfit data elems members :
  json.parse data = Some (json.JObject [("result", json.JArray elems)]) ->
  json.JObject members ∈ elems ->
  existsb misfit members = true ->
  exists e, list_of data = (None, Some e).
Proof.
  intros P In E. unfold list_of, Unmarshal_IncidentsResponse. cbn [Results].
  destruct (Unmarshal_fails (decode_envelope "main.IncidentsResponse" decode_Incidents)
              data _ None P) as [e ->]; [|cbn [result_bind]; eauto].
  cbn [decode_envelope decode_result_members].
  replace (json.find_field ["result"] "result") with (Some 0%nat)
    by (vm_compute; reflexivity).
  apply fails_dbind_l; [|intros; apply keeps_dret].
  cbn [decode_Incidents].
  apply fails_dbind_l; [now apply (fails_decode_elems elems members)|intros; apply keeps_dret].
Qed.

(** X21. One member that does not fit loses the whole answer.  When the
    body read is JSON and, in the record under [result], some member whose
    key selects a field of type [string] has a value that is neither a
    string nor [null], or one whose key selects [impact], [state] or
    [urgency] has a boolean, an array or an object as value, then
    [CreateIncident] and [UpdateIncident] return nil and an error; and when
    one record of the array under [result] has such a member,
    [GetIncidents] returns nil and an error: none of the other records is
    returned either. *)
Theorem misfit_member_fails_the_call (c : ServiceNowClient) (req : http.Request)
    (resp : http.Response) :
  http.Do (client c) req = Ok resp ->
  http.StatusCode resp < 400 ->
  http.read_error (http.ResponseBody resp) = None ->
  (forall members,
      json.parse (http.data (http.ResponseBody resp))
      = Some (json.JObject [("result", json.JObject members)]) ->
      existsb misfit members = true ->
      (forall inc, req ∈ sent (snd (CreateIncident c inc)) ->
                   exists e, fst (CreateIncident c inc) = (None, Some e))
      /\ (forall inc, req ∈ sent (snd (UpdateIncident c inc)) ->
                      exists e, fst (UpdateIncident c inc) = (None, Some e)))
  /\ (forall elems members,
        json.parse (http.data (http.ResponseBody resp))
        = Some (json.JObject [("result", json.JArray elems)]) ->
        json.JObject members ∈ elems ->
        existsb misfit members = true ->
        forall params, req ∈ sent (snd (GetIncidents c params)) ->
                       exists e, fst (GetIncidents c params) = (None, Some e)).
Proof.
  intros D St R. split.
  - intros members P E. split; intros inc S.
    + rewrite (CreateIncident_answered c inc req resp S D St R).
      exact (record_of_misfit _ members P E).
    + rewrite (UpdateIncident_answered c inc req resp S D St R).
      exact (record_of_misfit _ members P E).
  - intros elems members P In E params S.
    rewrite (GetIncidents_answered c params req resp S D St R).
    exact (list_of_misfit _ elems members P In E).
Qed.

End misfits.

Lemma misfit_member_witness :
  exists e,
    fst (GetIncidents (H := example_library)
           (acme (mock_server 200 (dq "{'result':[{'number':'INC0002'},{'number':42}]}")))
           example_params)
    = (None, Some e).
Proof.
  pose (body := dq "{'result':[{'number':'INC0002'},{'number':42}]}").
  pose (c := acme (mock_server 200 body)).
  destruct (get_sends "acme" c "incident" example_params (acme_client_of _) eq_refl)
    as (req & S & _).
  destruct (misfit_member_fails_the_call (H := example_library) c req
              {| http.StatusCode := 200;
                 http.ResponseBody := {| http.data := body; http.read_error := None |} |}
              eq_refl ltac:(cbn; lia) eq_refl) as [_ A].
  apply (A [json.JObject [("number", json.JString "INC0002")];
            json.JObject [("number", json.JNumber "42")]]
           [("number", json.JNumber "42")]).
  - vm_compute. reflexivity.
  - apply list_elem_of_further, list_elem_of_here.
  - reflexivity.
  - rewrite GetIncidents_sent, S. apply list_elem_of_here.
Defined.

(** The error in this case: the number that was met where a string is
    expected. *)
Example misfit_error :
  fst (GetIncidents (H := example_library)
         (acme (mock_server 200 (dq "{'result':[{'number':'INC0002'},{'number':42}]}")))
         example_params)
  = (None, Some (json_UnmarshalTypeError "number" "string")).
Proof. vm_compute. reflexivity. Qed.

(** * Link objects *)

(** The order in which [Marshal] writes the entries of a map. *)
Definition key_le {V} : relation (string * V) := fun a b => url.string_le (fst a) (fst b).

#[global] Instance key_le_trans {V} : Transitive (@key_le V).
Proof. intros a b c. unfold key_le. apply string_le_trans. Qed.

#[global] Instance key_le_total {V} : Total (@key_le V).
Proof. intros a b. unfold key_le. apply string_le_total. Qed.

Lemma NoDup_keys_value {V} (l : list (string * V)) k v1 v2 :
  NoDup l.*1 -> (k, v1) ∈ l -> (k, v2) ∈ l -> v1 = v2.
Proof.
  induction l as [|[k' v'] l IH]; intros N H1 H2; [now apply elem_of_nil in H1|].
  cbn [fmap list_fmap fst] in N. apply NoDup_cons in N as [Nk N].
  apply elem_of_cons in H1 as [E1|H1], H2 as [E2|H2].
  - congruence.
  - injection E1 as -> ->. destruct Nk. apply list_elem_of_fmap. now exists (k', v2).
  - injection E2 as -> ->. destruct Nk. apply list_elem_of_fmap. now exists (k', v1).
  - now apply IH.
Qed.

(** Entries with different keys have one order only. *)
Lemma sorted_by_key_unique {V} (l1 l2 : list (string * V)) :
  NoDup l1.*1 ->
  StronglySorted key_le l1 -> StronglySorted key_le l2 -> l1 ≡ₚ l2 -> l1 = l2.
Proof.
  intros N S1 S2 P. apply (StronglySorted_unique_strong key_le); try assumption.
  intros [k1 v1] [k2 v2] H1 H2 L1 L2. unfold key_le, url.string_le in L1, L2.
  cbn [fst] in L1, L2. pose proof (String.leb_antisym k1 k2 L1 L2) as ->.
  f_equal. rewrite <- P in H2. exact (NoDup_keys_value l1 k2 v1 v2 N H1 H2).
Qed.

Section link_objects.
Context `{GoLibrary}.

(** The values of the members of a link: text, a boolean or [null]. *)
Definition simple (v : json.value) : bool :=
  match v with
  | json.JNull | json.JBool _ | json.JString _ => true
  | _ => false
  end.

(** The Go value that the decoder makes of one. *)
Definition simple_any (v : json.value) : json.any :=
  match v with
  | json.JBool b => json.of_bool b
  | json.JString s => json.of_string s
  | _ => json.any_nil
  end.

(** The map that the decoder builds for the members of an object. *)
Definition link_map (members : list (string * json.value)) : json.any :=
  json.of_map (rev (prod_map id simple_any <$> members)).

Lemma valueInterface_simple v saved :
  simple v = true -> json.valueInterface v saved = Ok (simple_any v, saved).
Proof. destruct v; try discriminate; reflexivity. Qed.

Lemma encode_simple v : simple v = true -> json.encode_any (simple_any v) = Ok v.
Proof. destruct v; try discriminate; reflexivity. Qed.

Lemma map_set_fresh (m : list (string * json.any)) key x :
  key ∉ m.*1 -> json.map_set m key x = (key, x) :: m.
Proof.
  intros F. unfold json.map_set. f_equal.
  induction m as [|[k a] m IH]; [reflexivity|].
  cbn [fmap list_fmap fst] in F. apply not_elem_of_cons in F as [Fk F].
  cbn [List.filter fst]. destruct (String.eqb_spec k key) as [->|_]; [contradiction|].
  cbn [negb]. now rewrite (IH F).
Qed.

Lemma valueInterface_link members saved :
  forallb (fun kv => simple (snd kv)) members = true ->
  NoDup members.*1 ->
  json.valueInterface (json.JObject members) saved = Ok (link_map members, saved).
Proof.
  intros S N. cbn [json.valueInterface].
  match goal with |- context [json.dbind (?f members []) _] => set (each := f) end.
  enough (E : forall m, (forall k, k ∈ members.*1 -> k ∉ m.*1) ->
                        each members m saved
                        = Ok ((rev (prod_map id simple_any <$> members) ++ m)%list, saved)).
  { unfold json.dbind. rewrite (E []) by (intros k _; apply not_elem_of_nil).
    rewrite app_nil_r. reflexivity. }
  revert S N. induction members as [|[k e] rest IH]; intros S N m D; [reflexivity|].
  cbn [forallb snd] in S. apply andb_prop in S as [Se S].
  cbn [fmap list_fmap fst] in N, D. apply NoDup_cons in N as [Nk N].
  change (each ((k, e) :: rest) m)
    with (json.dbind (json.valueInterface e) (fun x => each rest (json.map_set m k x))).
  unfold json.dbind. rewrite (valueInterface_simple e saved Se).
  rewrite map_set_fresh by (apply D; left).
  rewrite (IH S N).
  - cbn [fmap list_fmap rev prod_map fst snd id]. now rewrite <- app_assoc.
  - intros k' Hk'. cbn [fmap list_fmap fst]. apply not_elem_of_cons. split.
    + intros ->. contradiction.
    + apply D. now right.
Qed.

Lemma encode_link_entries members :
  forallb (fun kv => simple (snd kv)) members = true ->
  (fix each (l : list (string * json.any)) : result (list (string * json.value)) :=
     match l with
     | [] => Ok []
     | (k, e) :: l' => v <-? json.encode_any e; ms <-? each l'; Ok ((k, v) :: ms)
     end) (prod_map id simple_any <$> members) = Ok members.
Proof.
  induction members as [|[k e] rest IH]; intros S; [reflexivity|].
  cbn [forallb snd] in S. apply andb_prop in S as [Se S].
  cbn [fmap list_fmap prod_map fst snd id]. rewrite (encode_simple e Se).
  cbn [result_bind]. rewrite (IH S). reflexivity.
Qed.

Lemma fmap_rev {A B} (f : A -> B) (l : list A) : f <$> rev l = rev (f <$> l).
Proof.
  induction l as [|a l IH]; [reflexivity|].
  cbn [rev fmap list_fmap]. rewrite fmap_app, IH. reflexivity.
Qed.

Lemma forallb_rev {A} (p : A -> bool) l : forallb p (rev l) = forallb p l.
Proof.
  induction l as [|a l IH]; [reflexivity|].
  cbn [rev forallb]. rewrite forallb_app, IH. cbn [forallb]. rewrite andb_true_r.
  apply andb_comm.
Qed.

Lemma encode_link members :
  forallb (fun kv => simple (snd kv)) members = true ->
  json.encode_any (link_map members) = Ok (json.JObject (merge_sort key_le (rev members))).
Proof.
  intros S. unfold link_map. cbn [json.encode_any].
  rewrite <- fmap_rev, (encode_link_entries (rev members)) by (now rewrite forallb_rev).
  reflexivity.
Qed.

(** X22. A link object is written back as it was read.  When the value of
    [assignment_group] or [caller_id] in a record is an object whose keys
    differ from one another and whose values are strings, booleans or
    [null] (the [link] and [value] of ServiceNow), the decoder stores it
    without error, and [json.Marshal] writes for the stored value an object
    with the same members, sorted by key: the very object that was read
    when its keys came in ascending order.  It is written even when it has
    no member, [omitempty] or not. *)
Theorem link_object_is_written_back (members : list (string * json.value))
    (cur : Incident) (saved : option error) :
  forallb (fun kv => simple (snd kv)) members = true ->
  NoDup members.*1 ->
  exists (a : LinkedValue) (written : list (string * json.value)),
    decode_member cur "assignment_group" (json.JObject members) saved
    = Ok (set_AssignmentGroup a cur, saved)
    /\ decode_member cur "caller_id" (json.JObject members) saved
       = Ok (set_CallerID a cur, saved)
    /\ json.member "assignment_group" false (json.isEmpty_interface a) (json.encode_any a)
       = Ok [("assignment_group", json.JObject written)]
    /\ json.member "caller_id" true (json.isEmpty_interface a) (json.encode_any a)
       = Ok [("caller_id", json.JObject written)]
    /\ written ≡ₚ members
    /\ StronglySorted url.string_le written.*1
    /\ (StronglySorted url.string_le members.*1 -> written = members).
Proof.
  intros S N. exists (link_map members), (merge_sort key_le (rev members)).
  assert (P : merge_sort key_le (rev members) ≡ₚ members).
  { rewrite merge_sort_Permutation. symmetry. apply Permutation_rev. }
  assert (Sorted : StronglySorted key_le (merge_sort key_le (rev members))).
  { apply (StronglySorted_merge_sort _). }
  split; [|split; [|split; [|split; [|split; [|split]]]]].
  - unfold decode_member.
    replace (json.find_field Incident_names "assignment_group") with (Some 0%nat)
      by (vm_compute; reflexivity).
    unfold json.dbind. cbn [json.store_interface].
    now rewrite (valueInterface_link members saved S N).
  - unfold decode_member.
    replace (json.find_field Incident_names "caller_id") with (Some 2%nat)
      by (vm_compute; reflexivity).
    unfold json.dbind. cbn [json.store_interface].
    now rewrite (valueInterface_link members saved S N).
  - unfold json.member. rewrite (encode_link members S). reflexivity.
  - unfold json.member. rewrite (encode_link members S). reflexivity.
  - exact P.
  - clear -Sorted. induction Sorted as [|x l _ IH Hx]; [constructor|].
    cbn [fmap list_fmap]. constructor; [exact IH|].
    apply Forall_fmap. exact Hx.
  - intros Sm. apply sorted_by_key_unique; [| exact Sorted | | exact P].
    + now rewrite P.
    + clear -Sm. induction members as [|x l IH]; [constructor|].
      cbn [fmap list_fmap] in Sm. apply StronglySorted_inv in Sm as [Sl Hx].
      constructor; [exact (IH Sl)|].
      apply (Forall_fmap fst (url.string_le (fst x))). exact Hx.
Qed.

End link_objects.

(** The link of an assignment group as ServiceNow sends it. *)
Definition example_link : list (string * json.value) :=
  [("link", json.JString "https://acme.service-now.com/api/now/v2/table/sys_user_group/287e");
   ("value", json.JString "287e")].

Lemma link_object_witness :
  exists a : LinkedValue (H := example_library),
    decode_member (H := example_library) Incident_zero "assignment_group"
      (json.JObject example_link) None
    = Ok (set_AssignmentGroup a Incident_zero, None)
    /\ json.member "assignment_group" false (json.isEmpty_interface a) (json.encode_any a)
       = Ok [("assignment_group", json.JObject example_link)].
Proof.
  destruct (link_object_is_written_back (H := example_library) example_link Incident_zero None
              eq_refl ltac:(apply (bool_decide_unpack _); reflexivity))
    as (a & written & D & _ & E & _ & _ & _ & U).
  exists a. split; [exact D|].
  rewrite E, U; [reflexivity|].
  repeat constructor.
Defined.

(** * The claims on the fields of an incident, as amended *)

(** ** Which members are written *)



Section omitempty.
Context `{GoLibrary}.




End omitempty.


(** ** The bytes of a number literal *)












(** ** The numeric-as-text fields on the wire *)











Section numbers.
Context `{GoLibrary}.
















End numbers.

Section numeric_as_text.
Context `{GoLibrary}.


End numeric_as_text.


(** ** All or nothing, as amended *)

Section all_or_nothing.
Context `{GoLibrary}.

(** C6, as amended. Each of [CreateIncident], [GetIncidents] and
    [UpdateIncident] returns either an error with a nil output, or no error
    with the record (the sequence) that [json.Unmarshal] decoded from the
    body of a response that was sent for, had a status below 400 and was
    read to its end: a pointer to that record for [CreateIncident] and
    [UpdateIncident], that sequence for [GetIncidents].  No call returns an
    output together with an error.  The output that comes without an error
    need not be populated: when the body that was read is [null], or an
    object in which no member is named [result] or every such member is
    [null], the record is a zero [Incident] and the sequence is nil. *)
Theorem C6_output_or_error (c : ServiceNowClient) :
  (forall inc,
      (exists e, fst (CreateIncident c inc) = (None, Some e))
      \/ (exists req resp ir,
            sent (snd (CreateIncident c inc)) = [req]
            /\ http.Do (client c) req = Ok resp
            /\ http.StatusCode resp < 400
            /\ http.read_error (http.ResponseBody resp) = None
            /\ Unmarshal_IncidentResponse (http.data (http.ResponseBody resp))
                 {| Result := Incident_zero |} = Ok ir
            /\ fst (CreateIncident c inc) = (Some (Result ir), None)))
  /\ (forall params,
        (exists e, fst (GetIncidents c params) = (None, Some e))
        \/ (exists req resp ir,
              sent (snd (GetIncidents c params)) = [req]
              /\ http.Do (client c) req = Ok resp
              /\ http.StatusCode resp < 400
              /\ http.read_error (http.ResponseBody resp) = None
              /\ Unmarshal_IncidentsResponse (http.data (http.ResponseBody resp))
                   {| Results := None |} = Ok ir
              /\ fst (GetIncidents c params) = (Results ir, None)))
  /\ (forall inc,
        (exists e, fst (UpdateIncident c inc) = (None, Some e))
        \/ (exists req resp ir,
              sent (snd (UpdateIncident c inc)) = [req]
              /\ http.Do (client c) req = Ok resp
              /\ http.StatusCode resp < 400
              /\ http.read_error (http.ResponseBody resp) = None
              /\ Unmarshal_IncidentResponse (http.data (http.ResponseBody resp))
                   {| Result := Incident_zero |} = Ok ir
              /\ fst (UpdateIncident c inc) = (Some (Result ir), None)))
  /\ (forall (req : http.Request) (resp : http.Response) (v : json.value),
        http.Do (client c) req = Ok resp ->
        http.StatusCode resp < 400 ->
        http.read_error (http.ResponseBody resp) = None ->
        json.parse (http.data (http.ResponseBody resp)) = Some v ->
        no_result v = true ->
        (forall inc, req ∈ sent (snd (CreateIncident c inc)) ->
                     fst (CreateIncident c inc) = (Some Incident_zero, None))
        /\ (forall inc, req ∈ sent (snd (UpdateIncident c inc)) ->
                        fst (UpdateIncident c inc) = (Some Incident_zero, None))
        /\ (forall params, req ∈ sent (snd (GetIncidents c params)) ->
                           fst (GetIncidents c params) = (None, None))).
Proof.
  split; [|split; [|split]].
  - intros inc.
    destruct (CreateIncident_cases c inc) as [(e & M & E)|(body & m & M & Em & E)];
      rewrite E; cbn [fst snd]; [left; eauto|].
    rewrite sent_Log. subst m. apply decode_record_outcome, create_call.
  - intros params.
    destruct (GetIncidents_cases c params) as (m & Em & E).
    rewrite E; cbn [fst snd]. rewrite sent_Log. subst m.
    apply decode_list_outcome, get_call.
  - intros inc.
    destruct (UpdateIncident_cases c inc) as [(e & M & E)|(body & m & M & Em & E)];
      rewrite E; cbn [fst snd]; [left; eauto|].
    rewrite sent_Log. subst m. apply decode_record_outcome, update_call.
  - intros req resp v D St R P N.
    destruct (Unmarshal_no_result _ v P N) as [U1 U2].
    split; [|split].
    + intros inc S. rewrite (CreateIncident_answered c inc req resp S D St R).
      unfold record_of. now rewrite U1.
    + intros inc S. rewrite (UpdateIncident_answered c inc req resp S D St R).
      unfold record_of. now rewrite U1.
    + intros params S. rewrite (GetIncidents_answered c params req resp S D St R).
      unfold list_of. now rewrite U2.
Qed.

End all_or_nothing.

Lemma C6_witness :
  (exists e,
      fst (CreateIncident (H := example_library) (acme (mock_server 500 "{}")) example_incident)
      = (None, Some e))
  /\ fst (GetIncidents (H := example_library)
            (acme (mock_server 200 (dq "{'status':'ok'}"))) example_params)
     = (None, None).
Proof.
  split.
  - destruct (C6_output_or_error (H := example_library) (acme (mock_server 500 "{}")))
      as (A & _).
    destruct (A example_incident) as [E|(req & resp & ir & _ & D & St & _)]; [exact E|].
    injection D as <-. cbn in St. lia.
  - pose (c := acme (mock_server 200 (dq "{'status':'ok'}"))).
    destruct (C6_output_or_error (H := example_library) c) as (_ & _ & _ & A).
    destruct (get_sends "acme" c "incident" example_params (acme_client_of _) eq_refl)
      as (req & S & _).
    refine (proj2 (proj2 (A req
                            {| http.StatusCode := 200;
                               http.ResponseBody := {| http.data := dq "{'status':'ok'}";
                                                       http.read_error := None |} |}
                            (json.JObject [("status", json.JString "ok")])
                            eq_refl _ eq_refl _ eq_refl)) example_params _).
    + cbn. lia.
    + vm_compute. reflexivity.
    + rewrite GetIncidents_sent, S. apply list_elem_of_here.
Defined.
